(* ===== verification/_CoqProject ===== *)
-Q . S2P
Prelude.v
JsString.v
Model.v
Refresh.v
Pattern.v
Names.v
Classifier.v
Resolver.v
Query.v
Server.v
Board.v
Scenarios.v
Progress.v
Store.v
Late.v
Shape.v
Client.v
System.v
