(* ===== verification/Prelude.v ===== *)
(** * mel-metro-pid: a verification development

    The program is a passenger information display for one railway station.
    A Node server ([src/app.js]) keeps, for every platform, the queue of
    upcoming departures, enriches the next few of them with destination,
    stopping pattern and a subtitle, and serves them to browser clients
    ([src/static/assets/js/pid.js]) over HTTP and a WebSocket.

    ** The parts of the program and the files that model them

    - [Prelude] (this file): the effects of the JavaScript the model keeps.
      A rejected promise or a thrown [TypeError] is a value of [result];
      code that mutates an object and may throw half way is a computation of
      [Eff], a state-and-error monad in which the state written before a
      throw survives it, as it does in JavaScript.  Also the array accesses
      the components share ([scan_back], the [while (idx >= 0)] loop of
      [fetchDepartureDetails]; [index_Z], [a[i]] for an integer [i] that may
      be negative), the development's tactics and its hint databases.
    - [JsString]: the string methods and the regular-expression replaces of
      [app.js] as executable functions on [string]: [strip_locality]
      ([/-.*$/gm]), [replace_all] ([/ Station/gm]), [replace_line_start]
      ([/^North /gm] and its four siblings), [trim], [capitalize]
      ([charAt(0).toUpperCase() + slice(1)]) and [parseInt].
    - [Model]: the data.  [Stop] and [Departure] are the objects the server
      builds ([Departure]'s [stations], [dest] and [subtitle] are [option]s:
      the properties do not exist until the enrichment assigns them);
      [StationValue] is the value of [STATION], a number or a string of
      digits; [PatternResponse], [Run], [Interchange], [Distributor] are the
      timetable API's answers as the code reads them.  A lookup [obj[key]] of
      a missing key is [None]; reading a property of it is the [TypeError]
      of [result].  The class [Upstream] is the interface through which the
      engine asks for a pattern ([axios.get] of [/pattern/run/...]).
    - [Pattern]: [fetchPattern], the walk over a stopping pattern
      ([walk_pattern], the [for] loop with [startSaving] and [note]) that
      keeps the part from the home station on and tags served and skipped
      stops; its specification [expand_all] over [from_home].
    - [Names]: [isCBDStation], [cbdStation], [shortenName] and the display
      rule [if (dep.dest.length > 14) dep.dest = shortenName(dep.dest)].
    - [Classifier]: the loop of [fetchDepartureDetails] that counts skipped
      legs ([count_skip], [count_skips]), the [if] chain that picks the words
      ([pattern_subtitle]) and the assignments that append the note, trim
      and capitalise ([subtitle_of]).
    - [Resolver]: [fetchDepartureDetails], written in [Eff Departure] over the
      departure object the code mutates and cut at its second [await]:
      [details_begin] runs from the first answer to the second request or to
      the end, [details_resume] from the second answer to the end, and
      [fetchDepartureDetails] composes them over [Upstream].  The steps are
      [wants_extension] and [run_distributor] (the guards of the extension),
      [splice] (the loop over [nextStations]), [city_loop_correction] (the
      cut at the last Flinders Street and the City Loop label) and
      [details_finish].  The specification is [enrich], a pure function from
      the service's [type], [run] and [colour] to an [Outcome]: [Untouched],
      [StationsOnly], [HalfDone] or [Complete], each with the fields it
      leaves assigned ([apply_outcome]).
    - [Query]: the three read endpoints [/departures/:plat]
      ([get_window]), [/departures/:plat/after/:run] ([get_after]) and
      [/departures/:plat/:idx] ([get_index]) over a board
      [gmap string (list (option Departure))], an array element being
      [None] where the array has a hole; an answer is a [Reply] (200 with a
      body, or 404) or the [TypeError] Express turns into a 500.
    - [Refresh]: the two loops of [fetchDepartures] up to its requests:
      [set_colours] (the loop over [resp.data.routes] that fills
      [routeColours]) and [bucket] (the loop over [resp.data.departures]
      that drops departures more than a minute past and pushes a
      [depData] object on its platform's array).
    - [Server]: the server as a state machine.  A state ([Server]) holds
      what the closures of [main] share: the store of departure objects
      ([objects], a reference is an index), the store of the platform arrays
      of installed boards ([arrays]), the variable [departures] (platform to
      array reference), [routeColours], the WebSocket clients with what each
      has been sent, the enrichments in flight ([tasks], a [Task] is a call
      of [fetchDepartureDetails] suspended at one of its two [await]s
      together with its [.then] callback) and the [Promise.all]s awaited
      ([batches]: [Installing n deps] for [fetchDepartures], whose arrays
      [deps] are local to the call until [departures = deps];
      [Announcing results] for the minute job).  An [Event] is one turn of
      the event loop and [handle] what the turn does: [Connect]
      ([app.ws]), [Daily] (the 00:05 job up to the first [await] of
      [fetchDepartures]), [Minute] ([tick], the minute job up to its
      [Promise.all]), [DeparturesAnswer] ([on_departures]: [fetchDepartures]
      from the answer to [await Promise.all(promises)]) and [PatternAnswer]
      ([on_pattern]: [fetchDepartureDetails] from one [await] to the next or
      to its end, then its callback [store_result], then the callback of its
      [Promise.all] if it was the last: [install] or [announce]).
      [reachable] is the set of states from [boot], the state in which
      [main] has sent the first departures request.
    - [Board]: the invariant [board_inv] of the reachable states, about the
      boards under construction ([building]).
    - [Progress]: two more invariants and the runs in which the upstream
      answers every request ([answer_all]).
    - [Store]: the invariant [store_inv] of the reachable states, about the
      references of the model: a number that stands for an object or an
      array is a number of the store, and no two platforms share an array.
      It is a fact about the model (JavaScript references are sound by
      construction) that [Late] rests on.
    - [Late]: the callback [platform[nextIdx] = result] of the minute job
      when its answer arrives after the platform has been shifted, and the
      minute job at a platform whose head is a hole.
    - [Shape]: the order in which [fetchDepartureDetails] assigns
      [stations], [dest] and [subtitle], as an invariant of the objects of
      the store.
    - [Scenarios]: runs of the server from [boot], evaluated.
    - [Client]: the display page [pid.js], a state machine like the server.
      Its state ([Display]) is [pidData] (each service with the [timeText]
      the page adds), the document ([Dom]: what has been assigned to
      [innerText], to the [class] attribute and to [innerHTML] of each
      element, by id), the requests in flight and the rejections nothing
      handles.  An [Input] is a turn: [Interval] ([updateClock] from
      [setInterval], up to its [await] or end), [WsMessage] ([onmessage]),
      [FetchAnswer] (the [then], [catch] and [finally] callbacks of
      [fetchData]) and [AfterAnswer] ([updateClock] from its [await] on).
      [printTime] is over a zone at a fixed offset; [updateInfo] is a
      computation of [Eff Dom], with [columns] the layout loop of the stops
      panel and [next_service] the loop of the next-services panel.
    - [System]: the server and its pages together.  A state ([System]) is
      the server, one [Display] per WebSocket client and the number of
      messages delivered to each; a [Move] is a turn of the server
      ([ServerTurn]), the opening of a page ([Open]: the page loads and its
      socket connects), the delivery of the next message the server has
      sent a page ([Deliver]), a firing of the page's timer
      ([PageInterval]), or the answer to a request of a page ([Fetched],
      [Aftered]), which is what [Query] answers from the server's board in
      that move.

        ** What is proved

    - [JsString]: each replace is characterised on single-line input and
      never lengthens its argument; [trim] and [capitalize] on strings that
      begin with a capital.
    - [Pattern]: [fetchPattern]'s loop is the expansion of the calls from the
      home station on, or of all calls with [saveAll]
      ([pattern_result_from_home]); the home station itself is the first
      entry of [stations] (the specification's data model says the list
      starts after it); the only failure besides the request's is a stop
      without a name.
    - [Names]: [shortenName] on single-line names, and the display rule's
      bound on the length of a destination.
    - [Classifier]: the counting loop on patterns given as blocks of served
      and skipped stops, and from it every row of the specification's table
      ([subtitle_stops_all], [subtitle_one_block], [subtitle_two_blocks]);
      the subtitle always begins with a capital, so trimming at the start
      and [capitalize] never change it.
    - [Resolver]: the refinement [fetchDepartureDetails_enrich]: the code
      ends as [enrich]'s outcome says, in what it returns or throws and in
      the properties it leaves assigned.  From it: the enrichment depends on
      the object only through [type], [run] and [colour], is idempotent, and
      assigns [subtitle] exactly when the promise is fulfilled; a failure of
      the second request leaves the object half enriched.  The City Loop cut
      ([loop_cut_some]) ends the list at the last Flinders Street and reads
      the destination at that index of the run's own pattern, which throws
      when the index lies in the part appended from the distributor's
      pattern; the City Loop label is dead code.
    - [Query]: the window is the serialised prefix of at most three entries;
      the entry after a run is the successor of the run's first occurrence;
      the not-found cases; an index that is negative or not a number is a
      [TypeError], not a 404.
    - [Refresh]: what the colour map holds after the loop
      ([set_colours_lookup]); the arrays [bucket] builds are the kept
      departures of each platform in the answer's order, and a platform
      without one has no array ([bucket_queues]); when the loop throws.
    - [Server]: a call of [fetchDepartureDetails] spread over the turns of
      its answers ends as the call of [Resolver] run in one piece
      ([on_pattern_enrich]); objects of the store only gain properties
      ([objects_grow]); the board is replaced only in the turn of an
      upstream answer, and nothing is sent in that turn
      ([board_replaced_silently]), whereas the daily job sends [refresh]
      while the board is still the old one ([daily_refresh_early]); an
      append is sent only by the answer that settles the last enrichment of
      a minute job ([append_waits_for_all]).
    - [Board]: by induction on [reachable], every [Promise.all] of
      [fetchDepartures] counts exactly its enrichments in flight, each
      callback will assign an object to the element that holds it already,
      and each of the first three elements of every platform is enriched
      or about to be ([building_in_reachable]); hence the board installed
      has its first three entries per platform enriched
      ([installed_window_enriched]).
    - [Progress]: every refresh completes ([refresh_completes]): when the
      upstream has answered every request in flight, and the second request
      an enrichment may make, no enrichment is in flight and no
      [fetchDepartures] waits; on the way, the object of an enrichment in
      flight is in the store and an awaited [Promise.all] has a promise to
      go ([reachable_live]).
    - [Store]: by induction on [reachable], the numbers the model uses
      for references lead somewhere, the platforms of the board have
      arrays of their own, and the minute job never assigns to index 0
      ([reachable_store_inv]); no property of the program is claimed
      here.
    - [Late]: what the invariants cannot promise of an installed board,
      for every state the server reaches.  An answer that arrives after
      the minute job has removed [k] departures overwrites the departure
      that has moved to [nextIdx]: the enriched one is on the board twice
      and the other is lost ([answer_after_shift]); when the array has
      become shorter than [nextIdx] the assignment leaves holes
      ([answer_leaves_hole]); a hole at the head of a platform stays
      there through every turn that does not replace the board, every
      firing of the minute job throws at it and looks at no platform
      listed after it, and [GET /departures/:plat/0] throws
      ([hole_stops_minute_job]).
    - [Shape]: by induction on [reachable], every departure object has a
      [subtitle] only with a [dest] and a [dest] only with [stations],
      and the object of a call at its second [await] has [stations] and
      [dest] ([objects_shaped]).
    - [Scenarios]: runs of the server that are checked to be runs
      ([Server.enabled_run]) and evaluated; [Late] takes its witnesses
      from them.  An answer that arrives after the minute job has shifted
      the platform overwrites another departure ([duplicate_run]) or
      leaves a hole that makes every later minute job throw ([hole_run],
      [stuck_run]); a rejected enrichment is reported to nobody
      ([rejected_enrichment]); a half-enriched departure is served
      ([half_enriched_served]); with departures a minute apart the
      look-ahead stops ([lookahead_falls_behind]).

    - [Client]: [updateClock] returns, and with more fuel than [pidData]
      has services the model computes what it returns
      ([updateClock_total]); a call that sends no request and throws
      nothing leaves no service a minute past among the first three
      ([clock_settled]); the layout loops are the cells of [cells] cut into
      columns ([columns_cells]); the text [printTime] prints is the one
      clock text [h:mm:ss am] or [h:mm:ss pm], hour from 1 to 12 and
      minutes and seconds in two places, that reads back as the second of
      the day ([printTime_read]); every service of [pidData] has the
      [timeText] of its time ([pidData_timed]); [updateInfo] throws exactly
      on a first service without [stations] ([updateInfo_throws]); the
      duplicate test of the [append] handler is never true
      ([append_never_duplicate]), and a service can be in [pidData] twice
      ([append_and_answer]).
    - [System]: by induction on the moves, every service a page holds is
      a departure object of the server's store as it is or as it was
      before properties were assigned to it ([pages_show_snapshots]); a
      page that is answered holds the window of its platform as the board
      has it then ([fetched_shows_window]).  On evaluated runs: a page
      that is sent a service by the minute job and is answered the same
      service by its own request holds it twice ([demo_duplicate]); after
      the daily job a page that reloads at once keeps showing the old
      board, with no message left to tell it otherwise ([demo_daily]).

    Every theorem with hypotheses has a witness on the scenarios of
    [Resolver] (runs 101 to 105 seen from East Richmond and Footscray), the
    pattern of [Pattern], the board of [Query], the runs of [Server]
    ([demo_fetched], [demo_ready], [demo_minute]), the states of [Late]
    ([shifted], [twice_shifted], [stuck]), the page of [Client]
    ([sample_shown]) or the runs of [System] ([demo_opened]).

    ** Modelling choices and bounds

    - Identifiers and timestamps are [Z] (JavaScript numbers that hold
      integers below 2^53, where the code's arithmetic is exact).
    - Strings are [string], one [ascii] per UTF-16 code unit; station names
      and notes are taken to be ASCII, which is what [trim],
      [toUpperCase] and [.length] are modelled on.
    - Upstream records have the field types of the API's schema; what may be
      missing is what the code itself indexes by key or tests for
      ([stops[id]], [runs[run]], [interchange], [distributor]).
    - Comparisons are the code's: [stop.stop_id == STATION] converts a string
      [STATION] to a number ([is_home]), [[1071, 1181].includes(STATION)]
      does not ([cbdStation]); an object compared with a number by [==] is
      never equal ([stop_equals_number]); two missing colours are equal
      ([routeColours[id] == dep.colour] on [option]s).
    - A turn of the event loop is atomic: a handler runs from the event
      that starts it to its next [await] or its end.  Requests are answered
      in any order, one answer per turn; the answer is the event's argument,
      so every interleaving of answers, cron jobs and connections is a
      sequence of events.
    - [Minute] carries the order in which [Object.entries(departures)] lists
      the platforms (insertion order, integer-like keys first); [enabled]
      requires it to be a permutation of the board's keys, which covers
      the order of any engine.
    - A rejection nothing handles is recorded in [unhandled] and the server
      goes on, which is Node's behaviour with
      [--unhandled-rejections=warn]; with the default of Node 15 and later
      the process would end there.
    - Clients only accumulate: a closed WebSocket is not removed from the
      model's list, and [send] on it is taken to succeed.
    - In [System] the messages of a socket arrive in the order sent, each
      in a move of its own, any number of moves later; a request of a page
      is answered in one move, from the board of that moment (the time
      between the request and the handler, and between the handler and the
      page's callback, is not split).
    - The page's [Date] is in a zone at a fixed offset from UTC ([zone],
      in minutes): a change of offset during a run (daylight saving) is not
      modelled.  All calls of [Date.now()] in one turn return the same
      time.  The elements the page writes to are taken to be in the
      document.  [err.status] of a failed [axios.get] is the status of the
      answer, if there is one ([Http]).
    - Fuel is used in one place: [Client.updateClock] calls itself, and
      its model takes the number of calls it may make.  One more than the
      length of [pidData] is enough ([Client.updateClock_total]), and
      [Client.clock] is the function with that much.  Every other
      function is structurally recursive, so every result is total.

    ** Not modelled

    HTTP transport, URL signing ([generateURL], HMAC-SHA1), Express routing,
    logging, the station search of [main] (only the value it leaves in
    [STATION] is modelled), the page's HTML and style sheets, and the
    reconnection of a closed WebSocket (the page does not reconnect); the
    manifest lists them with the reason. *)

From Stdlib Require Export ZArith Lia String Ascii.
From stdpp Require Export base tactics option list gmap strings.

(** ** Errors as values *)

(** The two ways an [async] function of [app.js] rejects: the upstream
    request fails ([axios.get] rejects), or a property is read on
    [undefined]. *)
Inductive error : Type :=
| FetchFailed
| TypeError.

Inductive result (A : Type) : Type :=
| Ok (a : A)
| Err (e : error).
Arguments Ok {A} a.
Arguments Err {A} e.

#[export] Instance error_eq_dec : EqDecision error.
Proof. solve_decision. Defined.

#[export] Instance result_eq_dec `{EqDecision A} : EqDecision (result A).
Proof. solve_decision. Defined.

#[export] Instance result_ret : MRet result := @Ok.
#[export] Instance result_bind : MBind result := λ A B f r,
  match r with Ok a => f a | Err e => Err e end.
#[export] Instance result_fmap : FMap result := λ A B f r,
  match r with Ok a => Ok (f a) | Err e => Err e end.

(** [obj[key].field]: a missing key is a [TypeError] once a field is read. *)
Definition required {A} (o : option A) : result A :=
  match o with Some a => Ok a | None => Err TypeError end.

Definition is_ok {A} (r : result A) : bool :=
  match r with Ok _ => true | Err _ => false end.

(** ** Mutation that survives a throw *)

(** A computation over a mutable object of type [S]: it returns the object
    as it has been left, together with the value or the error. *)
Definition Eff (S A : Type) : Type := S → result A * S.

Definition eff_ret {S A} (a : A) : Eff S A := λ s, (Ok a, s).
Definition eff_bind {S A B} (m : Eff S A) (k : A → Eff S B) : Eff S B := λ s,
  match m s with
  | (Ok a, s') => k a s'
  | (Err e, s') => (Err e, s')
  end.
Definition eff_get {S} : Eff S S := λ s, (Ok s, s).
Definition eff_modify {S} (f : S → S) : Eff S unit := λ s, (Ok tt, f s).
Definition eff_throw {S A} (e : error) : Eff S A := λ s, (Err e, s).
Definition eff_lift {S A} (r : result A) : Eff S A := λ s, (r, s).

Declare Scope eff_scope.
Delimit Scope eff_scope with eff.
Notation "x <- m ;; k" := (eff_bind m (λ x, k))
  (at level 100, m at next level, right associativity) : eff_scope.
Notation "m ;; k" := (eff_bind m (λ _, k))
  (at level 100, right associativity) : eff_scope.
Notation "'when' b 'then' m" := (if b then m else eff_ret tt)
  (at level 99, b at level 0, m at level 99) : eff_scope.

(** ** Array scans *)

(** [let idx = n - 1; while (idx >= 0) { if (P(l[idx])) break; idx--; }]:
    the greatest index below [n] whose element satisfies [P]. *)
Fixpoint scan_back {A} (P : A → bool) (l : list A) (n : nat) : option nat :=
  match n with
  | O => None
  | S i =>
      match l !! i with
      | Some x => if P x then Some i else scan_back P l i
      | None => scan_back P l i
      end
  end.

(** [l[i]] for an integer [i]: [undefined] below zero and past the end. *)
Definition index_Z {A} (l : list A) (i : Z) : option A :=
  if bool_decide (0 ≤ i)%Z then l !! Z.to_nat i else None.

(** ** Loops that push a result per element *)

(** [for (const x of l) out.push(f(x))] where [f] may throw: the array
    built, or the first error. *)
Fixpoint traverse {A B} (f : A → result B) (l : list A) : result (list B) :=
  match l with
  | [] => Ok []
  | x :: rest => y ← f x; ys ← traverse f rest; Ok (y :: ys)
  end.

(** ** Arrays with holes *)

(** A JavaScript array whose elements are of type [A]: [None] is a hole,
    which reads as [undefined]. *)
Definition array_get {A} (a : list (option A)) (i : nat) : option A :=
  mjoin (a !! i).

(** [a[i] = v]: inside the array the element is replaced; at its end the
    array grows by one; past its end it grows to length [i + 1] and the
    elements in between are holes. *)
Definition array_set {A} (i : nat) (v : A) (a : list (option A)) : list (option A) :=
  if decide (i < length a) then <[i := Some v]> a
  else a ++ replicate (i - length a) None ++ [Some v].

(** ** What a computation keeps *)

(** Every run of [m] leaves the state related by [R] to the one it started
    from, whether it returns or throws. *)
Definition eff_keeps {S A} (R : relation S) (m : Eff S A) : Prop :=
  ∀ s, R s (m s).2.

(** ** Tactics and hints *)

Create HintDb pid discriminated.
Create Rewrite HintDb pid_rw.

(** Unfold the monad operations and compute through them. *)
Ltac eff_unfold :=
  unfold eff_bind, eff_ret, eff_get, eff_modify, eff_throw, eff_lift,
    required, mbind, mret, result_bind, result_ret in *.

(** Case analysis on whatever the goal matches on, keeping the equation. *)
Ltac break_match :=
  match goal with
  | |- context [match ?x with _ => _ end] =>
      first [is_var x; destruct x | let E := fresh "E" in destruct x eqn:E]
  end.

Ltac break_match_hyp :=
  match goal with
  | H : context [match ?x with _ => _ end] |- _ =>
      first [is_var x; destruct x | let E := fresh "E" in destruct x eqn:E]
  end.

Ltac eff_crush :=
  eff_unfold; simpl in *;
  repeat first
    [ progress simplify_eq/=
    | break_match_hyp
    | break_match ];
  eauto with pid.

(** ** Laws of [result] and [Eff] *)

Section monad_laws.
Context {S A B C : Type}.
Implicit Types (s : S) (a : A) (m : Eff S A) (r : result A).

Lemma result_bind_ok (f : A → result B) a : Ok a ≫= f = f a.
Proof. done. Qed.

Lemma result_bind_err (f : A → result B) e : Err e ≫= f = Err e.
Proof. done. Qed.

Lemma result_bind_inv_ok (f : A → result B) r b :
  r ≫= f = Ok b → ∃ a, r = Ok a ∧ f a = Ok b.
Proof. destruct r; naive_solver. Qed.

Lemma required_ok (o : option A) a : required o = Ok a ↔ o = Some a.
Proof. destruct o; naive_solver. Qed.

Lemma required_err (o : option A) e : required o = Err e ↔ o = None ∧ e = TypeError.
Proof. destruct o; naive_solver. Qed.

Lemma eff_bind_ret_l (k : A → Eff S B) a s : eff_bind (eff_ret a) k s = k a s.
Proof. done. Qed.

Lemma eff_bind_ret_r m s : eff_bind m eff_ret s = m s.
Proof. unfold eff_bind, eff_ret. by destruct (m s) as [[]]. Qed.

Lemma eff_bind_assoc m (k : A → Eff S B) (h : B → Eff S C) s :
  eff_bind (eff_bind m k) h s = eff_bind m (λ a, eff_bind (k a) h) s.
Proof. unfold eff_bind. by destruct (m s) as [[]]. Qed.

(** A throw skips the rest and keeps the state reached. *)
Lemma eff_bind_throw (k : A → Eff S B) e s :
  eff_bind (eff_throw e) k s = (Err e, s).
Proof. done. Qed.

Lemma eff_bind_ok m (k : A → Eff S B) s a s' :
  m s = (Ok a, s') → eff_bind m k s = k a s'.
Proof. unfold eff_bind. by intros ->. Qed.

Lemma eff_bind_err m (k : A → Eff S B) s e s' :
  m s = (Err e, s') → eff_bind m k s = (Err e, s').
Proof. unfold eff_bind. by intros ->. Qed.

Lemma eff_bind_inv_ok m (k : A → Eff S B) s b s'' :
  eff_bind m k s = (Ok b, s'') → ∃ a s', m s = (Ok a, s') ∧ k a s' = (Ok b, s'').
Proof. unfold eff_bind. destruct (m s) as [[]]; naive_solver. Qed.

End monad_laws.

#[export] Hint Rewrite @eff_bind_ret_l @eff_bind_ret_r @eff_bind_assoc
  @eff_bind_throw : pid_rw.

(** ** What a computation keeps: one rule per operation *)

Section eff_keeps.
Context {S : Type} (R : relation S) `{!PreOrder R}.

Lemma eff_keeps_ret {A} (a : A) : eff_keeps R (eff_ret a).
Proof. by intros s. Qed.

Lemma eff_keeps_get : eff_keeps R eff_get.
Proof. by intros s. Qed.

Lemma eff_keeps_throw {A} e : eff_keeps R (@eff_throw S A e).
Proof. by intros s. Qed.

Lemma eff_keeps_lift {A} (r : result A) : eff_keeps R (eff_lift r).
Proof. by intros s. Qed.

Lemma eff_keeps_modify (f : S → S) : (∀ s, R s (f s)) → eff_keeps R (eff_modify f).
Proof. intros Hf s. apply Hf. Qed.

Lemma eff_keeps_bind {A B} (m : Eff S A) (k : A → Eff S B) :
  eff_keeps R m → (∀ a, eff_keeps R (k a)) → eff_keeps R (eff_bind m k).
Proof.
  intros Hm Hk s. unfold eff_bind. specialize (Hm s).
  destruct (m s) as [[a|e] s']; simpl in *; [|done]. by etrans; [|apply Hk].
Qed.

Lemma eff_keeps_if {A} (b : bool) (m1 m2 : Eff S A) :
  eff_keeps R m1 → eff_keeps R m2 → eff_keeps R (if b then m1 else m2).
Proof. by destruct b. Qed.

End eff_keeps.

#[export] Hint Resolve eff_keeps_ret eff_keeps_get eff_keeps_throw eff_keeps_lift
  eff_keeps_modify eff_keeps_bind eff_keeps_if : pid.

(** Follow the structure of a computation down to its assignments. *)
Ltac keeps :=
  repeat match goal with
  | |- PreOrder _ => apply _
  | |- eff_keeps _ (eff_bind _ _) => apply eff_keeps_bind
  | |- eff_keeps _ (eff_modify _) => apply eff_keeps_modify
  | |- eff_keeps _ (if ?b then _ else _) => destruct b
  | |- eff_keeps _ (match ?x with _ => _ end) => destruct x
  | |- forall _, eff_keeps _ _ => intro; cbv beta
  | |- eff_keeps _ _ => by intros ?
  end;
  eauto with pid.

(** ** Loops that keep a preorder *)

(** A loop every iteration of which keeps [R] on the part [g] of its state. *)
Lemma foldl_preorder {A B C} (R : relation C) `{!PreOrder R} (g : A → C)
    (f : A → B → A) l a :
  (∀ a x, R (g a) (g (f a x))) → R (g a) (g (foldl f a l)).
Proof.
  intros Hf. revert a; induction l as [|x l IH]; intros a; simpl; [done|].
  by etrans; [apply Hf|apply IH].
Qed.

(** A loop every iteration of which keeps [P]. *)
Lemma foldl_invariant {A B} (P : A → Prop) (f : A → B → A) l a :
  (∀ a x, P a → P (f a x)) → P a → P (foldl f a l).
Proof.
  intros Hf. revert a; induction l as [|x l IH]; intros a Ha; simpl; [done|].
  by apply IH, Hf.
Qed.

(** ** Counting after an assignment *)

(** Replacing one element changes the number of elements that satisfy [P]
    by what the two elements contribute. *)
Lemma filter_insert_length {A} (P : A → Prop) `{!∀ x, Decision (P x)}
    (l : list A) (i : nat) (x y : A) :
  l !! i = Some x →
  length (filter P (<[i := y]> l)) + (if decide (P x) then 1 else 0)
  = length (filter P l) + (if decide (P y) then 1 else 0).
Proof.
  intros Hi. pose proof (lookup_lt_Some _ _ _ Hi).
  rewrite insert_take_drop by done. rewrite <-(take_drop_middle l i x) at 3 by done.
  rewrite !filter_app, !filter_cons, !length_app.
  repeat case_decide; simpl; lia.
Qed.

Lemma filter_length_zero {A} (P : A → Prop) `{!∀ x, Decision (P x)} (l : list A) :
  length (filter P l) = 0 → Forall (λ x, ¬ P x) l.
Proof.
  intros Hl%nil_length_inv. apply Forall_forall. intros x Hx HP.
  assert (x ∈ filter P l) as Hin by (by apply list_elem_of_filter).
  rewrite Hl in Hin. by apply not_elem_of_nil in Hin.
Qed.

(** Seconds into hours, minutes and seconds of a day. *)
Lemma second_of_day_split (x : Z) :
  (x mod 86400 = ((x / 3600) mod 24 * 60 + (x / 60) mod 60) * 60 + x mod 60)%Z.
Proof.
  pose proof (Z.div_mod x 60 ltac:(lia)).
  pose proof (Z.div_mod (x / 60) 60 ltac:(lia)).
  pose proof (Z.div_mod (x / 60 / 60) 24 ltac:(lia)).
  replace (x / 3600)%Z with (x / 60 / 60)%Z by (by rewrite Z.div_div by lia).
  pose proof (Z.mod_pos_bound x 60 ltac:(lia)).
  pose proof (Z.mod_pos_bound (x / 60) 60 ltac:(lia)).
  pose proof (Z.mod_pos_bound (x / 60 / 60) 24 ltac:(lia)).
  symmetry. apply (Z.mod_unique_pos x 86400 (x / 60 / 60 / 24)); lia.
Qed.

(** The elements of a list paired with their indices. *)
Lemma imap_pair_snd {A} (l : list A) : (imap pair l).*2 = l.
Proof.
  rewrite fmap_imap. apply list_eq. intros i.
  rewrite list_lookup_imap. by destruct (l !! i).
Qed.

(** Assigning, after [k] elements have been removed from the front, the
    element that was at index [i] to index [i]. *)
Lemma insert_drop_twice {A} (l : list A) i k x :
  NoDup l → l !! i = Some x → 0 < k ≤ i → i + k < length l →
  ∃ y, l !! (i + k) = Some y ∧
    <[i := x]> (drop k l) !! (i - k) = Some x ∧
    <[i := x]> (drop k l) !! i = Some x ∧
    y ∉ <[i := x]> (drop k l).
Proof.
  intros Hnodup Hi Hk Hlen.
  destruct (lookup_lt_is_Some_2 l (i + k) Hlen) as [y Hy]. exists y.
  split_and!; [done| | |].
  - rewrite list_lookup_insert_ne by lia. rewrite lookup_drop, <-Hi. f_equal. lia.
  - apply list_lookup_insert_eq. rewrite length_drop. lia.
  - intros (j & Hj)%list_elem_of_lookup_1.
    destruct (decide (j = i)) as [->|Hne].
    + rewrite list_lookup_insert_eq in Hj by (rewrite length_drop; lia).
      injection Hj as <-. pose proof (NoDup_lookup _ _ _ _ Hnodup Hi Hy). lia.
    + rewrite list_lookup_insert_ne, lookup_drop in Hj by done.
      pose proof (NoDup_lookup _ _ _ _ Hnodup Hj Hy). lia.
Qed.

(** In a list of pairs whose second components are distinct, the second
    component determines the first. *)
Lemma zip_NoDup_r {A B} (ks : list A) (vs : list B) k k' v :
  NoDup vs → (k, v) ∈ zip ks vs → (k', v) ∈ zip ks vs → k = k'.
Proof.
  intros Hvs (i & Hi)%list_elem_of_lookup_1 (j & Hj)%list_elem_of_lookup_1.
  apply lookup_zip_with_Some in Hi as (? & ? & [= <- <-] & Hk & Hv).
  apply lookup_zip_with_Some in Hj as (? & ? & [= <- <-] & Hk' & Hv').
  rewrite (NoDup_lookup _ _ _ _ Hvs Hv Hv') in Hk. congruence.
Qed.

(** A property of the values of a map that an update of one keeps. *)
Lemma map_Forall_alter {A} (P : string → A → Prop) (f : A → A) k (m : gmap string A) :
  (∀ x, P k x → P k (f x)) → map_Forall P m → map_Forall P (alter f k m).
Proof.
  intros Hf Hm j y [(-> & x & Hx & ->)|[_ Hy]]%lookup_alter_Some.
  - by apply Hf, Hm.
  - by apply Hm.
Qed.

(** A map from keys to the indices of values appended to an array, read
    through the array, is the map from the keys to the values. *)
Lemma list_to_map_indexed {A} (d : A) (l vs : list A) (ks : list string) :
  (λ a, default d ((l ++ vs) !! a)) <$>
    (list_to_map (zip ks (seq (length l) (length vs))) : gmap string nat)
  = list_to_map (zip ks vs).
Proof.
  revert l ks; induction vs as [|v vs IH]; intros l [|k ks]; simpl;
    rewrite ?fmap_empty; try done.
  rewrite fmap_insert, list_lookup_middle by done. simpl. f_equal.
  rewrite (cons_middle v l vs), app_assoc.
  replace (S (length l)) with (length (l ++ [v])) by (rewrite length_app; simpl; lia).
  apply IH.
Qed.

(** ** [traverse] *)

Section traverse.
Context {A B : Type} (f : A → result B).
Implicit Types (l : list A) (ys : list B).

Lemma traverse_app l1 l2 :
  traverse f (l1 ++ l2) =
    (ys1 ← traverse f l1; ys2 ← traverse f l2; Ok (ys1 ++ ys2)).
Proof.
  induction l1 as [|x l1 IH]; simpl.
  - by destruct (traverse f l2).
  - destruct (f x); simpl; [|done]. rewrite IH.
    destruct (traverse f l1); simpl; [|done]. by destruct (traverse f l2).
Qed.

(** The loop returns when no element throws, with one result per element. *)
Lemma traverse_ok l ys :
  traverse f l = Ok ys ↔ Forall2 (λ x y, f x = Ok y) l ys.
Proof.
  revert ys; induction l as [|x l IH]; intros ys; simpl.
  - split; [intros [= <-]; constructor|by intros ->%Forall2_nil_inv_l].
  - split.
    + destruct (f x) as [y|] eqn:Hx; simpl; [|done].
      destruct (traverse f l) as [ys'|]; simpl; [|done].
      intros [= <-]. constructor; [done|]. by apply IH.
    + intros (y & ys' & Hx & Hl & ->)%Forall2_cons_inv_l.
      apply IH in Hl. by rewrite Hx, Hl.
Qed.

(** It throws exactly when some element does, with the first such error. *)
Lemma traverse_err l e :
  traverse f l = Err e ↔
  ∃ pre x post, l = pre ++ x :: post ∧ f x = Err e ∧ Forall (λ x, is_ok (f x) = true) pre.
Proof.
  induction l as [|x l IH]; simpl.
  { split; [done|]. by intros ([] & ? & ? & ? & _). }
  destruct (f x) as [y|e'] eqn:Hx; simpl.
  - transitivity (traverse f l = Err e); [by destruct (traverse f l)|].
    rewrite IH. split.
    + intros (pre & x0 & post & -> & ? & ?).
      exists (x :: pre), x0, post. split_and!; [done..|]. constructor; [by rewrite Hx|done].
    + intros ([|x' pre] & x0 & post & Heq & Hx0 & Hpre); simplify_eq/=; [congruence|].
      apply Forall_cons in Hpre as [_ Hpre]. eauto 10.
  - split.
    + intros [= ->]. by exists [], x, l.
    + intros ([|x' pre] & x0 & post & Heq & Hx0 & Hpre); simplify_eq/=; [congruence|].
      apply Forall_cons in Hpre as [Hx' _]. by rewrite Hx in Hx'.
Qed.

Lemma traverse_length l ys : traverse f l = Ok ys → length ys = length l.
Proof. intros Hl%traverse_ok. symmetry. by eapply Forall2_length. Qed.

End traverse.

(** ** Arrays with holes *)

Section arrays.
Context {A : Type}.
Implicit Types (a : list (option A)) (i j : nat) (v : A).

Lemma array_get_full (l : list A) i : array_get (Some <$> l) i = l !! i.
Proof. unfold array_get. rewrite list_lookup_fmap. by destruct (l !! i). Qed.

(** An assignment never shortens the array. *)
Lemma array_set_length i v a : length (array_set i v a) = length a `max` S i.
Proof.
  unfold array_set. case_decide.
  - rewrite length_insert. lia.
  - rewrite !length_app, length_replicate. simpl. lia.
Qed.

Lemma array_get_set i v a : array_get (array_set i v a) i = Some v.
Proof.
  unfold array_get, array_set. case_decide.
  - by rewrite list_lookup_insert_eq.
  - rewrite lookup_app_r, lookup_app_r by (rewrite ?length_replicate; lia).
    rewrite length_replicate. by replace (i - length a - (i - length a)) with 0 by lia.
Qed.

Lemma array_get_set_ne i j v a : i ≠ j → array_get (array_set i v a) j = array_get a j.
Proof.
  intros Hij. unfold array_get, array_set. case_decide.
  - by rewrite list_lookup_insert_ne.
  - destruct (decide (j < length a)); [by rewrite lookup_app_l|].
    rewrite (lookup_ge_None_2 a j) by lia. rewrite lookup_app_r by lia.
    destruct (decide (j - length a < i - length a)).
    + rewrite lookup_app_l by (rewrite length_replicate; lia).
      by rewrite lookup_replicate_2.
    + rewrite lookup_app_r by (rewrite length_replicate; lia).
      rewrite length_replicate. rewrite lookup_ge_None_2; [done|]. simpl. lia.
Qed.

(** Assigning an element the value it holds changes nothing. *)
Lemma array_set_same i v a : a !! i = Some (Some v) → array_set i v a = a.
Proof.
  intros Hi. unfold array_set. pose proof (lookup_lt_Some _ _ _ Hi).
  rewrite decide_True by done. by apply list_insert_id.
Qed.

(** An assignment inside a full array leaves it full. *)
Lemma array_set_full i v (l : list A) :
  i < length l → array_set i v (Some <$> l) = Some <$> <[i := v]> l.
Proof.
  intros Hi. unfold array_set. rewrite length_fmap, decide_True by done.
  by rewrite list_fmap_insert.
Qed.

(** An assignment at the end appends; one beyond it leaves a hole. *)
Lemma array_set_end v a : array_set (length a) v a = a ++ [Some v].
Proof. unfold array_set. rewrite decide_False by lia. by rewrite Nat.sub_diag. Qed.

Lemma array_set_beyond i v a :
  length a < i → array_get (array_set i v a) (length a) = None.
Proof.
  intros Hi. rewrite array_get_set_ne by lia.
  unfold array_get. by rewrite lookup_ge_None_2.
Qed.

(** [a[i] = v] past the end of [a]. *)
Lemma array_set_past i v a :
  length a < i →
  length (array_set i v a) = S i ∧
  (∀ j, j < length a → array_set i v a !! j = a !! j) ∧
  (∀ j, length a ≤ j < i → array_set i v a !! j = Some None) ∧
  array_set i v a !! i = Some (Some v).
Proof.
  intros Hi. unfold array_set. rewrite decide_False by lia. split_and!.
  - rewrite !length_app, length_replicate. simpl. lia.
  - intros j Hj. by rewrite lookup_app_l.
  - intros j Hj. rewrite lookup_app_r, lookup_app_l by (rewrite ?length_replicate; lia).
    apply lookup_replicate_2. lia.
  - rewrite lookup_app_r, lookup_app_r by (rewrite ?length_replicate; lia).
    rewrite length_replicate. by replace (i - length a - (i - length a)) with 0 by lia.
Qed.

(** What holds of a hole, of the value and of every element holds of every
    element after [a[i] = v]. *)
Lemma array_set_Forall (P : option A → Prop) i v a :
  P None → P (Some v) → Forall P a → Forall P (array_set i v a).
Proof.
  intros Hhole Hv Ha. unfold array_set. case_decide; [by apply Forall_insert|].
  repeat (apply Forall_app; split); [done|by apply Forall_replicate|by constructor].
Qed.

End arrays.

(** ** Indexing by an integer *)

Section index_Z.
Context {A : Type}.
Implicit Types (l : list A) (i : Z).

Lemma index_Z_nat l (n : nat) : index_Z l (Z.of_nat n) = l !! n.
Proof.
  unfold index_Z. rewrite bool_decide_eq_true_2 by lia. by rewrite Nat2Z.id.
Qed.

Lemma index_Z_neg l i : (i < 0)%Z → index_Z l i = None.
Proof. intros. unfold index_Z. by rewrite bool_decide_eq_false_2 by lia. Qed.

Lemma index_Z_is_Some l i :
  is_Some (index_Z l i) ↔ (0 ≤ i < Z.of_nat (length l))%Z.
Proof.
  unfold index_Z. case_bool_decide.
  - rewrite lookup_lt_is_Some. lia.
  - split; [by intros []|lia].
Qed.

Lemma index_Z_last l : index_Z l (Z.of_nat (length l) - 1) = last l.
Proof.
  destruct l as [|x l _] using rev_ind; [done|].
  rewrite length_app, last_snoc. simpl.
  replace (Z.of_nat (length l + 1) - 1)%Z with (Z.of_nat (length l)) by lia.
  rewrite index_Z_nat. by apply list_lookup_middle.
Qed.

End index_Z.

(** ** Filters that keep everything or nothing *)

Section filter.
Context {A : Type} (P : A → Prop) `{!∀ x, Decision (P x)}.

Lemma filter_Forall_id (l : list A) : Forall P l → filter P l = l.
Proof.
  induction 1 as [|x l ? ? IH]; [done|]. by rewrite filter_cons_True, IH.
Qed.

Lemma filter_Forall_nil (l : list A) : Forall (λ x, ¬ P x) l → filter P l = [].
Proof.
  induction 1 as [|x l ? ? IH]; [done|]. by rewrite filter_cons_False.
Qed.

End filter.

(** ** [scan_back] finds the last match *)

Section scan_back.
Context {A : Type} (P : A → bool).
Implicit Types (l : list A) (n i : nat).

Lemma scan_back_Some l n i :
  scan_back P l n = Some i →
  i < n ∧ (∃ x, l !! i = Some x ∧ P x = true) ∧
  ∀ j y, i < j < n → l !! j = Some y → P y = false.
Proof.
  induction n as [|n IH]; [done|]; simpl.
  destruct (l !! n) as [x|] eqn:Hn; [destruct (P x) eqn:HP|].
  - intros [= <-]. split_and!; [lia|eauto|intros; lia].
  - intros (? & ? & Hlater)%IH. split_and!; [lia|done|].
    intros j y ? Hj. destruct (decide (j = n)) as [->|]; [naive_solver|].
    apply (Hlater j); [lia|done].
  - intros (? & ? & Hlater)%IH. split_and!; [lia|done|].
    intros j y ? Hj. destruct (decide (j = n)) as [->|]; [naive_solver|].
    apply (Hlater j); [lia|done].
Qed.

Lemma scan_back_None l n :
  scan_back P l n = None → ∀ j y, j < n → l !! j = Some y → P y = false.
Proof.
  induction n as [|n IH]; simpl; [intros; lia|].
  destruct (l !! n) as [x|] eqn:Hn; [destruct (P x) eqn:HP; [done|]|];
    intros Hs j y ? Hj; (destruct (decide (j = n)) as [->|];
      [naive_solver | apply (IH Hs j); [lia|done]]).
Qed.

Lemma scan_back_lt l n i : scan_back P l n = Some i → i < n.
Proof. by intros (? & _)%scan_back_Some. Qed.

(** The scan over the whole array finds a match whenever there is one. *)
Lemma scan_back_is_Some l x :
  x ∈ l → P x = true → is_Some (scan_back P l (length l)).
Proof.
  intros (j & Hj)%list_elem_of_lookup HP.
  destruct (scan_back P l (length l)) eqn:Hs; [done|].
  pose proof (lookup_lt_Some _ _ _ Hj).
  rewrite (scan_back_None _ _ Hs j x) in HP; done.
Qed.

(** Scanning an array extended on the right from inside the old part. *)
Lemma scan_back_app_l l l' n :
  n ≤ length l → scan_back P (l ++ l') n = scan_back P l n.
Proof.
  induction n as [|n IH]; [done|]; intros ?; simpl.
  rewrite lookup_app_l by lia. rewrite IH by lia. done.
Qed.

End scan_back.

#[export] Hint Resolve scan_back_lt : pid.
