(* ===== verification/JsString.v ===== *)
(** * JsString: the string operations of [app.js]

    The regular-expression replaces and the [String.prototype] methods the
    server applies to station names, destinations and subtitles, as
    structurally recursive functions on [string].  A character is one UTF-16
    code unit below 256; [to_upper] is exact on ASCII.

    - [strip_locality]: [s.replace(/-.*$/gm, '')]
    - [replace_all]: [s.replace(/pat/gm, rep)] for a literal, non-empty [pat]
    - [replace_line_start]: [s.replace(/^pat/gm, rep)], same proviso
    - [trim], [capitalize]: [s.trim()], [s.charAt(0).toUpperCase() + s.slice(1)]

    The lemmas characterise each on the inputs the server feeds it: what it
    leaves alone, what it removes, that it never lengthens the string. *)

From S2P Require Import Prelude.

(** ** Characters *)

(** ECMAScript's LineTerminator, below 256: LF and CR. *)
Definition is_line_terminator (c : ascii) : bool :=
  Ascii.eqb c "010"%char || Ascii.eqb c "013"%char.

(** What [trim] strips (WhiteSpace and LineTerminator), below 256. *)
Definition is_trim_space (c : ascii) : bool :=
  Ascii.eqb c "009"%char || Ascii.eqb c "010"%char || Ascii.eqb c "011"%char ||
  Ascii.eqb c "012"%char || Ascii.eqb c "013"%char || Ascii.eqb c " "%char ||
  Ascii.eqb c "160"%char.

Definition is_lower (c : ascii) : bool :=
  (97 <=? nat_of_ascii c)%nat && (nat_of_ascii c <=? 122)%nat.

(** [c.toUpperCase()] of an ASCII character. *)
Definition to_upper (c : ascii) : ascii :=
  if is_lower c then ascii_of_nat (nat_of_ascii c - 32) else c.

(** ** Whole-string helpers *)

Fixpoint sall (P : ascii → bool) (s : string) : bool :=
  match s with
  | EmptyString => true
  | String c s' => P c && sall P s'
  end.

(** [s.slice(n)] *)
Fixpoint sdrop (n : nat) (s : string) : string :=
  match n, s with
  | O, _ => s
  | S _, EmptyString => EmptyString
  | S k, String _ s' => sdrop k s'
  end.

Definition single_line (s : string) : bool :=
  sall (λ c, negb (is_line_terminator c)) s.

Definition no_dash (s : string) : bool :=
  sall (λ c, negb (Ascii.eqb c "-"%char)) s.

(** ** The replaces *)

(** [/-.*$/gm] replaced by nothing: on every line, the first dash and what
    follows it up to the line's end go.  [dropping] is true inside a match. *)
Fixpoint strip_locality_from (dropping : bool) (s : string) : string :=
  match s with
  | EmptyString => EmptyString
  | String c s' =>
      if is_line_terminator c then String c (strip_locality_from false s')
      else if dropping || Ascii.eqb c "-"%char then strip_locality_from true s'
      else String c (strip_locality_from false s')
  end.

Definition strip_locality (s : string) : string := strip_locality_from false s.

(** [/pat/g] replaced by [rep], left to right without overlap.  [skip]
    counts the characters of the current match still to be consumed. *)
Fixpoint replace_all_from (pat rep : string) (skip : nat) (s : string) : string :=
  match s with
  | EmptyString => EmptyString
  | String c s' =>
      match skip with
      | S k => replace_all_from pat rep k s'
      | O =>
          if String.prefix pat s
          then rep +:+ replace_all_from pat rep (String.length pat - 1) s'
          else String c (replace_all_from pat rep 0 s')
      end
  end.

Definition replace_all (pat rep s : string) : string :=
  replace_all_from pat rep 0 s.

(** [/^pat/gm] replaced by [rep]: at the start of the string and after every
    line terminator.  [bol] is true at the beginning of a line. *)
Fixpoint replace_line_start_from (pat rep : string) (bol : bool) (skip : nat)
    (s : string) : string :=
  match s with
  | EmptyString => EmptyString
  | String c s' =>
      match skip with
      | S k => replace_line_start_from pat rep false k s'
      | O =>
          if bol && String.prefix pat s
          then rep +:+ replace_line_start_from pat rep false (String.length pat - 1) s'
          else String c (replace_line_start_from pat rep (is_line_terminator c) 0 s')
      end
  end.

Definition replace_line_start (pat rep s : string) : string :=
  replace_line_start_from pat rep true 0 s.

(** ** [trim] and [capitalize] *)

Fixpoint trim_start (s : string) : string :=
  match s with
  | EmptyString => EmptyString
  | String c s' => if is_trim_space c then trim_start s' else s
  end.

Fixpoint trim_end (s : string) : string :=
  match s with
  | EmptyString => EmptyString
  | String c s' =>
      match trim_end s' with
      | EmptyString => if is_trim_space c then EmptyString else String c EmptyString
      | r => String c r
      end
  end.

Definition trim (s : string) : string := trim_end (trim_start s).

(** [s.charAt(0).toUpperCase() + s.slice(1)] *)
Definition capitalize (s : string) : string :=
  match s with
  | EmptyString => EmptyString
  | String c s' => String (to_upper c) s'
  end.

(** ** [parseInt] *)

(** The value of a digit in the given radix, if it is one. *)
Definition digit_value (radix : Z) (c : ascii) : option Z :=
  let n := Z.of_nat (nat_of_ascii c) in
  let v :=
    if bool_decide (48 ≤ n ≤ 57)%Z then Some (n - 48)%Z
    else if bool_decide (97 ≤ n ≤ 122)%Z then Some (n - 87)%Z
    else if bool_decide (65 ≤ n ≤ 90)%Z then Some (n - 55)%Z
    else None in
  v ≫= λ d, if bool_decide (d < radix)%Z then Some d else None.

(** The longest prefix of digits, as a number; [acc] is [None] until a
    digit has been read. *)
Fixpoint parse_digits (radix : Z) (acc : option Z) (s : string) : option Z :=
  match s with
  | EmptyString => acc
  | String c s' =>
      match digit_value radix c with
      | Some d => parse_digits radix (Some (radix * default 0%Z acc + d)%Z) s'
      | None => acc
      end
  end.

(** [parseInt(s)]: leading white space, a sign, [0x] for hexadecimal, then
    digits; [None] is [NaN]. *)
Definition parseInt (s : string) : option Z :=
  let s := trim_start s in
  let signed :=
    match s with
    | String "-"%char s' => ((-1)%Z, s')
    | String "+"%char s' => (1%Z, s')
    | _ => (1%Z, s)
    end in
  let based :=
    match signed.2 with
    | String "0"%char (String "x"%char s') | String "0"%char (String "X"%char s') =>
        (16%Z, s')
    | s' => (10%Z, s')
    end in
  (λ n, signed.1 * n)%Z <$> parse_digits based.1 None based.2.

(** ** Lemmas: helpers *)

(** [String.append] does not unfold under [simpl]: its two equations. *)
Lemma sapp_nil s : "" +:+ s = s.
Proof. done. Qed.

Lemma sapp_cons c s1 s2 : String c s1 +:+ s2 = String c (s1 +:+ s2).
Proof. done. Qed.

Ltac sapp := rewrite ?sapp_nil, ?sapp_cons in *; simpl in *.

Lemma sall_app P s1 s2 : sall P (s1 +:+ s2) = sall P s1 && sall P s2.
Proof. induction s1 as [|c s1 IH]; sapp; [done|]. by rewrite IH, andb_assoc. Qed.

Lemma sall_sdrop P n s : sall P s = true → sall P (sdrop n s) = true.
Proof.
  revert s; induction n as [|n IH]; intros [|c s]; simpl; try done.
  intros [_ ?]%andb_prop. auto.
Qed.

Lemma sdrop_length n s : String.length (sdrop n s) = String.length s - n.
Proof. revert s; induction n as [|n IH]; intros [|c s]; simpl; auto with lia. Qed.

Lemma sdrop_app_length s1 s2 : sdrop (String.length s1) (s1 +:+ s2) = s2.
Proof. induction s1; sapp; auto. Qed.

Lemma string_app_length s1 s2 :
  String.length (s1 +:+ s2) = String.length s1 + String.length s2.
Proof. induction s1; sapp; auto with lia. Qed.

Lemma string_app_nil_r s : s +:+ "" = s.
Proof. induction s; sapp; congruence. Qed.

Lemma string_app_assoc s1 s2 s3 : (s1 +:+ s2) +:+ s3 = s1 +:+ s2 +:+ s3.
Proof. induction s1; sapp; congruence. Qed.

Lemma sprefix_app pat s : String.prefix pat (pat +:+ s) = true.
Proof.
  induction pat as [|c pat IH]; sapp; [by destruct s|].
  destruct (ascii_dec c c); [done|congruence].
Qed.

(** A prefix match splits the string. *)
Lemma sprefix_split pat s :
  String.prefix pat s = true → s = pat +:+ sdrop (String.length pat) s.
Proof.
  revert s; induction pat as [|c pat IH]; intros [|d s]; simpl; try done.
  destruct (ascii_dec c d) as [->|]; [|done]. intros ?%IH. sapp. congruence.
Qed.

Lemma sprefix_length pat s :
  String.prefix pat s = true → String.length pat ≤ String.length s.
Proof.
  intros Hp%sprefix_split. rewrite Hp, string_app_length. lia.
Qed.

#[export] Hint Rewrite sall_app sdrop_length string_app_length string_app_nil_r
  sdrop_app_length sprefix_app : pid_rw.

(** ** Lemmas: [strip_locality] *)

Lemma strip_locality_from_no_dash s :
  no_dash s = true → strip_locality_from false s = s.
Proof.
  induction s as [|c s IH]; simpl; [done|].
  intros [Hc Hs]%andb_prop. destruct (Ascii.eqb c "-"%char); [done|].
  rewrite IH by done. by destruct (is_line_terminator c).
Qed.

Lemma strip_locality_from_dropping s :
  single_line s = true → strip_locality_from true s = "".
Proof.
  induction s as [|c s IH]; simpl; [done|].
  intros [Hc Hs]%andb_prop. destruct (is_line_terminator c); [done|auto].
Qed.

Lemma strip_locality_from_length b s :
  String.length (strip_locality_from b s) ≤ String.length s.
Proof.
  revert b; induction s as [|c s IH]; intros b; simpl; [done|].
  repeat case_match; simpl; try apply le_n_S; auto.
Qed.

(** What is left holds no dash: the replace is complete in one pass. *)
Lemma strip_locality_from_clean b s : no_dash (strip_locality_from b s) = true.
Proof.
  unfold no_dash.
  revert b; induction s as [|c s IH]; intros b; simpl; [done|].
  destruct (is_line_terminator c) eqn:Ht; simpl.
  - rewrite IH, andb_true_r. unfold is_line_terminator in Ht.
    destruct (Ascii.eqb_spec c "-"%char) as [->|]; done.
  - destruct b; simpl; [done|].
    destruct (Ascii.eqb c "-"%char) eqn:Hc; simpl; [done|]. by rewrite Hc, IH.
Qed.

(** ** Lemmas: [replace_all] and [replace_line_start] *)

Lemma replace_all_from_skip pat rep k s :
  replace_all_from pat rep k s = replace_all_from pat rep 0 (sdrop k s).
Proof.
  revert k; induction s as [|c s IH]; intros [|k]; simpl; done.
Qed.

(** One step of the replace at a match. *)
Lemma replace_all_match pat rep s :
  pat ≠ "" →
  replace_all pat rep (pat +:+ s) = rep +:+ replace_all pat rep s.
Proof.
  unfold replace_all. destruct pat as [|c pat]; [done|]; intros _.
  rewrite sapp_cons. cbn [replace_all_from]. rewrite <-sapp_cons.
  rewrite (sprefix_app (String c pat)), replace_all_from_skip.
  cbn [String.length Nat.sub]. by rewrite Nat.sub_0_r, sdrop_app_length.
Qed.

Lemma replace_all_from_length pat k s :
  String.length (replace_all_from pat "" k s) ≤ String.length s.
Proof.
  revert k; induction s as [|c s IH]; intros [|k]; simpl; [done..| |].
  - case_match; sapp; [specialize (IH (String.length pat - 1))|specialize (IH 0)]; lia.
  - specialize (IH k); lia.
Qed.

Lemma replace_line_start_from_skip pat rep k s :
  replace_line_start_from pat rep false k s =
  replace_line_start_from pat rep false 0 (sdrop k s).
Proof.
  revert k; induction s as [|c s IH]; intros [|k]; simpl; done.
Qed.

(** Away from a line start and on a single line nothing is replaced. *)
Lemma replace_line_start_from_inline pat rep s :
  single_line s = true → replace_line_start_from pat rep false 0 s = s.
Proof.
  induction s as [|c s IH]; simpl; [done|].
  intros [Hc Hs]%andb_prop. apply negb_true_iff in Hc as ->. by rewrite IH.
Qed.

(** On a one-line string the replace looks at the beginning only. *)
Lemma replace_line_start_single pat rep s :
  pat ≠ "" → single_line s = true →
  replace_line_start pat rep s =
    if String.prefix pat s then rep +:+ sdrop (String.length pat) s else s.
Proof.
  intros Hpat Hs. unfold replace_line_start.
  destruct s as [|c s]; [by destruct pat|].
  cbn [replace_line_start_from andb].
  destruct (String.prefix pat (String c s)) eqn:Hp.
  - rewrite replace_line_start_from_skip.
    destruct pat as [|p pat]; [done|]. cbn [String.length sdrop Nat.sub].
    rewrite Nat.sub_0_r, replace_line_start_from_inline; [done|].
    apply sall_sdrop. simpl in Hs. by apply andb_prop in Hs as [_ Hs].
  - simpl in Hs. apply andb_prop in Hs as [Hc Hs].
    apply negb_true_iff in Hc as ->.
    by rewrite replace_line_start_from_inline.
Qed.

(** A replacement no longer than its pattern never lengthens the string. *)
Lemma replace_line_start_from_length pat rep b k s :
  String.length rep ≤ String.length pat →
  String.length (replace_line_start_from pat rep b k s) ≤ String.length s - k.
Proof.
  intros Hrep. revert b k; induction s as [|c s IH]; intros b [|k];
    cbn [replace_line_start_from String.length]; [done..| |].
  - destruct (b && String.prefix pat (String c s)) eqn:Hp.
    + apply andb_prop in Hp as [_ Hp%sprefix_length]. simpl in Hp.
      rewrite string_app_length. specialize (IH false (String.length pat - 1)). lia.
    + specialize (IH (is_line_terminator c) 0). simpl. lia.
  - apply IH.
Qed.

Lemma replace_line_start_length pat rep s :
  String.length rep ≤ String.length pat →
  String.length (replace_line_start pat rep s) ≤ String.length s.
Proof.
  intros. etrans; [by apply replace_line_start_from_length|lia].
Qed.

(** ** Lemmas: [trim] and [capitalize] *)

Lemma trim_start_fixed c s :
  is_trim_space c = false → trim_start (String c s) = String c s.
Proof. simpl. by intros ->. Qed.

(** A string that begins with a character [trim] keeps still begins with it
    when trimmed. *)
Lemma trim_end_head c s :
  is_trim_space c = false → ∃ r, trim_end (String c s) = String c r.
Proof. simpl. intros ->. destruct (trim_end s); eauto. Qed.

Lemma trim_end_app_space s :
  trim_end s = s → trim_end (s +:+ " ") = s.
Proof.
  induction s as [|c s IH]; simpl; [done|].
  destruct (trim_end s) as [|d r] eqn:Hs.
  - destruct (is_trim_space c); [done|]. intros [= <-]. done.
  - intros [= Hr]. rewrite IH by done. by rewrite <-Hr.
Qed.

Lemma trim_end_idemp s : trim_end (trim_end s) = trim_end s.
Proof.
  induction s as [|c s IH]; simpl; [done|].
  destruct (trim_end s) as [|d r] eqn:Hs.
  - destruct (is_trim_space c) eqn:Hc; simpl; [done|by rewrite Hc].
  - simpl in *. rewrite IH. done.
Qed.

Lemma capitalize_upper c s :
  is_lower c = false → capitalize (String c s) = String c s.
Proof. unfold capitalize, to_upper. by intros ->. Qed.
