(* ===== verification/Model.v ===== *)
(** * Model: the data of the server and of the timetable API

    The records the server builds ([Stop], [Departure]), the home station as
    the JavaScript value it is, the parts of the upstream answers the code
    reads (a run's pattern, the station's departures), and the interface
    [Upstream] through which the engine obtains a pattern.  Field names are the source's, prefixed where two records share
    one. *)

From S2P Require Import Prelude.

(** ** The server's records *)

(** An entry of [dep.stations]: [{ id, name, skipped }]. *)
Record Stop : Type := mkStop {
  st_id : Z;
  st_name : string;
  st_skipped : bool;
}.

(** A departure object.  [fetchDepartures] creates it with [type], [run],
    [time] and [colour]; [fetchDepartureDetails] adds the other three
    properties, one assignment at a time.  [colour] is
    [routeColours.get(...)], [undefined] for a route the map does not hold. *)
Record Departure : Type := mkDeparture {
  dep_type : Z;
  dep_run : string;
  dep_time : Z;
  dep_colour : option string;
  dep_stations : option (list Stop);
  dep_dest : option string;
  dep_subtitle : option string;
}.

#[export] Instance Stop_eq_dec : EqDecision Stop.
Proof. solve_decision. Defined.

#[export] Instance Departure_eq_dec : EqDecision Departure.
Proof. solve_decision. Defined.

Definition set_stations (l : list Stop) (d : Departure) : Departure :=
  mkDeparture (dep_type d) (dep_run d) (dep_time d) (dep_colour d)
    (Some l) (dep_dest d) (dep_subtitle d).

Definition set_dest (s : string) (d : Departure) : Departure :=
  mkDeparture (dep_type d) (dep_run d) (dep_time d) (dep_colour d)
    (dep_stations d) (Some s) (dep_subtitle d).

Definition set_subtitle (s : string) (d : Departure) : Departure :=
  mkDeparture (dep_type d) (dep_run d) (dep_time d) (dep_colour d)
    (dep_stations d) (dep_dest d) (Some s).

(** A departure as [fetchDepartures] creates it. *)
Definition raw_departure (type : Z) (run : string) (time : Z)
    (colour : option string) : Departure :=
  mkDeparture type run time colour None None None.

(** ** The home station *)

(** [STATION] is the string of the environment when that string is numeric
    ([isNaN] is false), and the number [stop_id] of the first search result
    otherwise.  A numeric string is carried by the number it denotes. *)
Inductive StationValue : Type :=
| StationNumber (n : Z)
| StationString (n : Z).

(** [ToNumber(STATION)] *)
Definition station_number (v : StationValue) : Z :=
  match v with StationNumber n | StationString n => n end.

(** [stop.stop_id == STATION]: loose equality converts the string. *)
Definition is_home (v : StationValue) (stop_id : Z) : bool :=
  bool_decide (stop_id = station_number v).

(** ** The upstream answers *)

(** [run.interchange.distributor] *)
Record Distributor : Type := mkDistributor {
  dist_destination_name : string;
  dist_run_ref : string;
}.

Record Interchange : Type := mkInterchange {
  distributor : option Distributor;
}.

(** An entry of [resp.data.runs]. *)
Record Run : Type := mkRun {
  run_ref : string;
  route_id : Z;
  route_type : Z;
  final_stop_id : Z;
  destination_name : string;
  interchange : option Interchange;
}.

(** An entry of [stop.skipped_stops]. *)
Record SkippedStop : Type := mkSkippedStop {
  skip_stop_id : Z;
  skip_stop_name : string;
}.

(** An entry of a pattern's [resp.data.departures]: one call at a stop. *)
Record PatternStop : Type := mkPatternStop {
  stop_id : Z;
  departure_note : string;
  skipped_stops : list SkippedStop;
}.

(** The answer to [/pattern/run/:run/route_type/:type]; [stops] maps a stop
    id to its [stop_name], [runs] a run reference to the run. *)
Record PatternResponse : Type := mkPatternResponse {
  pr_departures : list PatternStop;
  pr_stops : gmap Z string;
  pr_runs : gmap string Run;
}.

(** ** The interface to the timetable API *)

(** What the engine needs of the upstream: an answer, or a failure, to a
    pattern request for a run reference and a route type. *)
Class Upstream : Type := {
  get_pattern : string → Z → result PatternResponse;
}.

(** What [fetchPattern] returns: [{ stations, note, run }]. *)
Record PatternResult : Type := mkPatternResult {
  res_stations : list Stop;
  res_note : string;
  res_run : option Run;
}.

(** An entry of [resp.data.routes] of the departures answer: the two
    properties [fetchDepartures] reads.  [route_gtfs_id] may be missing. *)
Record Route : Type := mkRoute {
  rt_route_type : Z;
  route_gtfs_id : option string;
}.

(** An entry of [resp.data.departures] of the departures answer.
    [scheduled_departure_utc] is the time value, in milliseconds, of the
    [Date] the code builds from the property of that name;
    [platform_number] is the property as a key of an object (a missing
    platform is the key ["null"]). *)
Record Scheduled : Type := mkScheduled {
  scheduled_departure_utc : Z;
  platform_number : string;
  sch_run_ref : string;
  sch_route_id : Z;
}.

(** The answer to [/departures/route_type/0/stop/:stop]; [routes] is keyed
    by the route id the code obtains with [parseInt] from the key. *)
Record DeparturesResponse : Type := mkDeparturesResponse {
  dr_departures : list Scheduled;
  dr_routes : gmap Z Route;
  dr_runs : gmap string Run;
}.

(** What no setter touches: the identity of the service. *)
Definition same_service (d d' : Departure) : Prop :=
  dep_type d' = dep_type d ∧ dep_run d' = dep_run d ∧
  dep_time d' = dep_time d ∧ dep_colour d' = dep_colour d.

(** The three properties the enrichment adds are all assigned. *)
Definition enriched (d : Departure) : Prop :=
  is_Some (dep_stations d) ∧ is_Some (dep_dest d) ∧ is_Some (dep_subtitle d).

(** A departure object at two moments: the same service, and no property
    that was assigned is missing later. *)
Definition grows (d d' : Departure) : Prop :=
  same_service d d' ∧
  (is_Some (dep_stations d) → is_Some (dep_stations d')) ∧
  (is_Some (dep_dest d) → is_Some (dep_dest d')) ∧
  (is_Some (dep_subtitle d) → is_Some (dep_subtitle d')).

(** ** Lemmas: the setters *)

Lemma set_stations_fields l d :
  dep_stations (set_stations l d) = Some l ∧
  dep_dest (set_stations l d) = dep_dest d ∧
  dep_subtitle (set_stations l d) = dep_subtitle d.
Proof. done. Qed.

Lemma set_dest_fields s d :
  dep_dest (set_dest s d) = Some s ∧
  dep_stations (set_dest s d) = dep_stations d ∧
  dep_subtitle (set_dest s d) = dep_subtitle d.
Proof. done. Qed.

Lemma set_subtitle_fields s d :
  dep_subtitle (set_subtitle s d) = Some s ∧
  dep_stations (set_subtitle s d) = dep_stations d ∧
  dep_dest (set_subtitle s d) = dep_dest d.
Proof. done. Qed.

#[export] Instance same_service_refl : Reflexive same_service.
Proof. by intros d. Qed.

#[export] Instance same_service_trans : Transitive same_service.
Proof. intros d1 d2 d3 (?&?&?&?) (?&?&?&?). unfold same_service. naive_solver congruence. Qed.

#[export] Instance same_service_sym : Symmetric same_service.
Proof. intros d1 d2 (?&?&?&?). unfold same_service. naive_solver. Qed.

Lemma same_service_set_stations l d : same_service d (set_stations l d).
Proof. done. Qed.

Lemma same_service_set_dest s d : same_service d (set_dest s d).
Proof. done. Qed.

Lemma same_service_set_subtitle s d : same_service d (set_subtitle s d).
Proof. done. Qed.

#[export] Hint Resolve same_service_set_stations same_service_set_dest
  same_service_set_subtitle : pid.

#[export] Instance enriched_dec d : Decision (enriched d).
Proof. unfold enriched. apply _. Defined.

#[export] Instance grows_preorder : PreOrder grows.
Proof.
  split.
  - by intros d.
  - intros d1 d2 d3 (? & ? & ? & ?) (? & ? & ? & ?).
    split; [by etrans|]. naive_solver.
Qed.

Lemma grows_set_stations l d : grows d (set_stations l d).
Proof. by repeat split. Qed.

Lemma grows_set_dest s d : grows d (set_dest s d).
Proof. by repeat split. Qed.

Lemma grows_set_subtitle s d : grows d (set_subtitle s d).
Proof. by repeat split. Qed.

Lemma grows_enriched d d' : grows d d' → enriched d → enriched d'.
Proof. intros (_ & ? & ? & ?) (? & ? & ?). by repeat split; auto. Qed.

#[export] Hint Resolve grows_set_stations grows_set_dest grows_set_subtitle : pid.
