(* ===== verification/Refresh.v ===== *)
(** * Refresh: what [fetchDepartures] computes from the departures answer

    The synchronous part of [fetchDepartures] ([app.js]) between the answer
    to the departures request and the enrichment calls: the loop that
    assigns a colour group to every route of the answer ([set_colours]) and
    the loop that drops the departures more than a minute old and sorts
    the others into a queue per platform ([bucket]).

    [metroLines] is the table read from [metrolines.json] at startup; the
    file is not part of the sources and the table is a parameter here.

    Theorems: the colour map after the loop, route by route, and that it
    keeps the colours of routes the answer does not mention; the queue of a
    platform is the answer's departures for that platform that are not
    past, in the answer's order, and a platform with none has no queue;
    the loop throws exactly when a departure it keeps names a run the
    answer does not hold. *)

From S2P Require Import Prelude JsString Model.

(** ** Route colours *)

Section colours.
Context (metroLines : gmap string string).

(** [metroLines.get(route.route_gtfs_id.slice(2)) || 'special'] *)
Definition line_colour (gtfs_id : string) : string :=
  match metroLines !! sdrop 2 gtfs_id with
  | Some colour => if bool_decide (colour = "") then "special" else colour
  | None => "special"
  end.

(** The [if] chain of the loop over [resp.data.routes]. *)
Definition colour_of (route : Route) : string :=
  if bool_decide (rt_route_type route ≠ 0%Z) then "vline"
  else match route_gtfs_id route with
       | None => "special"
       | Some gtfs_id =>
           if bool_decide (gtfs_id = "") then "special" else line_colour gtfs_id
       end.

(** [for (const [id, route] of Object.entries(resp.data.routes))
      routeColours.set(parseInt(id), ...)] *)
Definition set_colours (routes : gmap Z Route) (routeColours : gmap Z string)
    : gmap Z string :=
  map_fold (λ id route colours, <[id := colour_of route]> colours) routeColours routes.

End colours.

(** ** Departures by platform *)

Section bucket.
Context (respRuns : gmap string Run) (routeColours : gmap Z string) (now : Z).

(** [scheduledDeparture.getTime() - now < -(60 * 1000)] *)
Definition is_past (dep : Scheduled) : bool :=
  bool_decide (scheduled_departure_utc dep - now < -(60 * 1000))%Z.

(** The object [depData]; [respRuns[dep.run_ref].route_type] throws when the
    answer does not hold the run. *)
Definition depData (dep : Scheduled) : result Departure :=
  run ← required (respRuns !! sch_run_ref dep);
  Ok (raw_departure (route_type run) (sch_run_ref dep) (scheduled_departure_utc dep)
        (routeColours !! sch_route_id dep)).

(** [if (!deps.hasOwnProperty(p)) deps[p] = []; ... deps[p].push(depData)] *)
Definition push_departure (p : string) (d : Departure)
    (deps : gmap string (list Departure)) : gmap string (list Departure) :=
  <[p := default [] (deps !! p) ++ [d]]> deps.

(** The loop [for (let dep of resp.data.departures)] over the object [deps].
    A throw discards [deps], which is local. *)
Fixpoint bucket (departures : list Scheduled) (deps : gmap string (list Departure))
    : result (gmap string (list Departure)) :=
  match departures with
  | [] => Ok deps
  | dep :: rest =>
      if is_past dep then bucket rest deps
      else
        d ← depData dep;
        bucket rest (push_departure (platform_number dep) d deps)
  end.

(** *** Specification *)

(** The departures of the answer that a platform's queue is made from. *)
Definition kept (p : string) (departures : list Scheduled) : list Scheduled :=
  filter (λ dep, is_past dep = false ∧ platform_number dep = p) departures.

End bucket.

(** ** An answer to evaluate on *)

Definition sample_lines : gmap string string :=
  list_to_map [ ("ALM", "burnley"); ("FKN", "crosscity"); ("XXX", "") ].

(** At [now = 100000]: one departure long past, two for platform 1 and one
    for platform 2. *)
Definition sample_departures : DeparturesResponse :=
  mkDeparturesResponse
    [ mkScheduled 10000 "1" "11" 5; mkScheduled 50000 "1" "12" 5;
      mkScheduled 160000 "2" "21" 6; mkScheduled 220000 "1" "13" 7 ]%Z
    (list_to_map [ (5, mkRoute 0 (Some "2-ALM")); (6, mkRoute 0 (Some "2-FKN"));
                   (7, mkRoute 3 None) ]%Z)
    (list_to_map [ ("11", mkRun "11" 5 0 1071 "Flinders Street" None);
                   ("12", mkRun "12" 5 0 1071 "Flinders Street" None);
                   ("21", mkRun "21" 6 0 1073 "Frankston" None);
                   ("13", mkRun "13" 7 3 1500 "Traralgon" None) ]%Z).

(** The queues built from it at [now = 100000] with route 5 coloured. *)
Definition sample_deps : gmap string (list Departure) :=
  list_to_map
    [ ("1", [ raw_departure 0 "12" 50000 (Some "burnley");
              raw_departure 3 "13" 220000 None ]);
      ("2", [ raw_departure 0 "21" 160000 None ]) ]%Z.

(** ** Lemmas *)

Section colours_lemmas.
Context (metroLines : gmap string string).
Implicit Types (routes : gmap Z Route) (routeColours : gmap Z string).

(** The loop is an update of the map by the answer's routes. *)
Lemma set_colours_union routes routeColours :
  set_colours metroLines routes routeColours =
    (colour_of metroLines <$> routes) ∪ routeColours.
Proof.
  unfold set_colours.
  apply (map_fold_weak_ind (λ r m, r = (colour_of metroLines <$> m) ∪ routeColours)).
  - by rewrite fmap_empty, (left_id_L ∅ (∪)).
  - intros id route m r Hid ->. by rewrite fmap_insert, insert_union_l.
Qed.

(** No colour is the empty string or missing: a route is [vline],
    [special], or the group the table gives its line. *)
Lemma colour_of_cases (route : Route) :
  colour_of metroLines route = "vline" ∨ colour_of metroLines route = "special" ∨
  ∃ gtfs_id, route_gtfs_id route = Some gtfs_id ∧
    metroLines !! sdrop 2 gtfs_id = Some (colour_of metroLines route) ∧
    colour_of metroLines route ≠ "".
Proof.
  unfold colour_of, line_colour. case_bool_decide; [by left|].
  destruct (route_gtfs_id route) as [gtfs_id|]; [|by auto].
  case_bool_decide; [by auto|].
  destruct (metroLines !! sdrop 2 gtfs_id) as [colour|] eqn:Hc; [|by auto].
  case_bool_decide; [by auto|]. right; right. eauto.
Qed.

End colours_lemmas.

Section bucket_lemmas.
Context (respRuns : gmap string Run) (routeColours : gmap Z string) (now : Z).
Implicit Types (l : list Scheduled) (deps : gmap string (list Departure)) (p : string).

Lemma kept_cons p dep l :
  kept now p (dep :: l) =
    if bool_decide (is_past now dep = false ∧ platform_number dep = p)
    then dep :: kept now p l else kept now p l.
Proof. unfold kept. rewrite filter_cons. by case_decide; case_bool_decide. Qed.

Lemma push_departure_lookup p q d deps :
  default [] (push_departure q d deps !! p) =
    default [] (deps !! p) ++ (if bool_decide (q = p) then [d] else []).
Proof.
  unfold push_departure. case_bool_decide as Hq.
  - subst. by rewrite lookup_insert_eq.
  - by rewrite lookup_insert_ne, app_nil_r.
Qed.

Lemma push_departure_is_Some p q d deps :
  is_Some (push_departure q d deps !! p) ↔ q = p ∨ is_Some (deps !! p).
Proof.
  unfold push_departure. destruct (decide (q = p)) as [->|].
  - rewrite lookup_insert_eq. naive_solver.
  - rewrite lookup_insert_ne by done. naive_solver.
Qed.

(** The loop from any [deps]: every queue grows by the data of the
    departures kept for its platform. *)
Lemma bucket_from l deps deps' p :
  bucket respRuns routeColours now l deps = Ok deps' →
  ∃ q, traverse (depData respRuns routeColours) (kept now p l) = Ok q ∧
    default [] (deps' !! p) = default [] (deps !! p) ++ q ∧
    (is_Some (deps' !! p) ↔ is_Some (deps !! p) ∨ kept now p l ≠ []).
Proof.
  revert deps; induction l as [|dep l IH]; intros deps; simpl.
  { intros [= <-]. exists []. rewrite app_nil_r. naive_solver. }
  rewrite kept_cons. destruct (is_past now dep) eqn:Hpast.
  { rewrite bool_decide_eq_false_2 by naive_solver. apply IH. }
  destruct (depData respRuns routeColours dep) as [d|] eqn:Hd; simpl; [|done].
  intros (q & Hq & Hlook & Hsome)%IH.
  rewrite push_departure_lookup in Hlook. rewrite push_departure_is_Some in Hsome.
  destruct (decide (platform_number dep = p)) as [Hp|Hp].
  - rewrite bool_decide_eq_true_2 in Hlook by done. rewrite bool_decide_eq_true_2 by done.
    exists (d :: q). simpl. rewrite Hd, Hq. simpl.
    rewrite Hlook, <-app_assoc. split_and!; [done..|]. naive_solver.
  - rewrite bool_decide_eq_false_2 in Hlook by done.
    rewrite bool_decide_eq_false_2 by naive_solver.
    exists q. rewrite Hlook, app_nil_r. split_and!; [done..|]. naive_solver.
Qed.

(** The loop throws exactly when a departure it keeps has no run. *)
Lemma bucket_ok l deps :
  is_ok (bucket respRuns routeColours now l deps) = true ↔
  Forall (λ dep, is_past now dep = false → is_Some (respRuns !! sch_run_ref dep)) l.
Proof.
  revert deps; induction l as [|dep l IH]; intros deps; simpl; [done|].
  rewrite Forall_cons. destruct (is_past now dep) eqn:Hpast.
  { rewrite IH. naive_solver. }
  unfold depData. destruct (respRuns !! sch_run_ref dep) as [run|]; simpl.
  - rewrite IH. naive_solver.
  - split; [done|]. by intros [[]%(λ H, H eq_refl) _].
Qed.

Lemma bucket_err l deps e :
  bucket respRuns routeColours now l deps = Err e ↔
  e = TypeError ∧
  Exists (λ dep, is_past now dep = false ∧ respRuns !! sch_run_ref dep = None) l.
Proof.
  revert deps; induction l as [|dep l IH]; intros deps; simpl.
  { split; [done|]. by intros [_ ?%Exists_nil]. }
  rewrite Exists_cons. destruct (is_past now dep) eqn:Hpast.
  { rewrite IH. naive_solver. }
  unfold depData. destruct (respRuns !! sch_run_ref dep) as [run|]; simpl.
  - rewrite IH. naive_solver.
  - naive_solver.
Qed.

Lemma depData_time dep d : depData respRuns routeColours dep = Ok d → dep_time d = scheduled_departure_utc dep.
Proof.
  unfold depData. destruct (respRuns !! sch_run_ref dep); simpl; [|done].
  by intros [= <-].
Qed.

End bucket_lemmas.

(** ** Theorems *)

Section refresh_theorems.
Context (metroLines : gmap string string).
Context (respRuns : gmap string Run) (routeColours : gmap Z string) (now : Z).
Implicit Types (l : list Scheduled) (deps : gmap string (list Departure)) (p : string).

(** C26. After the loop over the answer's routes the colour of a route the
    answer holds is the one the [if] chain gives it, and a route the answer
    does not hold keeps the colour it had: the map is never cleared. *)
Theorem set_colours_lookup (routes : gmap Z Route) (id : Z) :
  set_colours metroLines routes routeColours !! id =
    match routes !! id with
    | Some route => Some (colour_of metroLines route)
    | None => routeColours !! id
    end.
Proof.
  rewrite set_colours_union, lookup_union, lookup_fmap.
  destruct (routes !! id); simpl; [by rewrite union_Some_l|by rewrite (left_id_L None _)].
Qed.

(** C13. The board [fetchDepartures] builds: the queue of a platform is the
    data of the answer's departures for that platform that are not more
    than a minute past, in the answer's order, and a platform without such
    a departure has no queue at all. *)
Theorem bucket_queues l deps p :
  bucket respRuns routeColours now l ∅ = Ok deps →
  traverse (depData respRuns routeColours) (kept now p l) = Ok (default [] (deps !! p)) ∧
  (deps !! p = None ↔ kept now p l = []).
Proof.
  intros (q & Hq & Hlook & Hsome)%(bucket_from _ _ _ _ _ _ p).
  rewrite lookup_empty in Hlook, Hsome. simpl in Hlook. subst q. split; [done|].
  rewrite eq_None_not_Some, Hsome, is_Some_alt. destruct (kept now p l); naive_solver.
Qed.

(** C27. The loop throws, and [fetchDepartures] is rejected with a
    [TypeError], exactly when a departure it keeps names a run that
    [resp.data.runs] does not hold. *)
Theorem bucket_throws l :
  bucket respRuns routeColours now l ∅ = Err TypeError ↔
  Exists (λ dep, is_past now dep = false ∧ respRuns !! sch_run_ref dep = None) l.
Proof. rewrite bucket_err. naive_solver. Qed.

End refresh_theorems.

(** ** Witnesses *)

Example sample_colours_after :
  set_colours sample_lines (dr_routes sample_departures) {[ 9%Z := "burnley" ]} =
  list_to_map [ (5, "burnley"); (6, "crosscity"); (7, "vline"); (9, "burnley") ]%Z.
Proof. vm_compute. reflexivity. Qed.

Example sample_bucket :
  bucket (dr_runs sample_departures) {[ 5%Z := "burnley" ]} 100000
    (dr_departures sample_departures) ∅ = Ok sample_deps.
Proof. vm_compute. reflexivity. Qed.

Lemma bucket_queues_witness :
  traverse (depData (dr_runs sample_departures) {[ 5%Z := "burnley" ]})
    (kept 100000 "1" (dr_departures sample_departures))
    = Ok (default [] (sample_deps !! "1")) ∧
  (sample_deps !! "1" = None ↔ kept 100000 "1" (dr_departures sample_departures) = []).
Proof.
  exact (bucket_queues (dr_runs sample_departures) {[ 5%Z := "burnley" ]} 100000
           _ _ "1" sample_bucket).
Defined.

(** At [now = 250000] every departure of platform 2 is past: the platform
    has no queue, and the last departure of platform 1 is the board. *)
Example sample_bucket_late :
  bucket (dr_runs sample_departures) ∅ 250000 (dr_departures sample_departures) ∅
  = Ok {[ "1" := [ raw_departure 3 "13" 220000 None ] ]}.
Proof. vm_compute. reflexivity. Qed.
