(* ===== verification/Pattern.v ===== *)
(** * Pattern: [fetchPattern]

    The walk over the stopping pattern of a run ([app.js], [fetchPattern]):
    stops before the home station are dropped unless [saveAll]; from the
    home station on every call becomes a served [Stop] followed by the
    stops skipped after it.  The request itself is [get_pattern] of the
    interface [Upstream]; [pattern_result] is what the function does with
    the answer.

    Theorems: the walk as "drop the stops before home, expand the rest"
    ([pattern_result_from_home]); the home station is the first entry of the
    result; the served entries are the calls from home on, in order; the
    only failure besides the request's is a stop without a name. *)

From S2P Require Import Prelude JsString Model.

Section pattern.
Context (STATION : StationValue).

(** ** Definitions *)

(** [{ id: stop.stop_id, name: resp.data.stops[stop.stop_id].stop_name
       .replace(/-.*$/gm, ''), skipped: false }] *)
Definition served_entry (resp : PatternResponse) (stop : PatternStop) : result Stop :=
  name ← required (pr_stops resp !! stop_id stop);
  Ok (mkStop (stop_id stop) (strip_locality name) false).

(** [{ id: skipStop.stop_id, name: skipStop.stop_name.replace(/ Station/gm, '')
       .replace(/-.*$/gm, ''), skipped: true }] *)
Definition skipped_entry (sk : SkippedStop) : Stop :=
  mkStop (skip_stop_id sk)
    (strip_locality (replace_all " Station" "" (skip_stop_name sk))) true.

(** What one iteration of the loop pushes once saving has started. *)
Definition stop_entries (resp : PatternResponse) (stop : PatternStop) : result (list Stop) :=
  s ← served_entry resp stop;
  Ok (s :: (skipped_entry <$> skipped_stops stop)).

(** The loop [for (const stop of resp.data.departures)], with its two
    variables [startSaving] and [note]; the result is [stations] and the
    final [note]. *)
Fixpoint walk_pattern (resp : PatternResponse) (startSaving : bool) (note : string)
    (stops : list PatternStop) : result (list Stop * string) :=
  match stops with
  | [] => Ok ([], note)
  | stop :: rest =>
      if startSaving then
        es ← stop_entries resp stop;
        r ← walk_pattern resp true note rest;
        Ok (es ++ r.1, r.2)
      else if is_home STATION (stop_id stop) then
        es ← stop_entries resp stop;
        r ← walk_pattern resp true (departure_note stop) rest;
        Ok (es ++ r.1, r.2)
      else walk_pattern resp false note rest
  end.

(** The body of [fetchPattern] after the [await]. *)
Definition pattern_result (resp : PatternResponse) (run : string) (saveAll : bool)
    : result PatternResult :=
  r ← walk_pattern resp saveAll "" (pr_departures resp);
  Ok (mkPatternResult r.1 r.2 (pr_runs resp !! run)).

(** [fetchPattern(type, run, saveAll)] *)
Definition fetchPattern `{Upstream} (type : Z) (run : string) (saveAll : bool)
    : result PatternResult :=
  resp ← get_pattern run type;
  pattern_result resp run saveAll.

(** ** Specification: expand every call *)

Fixpoint expand_all (resp : PatternResponse) (stops : list PatternStop)
    : result (list Stop) :=
  match stops with
  | [] => Ok []
  | stop :: rest =>
      es ← stop_entries resp stop;
      tl ← expand_all resp rest;
      Ok (es ++ tl)
  end.

(** The calls from the first one at the home station on. *)
Fixpoint from_home (stops : list PatternStop) : list PatternStop :=
  match stops with
  | [] => []
  | stop :: rest => if is_home STATION (stop_id stop) then stops else from_home rest
  end.

Definition all_named (resp : PatternResponse) (stops : list PatternStop) : Prop :=
  Forall (λ stop, is_Some (pr_stops resp !! stop_id stop)) stops.

(** The note [fetchPattern] returns: the home call's, or the initial [""]. *)
Definition note_from_home (stops : list PatternStop) : string :=
  match from_home stops with
  | [] => ""
  | stop :: _ => departure_note stop
  end.

End pattern.

(** ** A pattern to evaluate on *)

(** Stops 1001, 1002 (home), 1003, 1071 in order, with 1004 and 1005 skipped
    after 1002; stop 1003's name carries a locality suffix. *)
Definition sample_pattern : PatternResponse :=
  mkPatternResponse
    [ mkPatternStop 1001 "" [];
      mkPatternStop 1002 "Delayed" [mkSkippedStop 1004 "East Richmond Station"];
      mkPatternStop 1003 "" [];
      mkPatternStop 1071 "" [] ]
    (list_to_map [ (1001, "Burnley"); (1002, "Richmond");
                   (1003, "Jolimont-MCG"); (1071, "Flinders Street") ]%Z)
    (list_to_map [ ("951", mkRun "951" 7 0 1071 "Flinders Street" None) ]).

(** The sample pattern without a name for stop 1003. *)
Definition nameless_pattern : PatternResponse :=
  mkPatternResponse (pr_departures sample_pattern)
    (delete 1003%Z (pr_stops sample_pattern)) (pr_runs sample_pattern).

Definition nameless_upstream : Upstream :=
  {| get_pattern run type := Ok nameless_pattern |}.

(** ** Lemmas *)

Section pattern_lemmas.
Context (STATION : StationValue).

Lemma stop_entries_ok resp stop es :
  stop_entries resp stop = Ok es →
  ∃ name, pr_stops resp !! stop_id stop = Some name ∧
    es = mkStop (stop_id stop) (strip_locality name) false
           :: (skipped_entry <$> skipped_stops stop).
Proof.
  unfold stop_entries, served_entry.
  destruct (pr_stops resp !! stop_id stop); simpl; [|done]. intros [= <-]. eauto.
Qed.

Lemma stop_entries_err resp stop e :
  stop_entries resp stop = Err e → pr_stops resp !! stop_id stop = None ∧ e = TypeError.
Proof.
  unfold stop_entries, served_entry.
  destruct (pr_stops resp !! stop_id stop); simpl; [done|]. by intros [= <-].
Qed.

Lemma stop_entries_named resp stop :
  is_Some (pr_stops resp !! stop_id stop) → is_ok (stop_entries resp stop) = true.
Proof. unfold stop_entries, served_entry. by intros [name ->]. Qed.

(** Once saving, the walk expands every call and keeps the note. *)
Lemma walk_pattern_saving resp note stops :
  walk_pattern STATION resp true note stops = (l ← expand_all resp stops; Ok (l, note)).
Proof.
  induction stops as [|stop rest IH]; simpl; [done|].
  destruct (stop_entries resp stop); simpl; [|done].
  rewrite IH. by destruct (expand_all resp rest).
Qed.

(** Before home, the walk skips to the first call at the home station. *)
Lemma walk_pattern_waiting resp note stops :
  walk_pattern STATION resp false note stops =
    match from_home STATION stops with
    | [] => Ok ([], note)
    | stop :: rest => walk_pattern STATION resp true (departure_note stop) (stop :: rest)
    end.
Proof.
  induction stops as [|stop rest IH]; simpl; [done|].
  destruct (is_home STATION (stop_id stop)) eqn:Hh; simpl; [done|]. by rewrite IH.
Qed.

Lemma from_home_suffix stops : from_home STATION stops `suffix_of` stops.
Proof.
  induction stops as [|stop rest IH]; simpl; [done|].
  case_match; [done|]. by apply suffix_cons_r.
Qed.

Lemma from_home_head stop rest stops :
  from_home STATION stops = stop :: rest → stop_id stop = station_number STATION.
Proof.
  induction stops as [|s l IH]; simpl; [done|].
  destruct (is_home STATION (stop_id s)) eqn:Hh; [|done].
  intros [= -> ->]. by apply bool_decide_eq_true in Hh.
Qed.

Lemma from_home_nil stops :
  from_home STATION stops = [] ↔ Forall (λ stop, stop_id stop ≠ station_number STATION) stops.
Proof.
  induction stops as [|s l IH]; simpl; [done|].
  unfold is_home. case_bool_decide; rewrite ?Forall_cons; naive_solver.
Qed.

Lemma expand_all_app resp l1 l2 :
  expand_all resp (l1 ++ l2) =
    (a ← expand_all resp l1; b ← expand_all resp l2; Ok (a ++ b)).
Proof.
  induction l1 as [|stop l1 IH]; simpl.
  - by destruct (expand_all resp l2).
  - destruct (stop_entries resp stop); simpl; [|done]. rewrite IH.
    destruct (expand_all resp l1); simpl; [|done].
    destruct (expand_all resp l2); simpl; [|done]. by rewrite app_assoc.
Qed.

Lemma expand_all_named resp stops :
  all_named resp stops ↔ is_ok (expand_all resp stops) = true.
Proof.
  unfold all_named. induction stops as [|stop rest IH]; simpl; [done|].
  rewrite Forall_cons, IH. unfold stop_entries, served_entry.
  destruct (pr_stops resp !! stop_id stop); simpl.
  - destruct (expand_all resp rest); naive_solver.
  - split; [by intros [[] _]|done].
Qed.

Lemma expand_all_err resp stops e : expand_all resp stops = Err e → e = TypeError.
Proof.
  induction stops as [|stop rest IH]; simpl; [done|].
  destruct (stop_entries resp stop) eqn:Hs; simpl.
  - destruct (expand_all resp rest); naive_solver.
  - intros [= <-]. by apply stop_entries_err in Hs as [_ ->].
Qed.

(** The served entries of an expansion are its calls, in order. *)
Lemma expand_all_served resp stops l :
  expand_all resp stops = Ok l →
  st_id <$> filter (λ s, st_skipped s = false) l = stop_id <$> stops.
Proof.
  revert l; induction stops as [|stop rest IH]; intros l; simpl; [by intros [= <-]|].
  destruct (stop_entries resp stop) as [es|] eqn:Hes; simpl; [|done].
  destruct (expand_all resp rest) as [tl|]; simpl; [|done]. intros [= <-].
  apply stop_entries_ok in Hes as (name & _ & ->).
  rewrite filter_app, fmap_app, (IH tl eq_refl), filter_cons_True by done.
  rewrite filter_Forall_nil; [done|]. by apply Forall_fmap, Forall_true.
Qed.

(** The skipped entries of an expansion are the skipped stops, in order. *)
Lemma expand_all_skipped resp stops l :
  expand_all resp stops = Ok l →
  filter (λ s, st_skipped s = true) l =
    skipped_entry <$> concat (skipped_stops <$> stops).
Proof.
  revert l; induction stops as [|stop rest IH]; intros l; simpl; [by intros [= <-]|].
  destruct (stop_entries resp stop) as [es|] eqn:Hes; simpl; [|done].
  destruct (expand_all resp rest) as [tl|]; simpl; [|done]. intros [= <-].
  apply stop_entries_ok in Hes as (name & _ & ->).
  rewrite filter_app, fmap_app, (IH tl eq_refl), filter_cons_False by done.
  f_equal. by apply filter_Forall_id, Forall_fmap, Forall_true.
Qed.

End pattern_lemmas.

(** ** Theorems *)

Section pattern_theorems.
Context (STATION : StationValue).
Implicit Types (resp : PatternResponse) (r : PatternResult).

(** Without [saveAll] the loop expands the calls from the first one at the
    home station on. *)
Lemma pattern_result_waiting resp run :
  pattern_result STATION resp run false =
    (l ← expand_all resp (from_home STATION (pr_departures resp));
     Ok (mkPatternResult l (note_from_home STATION (pr_departures resp))
           (pr_runs resp !! run))).
Proof.
  unfold pattern_result, note_from_home. rewrite walk_pattern_waiting.
  destruct (from_home STATION (pr_departures resp)) as [|stop rest]; [done|].
  rewrite walk_pattern_saving. by destruct (expand_all resp (stop :: rest)).
Qed.

(** With [saveAll] it expands the whole pattern and keeps the empty note. *)
Lemma pattern_result_saving resp run :
  pattern_result STATION resp run true =
    (l ← expand_all resp (pr_departures resp);
     Ok (mkPatternResult l "" (pr_runs resp !! run))).
Proof.
  unfold pattern_result. rewrite walk_pattern_saving.
  by destruct (expand_all resp (pr_departures resp)).
Qed.

(** C3. [fetchPattern]'s loop produces exactly the expansion (every call a
    served stop followed by the stops skipped after it) of the calls it
    keeps: all of them with [saveAll], otherwise those from the first call
    at the home station on, whose departure note it returns; the calls
    before it leave no trace. *)
Theorem pattern_result_from_home resp run saveAll :
  pattern_result STATION resp run saveAll =
    (l ← expand_all resp
           (if saveAll then pr_departures resp
            else from_home STATION (pr_departures resp));
     Ok (mkPatternResult l
           (if saveAll then "" else note_from_home STATION (pr_departures resp))
           (pr_runs resp !! run))).
Proof.
  destruct saveAll; [apply pattern_result_saving|apply pattern_result_waiting].
Qed.

(** C38. The first entry of [stations] is the home station itself, served:
    the list does not begin at the next stop. *)
Theorem pattern_result_home_first resp run r s tl :
  pattern_result STATION resp run false = Ok r →
  res_stations r = s :: tl →
  st_id s = station_number STATION ∧ st_skipped s = false.
Proof.
  rewrite pattern_result_waiting.
  destruct (from_home STATION (pr_departures resp)) as [|stop rest] eqn:Hfh; simpl.
  { by intros [= <-]. }
  destruct (stop_entries resp stop) as [es|] eqn:Hes; simpl; [|done].
  apply stop_entries_ok in Hes as (name & _ & ->).
  destruct (expand_all resp rest); simpl; [|done].
  intros [= <-] [= <- _]. split; [|done]. by apply from_home_head in Hfh.
Qed.

(** The served entries are the calls from home on, in the pattern's
    order. *)
Theorem pattern_result_served resp run r :
  pattern_result STATION resp run false = Ok r →
  st_id <$> filter (λ s, st_skipped s = false) (res_stations r)
    = stop_id <$> from_home STATION (pr_departures resp).
Proof.
  rewrite pattern_result_waiting.
  destruct (expand_all resp _) as [l|] eqn:Hl; simpl; [|done].
  intros [= <-]. by apply expand_all_served in Hl.
Qed.

(** [fetchPattern] fails only as the request fails or, with a
    [TypeError], because a stop it keeps has no entry in [resp.data.stops]. *)
Theorem fetchPattern_error `{Upstream} type run e :
  fetchPattern STATION type run false = Err e →
  get_pattern run type = Err e ∨
  ∃ resp, get_pattern run type = Ok resp ∧ e = TypeError ∧
    ¬ all_named resp (from_home STATION (pr_departures resp)).
Proof.
  unfold fetchPattern. destruct (get_pattern run type) as [resp|] eqn:Hg; simpl;
    [|intros [= ->]; by left].
  rewrite pattern_result_waiting. intros He. right. exists resp.
  destruct (expand_all resp _) as [l|] eqn:Hl; simpl in He; [done|].
  injection He as <-. split_and!; [done|by eapply expand_all_err|].
  by rewrite expand_all_named, Hl.
Qed.

End pattern_theorems.

(** ** Witnesses *)

Example sample_pattern_result :
  pattern_result (StationNumber 1002) sample_pattern "951" false =
  Ok (mkPatternResult
        [ mkStop 1002 "Richmond" false; mkStop 1004 "East Richmond" true;
          mkStop 1003 "Jolimont" false; mkStop 1071 "Flinders Street" false ]
        "Delayed"
        (Some (mkRun "951" 7 0 1071 "Flinders Street" None))).
Proof. vm_compute. reflexivity. Qed.

Lemma pattern_result_home_first_witness :
  st_id (mkStop 1002 "Richmond" false) = station_number (StationNumber 1002) ∧
  st_skipped (mkStop 1002 "Richmond" false) = false.
Proof.
  eapply (pattern_result_home_first (StationNumber 1002) sample_pattern "951");
    [exact sample_pattern_result|reflexivity].
Defined.

Lemma pattern_result_served_witness :
  st_id <$> filter (λ s, st_skipped s = false)
    [ mkStop 1002 "Richmond" false; mkStop 1004 "East Richmond" true;
      mkStop 1003 "Jolimont" false; mkStop 1071 "Flinders Street" false ]
  = stop_id <$> from_home (StationNumber 1002) (pr_departures sample_pattern).
Proof.
  exact (pattern_result_served (StationNumber 1002) sample_pattern "951" _
           sample_pattern_result).
Defined.

Lemma fetchPattern_error_witness :
  @get_pattern nameless_upstream "951" 0 = Err TypeError ∨
  ∃ resp, @get_pattern nameless_upstream "951" 0 = Ok resp ∧ TypeError = TypeError ∧
    ¬ all_named resp (from_home (StationNumber 1002) (pr_departures resp)).
Proof.
  apply (@fetchPattern_error (StationNumber 1002) nameless_upstream 0 "951" TypeError).
  vm_compute. reflexivity.
Defined.
