(* ===== verification/Names.v ===== *)
(** * Names: CBD stations and display names

    [isCBDStation] and [shortenName] of [app.js], the constant
    [cbdStation], and the test [dep.dest.length > 14] that guards the
    shortening of a destination ([display_dest]).

    Theorems: [shortenName] on a one-line name abbreviates the first of its
    five words the name begins with and nothing else; it never lengthens a
    name; a destination of at most 14 characters is displayed unchanged. *)

From S2P Require Import Prelude JsString Model.

(** ** Station predicates and names *)

Definition FLINDERS_STREET : Z := 1071%Z.
Definition SOUTHERN_CROSS : Z := 1181%Z.

(** [[1068, 1120, 1155, 1181, 1071].includes(id)] for a number [id]. *)
Definition isCBDStation (id : Z) : bool :=
  bool_decide (id ∈ [1068; 1120; 1155; SOUTHERN_CROSS; FLINDERS_STREET]%Z).

(** [const cbdStation = isCBDStation(STATION)]: [includes] compares with
    SameValueZero, so a [STATION] that is a string equals no element. *)
Definition cbdStation (STATION : StationValue) : bool :=
  match STATION with
  | StationNumber n => isCBDStation n
  | StationString _ => false
  end.

(** The chain of five replaces of [shortenName]. *)
Definition shortenName (name : string) : string :=
  replace_line_start "Upper " "U "
    (replace_line_start "South " "S "
      (replace_line_start "West " "W "
        (replace_line_start "East " "E "
          (replace_line_start "North " "N " name)))).

(** [if (dep.dest.length > 14) dep.dest = shortenName(dep.dest)]: the
    destination as displayed. *)
Definition display_dest (dest : string) : string :=
  if bool_decide (14 < String.length dest) then shortenName dest else dest.
(** ** Theorems: names *)

Section names.
Implicit Types (name dest : string).

Lemma single_line_replaced rep n name :
  single_line rep = true → single_line name = true →
  single_line (rep +:+ sdrop n name) = true.
Proof.
  unfold single_line. intros Hrep Hname.
  by rewrite sall_app, Hrep, sall_sdrop.
Qed.

(** One step of the chain on a one-line name. *)
Lemma shorten_step pat rep name :
  pat ≠ "" → single_line rep = true → single_line name = true →
  replace_line_start pat rep name =
    (if String.prefix pat name then rep +:+ sdrop (String.length pat) name else name)
  ∧ single_line (replace_line_start pat rep name) = true.
Proof.
  intros. rewrite replace_line_start_single by done.
  split; [done|]. case_match; [by apply single_line_replaced|done].
Qed.

(** [shortenName] on a one-line name: the first of the five words the
    name begins with is abbreviated to its initial, and nothing else. *)
Theorem shortenName_single name :
  single_line name = true →
  shortenName name =
    if String.prefix "North " name then "N " +:+ sdrop 6 name
    else if String.prefix "East " name then "E " +:+ sdrop 5 name
    else if String.prefix "West " name then "W " +:+ sdrop 5 name
    else if String.prefix "South " name then "S " +:+ sdrop 6 name
    else if String.prefix "Upper " name then "U " +:+ sdrop 6 name
    else name.
Proof.
  intros Hn. unfold shortenName.
  destruct (shorten_step "North " "N " name) as [-> H1]; [done..|].
  destruct (shorten_step "East " "E " _ ltac:(done) eq_refl H1) as [-> H2].
  destruct (shorten_step "West " "W " _ ltac:(done) eq_refl H2) as [-> H3].
  destruct (shorten_step "South " "S " _ ltac:(done) eq_refl H3) as [-> H4].
  destruct (shorten_step "Upper " "U " _ ltac:(done) eq_refl H4) as [-> _].
  clear. simpl String.length.
  destruct (String.prefix "North " name); [done|].
  destruct (String.prefix "East " name); [done|].
  destruct (String.prefix "West " name); [done|].
  destruct (String.prefix "South " name); [done|].
  done.
Qed.

Lemma shortenName_length name : String.length (shortenName name) ≤ String.length name.
Proof.
  unfold shortenName.
  repeat (etrans; [apply replace_line_start_length; simpl; lia|]). done.
Qed.

(** A destination of at most 14 characters is displayed as it is. *)
Theorem display_dest_short dest :
  String.length dest ≤ 14 → display_dest dest = dest.
Proof. intros. unfold display_dest. rewrite bool_decide_eq_false_2; [done|lia]. Qed.

(** The displayed destination is never longer than the resolved one. *)
Theorem display_dest_length dest :
  String.length (display_dest dest) ≤ String.length dest.
Proof. unfold display_dest. case_bool_decide; [apply shortenName_length|done]. Qed.

Example display_dest_north_melbourne : display_dest "North Melbourne" = "N Melbourne".
Proof. reflexivity. Qed.

(** [East Richmond] has 13 characters: it is abbreviated in a subtitle,
    where the length is not tested, and not as a destination. *)
Example display_dest_east_richmond :
  display_dest "East Richmond" = "East Richmond" ∧
  shortenName "East Richmond" = "E Richmond".
Proof. split; reflexivity. Qed.

End names.

(** ** Witnesses *)

Lemma shortenName_single_witness :
  shortenName "Upper Ferntree Gully" = "U Ferntree Gully".
Proof. exact (shortenName_single "Upper Ferntree Gully" eq_refl). Defined.

Lemma display_dest_short_witness : display_dest "South Yarra" = "South Yarra".
Proof. apply (display_dest_short "South Yarra"). simpl. lia. Defined.
