(* ===== verification/Classifier.v ===== *)
(** * Classifier: the subtitle of a stopping pattern

    The loop of [fetchDepartureDetails] that counts skipped legs and
    collects the skipped stops, the [if] chain that picks the words, and the
    three assignments that append the note, trim and capitalise.

    Theorems: the counting loop on patterns given by their blocks of served
    and skipped stops; every row of the classification table; trimming at
    the start and capitalising never change a subtitle. *)

From S2P Require Import Prelude JsString Model Names.

(** ** The subtitle *)

(** The three variables of the classifying loop. *)
Record Skips : Type := mkSkips {
  skippedStations : list Stop;
  skipped : bool;
  skippedLegs : nat;
}.

(** One iteration: [if (!skipped && stop.skipped) skippedLegs++;
    skipped = stop.skipped; if (skipped) skippedStations.push(stop);] *)
Definition count_skip (k : Skips) (stop : Stop) : Skips :=
  mkSkips
    (if st_skipped stop then skippedStations k ++ [stop] else skippedStations k)
    (st_skipped stop)
    (if negb (skipped k) && st_skipped stop then S (skippedLegs k) else skippedLegs k).

Definition count_skips (stations : list Stop) : Skips :=
  fold_left count_skip stations (mkSkips [] false 0).

(** The [if] chain that chooses the subtitle before the note is added. *)
Definition pattern_subtitle (k : Skips) (note : string) : string :=
  match skippedLegs k with
  | 0 => "Stops all"
  | 1 =>
      match skippedStations k with
      | [stop] =>
          if bool_decide (String.length note = 0)
          then "Not stopping at " +:+ shortenName (st_name stop)
          else "Ltd express"
      | l => if bool_decide (4 ≤ length l) then "Express" else "Ltd express"
      end
  | _ => "Ltd express"
  end.

(** The value [dep.subtitle] ends with: note appended, trimmed, first
    character upper-cased. *)
Definition subtitle_of (stations : list Stop) (note : string) : string :=
  capitalize (trim (pattern_subtitle (count_skips stations) note +:+ " " +:+ note)).

(** ** Specification vocabulary *)

Definition served (s : Stop) : Prop := st_skipped s = false.
Definition missed (s : Stop) : Prop := st_skipped s = true.

(** The subtitle the server means: the pattern's words, then the note. *)
Definition with_note (words note : string) : string :=
  trim_end (words +:+ " " +:+ note).

(** ** Lemmas: the classifying loop *)

Section count_skips.
Implicit Types (k : Skips) (l : list Stop) (s : Stop).

Lemma count_skips_snoc l s : count_skips (l ++ [s]) = count_skip (count_skips l) s.
Proof. unfold count_skips. by rewrite fold_left_app. Qed.

(** A run of served stops ends a leg and counts nothing. *)
Lemma fold_count_served l k :
  Forall served l → l ≠ [] →
  fold_left count_skip l k = mkSkips (skippedStations k) false (skippedLegs k).
Proof.
  intros Hl. revert k. induction Hl as [|s l Hs Hl IH]; intros k ?; [done|]. simpl.
  destruct (decide (l = [])) as [->|Hne]; [|rewrite IH by done];
    unfold count_skip; rewrite Hs; simpl; by rewrite ?andb_false_r.
Qed.

(** A run of skipped stops is collected, and opens a leg unless one is open. *)
Lemma fold_count_missed l k :
  Forall missed l → l ≠ [] →
  fold_left count_skip l k =
    mkSkips (skippedStations k ++ l) true
      (if skipped k then skippedLegs k else S (skippedLegs k)).
Proof.
  intros Hl. revert k. induction Hl as [|s l Hs Hl IH]; intros k ?; [done|]. simpl.
  destruct (decide (l = [])) as [->|Hne]; [|rewrite IH by done];
    unfold count_skip; rewrite Hs; simpl; rewrite ?andb_true_r, <-?app_assoc;
    by destruct (skipped k).
Qed.

Lemma fold_count_served_legs l k :
  Forall served l → skippedLegs (fold_left count_skip l k) = skippedLegs k.
Proof.
  intros Hl. destruct (decide (l = [])) as [->|]; [done|]. by rewrite fold_count_served.
Qed.

Lemma fold_count_served_stations l k :
  Forall served l → skippedStations (fold_left count_skip l k) = skippedStations k.
Proof.
  intros Hl. destruct (decide (l = [])) as [->|]; [done|]. by rewrite fold_count_served.
Qed.

(** The leg counter never decreases. *)
Lemma fold_count_legs_mono l k : skippedLegs k ≤ skippedLegs (fold_left count_skip l k).
Proof.
  revert k; induction l as [|s l IH]; intros k; simpl; [done|].
  etrans; [|apply IH]. unfold count_skip; simpl. case_match; lia.
Qed.

(** [skippedStations] is the skipped stops, in order. *)
Lemma count_skips_stations l :
  skippedStations (count_skips l) = filter missed l.
Proof.
  induction l as [|s l IH] using rev_ind; [done|].
  rewrite count_skips_snoc, filter_app. unfold count_skip; simpl. rewrite IH.
  unfold missed at 3. destruct (st_skipped s) eqn:Hs.
  - by rewrite filter_cons_True.
  - rewrite filter_cons_False by (unfold missed; congruence). by rewrite app_nil_r.
Qed.

(** No leg is counted exactly when every stop is served. *)
Lemma count_skips_no_leg l : skippedLegs (count_skips l) = 0 ↔ Forall served l.
Proof.
  split; [|intros; unfold count_skips; by rewrite fold_count_served_legs].
  induction l as [|s l IH] using rev_ind; [done|].
  rewrite count_skips_snoc, Forall_app, Forall_singleton. unfold count_skip; simpl.
  destruct (st_skipped s) eqn:Hs; simpl; [|rewrite andb_false_r; by auto].
  destruct (skipped (count_skips l)) eqn:Hk; simpl; [|done].
  intros Hz. specialize (IH Hz). exfalso.
  destruct l as [|s' l _] using rev_ind; [done|].
  rewrite count_skips_snoc in Hk. simpl in Hk.
  apply Forall_app in IH as [_ [Hs' _]%Forall_cons]. unfold served in Hs'. congruence.
Qed.

(** One block of skipped stops between served ones: one leg, the block. *)
Lemma count_skips_one_block pre block post :
  Forall served pre → Forall missed block → block ≠ [] → Forall served post →
  skippedLegs (count_skips (pre ++ block ++ post)) = 1 ∧
  skippedStations (count_skips (pre ++ block ++ post)) = block.
Proof.
  intros Hpre Hblock Hne Hpost. unfold count_skips.
  rewrite !fold_left_app, fold_count_served_legs, fold_count_served_stations by done.
  rewrite fold_count_missed by done. simpl.
  rewrite fold_count_served_legs, fold_count_served_stations by done.
  destruct (decide (pre = [])) as [->|]; [done|]. by rewrite fold_count_served.
Qed.

(** While a leg is open it has been counted. *)
Lemma count_skips_open_leg l :
  skipped (count_skips l) = true → 1 ≤ skippedLegs (count_skips l).
Proof.
  destruct l as [|s l _] using rev_ind; [done|].
  rewrite count_skips_snoc. unfold count_skip; simpl. intros ->.
  destruct (skipped (count_skips l)) eqn:Hk; simpl; [|lia].
  destruct l as [|s' l IH] using rev_ind; [done|].
  rewrite count_skips_snoc in *. simpl in *. rewrite Hk.
  destruct (skipped (count_skips l)) eqn:Hk'; simpl; [auto|lia].
Qed.

(** Two blocks of skipped stops separated by a served stop: two legs or more. *)
Lemma count_skips_two_blocks pre b1 mid b2 post :
  Forall missed b1 → b1 ≠ [] → Forall served mid → mid ≠ [] →
  Forall missed b2 → b2 ≠ [] →
  2 ≤ skippedLegs (count_skips (pre ++ b1 ++ mid ++ b2 ++ post)).
Proof.
  intros Hb1 ? Hmid ? Hb2 ?. pose proof (count_skips_open_leg pre) as Hpre.
  unfold count_skips in *.
  rewrite !fold_left_app. etrans; [|apply fold_count_legs_mono].
  rewrite (fold_count_missed b2), (fold_count_served mid), (fold_count_missed b1) by done.
  simpl. case_match; [specialize (Hpre eq_refl)|]; lia.
Qed.

End count_skips.

(** ** Theorems: the subtitle *)

Section subtitle.
Implicit Types (k : Skips) (l : list Stop) (s : Stop) (note : string).

(** Every choice of the [if] chain begins with a capital letter. *)
Lemma pattern_subtitle_head k note :
  ∃ c rest, pattern_subtitle k note = String c rest ∧
    is_trim_space c = false ∧ is_lower c = false.
Proof.
  unfold pattern_subtitle.
  repeat case_match; eauto using sapp_cons.
Qed.

Lemma subtitle_of_words l note :
  subtitle_of l note = with_note (pattern_subtitle (count_skips l) note) note.
Proof.
  unfold subtitle_of, with_note, trim.
  destruct (pattern_subtitle_head (count_skips l) note) as (c & rest & -> & Hc & Hl).
  rewrite sapp_cons, trim_start_fixed by done.
  destruct (trim_end_head c (rest +:+ " " +:+ note) Hc) as [r ->].
  by apply capitalize_upper.
Qed.

(** C40. Trimming at the start and upper-casing the first character never
    change a subtitle: of the three calls that follow the choice of words,
    only the trim at the end has an effect, and the subtitle begins with
    the capital the words begin with. *)
Theorem subtitle_of_with_note l note :
  subtitle_of l note = trim_end (pattern_subtitle (count_skips l) note +:+ " " +:+ note) ∧
  ∃ c rest, subtitle_of l note = String c rest ∧ is_lower c = false.
Proof.
  split; [apply subtitle_of_words|]. rewrite subtitle_of_words. unfold with_note.
  destruct (pattern_subtitle_head (count_skips l) note) as (c & rest & -> & Hc & Hl).
  rewrite sapp_cons. destruct (trim_end_head c (rest +:+ " " +:+ note) Hc) as [r ->].
  eauto.
Qed.

(** C9. A pattern that skips no stop is "Stops all". *)
Theorem subtitle_stops_all l note :
  Forall served l → subtitle_of l note = with_note "Stops all" note.
Proof.
  intros Hl. rewrite subtitle_of_words. unfold pattern_subtitle.
  by rewrite (proj2 (count_skips_no_leg l) Hl).
Qed.

(** C2. A pattern that skips one block of stops between served ones: a
    single skipped stop is named when there is no note; four or more are
    "Express"; anything else is "Ltd express". *)
Theorem subtitle_one_block pre block post note :
  Forall served pre → Forall missed block → block ≠ [] → Forall served post →
  subtitle_of (pre ++ block ++ post) note =
    with_note
      match block with
      | [s] => if bool_decide (note = "")
               then "Not stopping at " +:+ shortenName (st_name s)
               else "Ltd express"
      | _ => if bool_decide (4 ≤ length block) then "Express" else "Ltd express"
      end note.
Proof.
  intros Hpre Hblock Hne Hpost. rewrite subtitle_of_words. unfold pattern_subtitle.
  destruct (count_skips_one_block pre block post) as [-> ->]; [done..|].
  destruct block as [|s [|s' block]]; [done| |done].
  by destruct note.
Qed.

(** C10. A pattern that skips two blocks of stops separated by served ones
    is "Ltd express", however many stops it skips. *)
Theorem subtitle_two_blocks pre b1 mid b2 post note :
  Forall missed b1 → b1 ≠ [] → Forall served mid → mid ≠ [] →
  Forall missed b2 → b2 ≠ [] →
  subtitle_of (pre ++ b1 ++ mid ++ b2 ++ post) note = with_note "Ltd express" note.
Proof.
  intros. rewrite subtitle_of_words. unfold pattern_subtitle.
  assert (2 ≤ skippedLegs (count_skips (pre ++ b1 ++ mid ++ b2 ++ post)))
    by (by apply count_skips_two_blocks).
  destruct (skippedLegs _) as [|[|n]]; [lia..|done].
Qed.

End subtitle.

(** ** Witnesses *)

Lemma subtitle_stops_all_witness :
  subtitle_of [mkStop 1 "A" false; mkStop 2 "B" false] "" = "Stops all".
Proof.
  apply (subtitle_stops_all [mkStop 1 "A" false; mkStop 2 "B" false] "").
  by repeat constructor.
Defined.

Lemma subtitle_one_block_witness :
  subtitle_of ([mkStop 1 "A" false] ++ [mkStop 2 "East Richmond" true]
                 ++ [mkStop 3 "C" false]) ""
  = "Not stopping at E Richmond".
Proof.
  apply (subtitle_one_block [mkStop 1 "A" false] [mkStop 2 "East Richmond" true]
           [mkStop 3 "C" false] ""); by repeat constructor.
Defined.

Lemma subtitle_two_blocks_witness :
  subtitle_of ([mkStop 1 "A" false] ++ [mkStop 2 "B" true; mkStop 3 "C" true]
                 ++ [mkStop 4 "D" false]
                 ++ [mkStop 5 "E" true; mkStop 6 "F" true] ++ []) "Delayed"
  = "Ltd express Delayed".
Proof.
  apply (subtitle_two_blocks [mkStop 1 "A" false] [mkStop 2 "B" true; mkStop 3 "C" true]
           [mkStop 4 "D" false] [mkStop 5 "E" true; mkStop 6 "F" true] [] "Delayed");
    by repeat constructor.
Defined.

(** The rows of the specification's table. *)
Example subtitle_table :
  let stops := map (λ b : bool, mkStop 0 "X" b) in
  subtitle_of (stops [false; true; true; false]) "" = "Ltd express" ∧
  subtitle_of (stops [false; true; true; true; true; true; false]) "" = "Express" ∧
  subtitle_of (stops [true; false; true]) "" = "Ltd express" ∧
  subtitle_of (stops [false; true; false]) "Express to city" = "Ltd express Express to city".
Proof. repeat split; reflexivity. Qed.
