(* ===== verification/Resolver.v ===== *)
(** * Resolver: [fetchDepartureDetails]

    The enrichment of one departure ([app.js], [fetchDepartureDetails], with
    [isCBDStation] and [shortenName]): destination and stop list from the
    run's pattern, the extension through the distributor run, the City Loop
    correction, the subtitle, the display shortening.

    The function mutates the departure object it is given and suspends at
    two [await]s.  It is written in [Eff Departure] (what has been assigned
    before a failure stays assigned) and cut at the second [await]:
    [details_begin] runs from the first answer to the second request or to
    the end, [details_resume] from the second answer to the end.
    [fetchDepartureDetails] composes them over the interface [Upstream].

    [enrich] is the specification: a pure function from the service's
    [type], [run] and [colour] to the outcome and the fields written.
    [fetchDepartureDetails_enrich] is the refinement theorem; idempotence,
    independence from the fields' earlier contents and the shape of a
    failed enrichment follow from it. *)

From S2P Require Import Prelude JsString Model Pattern Names Classifier.

Local Open Scope eff_scope.

(** ** Comparing a stop with a number *)

(** [x == n] where [x] is an element of [dep.stations] (an object) or
    [undefined], and [n] a number: abstract equality converts the object to
    the primitive ["[object Object]"], which is [NaN] as a number, and
    [undefined] equals only [null] and itself.  Never true. *)
Definition stop_equals_number (x : option Stop) (n : Z) : bool := false.

(** ** Specification: the outcomes of an enrichment *)

(** What a call of [fetchDepartureDetails] can leave behind.  A departure is
    [Complete] when the promise is fulfilled; the other three are the
    rejections, told apart by what had been assigned when it was raised. *)
Inductive Outcome : Type :=
| Untouched (e : error)
| StationsOnly (stations : list Stop)
| HalfDone (e : error) (stations : list Stop) (dest : string)
| Complete (stations : list Stop) (dest : string) (subtitle : string).

(** The outcome as a result and an update of the departure object. *)
Definition apply_outcome (o : Outcome) (dep : Departure) : result unit * Departure :=
  match o with
  | Untouched e => (Err e, dep)
  | StationsOnly l => (Err TypeError, set_stations l dep)
  | HalfDone e l dest => (Err e, set_dest dest (set_stations l dep))
  | Complete l dest sub =>
      (Ok tt, set_dest dest (set_subtitle sub (set_stations l dep)))
  end.

Definition writes_dest (o : Outcome) : bool :=
  match o with
  | HalfDone _ _ _ | Complete _ _ _ => true
  | Untouched _ | StationsOnly _ => false
  end.

(** The two fields every later step reads have been assigned. *)
Definition assigned (d : Departure) (l : list Stop) (t : string) : Prop :=
  dep_stations d = Some l ∧ dep_dest d = Some t.

(** ** Reading the departure object *)

(** [dep.stations] and [dep.dest] where the code goes on to read a property
    of them. *)
Definition get_stations : Eff Departure (list Stop) :=
  λ dep, (required (dep_stations dep), dep).

Definition get_dest : Eff Departure string :=
  λ dep, (required (dep_dest dep), dep).

(** ** The steps of [fetchDepartureDetails] *)

Section resolver.
Context (STATION : StationValue).

(** The guards of the extension: the final stop is in the CBD, and the home
    station is, or the service is cross-city. *)
Definition wants_extension (run : Run) (colour : option string) : bool :=
  isCBDStation (final_stop_id run) &&
  (cbdStation STATION || bool_decide (colour = Some "crosscity")).

(** [result.run.interchange && result.run.interchange.distributor] *)
Definition run_distributor (run : Run) : option Distributor :=
  interchange run ≫= distributor.

(** The [for] loop over [nextStations]: everything after the first stop
    whose id is the final stop's is appended. *)
Definition splice (stations nextStations : list Stop) (final : Z) : list Stop :=
  match list_find (λ s, st_id s = final) nextStations with
  | Some (i, _) => stations ++ drop (S i) nextStations
  | None => stations
  end.

(** The second [if (isCBDStation(result.run.final_stop_id))] block: cut the
    stop list at the last Flinders Street, then the City Loop label. *)
Definition city_loop_correction (result : PatternResult) (final : Z)
    : Eff Departure unit :=
  when (isCBDStation final) then (
    (when (negb (cbdStation STATION) && negb (bool_decide (final = FLINDERS_STREET))) then (
       stations <- get_stations ;;
       match scan_back (λ s, bool_decide (st_id s = FLINDERS_STREET))
               stations (length stations) with
       | Some idx =>
           stop <- eff_lift (required (res_stations result !! idx)) ;;
           eff_modify (set_dest (st_name stop)) ;;
           eff_modify (set_stations (take (S idx) stations))
       | None => eff_ret tt
       end)) ;;
    stations <- get_stations ;;
    if stop_equals_number (index_Z stations (Z.of_nat (length stations) - 1))
         FLINDERS_STREET then (
      before <- eff_lift (required (index_Z stations (Z.of_nat (length stations) - 2))) ;;
      when (negb (bool_decide (st_id before = SOUTHERN_CROSS))) then
        eff_modify (set_dest "City Loop"))
    else eff_ret tt).

(** From the second [isCBDStation] test to [return dep]. *)
Definition details_finish (result : PatternResult) (final : Z) : Eff Departure unit :=
  city_loop_correction result final ;;
  stations <- get_stations ;;
  eff_modify (set_subtitle (subtitle_of stations (res_note result))) ;;
  dest <- get_dest ;;
  when (bool_decide (14 < String.length dest)) then
    eff_modify (set_dest (shortenName dest)).

(** The locals that live across the second [await]. *)
Record Pending : Type := mkPending {
  pend_result : PatternResult;
  pend_final : Z;
  pend_dist : Distributor;
}.

(** From the answer to the first request to the second request ([Some]: the
    function is suspended in [await fetchPattern(dep.type, dist.run_ref,
    true)]) or to its end ([None]). *)
Definition details_begin (first : result PatternResult)
    : Eff Departure (option Pending) :=
  result <- eff_lift first ;;
  eff_modify (set_stations (res_stations result)) ;;
  run <- eff_lift (required (res_run result)) ;;
  eff_modify (set_dest (destination_name run)) ;;
  dep <- eff_get ;;
  if wants_extension run (dep_colour dep) then
    match run_distributor run with
    | Some dist =>
        eff_modify (set_dest (dist_destination_name dist)) ;;
        eff_ret (Some (mkPending result (final_stop_id run) dist))
    | None => details_finish result (final_stop_id run) ;; eff_ret None
    end
  else (details_finish result (final_stop_id run) ;; eff_ret None).

(** From the answer to the second request to the end.  [routeColours] is
    the server's map at that moment. *)
Definition details_resume (routeColours : gmap Z string) (k : Pending)
    (second : result PatternResult) : Eff Departure unit :=
  result2 <- eff_lift second ;;
  run2 <- eff_lift (required (res_run result2)) ;;
  dep <- eff_get ;;
  (when (bool_decide (routeColours !! route_id run2 = dep_colour dep)) then (
     stations <- get_stations ;;
     eff_modify (set_stations (splice stations (res_stations result2) (pend_final k))))) ;;
  stations <- get_stations ;;
  final <- eff_lift (required (last stations)) ;;
  details_finish (pend_result k) (st_id final).

(** [fetchDepartureDetails(dep)] against an upstream that answers at once:
    the object as the call leaves it, and whether the promise is fulfilled
    (with [dep] itself) or rejected. *)
Definition fetchDepartureDetails `{Upstream} (routeColours : gmap Z string)
    : Eff Departure unit :=
  dep <- eff_get ;;
  k <- details_begin (fetchPattern STATION (dep_type dep) (dep_run dep) false) ;;
  match k with
  | None => eff_ret tt
  | Some k =>
      details_resume routeColours k
        (fetchPattern STATION (dep_type dep) (dist_run_ref (pend_dist k)) true)
  end.

(** ** Specification: the enrichment as a function of the service *)

(** When the City Loop cut applies: the final stop is in the CBD and is not
    Flinders Street, and the home station is not (known to be) in the CBD. *)
Definition cut_applies (final : Z) : Prop :=
  isCBDStation final = true ∧ cbdStation STATION = false ∧ final ≠ FLINDERS_STREET.

(** The City Loop cut: for a home station outside the CBD and a final stop
    in the CBD other than Flinders Street, the stop list ends at its last
    Flinders Street and the destination is the name found at that index of
    the run's own pattern. *)
Definition loop_cut (result : PatternResult) (final : Z) (stations : list Stop)
    : Prelude.result (option (string * list Stop)) :=
  if isCBDStation final && negb (cbdStation STATION)
     && negb (bool_decide (final = FLINDERS_STREET))
  then
    match scan_back (λ s, bool_decide (st_id s = FLINDERS_STREET))
            stations (length stations) with
    | Some idx =>
        stop ← required (res_stations result !! idx);
        Ok (Some (st_name stop, take (S idx) stations))
    | None => Ok None
    end
  else Ok None.

Definition finish (result : PatternResult) (final : Z) (stations : list Stop)
    (dest : string) : Outcome :=
  match loop_cut result final stations with
  | Err e => HalfDone e stations dest
  | Ok cut =>
      let cut := default (dest, stations) cut in
      Complete cut.2 (display_dest cut.1) (subtitle_of cut.2 (res_note result))
  end.

(** The stop list after the second answer: spliced when the distributor
    run's route has the departure's colour. *)
Definition extended (routeColours : gmap Z string) (colour : option string)
    (result result2 : PatternResult) (run2 : Run) (final : Z) : list Stop :=
  if bool_decide (routeColours !! route_id run2 = colour)
  then splice (res_stations result) (res_stations result2) final
  else res_stations result.

Definition enrich `{Upstream} (routeColours : gmap Z string)
    (type : Z) (run : string) (colour : option string) : Outcome :=
  match fetchPattern STATION type run false with
  | Err e => Untouched e
  | Ok result =>
      match res_run result with
      | None => StationsOnly (res_stations result)
      | Some r =>
          match (if wants_extension r colour then run_distributor r else None) with
          | None =>
              finish result (final_stop_id r) (res_stations result) (destination_name r)
          | Some dist =>
              let dest := dist_destination_name dist in
              match fetchPattern STATION type (dist_run_ref dist) true with
              | Err e => HalfDone e (res_stations result) dest
              | Ok result2 =>
                  match res_run result2 with
                  | None => HalfDone TypeError (res_stations result) dest
                  | Some run2 =>
                      let stations :=
                        extended routeColours colour result result2 run2 (final_stop_id r) in
                      match last stations with
                      | None => HalfDone TypeError stations dest
                      | Some stop => finish result (st_id stop) stations dest
                      end
                  end
              end
          end
      end
  end.

End resolver.

(** ** Scenarios to evaluate on *)

(** A pattern that serves the given stops in order and skips none. *)
Definition answer (stops : list (Z * string)) (runs : list Run) : PatternResponse :=
  mkPatternResponse ((λ c, mkPatternStop c.1 "" []) <$> stops)
    (list_to_map stops) (list_to_map ((λ r, (run_ref r, r)) <$> runs)).

Definition EAST_RICHMOND : StationValue := StationNumber 1059.
Definition FOOTSCRAY : StationValue := StationNumber 1072.

(** Run 101, seen from East Richmond: six served stops to Flinders Street
    through the loop, no interchange (the specification's scenario). *)
Definition pattern_101 : PatternResponse :=
  answer [ (1059, "East Richmond"); (1162, "Richmond"); (1155, "Parliament");
           (1120, "Melbourne Central"); (1068, "Flagstaff");
           (1181, "Southern Cross"); (1071, "Flinders Street") ]%Z
         [ mkRun "101" 5 0 1071 "Flinders Street" None ].

(** Run 102: Flinders Street first, then round the loop to Parliament. *)
Definition pattern_102 : PatternResponse :=
  answer [ (1059, "East Richmond"); (1162, "Richmond"); (1071, "Flinders Street");
           (1181, "Southern Cross"); (1068, "Flagstaff");
           (1120, "Melbourne Central"); (1155, "Parliament") ]%Z
         [ mkRun "102" 5 0 1155 "Parliament" None ].

(** Run 103, seen from Footscray: a cross-city service that ends at Flinders
    Street and goes on as run 203 to Frankston. *)
Definition pattern_103 : PatternResponse :=
  answer [ (1072, "Footscray"); (1144, "North Melbourne-West Melbourne");
           (1181, "Southern Cross"); (1071, "Flinders Street") ]%Z
         [ mkRun "103" 6 0 1071 "Flinders Street"
             (Some (mkInterchange (Some (mkDistributor "Frankston" "203")))) ].

Definition pattern_203 : PatternResponse :=
  answer [ (1071, "Flinders Street"); (1162, "Richmond"); (1180, "South Yarra");
           (1073, "Frankston") ]%Z
         [ mkRun "203" 6 0 1073 "Frankston" None ].

(** Run 104: ends at Southern Cross and goes on as run 204 through Flinders
    Street to Parliament. *)
Definition pattern_104 : PatternResponse :=
  answer [ (1072, "Footscray"); (1144, "North Melbourne"); (1181, "Southern Cross") ]%Z
         [ mkRun "104" 6 0 1181 "Southern Cross"
             (Some (mkInterchange (Some (mkDistributor "Parliament" "204")))) ].

Definition pattern_204 : PatternResponse :=
  answer [ (1181, "Southern Cross"); (1071, "Flinders Street"); (1155, "Parliament") ]%Z
         [ mkRun "204" 6 0 1155 "Parliament" None ].

(** Run 105 goes on as run 205, for which the upstream has no answer. *)
Definition pattern_105 : PatternResponse :=
  answer [ (1072, "Footscray"); (1181, "Southern Cross"); (1071, "Flinders Street") ]%Z
         [ mkRun "105" 6 0 1071 "Flinders Street"
             (Some (mkInterchange (Some (mkDistributor "Werribee" "205")))) ].

Definition sample_answers : gmap string PatternResponse :=
  list_to_map [ ("101", pattern_101); ("102", pattern_102); ("103", pattern_103);
                ("203", pattern_203); ("104", pattern_104); ("204", pattern_204);
                ("105", pattern_105) ].

(** An upstream that answers from [sample_answers] and fails otherwise. *)
Definition sample_upstream : Upstream :=
  {| get_pattern run type := from_option Ok (Err FetchFailed) (sample_answers !! run) |}.

Definition sample_colours : gmap Z string :=
  list_to_map [ (5, "cityloop"); (6, "crosscity") ]%Z.

Definition stops_of (stops : list (Z * string)) : list Stop :=
  (λ c, mkStop c.1 c.2 false) <$> stops.

(** Run 103 as [fetchDepartures] creates it, and as the enrichment leaves it. *)
Definition raw_103 : Departure := raw_departure 0 "103" 5000 (Some "crosscity").
Definition done_103 : Departure :=
  mkDeparture 0 "103" 5000 (Some "crosscity")
    (Some (stops_of [ (1072, "Footscray"); (1144, "North Melbourne");
                      (1181, "Southern Cross"); (1071, "Flinders Street");
                      (1162, "Richmond"); (1180, "South Yarra");
                      (1073, "Frankston") ]%Z))
    (Some "Frankston") (Some "Stops all").
Definition raw_105 : Departure := raw_departure 0 "105" 5000 (Some "crosscity").

(** The stop list of run 102 and its pattern result. *)
Definition stations_102 : list Stop :=
  stops_of [ (1059, "East Richmond"); (1162, "Richmond"); (1071, "Flinders Street");
             (1181, "Southern Cross"); (1068, "Flagstaff");
             (1120, "Melbourne Central"); (1155, "Parliament") ]%Z.
Definition result_102 : PatternResult := mkPatternResult stations_102 "" None.

(** ** Lemmas: the code refines the specification *)

Section refinement.
Context (STATION : StationValue).
Implicit Types (d : Departure) (l : list Stop) (t : string).

Lemma assigned_eq d l t :
  assigned d l t → set_dest t (set_stations l d) = d.
Proof. destruct d. by intros [[= ->] [= ->]]. Qed.

(** An outcome that assigns [stations] and [dest] hides what they held. *)
Lemma apply_outcome_absorb o d d' :
  writes_dest o = true → same_service d d' → dep_subtitle d' = dep_subtitle d →
  apply_outcome o d' = apply_outcome o d.
Proof.
  destruct o, d, d'; try done; intros _ (?&?&?&?) ?; simplify_eq/=; done.
Qed.

Lemma finish_writes_dest result final l t :
  writes_dest (finish STATION result final l t) = true.
Proof. unfold finish. by destruct (loop_cut _ _ _ _). Qed.

Lemma city_loop_correction_spec result final d l :
  dep_stations d = Some l →
  city_loop_correction STATION result final d =
    match loop_cut STATION result final l with
    | Err e => (Err e, d)
    | Ok None => (Ok tt, d)
    | Ok (Some (t, l')) => (Ok tt, set_stations l' (set_dest t d))
    end.
Proof.
  intros Hl. unfold city_loop_correction, loop_cut, stop_equals_number.
  destruct (isCBDStation final); simpl; [|done].
  destruct (negb (cbdStation STATION) && negb (bool_decide (final = FLINDERS_STREET)));
    eff_unfold; unfold get_stations; rewrite Hl; simpl; [|done].
  destruct (scan_back _ l (length l)) as [idx|]; simpl; [|by rewrite Hl].
  by destruct (res_stations result !! idx).
Qed.

Lemma details_finish_spec result final d l t :
  assigned d l t →
  details_finish STATION result final d =
    apply_outcome (finish STATION result final l t) d.
Proof.
  intros [Hl Ht]. unfold details_finish, finish, eff_bind at 1.
  rewrite (city_loop_correction_spec _ _ _ l Hl).
  destruct (loop_cut STATION result final l) as [[[t' l']|]|e]; simpl.
  - destruct d; simplify_eq/=. unfold display_dest. eff_unfold. simpl.
    by case_bool_decide.
  - destruct d; simplify_eq/=. unfold display_dest. eff_unfold. simpl.
    by case_bool_decide.
  - by rewrite assigned_eq.
Qed.

Lemma details_begin_spec (first : result PatternResult) d :
  details_begin STATION first d =
    match first with
    | Err e => (Err e, d)
    | Ok result =>
        match res_run result with
        | None => (Err TypeError, set_stations (res_stations result) d)
        | Some r =>
            match (if wants_extension STATION r (dep_colour d)
                   then run_distributor r else None) with
            | Some dist =>
                (Ok (Some (mkPending result (final_stop_id r) dist)),
                 set_dest (dist_destination_name dist)
                   (set_stations (res_stations result) d))
            | None =>
                let o := finish STATION result (final_stop_id r)
                           (res_stations result) (destination_name r) in
                ((λ _, None) <$> (apply_outcome o d).1, (apply_outcome o d).2)
            end
        end
    end.
Proof.
  unfold details_begin. destruct first as [result|e]; [|done].
  eff_unfold. simpl. destruct (res_run result) as [r|]; simpl; [|done].
  set (d' := set_dest (destination_name r) (set_stations (res_stations result) d)).
  assert (assigned d' (res_stations result) (destination_name r)) as Hd' by done.
  destruct (wants_extension STATION r (dep_colour d)); simpl;
    [destruct (run_distributor r); simpl; [by destruct d|]|];
    rewrite (details_finish_spec _ _ _ _ _ Hd'),
      (apply_outcome_absorb _ d d') by (auto using finish_writes_dest; done);
    by destruct (apply_outcome _ d) as [[[]|]].
Qed.

Lemma details_resume_spec routeColours k (second : result PatternResult) d t :
  assigned d (res_stations (pend_result k)) t →
  details_resume STATION routeColours k second d =
    match second with
    | Err e => (Err e, d)
    | Ok result2 =>
        match res_run result2 with
        | None => (Err TypeError, d)
        | Some run2 =>
            let stations := extended routeColours (dep_colour d) (pend_result k)
                              result2 run2 (pend_final k) in
            match last stations with
            | None => apply_outcome (HalfDone TypeError stations t) d
            | Some stop =>
                apply_outcome (finish STATION (pend_result k) (st_id stop) stations t) d
            end
        end
    end.
Proof.
  intros [Hl Ht]. unfold details_resume, extended.
  destruct second as [result2|e]; [|done].
  eff_unfold. simpl. destruct (res_run result2) as [run2|]; simpl; [|done].
  unfold get_stations.
  case_bool_decide; simpl; rewrite ?Hl; simpl.
  - destruct (last (splice _ _ _)) as [stop|] eqn:Hlast; simpl.
    + rewrite (details_finish_spec _ _ _ _ t) by done.
      by apply apply_outcome_absorb; auto using finish_writes_dest.
    + destruct d; simplify_eq/=. done.
  - destruct (last (res_stations _)) as [stop|] eqn:Hlast; simpl.
    + by rewrite (details_finish_spec _ _ _ (res_stations (pend_result k)) t).
    + destruct d; simplify_eq/=. done.
Qed.

End refinement.

(** ** Lemmas: what every step keeps *)

(** Whatever the three setters keep, every step of the enrichment keeps,
    whether it returns or throws. *)
Section keeps.
Context (STATION : StationValue) (R : relation Departure) `{!PreOrder R}.
Context (Hstations : ∀ l d, R d (set_stations l d)).
Context (Hdest : ∀ t d, R d (set_dest t d)).
Context (Hsubtitle : ∀ u d, R d (set_subtitle u d)).

Local Hint Resolve Hstations Hdest Hsubtitle : pid.

Lemma city_loop_correction_keeps result final :
  eff_keeps R (city_loop_correction STATION result final).
Proof. unfold city_loop_correction, stop_equals_number. keeps. Qed.

Lemma details_finish_keeps result final :
  eff_keeps R (details_finish STATION result final).
Proof.
  unfold details_finish. pose proof city_loop_correction_keeps. keeps.
Qed.

Lemma details_begin_keeps first : eff_keeps R (details_begin STATION first).
Proof.
  unfold details_begin. pose proof details_finish_keeps. keeps.
Qed.

Lemma details_resume_keeps routeColours k second :
  eff_keeps R (details_resume STATION routeColours k second).
Proof.
  unfold details_resume. pose proof details_finish_keeps. keeps.
Qed.
End keeps.

(** ** Lemmas: a fulfilled enrichment is complete *)

Section fulfilled.
Context (STATION : StationValue).
(** A step that returns has assigned all three properties. *)
Lemma details_finish_enriched result final d d' :
  details_finish STATION result final d = (Ok tt, d') → enriched d'.
Proof.
  unfold details_finish.
  intros (_ & d1 & _ & H1)%eff_bind_inv_ok.
  apply eff_bind_inv_ok in H1 as (l & ? & [= Hl <-] & H2).
  apply eff_bind_inv_ok in H2 as (_ & ? & [= <-] & H3).
  apply eff_bind_inv_ok in H3 as (t & ? & [= Ht <-] & H4).
  apply required_ok in Hl, Ht. simpl in Ht.
  subst. simpl in Ht.
  case_bool_decide; injection H4 as <-; repeat split; simpl; rewrite ?Hl, ?Ht; done.
Qed.

Lemma details_begin_enriched first d d' :
  details_begin STATION first d = (Ok None, d') → enriched d'.
Proof.
  unfold details_begin.
  intros (result & ? & _ & H1)%eff_bind_inv_ok.
  apply eff_bind_inv_ok in H1 as (_ & ? & _ & H2).
  apply eff_bind_inv_ok in H2 as (run & ? & _ & H3).
  apply eff_bind_inv_ok in H3 as (_ & ? & _ & H4).
  apply eff_bind_inv_ok in H4 as (dep & ? & _ & H5).
  repeat case_match; try done;
    apply eff_bind_inv_ok in H5 as ([] & ? & ?%details_finish_enriched & [= <-]); done.
Qed.

Lemma details_resume_enriched routeColours k second d d' :
  details_resume STATION routeColours k second d = (Ok tt, d') → enriched d'.
Proof.
  unfold details_resume.
  intros (result & ? & _ & H1)%eff_bind_inv_ok.
  apply eff_bind_inv_ok in H1 as (run2 & ? & _ & H2).
  apply eff_bind_inv_ok in H2 as (dep & ? & _ & H3).
  apply eff_bind_inv_ok in H3 as (_ & ? & _ & H4).
  apply eff_bind_inv_ok in H4 as (l & ? & _ & H5).
  apply eff_bind_inv_ok in H5 as (fl & ? & _ & H6).
  by apply details_finish_enriched in H6.
Qed.
End fulfilled.

(** ** Lemmas: outcomes as updates *)

Section outcomes.
Implicit Types (o : Outcome) (d : Departure).

Lemma apply_outcome_same_service o d : same_service d (apply_outcome o d).2.
Proof. by destruct o. Qed.

(** Applying an outcome twice is applying it once. *)
Lemma apply_outcome_idemp o d :
  apply_outcome o (apply_outcome o d).2 = apply_outcome o d.
Proof. by destruct o, d. Qed.

(** The promise is fulfilled exactly in the [Complete] outcome. *)
Lemma apply_outcome_ok o d d' :
  apply_outcome o d = (Ok tt, d') ↔
  ∃ l t u, o = Complete l t u ∧
    d' = mkDeparture (dep_type d) (dep_run d) (dep_time d) (dep_colour d)
           (Some l) (Some t) (Some u).
Proof.
  destruct o; simpl; split; naive_solver.
Qed.

(** A rejection never assigns the subtitle. *)
Lemma apply_outcome_err o d e d' :
  apply_outcome o d = (Err e, d') → dep_subtitle d' = dep_subtitle d.
Proof. destruct o; simpl; intros [= ? <-]; done. Qed.

End outcomes.

(** ** Theorems: refinement and its consequences *)

Section enrichment.
Context (STATION : StationValue) `{Upstream} (routeColours : gmap Z string).
Implicit Types (d : Departure).

Local Abbreviation outcome d :=
  (enrich STATION routeColours (dep_type d) (dep_run d) (dep_colour d)).

Lemma details_outcome d : fetchDepartureDetails STATION routeColours d = apply_outcome (outcome d) d.
Proof.
  unfold fetchDepartureDetails, enrich, eff_bind at 1 2, eff_get.
  rewrite details_begin_spec.
  destruct (fetchPattern STATION (dep_type d) (dep_run d) false) as [result|e]; [|done].
  destruct (res_run result) as [r|]; [|done].
  destruct (if wants_extension _ _ _ then _ else _) as [dist|]; simpl.
  - rewrite (details_resume_spec _ _ _ _ _ (dist_destination_name dist)) by done.
    destruct (fetchPattern _ _ _ true) as [result2|e]; [|done].
    destruct (res_run result2) as [run2|]; [|done]. simpl.
    destruct (last _); [|by destruct d].
    by apply apply_outcome_absorb; auto using finish_writes_dest.
  - by destruct (apply_outcome _ d) as [[[]|]].
Qed.

(** C1. [fetchDepartureDetails] implements [enrich]: whatever the departure
    object held, the call ends as the outcome computed from the service's
    [type], [run] and [colour] alone says, both in what it returns or
    throws and in the properties it leaves assigned. *)
Theorem fetchDepartureDetails_enrich d :
  fetchDepartureDetails STATION routeColours d =
    apply_outcome
      (enrich STATION routeColours (dep_type d) (dep_run d) (dep_colour d)) d.
Proof. apply details_outcome. Qed.

(** C5. Enrichment is idempotent: calling [fetchDepartureDetails] again on
    the object a call has left, against the same upstream answers and
    colour map, returns the same result and changes nothing. *)
Theorem fetchDepartureDetails_idempotent d r d' :
  fetchDepartureDetails STATION routeColours d = (r, d') → fetchDepartureDetails STATION routeColours d' = (r, d').
Proof.
  rewrite !details_outcome. intros Hd.
  pose proof (apply_outcome_same_service (outcome d) d) as Hs.
  pose proof (apply_outcome_idemp (outcome d) d) as Hi.
  rewrite Hd in Hs, Hi. simpl in Hs, Hi. by destruct Hs as (-> & -> & _ & ->).
Qed.

(** The outcome does not depend on what the object's [stations], [dest] and
    [subtitle] held: two objects of the same service are enriched alike. *)
Theorem fetchDepartureDetails_same_service d1 d2 :
  same_service d1 d2 →
  (fetchDepartureDetails STATION routeColours d2).1 = (fetchDepartureDetails STATION routeColours d1).1 ∧
  ∃ o, fetchDepartureDetails STATION routeColours d1 = apply_outcome o d1 ∧ fetchDepartureDetails STATION routeColours d2 = apply_outcome o d2.
Proof.
  intros (Ht & Hr & _ & Hc). rewrite !details_outcome, Ht, Hr, Hc.
  split; [by destruct (enrich _ _ _ _ _)|eauto].
Qed.

(** C6. A fulfilled call leaves [stations], [dest] and [subtitle] all assigned,
    and the service's own fields as they were. *)
Theorem fetchDepartureDetails_complete d d' :
  fetchDepartureDetails STATION routeColours d = (Ok tt, d') →
  same_service d d' ∧
  is_Some (dep_stations d') ∧ is_Some (dep_dest d') ∧ is_Some (dep_subtitle d').
Proof.
  rewrite details_outcome.
  intros (l & t & u & _ & ->)%apply_outcome_ok. by eauto 10.
Qed.

(** A rejected call never assigns [subtitle], whatever else it assigned. *)
Theorem fetchDepartureDetails_rejected d e d' :
  fetchDepartureDetails STATION routeColours d = (Err e, d') → dep_subtitle d' = dep_subtitle d.
Proof. rewrite details_outcome. apply apply_outcome_err. Qed.

(** When the first request fails the object is untouched: the tick may try
    again. *)
Theorem fetchDepartureDetails_first_failure d e :
  fetchPattern STATION (dep_type d) (dep_run d) false = Err e →
  fetchDepartureDetails STATION routeColours d = (Err e, d).
Proof.
  intros He. rewrite details_outcome. unfold enrich. by rewrite He.
Qed.

(** C7. When the second request fails the object keeps the stop list and the
    distributor's destination and has no subtitle: the enrichment is not
    atomic, and the object now has its own property [stations], which is
    what the tick tests before it enriches. *)
Theorem fetchDepartureDetails_second_failure d result r dist e :
  fetchPattern STATION (dep_type d) (dep_run d) false = Ok result →
  res_run result = Some r →
  wants_extension STATION r (dep_colour d) = true →
  run_distributor r = Some dist →
  fetchPattern STATION (dep_type d) (dist_run_ref dist) true = Err e →
  fetchDepartureDetails STATION routeColours d =
    (Err e, set_dest (dist_destination_name dist) (set_stations (res_stations result) d)).
Proof.
  intros H1 Hr Hw Hd H2. rewrite details_outcome. unfold enrich.
  by rewrite H1, Hr, Hw, Hd, H2.
Qed.

End enrichment.

(** ** Theorems: the City Loop cut and the splice *)

Section cut.
Context (STATION : StationValue).
Implicit Types (stations cut : list Stop) (stop : Stop).

Local Abbreviation at_flinders := (λ s : Stop, bool_decide (st_id s = FLINDERS_STREET)).

Lemma loop_cut_guard (result : PatternResult) final stations :
  loop_cut STATION result final stations =
    if decide (cut_applies STATION final) then
      match scan_back at_flinders stations (length stations) with
      | Some idx =>
          stop ← required (res_stations result !! idx);
          Ok (Some (st_name stop, take (S idx) stations))
      | None => Ok None
      end
    else Ok None.
Proof.
  unfold loop_cut, cut_applies.
  destruct (isCBDStation final), (cbdStation STATION); simpl;
    repeat case_decide; repeat case_bool_decide; naive_solver.
Qed.

(** The splice only ever appends. *)
Lemma splice_prefix stations next final : stations `prefix_of` splice stations next final.
Proof.
  unfold splice. destruct (list_find _ next) as [[i x]|]; [|done].
  by apply prefix_app_r.
Qed.

(** The splice appends what follows the first occurrence of the final stop
    in the distributor's pattern. *)
Lemma splice_at stations pre stop post final :
  st_id stop = final → Forall (λ s, st_id s ≠ final) pre →
  splice stations (pre ++ stop :: post) final = stations ++ post.
Proof.
  intros Hstop Hpre. unfold splice.
  assert (list_find (λ s, st_id s = final) (pre ++ stop :: post)
          = Some (length pre, stop)) as ->.
  { apply list_find_Some. split_and!; [by apply list_lookup_middle|done|].
    intros j y Hj ?. rewrite lookup_app_l in Hj by done.
    by eapply Forall_lookup_1 in Hpre. }
  by rewrite (cons_middle stop pre post), app_assoc,
    (drop_app_length' (pre ++ [stop])) by (rewrite length_app; simpl; lia).
Qed.

(** Without the final stop in the distributor's pattern nothing is appended. *)
Lemma splice_absent stations next final :
  Forall (λ s, st_id s ≠ final) next → splice stations next final = stations.
Proof.
  intros Hn. unfold splice. by rewrite (proj2 (list_find_None _ _) Hn).
Qed.

(** C4. The City Loop cut: when it applies and Flinders Street is on the
    stop list, the list is cut after the last Flinders Street, and the
    destination becomes the name at that index of the run's own pattern. *)
Theorem loop_cut_some (result : PatternResult) final stations name cut :
  loop_cut STATION result final stations = Ok (Some (name, cut)) →
  cut_applies STATION final ∧
  ∃ idx stop flinders,
    cut = take (S idx) stations ∧
    last cut = Some flinders ∧ st_id flinders = FLINDERS_STREET ∧
    Forall (λ s, st_id s ≠ FLINDERS_STREET) (drop (S idx) stations) ∧
    res_stations result !! idx = Some stop ∧ name = st_name stop.
Proof.
  rewrite loop_cut_guard. case_decide; [|done]. split; [done|].
  destruct (scan_back _ _ _) as [idx|] eqn:Hscan; [|done].
  destruct (res_stations result !! idx) as [stop|] eqn:Hstop; [|done].
  simpl in *. simplify_eq.
  apply scan_back_Some in Hscan as (Hlt & (fl & Hfl & Hid) & Hafter).
  exists idx, stop, fl. split_and!; try done.
  - rewrite last_lookup, length_take, lookup_take_lt by lia.
    by replace (Init.Nat.pred (S idx `min` length stations)) with idx by lia.
  - by apply bool_decide_eq_true in Hid.
  - apply Forall_lookup_2. intros j y Hj. rewrite lookup_drop in Hj.
    pose proof (lookup_lt_Some _ _ _ Hj).
    specialize (Hafter (S idx + j) y). rewrite bool_decide_eq_false in Hafter.
    apply Hafter; [lia|done].
Qed.

(** C37. The cut throws when the last Flinders Street lies in the part appended
    from the distributor's pattern: the name is read from [result.stations],
    which is shorter than [dep.stations] there. *)
Theorem loop_cut_beyond_pattern (result : PatternResult) final stations idx :
  cut_applies STATION final →
  scan_back at_flinders stations (length stations) = Some idx →
  length (res_stations result) ≤ idx →
  loop_cut STATION result final stations = Err TypeError.
Proof.
  intros Hc Hscan Hidx. rewrite loop_cut_guard, decide_True, Hscan by done.
  by rewrite lookup_ge_None_2.
Qed.

(** Inside the run's own pattern the name read is Flinders Street's own. *)
Theorem loop_cut_in_pattern (result : PatternResult) final extra idx :
  cut_applies STATION final →
  scan_back at_flinders (res_stations result ++ extra)
    (length (res_stations result ++ extra)) = Some idx →
  idx < length (res_stations result) →
  ∃ flinders, res_stations result !! idx = Some flinders ∧
    st_id flinders = FLINDERS_STREET ∧
    loop_cut STATION result final (res_stations result ++ extra) =
      Ok (Some (st_name flinders, take (S idx) (res_stations result))).
Proof.
  intros Hc Hscan Hidx. rewrite loop_cut_guard, decide_True, Hscan by done.
  apply scan_back_Some in Hscan as (_ & (fl & Hfl & Hid) & _).
  rewrite lookup_app_l in Hfl by done. exists fl. rewrite Hfl. simpl.
  split_and!; [done|by apply bool_decide_eq_true in Hid|].
  by rewrite take_app_le by lia.
Qed.

(** C8. The City Loop label is never assigned: whatever the stop list, the
    block that follows the extension leaves [dest] as it was or sets it to
    the name of a stop of the run's own pattern.  The test that guards
    [dep.dest = 'City Loop'] compares a stop object with a number. *)
Theorem city_loop_label_never (result : PatternResult) final d d' :
  city_loop_correction STATION result final d = (Ok tt, d') →
  dep_dest d' = dep_dest d ∨
  ∃ stop, stop ∈ res_stations result ∧ dep_dest d' = Some (st_name stop).
Proof.
  destruct (dep_stations d) as [l|] eqn:Hl.
  - rewrite (city_loop_correction_spec _ _ _ _ l Hl), loop_cut_guard.
    case_decide; [|by left; simplify_eq].
    destruct (scan_back _ _ _) as [idx|]; [|by left; simplify_eq].
    destruct (res_stations result !! idx) as [stop|] eqn:Hstop; [|done].
    simpl. intros [= <-]. right. exists stop.
    split; [by eapply list_elem_of_lookup_2|done].
  - unfold city_loop_correction, stop_equals_number, get_stations. eff_unfold.
    destruct (isCBDStation final); simpl; [|by intros [= <-]; left].
    destruct (negb _ && negb _); simpl; by rewrite Hl.
Qed.

End cut.

(** ** Scenarios *)

Section scenarios.
#[local] Existing Instance sample_upstream.

(** The specification's scenario: no stop skipped, the run ends at Flinders
    Street and has no interchange. *)
Example enrich_101 :
  enrich EAST_RICHMOND sample_colours 0 "101" (Some "cityloop") =
  Complete
    (stops_of [ (1059, "East Richmond"); (1162, "Richmond"); (1155, "Parliament");
                (1120, "Melbourne Central"); (1068, "Flagstaff");
                (1181, "Southern Cross"); (1071, "Flinders Street") ]%Z)
    "Flinders Street" "Stops all".
Proof. vm_compute. reflexivity. Qed.

(** A run round the loop is cut at Flinders Street.  The stop before it is
    Richmond, not Southern Cross, and the destination is not "City Loop". *)
Example enrich_102 :
  enrich EAST_RICHMOND sample_colours 0 "102" (Some "cityloop") =
  Complete
    (stops_of [ (1059, "East Richmond"); (1162, "Richmond"); (1071, "Flinders Street") ]%Z)
    "Flinders Street" "Stops all".
Proof. vm_compute. reflexivity. Qed.

(** A cross-city run is extended by the distributor's stops after Flinders
    Street and takes its destination. *)
Example enrich_103 :
  enrich FOOTSCRAY sample_colours 0 "103" (Some "crosscity") =
  Complete
    (stops_of [ (1072, "Footscray"); (1144, "North Melbourne");
                (1181, "Southern Cross"); (1071, "Flinders Street");
                (1162, "Richmond"); (1180, "South Yarra"); (1073, "Frankston") ]%Z)
    "Frankston" "Stops all".
Proof. vm_compute. reflexivity. Qed.

(** The cut past the end of the run's own pattern throws, after the stop
    list and the destination have been assigned. *)
Example enrich_104 :
  enrich FOOTSCRAY sample_colours 0 "104" (Some "crosscity") =
  HalfDone TypeError
    (stops_of [ (1072, "Footscray"); (1144, "North Melbourne");
                (1181, "Southern Cross"); (1071, "Flinders Street");
                (1155, "Parliament") ]%Z)
    "Parliament".
Proof. vm_compute. reflexivity. Qed.

(** A failed second request. *)
Example enrich_105 :
  enrich FOOTSCRAY sample_colours 0 "105" (Some "crosscity") =
  HalfDone FetchFailed
    (stops_of [ (1072, "Footscray"); (1181, "Southern Cross");
                (1071, "Flinders Street") ]%Z)
    "Werribee".
Proof. vm_compute. reflexivity. Qed.

End scenarios.

(** ** Witnesses *)

Section witnesses.
#[local] Existing Instance sample_upstream.

Example details_103 : fetchDepartureDetails FOOTSCRAY sample_colours raw_103 = (Ok tt, done_103).
Proof. vm_compute. reflexivity. Qed.

Lemma fetchDepartureDetails_idempotent_witness :
  fetchDepartureDetails FOOTSCRAY sample_colours done_103 = (Ok tt, done_103).
Proof.
  apply (fetchDepartureDetails_idempotent FOOTSCRAY sample_colours raw_103).
  vm_compute. reflexivity.
Defined.

Lemma fetchDepartureDetails_same_service_witness :
  (fetchDepartureDetails FOOTSCRAY sample_colours done_103).1
    = (fetchDepartureDetails FOOTSCRAY sample_colours raw_103).1 ∧
  ∃ o, fetchDepartureDetails FOOTSCRAY sample_colours raw_103 = apply_outcome o raw_103 ∧
       fetchDepartureDetails FOOTSCRAY sample_colours done_103 = apply_outcome o done_103.
Proof.
  by apply (fetchDepartureDetails_same_service FOOTSCRAY sample_colours raw_103 done_103).
Defined.

Lemma fetchDepartureDetails_complete_witness :
  same_service raw_103 done_103 ∧
  is_Some (dep_stations done_103) ∧ is_Some (dep_dest done_103) ∧
  is_Some (dep_subtitle done_103).
Proof.
  apply (fetchDepartureDetails_complete FOOTSCRAY sample_colours raw_103 done_103).
  vm_compute. reflexivity.
Defined.

Lemma fetchDepartureDetails_rejected_witness :
  dep_subtitle
    (set_dest "Werribee"
       (set_stations (stops_of [ (1072, "Footscray"); (1181, "Southern Cross");
                                 (1071, "Flinders Street") ]%Z) raw_105))
  = dep_subtitle raw_105.
Proof.
  apply (fetchDepartureDetails_rejected FOOTSCRAY sample_colours raw_105 FetchFailed).
  vm_compute. reflexivity.
Defined.

Lemma fetchDepartureDetails_first_failure_witness :
  fetchDepartureDetails FOOTSCRAY sample_colours (raw_departure 0 "999" 0 None)
  = (Err FetchFailed, raw_departure 0 "999" 0 None).
Proof.
  apply (fetchDepartureDetails_first_failure FOOTSCRAY sample_colours). reflexivity.
Defined.

Lemma fetchDepartureDetails_second_failure_witness :
  ∃ l, fetchDepartureDetails FOOTSCRAY sample_colours raw_105
       = (Err FetchFailed, set_dest "Werribee" (set_stations l raw_105)) ∧ length l = 3.
Proof.
  eexists. split.
  - eapply (fetchDepartureDetails_second_failure FOOTSCRAY sample_colours raw_105 _ _
              (mkDistributor "Werribee" "205")); vm_compute; reflexivity.
  - reflexivity.
Defined.

Lemma loop_cut_some_witness :
  cut_applies EAST_RICHMOND 1155 ∧
  ∃ idx stop flinders,
    take 3 stations_102 = take (S idx) stations_102 ∧
    last (take 3 stations_102) = Some flinders ∧ st_id flinders = FLINDERS_STREET ∧
    Forall (λ s, st_id s ≠ FLINDERS_STREET) (drop (S idx) stations_102) ∧
    res_stations result_102 !! idx = Some stop ∧ "Flinders Street" = st_name stop.
Proof.
  apply (loop_cut_some EAST_RICHMOND result_102 1155 stations_102). reflexivity.
Defined.

Lemma loop_cut_in_pattern_witness :
  ∃ flinders, res_stations result_102 !! 2 = Some flinders ∧
    st_id flinders = FLINDERS_STREET ∧
    loop_cut EAST_RICHMOND result_102 1155 (res_stations result_102 ++ []) =
      Ok (Some (st_name flinders, take 3 (res_stations result_102))).
Proof.
  apply (loop_cut_in_pattern EAST_RICHMOND result_102 1155 [] 2);
    [by repeat split|reflexivity|simpl; lia].
Defined.

Lemma loop_cut_beyond_pattern_witness :
  loop_cut FOOTSCRAY
    (mkPatternResult (stops_of [ (1072, "Footscray"); (1181, "Southern Cross") ]%Z) "" None)
    1155
    (stops_of [ (1072, "Footscray"); (1181, "Southern Cross");
                (1071, "Flinders Street"); (1155, "Parliament") ]%Z)
  = Err TypeError.
Proof.
  apply (loop_cut_beyond_pattern FOOTSCRAY _ 1155 _ 2);
    [by repeat split|reflexivity|simpl; lia].
Defined.

Lemma city_loop_label_never_witness :
  dep_dest (set_stations (take 3 stations_102)
              (set_dest "Flinders Street"
                 (set_dest "Parliament" (set_stations stations_102 raw_103))))
    = dep_dest (set_dest "Parliament" (set_stations stations_102 raw_103)) ∨
  ∃ stop, stop ∈ res_stations result_102 ∧
    dep_dest (set_stations (take 3 stations_102)
                (set_dest "Flinders Street"
                   (set_dest "Parliament" (set_stations stations_102 raw_103))))
      = Some (st_name stop).
Proof.
  apply (city_loop_label_never EAST_RICHMOND result_102 1155). reflexivity.
Defined.

End witnesses.
