(* ===== verification/Query.v ===== *)
(** * Query: the read endpoints

    The three [app.get] handlers of [app.js] over the board [departures]
    (platform to queue): the window of the first three entries, the entry
    after a run, the entry at an index.  A handler answers 200 with a body
    or 404; a [TypeError] thrown in a handler is Express's 500.

    The board here is a map from platform to the platform's array as it is
    at the moment of the request: the handlers only read.  An element of an
    array is [Some] departure or [None], a hole that reads as [undefined]
    (an array that has been assigned past its end has them); a queue
    without holes is [Some <$> platform].

    Theorems: the window is the serialised prefix of at most three entries;
    every handler answers 404 on an unknown platform; the entry after a run
    is the successor of the run's first occurrence; the index handler
    answers the entry inside the queue, 404 past its end, and throws on a
    negative index and on one that is not a number. *)

From S2P Require Import Prelude JsString Model.

(** ** Definitions *)

(** The body every handler builds from a departure:
    [{ type, run, time: time.getTime(), dest, subtitle, group: colour,
       stations }]. *)
Record Service : Type := mkService {
  sv_type : Z;
  sv_run : string;
  sv_time : Z;
  sv_dest : option string;
  sv_subtitle : option string;
  sv_group : option string;
  sv_stations : option (list Stop);
}.

#[export] Instance Service_eq_dec : EqDecision Service.
Proof. solve_decision. Defined.

Definition serialise (d : Departure) : Service :=
  mkService (dep_type d) (dep_run d) (dep_time d) (dep_dest d) (dep_subtitle d)
    (dep_colour d) (dep_stations d).

(** [res.status(200).json(body)] or [res.status(404).json(...)]. *)
Inductive Reply (A : Type) : Type :=
| Status200 (body : A)
| Status404.
Arguments Status200 {A} body.
Arguments Status404 {A}.

(** The object literal [{ type: platform[i].type, ... }]: reading [.type] of
    a hole throws. *)
Definition service_at (x : option Departure) : result Service :=
  serialise <$> required x.

(** The loop [for (i = 0; i < 3 && i < platform.length; i++) resp.push(...)]. *)
Fixpoint services (slots : list (option Departure)) : result (list Service) :=
  match slots with
  | [] => Ok []
  | x :: rest => sv ← service_at x; body ← services rest; Ok (sv :: body)
  end.

(** The loop [for (i = 0; i < platform.length - 1; i++)
    if (platform[i].run == run) return ...platform[i + 1]...]: the element
    after the first one of that run, if any. *)
Fixpoint after_run (run : string) (platform : list (option Departure))
    : result (option Service) :=
  match platform with
  | x :: (next :: _) as rest =>
      d ← required x;
      if bool_decide (dep_run d = run) then Some <$> service_at next
      else after_run run rest
  | _ => Ok None
  end.

Section query.
Context (departures : gmap string (list (option Departure))).

(** [GET /departures/:plat] *)
Definition get_window (plat : string) : result (Reply (list Service)) :=
  match departures !! plat with
  | None => Ok Status404
  | Some platform => Status200 <$> services (take 3 platform)
  end.

(** [GET /departures/:plat/after/:run] *)
Definition get_after (plat run : string) : result (Reply Service) :=
  match departures !! plat with
  | Some platform =>
      next ← after_run run platform;
      Ok (from_option Status200 Status404 next)
  | None => Ok Status404
  end.

(** [departures[plat].length <= i] for [i = parseInt(...)]: false for [NaN]. *)
Definition length_le (n : nat) (i : option Z) : bool :=
  match i with
  | Some i => bool_decide (Z.of_nat n ≤ i)%Z
  | None => false
  end.

(** [platform[i]] for [i = parseInt(...)]: [undefined] for [NaN], for a
    negative index, past the end and at a hole. *)
Definition at_index (platform : list (option Departure)) (i : option Z)
    : option Departure :=
  z ← i; mjoin (index_Z platform z).

(** [GET /departures/:plat/:idx] *)
Definition get_index (plat idx : string) : result (Reply Service) :=
  let i := parseInt idx in
  match departures !! plat with
  | None => Ok Status404
  | Some platform =>
      if length_le (length platform) i then Ok Status404
      else Status200 <$> service_at (at_index platform i)
  end.

End query.

(** ** A board to evaluate on *)

Definition sample_queue : list Departure :=
  [ raw_departure 0 "11" 1000 (Some "cityloop");
    raw_departure 0 "12" 2000 (Some "cityloop");
    raw_departure 0 "13" 3000 None;
    raw_departure 0 "14" 4000 None ]%Z.

(** Platform 1 has four departures, platform 2 has run empty, and the
    array of platform 3 has a hole at index 0. *)
Definition sample_board : gmap string (list (option Departure)) :=
  list_to_map
    [ ("1", Some <$> sample_queue); ("2", []);
      ("3", [None; Some (raw_departure 0 "31" 1000 None)]%Z) ].

(** ** Lemmas *)

Section query_lemmas.
Implicit Types (platform : list Departure) (d next : Departure) (run plat : string).

Lemma serialise_inj : Inj (=) (=) serialise.
Proof. intros [] [] [=]. by simplify_eq. Qed.

(** On a queue without holes the window's loop does not throw. *)
Lemma services_full platform : services (Some <$> platform) = Ok (serialise <$> platform).
Proof. induction platform as [|d l IH]; [done|]. rewrite !fmap_cons. cbn [services]. rewrite IH. done. Qed.
(** A hole among the slots read makes the loop throw. *)
Lemma services_hole slots : None ∈ slots → services slots = Err TypeError.
Proof.
  induction slots as [|[d|] l IH]; [by intros ?%elem_of_nil| |done].
  intros [?|Hl]%elem_of_cons; [done|]. cbn [services]. by rewrite IH.
Qed.
Lemma after_run_cons run d d' (l : list (option Departure)) :
  after_run run (Some d :: Some d' :: l) =
    if bool_decide (dep_run d = run) then Ok (Some (serialise d'))
    else after_run run (Some d' :: l).
Proof. done. Qed.

(** The entry after a run: the successor of its first occurrence. *)
Lemma after_run_Some run platform next :
  after_run run (Some <$> platform) = Ok (Some (serialise next)) ↔
  ∃ pre d post, platform = pre ++ d :: next :: post ∧ dep_run d = run ∧
    Forall (λ d', dep_run d' ≠ run) pre.
Proof.
  induction platform as [|d [|d' rest] IH].
  - split; [done|]. by intros ([] & ? & ? & ? & _).
  - split; [done|]. intros ([|? []] & ? & ? & ? & _); simplify_eq.
  - rewrite !fmap_cons, after_run_cons. rewrite !fmap_cons in IH.
    case_bool_decide as Hd.
    + split.
      * intros Heq. assert (d' = next) as -> by (apply serialise_inj; congruence).
        by exists [], d, rest.
      * intros ([|d0 pre] & d1 & post & Heq & Hrun & Hpre); simplify_eq/=; [done|].
        by apply Forall_cons in Hpre as [? _].
    + rewrite IH. split.
      * intros (pre & d1 & post & Heq & Hrun & Hpre).
        exists (d :: pre), d1, post. rewrite Heq. by repeat constructor.
      * intros ([|d0 pre] & d1 & post & Heq & Hrun & Hpre); simplify_eq/=.
        apply Forall_cons in Hpre as [_ Hpre]. eauto 10.
Qed.

(** No entry follows a run that is not on the queue or is its last. *)
Lemma after_run_None run platform :
  after_run run (Some <$> platform) = Ok None ↔
  Forall (λ d, dep_run d ≠ run) (removelast platform).
Proof.
  induction platform as [|d [|d' rest] IH]; [done..|].
  rewrite !fmap_cons, after_run_cons. rewrite !fmap_cons in IH.
  cbn [removelast] in *.
  case_bool_decide as Hd; rewrite Forall_cons.
  - naive_solver.
  - rewrite IH. naive_solver.
Qed.

(** What the loops answer is the serialisation of elements of the array. *)
Lemma services_Ok slots l :
  services slots = Ok l → Forall (λ sv, ∃ d, Some d ∈ slots ∧ sv = serialise d) l.
Proof.
  revert l; induction slots as [|[d|] slots IH]; intros l; cbn [services];
    [by intros [= <-]| |done].
  simpl. destruct (services slots) as [body|]; [|done]. intros [= <-].
  constructor; [exists d; split; [left|done]|].
  eapply Forall_impl; [by apply IH|]. intros sv (d' & ? & ->). exists d'. split; [by right|done].
Qed.

Lemma after_run_Ok run (arr : list (option Departure)) sv :
  after_run run arr = Ok (Some sv) → ∃ d, Some d ∈ arr ∧ sv = serialise d.
Proof.
  induction arr as [|[d|] [|next rest] IH]; try done.
  cbn [after_run]. simpl. case_bool_decide.
  - destruct next as [d'|]; [|done]. intros [= <-]. exists d'. split; [|done].
    right. left.
  - intros (d' & ? & ->)%IH. exists d'. split; [by right|done].
Qed.

Lemma length_le_spec n i : length_le n i = true ↔ ∃ z, i = Some z ∧ (Z.of_nat n ≤ z)%Z.
Proof.
  destruct i as [z|]; simpl; [|naive_solver].
  rewrite bool_decide_eq_true. naive_solver.
Qed.

End query_lemmas.

(** ** Theorems *)

Section query_theorems.
Context (departures : gmap string (list (option Departure))).
Implicit Types (platform : list Departure) (d next : Departure) (run plat idx : string).

(** Every handler answers 404 for a platform the board does not hold. *)
Theorem unknown_platform plat run idx :
  departures !! plat = None →
  get_window departures plat = Ok Status404 ∧
  get_after departures plat run = Ok Status404 ∧
  get_index departures plat idx = Ok Status404.
Proof. intros Hp. unfold get_window, get_after, get_index. by rewrite Hp. Qed.

(** C39. The window is the first three entries of the queue, fewer when the
    queue is shorter, in the queue's order. *)
Theorem get_window_prefix plat platform :
  departures !! plat = Some (Some <$> platform) →
  ∃ body, get_window departures plat = Ok (Status200 body) ∧
    body = serialise <$> take 3 platform ∧
    length body = length platform `min` 3.
Proof.
  intros Hp. unfold get_window. rewrite Hp, <-fmap_take, services_full.
  eexists. split_and!; [done..|]. rewrite length_fmap, length_take. lia.
Qed.

(** C35. The entry after a run is the one that follows the run's first
    occurrence on the platform's queue; without one the answer is 404. *)
Theorem get_after_successor plat run platform :
  departures !! plat = Some (Some <$> platform) →
  (∀ next, get_after departures plat run = Ok (Status200 (serialise next)) ↔
     ∃ pre d post, platform = pre ++ d :: next :: post ∧ dep_run d = run ∧
       Forall (λ d', dep_run d' ≠ run) pre) ∧
  (get_after departures plat run = Ok Status404 ↔
     Forall (λ d, dep_run d ≠ run) (removelast platform)).
Proof.
  intros Hp. unfold get_after. rewrite Hp.
  rewrite <-after_run_None. split; [intros next; rewrite <-after_run_Some|];
    destruct (after_run run (Some <$> platform)) as [[sv|]|]; simpl;
    split; try done; by intros [= ->].
Qed.

(** The index handler inside the queue: the entry at that index. *)
Theorem get_index_inside plat idx platform (i : nat) d :
  departures !! plat = Some (Some <$> platform) →
  parseInt idx = Some (Z.of_nat i) → platform !! i = Some d →
  get_index departures plat idx = Ok (Status200 (serialise d)).
Proof.
  intros Hp Hi Hd. unfold get_index, at_index. rewrite Hp, Hi. simpl.
  pose proof (lookup_lt_Some _ _ _ Hd). rewrite length_fmap.
  rewrite bool_decide_eq_false_2 by lia.
  by rewrite index_Z_nat, list_lookup_fmap, Hd.
Qed.

(** Past the end of the queue: 404. *)
Theorem get_index_past_end plat idx (slots : list (option Departure)) z :
  departures !! plat = Some slots →
  parseInt idx = Some z → (Z.of_nat (length slots) ≤ z)%Z →
  get_index departures plat idx = Ok Status404.
Proof.
  intros Hp Hi Hz. unfold get_index. rewrite Hp, Hi. simpl.
  by rewrite bool_decide_eq_true_2.
Qed.

(** C36. A negative index, or one that is not a number, passes the length test
    and the handler throws reading [platform[i].type]. *)
Theorem get_index_throws plat idx (slots : list (option Departure)) :
  departures !! plat = Some slots →
  (parseInt idx = None ∨ ∃ z, parseInt idx = Some z ∧ (z < 0)%Z) →
  get_index departures plat idx = Err TypeError.
Proof.
  intros Hp Hi. unfold get_index, at_index. rewrite Hp.
  destruct Hi as [->|(z & -> & Hz)]; simpl; [done|].
  rewrite bool_decide_eq_false_2 by lia. by rewrite index_Z_neg.
Qed.

End query_theorems.

(** ** Witnesses *)

Lemma unknown_platform_witness :
  get_window sample_board "9" = Ok Status404 ∧
  get_after sample_board "9" "11" = Ok Status404 ∧
  get_index sample_board "9" "0" = Ok Status404.
Proof. apply (unknown_platform sample_board "9" "11" "0"). reflexivity. Defined.

Lemma get_window_prefix_witness :
  ∃ body, get_window sample_board "1" = Ok (Status200 body) ∧
    body = serialise <$> take 3 sample_queue ∧ length body = 3.
Proof. apply (get_window_prefix sample_board "1" sample_queue). reflexivity. Defined.

Lemma get_after_successor_witness :
  (∀ next, get_after sample_board "1" "12" = Ok (Status200 (serialise next)) ↔
     ∃ pre d post, sample_queue = pre ++ d :: next :: post ∧
       dep_run d = "12" ∧ Forall (λ d', dep_run d' ≠ "12") pre) ∧
  (get_after sample_board "1" "12" = Ok Status404 ↔
     Forall (λ d, dep_run d ≠ "12") (removelast sample_queue)).
Proof. apply (get_after_successor sample_board "1" "12" sample_queue). reflexivity. Defined.

Lemma get_index_inside_witness :
  get_index sample_board "1" " 2" =
  Ok (Status200 (serialise (raw_departure 0 "13" 3000 None))).
Proof.
  eapply (get_index_inside sample_board "1" " 2" sample_queue 2); reflexivity.
Defined.

Lemma get_index_past_end_witness : get_index sample_board "2" "0" = Ok Status404.
Proof.
  apply (get_index_past_end sample_board "2" "0" [] 0%Z); [reflexivity..|simpl; lia].
Defined.

Lemma get_index_throws_witness : get_index sample_board "1" "-1" = Err TypeError.
Proof.
  eapply (get_index_throws sample_board "1" "-1"); [reflexivity|].
  right. exists (-1)%Z. split; [reflexivity|lia].
Defined.

(** A platform whose queue has run empty: an empty window, and 404 at index 0. *)
Example empty_platform :
  get_window sample_board "2" = Ok (Status200 []) ∧
  get_index sample_board "2" "0" = Ok Status404.
Proof. split; reflexivity. Qed.

(** A platform whose array has a hole: the window and the index handler throw. *)
Example holed_platform :
  get_window sample_board "3" = Err TypeError ∧
  get_after sample_board "3" "31" = Err TypeError ∧
  get_index sample_board "3" "0" = Err TypeError ∧
  get_index sample_board "3" "1" =
    Ok (Status200 (serialise (raw_departure 0 "31" 1000 None))).
Proof. repeat split; reflexivity. Qed.
