(* ===== verification/Server.v ===== *)
(** * Server: the board, the two cron jobs and the push channel

    The state [main] of [app.js] closes over ([departures], [routeColours],
    the WebSocket clients) and the code that changes it: [fetchDepartures],
    the daily and the minute [cron.schedule] callbacks, the [app.ws]
    handler, and the callbacks that run when an upstream answer arrives.

    The server is event driven.  Each [Event] is one turn of the event
    loop: a callback that runs to completion, together with the promise
    reactions it triggers, up to the next request that has to wait for the
    upstream.  [handle] is the state after the turn.  Between two turns of
    one [async] call other turns run: a call of [fetchDepartureDetails]
    waiting for an answer is a [Task], a [Promise.all] waiting for its
    promises is a [Batch].

    Objects are shared.  A departure object is reachable from a platform
    array, from the call that enriches it and from the results of a
    [Promise.all] at once, so the state holds the objects in a store
    ([objects]) and everything else names them by reference.  The platform
    arrays of the board are in a store as well ([arrays]): the callback of
    the minute job keeps the array it read, and assigns to it after other
    turns have shifted it or the board has been replaced.  The arrays of a
    board that [fetchDepartures] is still building are local to that call
    and are kept in its [Batch]. *)

From S2P Require Import Prelude JsString Model Refresh Pattern Names Classifier Resolver Query.

Local Open Scope eff_scope.

(** ** State *)

(** A reference to a departure object, and to a platform array of a board
    that has been installed. *)
Definition ref : Type := nat.
Definition aref : Type := nat.

(** What the server sends over a WebSocket: [{ command: 'refresh' }] and
    [{ command: 'append', data }]. *)
Inductive Message : Type :=
| CmdRefresh
| CmdAppend (data : Service).

(** A connected client: the platform it listens to ([ws.pnum]) and what has
    been sent to it, oldest first. *)
Record Client : Type := mkClient {
  pnum : string;
  sent : list Message;
}.

#[export] Instance Message_eq_dec : EqDecision Message.
Proof. solve_decision. Defined.

#[export] Instance Client_eq_dec : EqDecision Client.
Proof. solve_decision. Defined.

(** The array a [.then] callback assigns to: the array of a platform of the
    board being built by the call the callback belongs to, or an array of
    an installed board. *)
Inductive Target : Type :=
| Building (plat : string)
| Installed (a : aref).

(** A call of [fetchDepartureDetails(dep)] that waits for an answer to
    [fetchPattern(type, run, saveAll)], with the [.then] callback chained to
    it: [task_await] is [None] at the first [await] and holds the locals at
    the second; the callback assigns [dep] to index [task_index] of
    [task_target], and fulfils promise [task_slot] of [Promise.all] number
    [task_batch] (for the minute job, with [{ platform, service }]). *)
Record Task : Type := mkTask {
  task_dep : ref;
  task_type : Z;
  task_run : string;
  task_await : option Pending;
  task_target : Target;
  task_index : nat;
  task_batch : nat;
  task_slot : option (nat * string);
}.

(** A [Promise.all] that has not settled.  In [fetchDepartures] it is
    awaited with the board [deps] under construction, and [departures = deps]
    follows; [waiting] counts the promises not yet fulfilled.  In the minute
    job its results, in the order of [promises], go to the callback that
    sends the appends.  [Abandoned] stands for the promises of a minute job
    that threw before it reached [Promise.all]: nothing waits for them. *)
Inductive Batch : Type :=
| Installing (waiting : nat) (deps : gmap string (list (option ref)))
| Announcing (results : list (option (string * ref)))
| Abandoned.

Record Server : Type := mkServer {
  listening : bool;
  fetching : nat;
  objects : list Departure;
  arrays : list (list (option ref));
  departures : gmap string aref;
  routeColours : gmap Z string;
  clients : list Client;
  tasks : list (option Task);
  batches : list (option Batch);
  unhandled : list error;
}.

(** [main] at [await fetchDepartures()]: the first departures request is in
    flight, the cron jobs are not scheduled and the server does not listen. *)
Definition boot : Server := mkServer false 1 [] [] ∅ ∅ [] [] [] [].

(** *** Updates of one field *)

Definition with_listening (f : bool → bool) (s : Server) : Server :=
  mkServer (f (listening s)) (fetching s) (objects s) (arrays s) (departures s)
    (routeColours s) (clients s) (tasks s) (batches s) (unhandled s).

Definition with_fetching (f : nat → nat) (s : Server) : Server :=
  mkServer (listening s) (f (fetching s)) (objects s) (arrays s) (departures s)
    (routeColours s) (clients s) (tasks s) (batches s) (unhandled s).

Definition with_objects (f : list Departure → list Departure) (s : Server) : Server :=
  mkServer (listening s) (fetching s) (f (objects s)) (arrays s) (departures s)
    (routeColours s) (clients s) (tasks s) (batches s) (unhandled s).

Definition with_arrays (f : list (list (option ref)) → list (list (option ref)))
    (s : Server) : Server :=
  mkServer (listening s) (fetching s) (objects s) (f (arrays s)) (departures s)
    (routeColours s) (clients s) (tasks s) (batches s) (unhandled s).

Definition with_departures (f : gmap string aref → gmap string aref) (s : Server) : Server :=
  mkServer (listening s) (fetching s) (objects s) (arrays s) (f (departures s))
    (routeColours s) (clients s) (tasks s) (batches s) (unhandled s).

Definition with_routeColours (f : gmap Z string → gmap Z string) (s : Server) : Server :=
  mkServer (listening s) (fetching s) (objects s) (arrays s) (departures s)
    (f (routeColours s)) (clients s) (tasks s) (batches s) (unhandled s).

Definition with_clients (f : list Client → list Client) (s : Server) : Server :=
  mkServer (listening s) (fetching s) (objects s) (arrays s) (departures s)
    (routeColours s) (f (clients s)) (tasks s) (batches s) (unhandled s).

Definition with_tasks (f : list (option Task) → list (option Task)) (s : Server) : Server :=
  mkServer (listening s) (fetching s) (objects s) (arrays s) (departures s)
    (routeColours s) (clients s) (f (tasks s)) (batches s) (unhandled s).

Definition with_batches (f : list (option Batch) → list (option Batch)) (s : Server) : Server :=
  mkServer (listening s) (fetching s) (objects s) (arrays s) (departures s)
    (routeColours s) (clients s) (tasks s) (f (batches s)) (unhandled s).

Definition with_unhandled (f : list error → list error) (s : Server) : Server :=
  mkServer (listening s) (fetching s) (objects s) (arrays s) (departures s)
    (routeColours s) (clients s) (tasks s) (batches s) (f (unhandled s)).

(** [client.send(JSON.stringify(m))] *)
Definition send (m : Message) (c : Client) : Client :=
  mkClient (pnum c) (sent c ++ [m]).

(** The board as the read endpoints see it: every platform's array with the
    objects its elements refer to. *)
Definition board (s : Server) : gmap string (list (option Departure)) :=
  (λ a, (λ x, x ≫= (objects s !!.)) <$> default [] (arrays s !! a)) <$> departures s.

(** What the loop of the minute job leaves alone: it shifts arrays and puts
    requests in flight, and changes nothing else. *)
Definition tick_frame (s s' : Server) : Prop :=
  listening s' = listening s ∧ fetching s' = fetching s ∧
  objects s' = objects s ∧ departures s' = departures s ∧
  routeColours s' = routeColours s ∧ clients s' = clients s ∧
  batches s' = batches s ∧ unhandled s' = unhandled s ∧
  tasks s `prefix_of` tasks s' ∧ length (arrays s') = length (arrays s).

(** What starting enrichment calls changes: requests are put in flight. *)
Definition tasks_frame (s s' : Server) : Prop :=
  tasks s `prefix_of` tasks s' ∧ with_tasks (λ _, tasks s) s' = s.

(** What creating departure objects changes: the store grows. *)
Definition alloc_frame (s s' : Server) : Prop :=
  objects s `prefix_of` objects s' ∧ with_objects (λ _, objects s) s' = s.

(** ** The WebSocket handler and the daily job *)

(** [app.ws('/ws/:plat', ...)]: the client is registered with its platform
    and told to refresh. *)
Definition connect (plat : string) (s : Server) : Server :=
  with_clients (λ cs, cs ++ [mkClient plat [CmdRefresh]]) s.

(** The daily job: [fetchDepartures()] runs up to its first [await], which
    puts the departures request in flight, and every client is told to
    refresh at once. *)
Definition daily (s : Server) : Server :=
  with_clients (fmap (send CmdRefresh)) (with_fetching S s).

(** ** [fetchDepartures] after the answer *)

(** [departures = deps], after which [main] goes on to schedule the cron
    jobs and to listen (at startup; later the assignment is all). *)
Definition install (deps : gmap string (list (option ref))) (s : Server) : Server :=
  let entries := map_to_list deps in
  with_listening (λ _, true)
    (with_departures
       (λ _, list_to_map (zip entries.*1 (seq (length (arrays s)) (length entries))))
       (with_arrays (λ l, l ++ entries.*2) s)).

(** The objects [depData] of one platform, created in the store. *)
Definition allocate_platform (acc : Server * gmap string (list (option ref)))
    (entry : string * list Departure) : Server * gmap string (list (option ref)) :=
  (with_objects (λ l, l ++ entry.2) acc.1,
   <[entry.1 := Some <$> seq (length (objects acc.1)) (length entry.2)]> acc.2).

Definition allocate (queues : gmap string (list Departure)) (s : Server)
    : Server * gmap string (list (option ref)) :=
  foldl allocate_platform (s, ∅) (map_to_list queues).

(** [fetchDepartureDetails(dep)] up to its first [await]: the request for
    the pattern of [dep.run] is put in flight. *)
Definition start_details (r : ref) (target : Target) (i : nat) (b : nat)
    (slot : option (nat * string)) (s : Server) : Server :=
  match objects s !! r with
  | Some dep =>
      with_tasks (λ l, l ++ [Some (mkTask r (dep_type dep) (dep_run dep) None
                                     target i b slot)]) s
  | None => s
  end.

(** [for (let i = 0; i < 3 && i < platform.length; i++)
      promises.push(fetchDepartureDetails(platform[i]).then(...))] *)
Definition start_platform (b : nat) (s : Server) (entry : string * list (option ref))
    : Server :=
  foldl (λ s i, match array_get entry.2 i with
                | Some r => start_details r (Building entry.1) i b None s
                | None => s
                end)
    s (seq 0 (3 `min` length entry.2)).

(** From [const promises = []] to [await Promise.all(promises)]; with no
    promise to wait for the board is installed in the same turn. *)
Definition begin_install (deps : gmap string (list (option ref))) (s : Server) : Server :=
  let s' := foldl (start_platform (length (batches s))) s (map_to_list deps) in
  match length (tasks s') - length (tasks s) with
  | 0 => install deps s'
  | n => with_batches (λ l, l ++ [Some (Installing n deps)]) s'
  end.

Section server.
Context (STATION : StationValue) (metroLines : gmap string string).

(** The turn in which the departures request settles; [now] is what
    [Date.now()] returns in it.  A failure of the request, or a throw in the
    loop over the departures, rejects [fetchDepartures]; nothing handles
    the rejection. *)
Definition on_departures (answer : result DeparturesResponse) (now : Z) (s : Server)
    : Server :=
  match fetching s with
  | 0 => s
  | S n =>
      let s := with_fetching (λ _, n) s in
      match answer with
      | Err e => with_unhandled (λ l, l ++ [e]) s
      | Ok resp =>
          let s := with_routeColours (set_colours metroLines (dr_routes resp)) s in
          match bucket (dr_runs resp) (routeColours s) now (dr_departures resp) ∅ with
          | Err e => with_unhandled (λ l, l ++ [e]) s
          | Ok queues =>
              let '(s, deps) := allocate queues s in begin_install deps s
          end
      end
  end.

(** ** The minute job *)

(** One iteration of [for (const [pnum, platform] of Object.entries(departures))];
    [n] is [promises.length], [b] the [Promise.all] the promises will be
    given to. *)
Definition tick_platform (now : Z) (b : nat) (plat : string) (n : nat)
    : Eff Server nat :=
  s <- eff_get ;;
  match departures s !! plat with
  | None => eff_ret n
  | Some a =>
      let platform := default [] (arrays s !! a) in
      if bool_decide (length platform = 0) then eff_ret n
      else
        head <- eff_lift (required (array_get platform 0 ≫= (objects s !!.))) ;;
        if bool_decide (dep_time head - now ≤ -1 * 60000)%Z then
          eff_modify (with_arrays (alter tail a)) ;; eff_ret n
        else if bool_decide (dep_time head - now ≤ 0)%Z then
          if bool_decide (1 < length platform) then
            let nextIdx := (length platform - 1) `min` 3 in
            r <- eff_lift (required (array_get platform nextIdx)) ;;
            next <- eff_lift (required (objects s !! r)) ;;
            if bool_decide (is_Some (dep_stations next)) then eff_ret n
            else
              eff_modify (start_details r (Installed a) nextIdx b (Some (n, plat))) ;;
              eff_ret (S n)
          else eff_ret n
        else eff_ret n
  end.

(** The loop, over the platforms in the order [Object.entries] gives. *)
Fixpoint tick_loop (now : Z) (b : nat) (order : list string) (n : nat)
    : Eff Server nat :=
  match order with
  | [] => eff_ret n
  | plat :: rest => n' <- tick_platform now b plat n ;; tick_loop now b rest n'
  end.

(** The minute job.  With promises it ends in [Promise.all(promises).then];
    a [TypeError] thrown in the loop ends the callback there, after the
    platforms before it have been dealt with. *)
Definition tick (now : Z) (order : list string) (s : Server) : Server :=
  match tick_loop now (length (batches s)) order 0 s with
  | (Ok 0, s') => with_batches (λ l, l ++ [None]) s'
  | (Ok n, s') => with_batches (λ l, l ++ [Some (Announcing (replicate n None))]) s'
  | (Err e, s') =>
      with_unhandled (λ l, l ++ [e]) (with_batches (λ l, l ++ [Some Abandoned]) s')
  end.

(** ** When an enrichment settles *)

(** The callback of [Promise.all(promises).then] in the minute job:
    [results.reduce(...)] builds the object [platforms], and every client
    whose platform is in it is sent the service as it is at that moment. *)
Definition announce (results : list (string * ref)) (s : Server) : Server :=
  let platforms : gmap string ref :=
    foldl (λ obj item, <[item.1 := item.2]> obj) ∅ results in
  with_clients
    (fmap (λ c, match platforms !! pnum c ≫= (objects s !!.) with
                | Some service => send (CmdAppend (serialise service)) c
                | None => c
                end)) s.

(** [platform[i] = result] *)
Definition store_result (task : Task) (s : Server) : Server :=
  match task_target task with
  | Installed a =>
      with_arrays (alter (array_set (task_index task) (task_dep task)) a) s
  | Building plat =>
      with_batches
        (alter (fmap (λ batch,
                  match batch with
                  | Installing n deps =>
                      Installing n
                        (alter (array_set (task_index task) (task_dep task)) plat deps)
                  | _ => batch
                  end)) (task_batch task)) s
  end.

(** The enrichment is fulfilled: its [.then] callback runs, and then the
    [Promise.all] it belongs to, if that was its last promise. *)
Definition fulfilled (task : Task) (s : Server) : Server :=
  let s := store_result task s in
  let b := task_batch task in
  match mjoin (batches s !! b) with
  | Some (Installing n deps) =>
      if bool_decide (n ≤ 1) then install deps (with_batches (<[b := None]>) s)
      else with_batches (<[b := Some (Installing (n - 1) deps)]>) s
  | Some (Announcing results) =>
      match task_slot task with
      | Some (i, plat) =>
          let results := <[i := Some (plat, task_dep task)]> results in
          match mapM id results with
          | Some all => announce all (with_batches (<[b := None]>) s)
          | None => with_batches (<[b := Some (Announcing results)]>) s
          end
      | None => s
      end
  | _ => s
  end.

(** The enrichment is rejected: so is the [Promise.all], unless it has been
    already, and nothing handles that.  Nothing handles the rejection of an
    abandoned promise either. *)
Definition rejected (task : Task) (e : error) (s : Server) : Server :=
  let b := task_batch task in
  match mjoin (batches s !! b) with
  | Some Abandoned => with_unhandled (λ l, l ++ [e]) s
  | Some _ => with_unhandled (λ l, l ++ [e]) (with_batches (<[b := None]>) s)
  | None => s
  end.

(** What the suspended call does with the answer: [fetchPattern] finishes
    on it, and [fetchDepartureDetails] runs from its first [await] to the
    second request ([Some]) or to its end, or from its second [await] to
    its end. *)
Definition resume_task (colours : gmap Z string) (task : Task)
    (answer : result PatternResponse) (dep : Departure)
    : result (option Pending) * Departure :=
  let fetched :=
    resp ← answer;
    pattern_result STATION resp (task_run task)
      (bool_decide (is_Some (task_await task))) in
  match task_await task with
  | None => details_begin STATION fetched dep
  | Some k =>
      let '(r, dep') := details_resume STATION colours k fetched dep in
      ((λ _, None) <$> r, dep')
  end.

(** The call suspended in [await fetchPattern(dep.type, dist.run_ref, true)]. *)
Definition next_task (task : Task) (dep : Departure) (k : Pending) : Task :=
  mkTask (task_dep task) (dep_type dep) (dist_run_ref (pend_dist k)) (Some k)
    (task_target task) (task_index task) (task_batch task) (task_slot task).

(** The turn in which the pattern request of task [t] settles. *)
Definition on_pattern (t : nat) (answer : result PatternResponse) (s : Server) : Server :=
  match mjoin (tasks s !! t) with
  | None => s
  | Some task =>
      match objects s !! task_dep task with
      | None => s
      | Some dep =>
          let '(outcome, dep') := resume_task (routeColours s) task answer dep in
          let s := with_objects (<[task_dep task := dep']>) s in
          match outcome with
          | Ok (Some k) => with_tasks (<[t := Some (next_task task dep' k)]>) s
          | Ok None => fulfilled task (with_tasks (<[t := None]>) s)
          | Err e => rejected task e (with_tasks (<[t := None]>) s)
          end
      end
  end.

(** ** Events *)

(** The turns of the event loop that change the state.  [Minute] carries
    the order in which [Object.entries(departures)] lists the platforms. *)
Inductive Event : Type :=
| Connect (plat : string)
| Daily
| Minute (now : Z) (order : list string)
| DeparturesAnswer (answer : result DeparturesResponse) (now : Z)
| PatternAnswer (t : nat) (answer : result PatternResponse).

Definition handle (e : Event) (s : Server) : Server :=
  match e with
  | Connect plat => connect plat s
  | Daily => daily s
  | Minute now order => tick now order s
  | DeparturesAnswer answer now => on_departures answer now s
  | PatternAnswer t answer => on_pattern t answer s
  end.

(** When a turn can happen: clients connect and the cron jobs fire once the
    server listens; an answer arrives for a request in flight. *)
Definition enabled (e : Event) (s : Server) : Prop :=
  match e with
  | Connect _ | Daily => listening s = true
  | Minute _ order => listening s = true ∧ order ≡ₚ (map_to_list (departures s)).*1
  | DeparturesAnswer _ _ => 0 < fetching s
  | PatternAnswer t _ => is_Some (mjoin (tasks s !! t))
  end.

(** The states of the server. *)
Inductive reachable : Server → Prop :=
| reachable_boot : reachable boot
| reachable_step s e : reachable s → enabled e s → reachable (handle e s).

(** A run of the server from a state. *)
Definition run (events : list Event) (s : Server) : Server :=
  foldl (λ s e, handle e s) s events.

(** Every turn of the run can happen when its turn comes. *)
Fixpoint enabled_run (events : list Event) (s : Server) : Prop :=
  match events with
  | [] => True
  | e :: events => enabled e s ∧ enabled_run events (handle e s)
  end.

#[export] Instance enabled_dec e s : Decision (enabled e s).
Proof. destruct e; simpl; apply _. Defined.

#[export] Instance enabled_run_dec events s : Decision (enabled_run events s).
Proof. revert s; induction events; intros s; simpl; apply _. Defined.

(** The turn in which the upstream answers the request of task [t]. *)
Definition upstream_answers `{Upstream} (t : nat) (s : Server) : Server :=
  match mjoin (tasks s !! t) with
  | Some task => on_pattern t (get_pattern (task_run task) (task_type task)) s
  | None => s
  end.

End server.

(** ** A station to evaluate on *)

(** A run from Footscray to Flinders Street that goes no further. *)
Definition direct (run : string) : PatternResponse :=
  answer [ (1072, "Footscray"); (1071, "Flinders Street") ]%Z
         [ mkRun run 6 0 1071 "Flinders Street" None ].

Definition demo_lines : gmap string string := {[ "FKN" := "crosscity" ]}.

(** A departures answer with the given calls (time, platform, run), all of
    route 6. *)
Definition timetable (calls : list (Z * string * string)) : DeparturesResponse :=
  mkDeparturesResponse ((λ c, mkScheduled c.1.1 c.1.2 c.2 6) <$> calls)
    {[ 6%Z := mkRoute 0 (Some "2-FKN") ]}
    (list_to_map ((λ c, (c.2, mkRun c.2 6 0 1071 "Flinders Street" None)) <$> calls)).

(** Five departures from platform 1, a minute apart, and run 103 of
    [Resolver]'s scenarios from platform 2. *)
Definition demo_timetable : DeparturesResponse :=
  timetable [ (60000, "1", "A"); (90000, "2", "103"); (120000, "1", "B");
              (180000, "1", "C"); (240000, "1", "D"); (300000, "1", "E") ]%Z.

(** The upstream: runs A to E are direct, the others are [Resolver]'s. *)
Definition demo_upstream : Upstream :=
  {| get_pattern run type :=
       if bool_decide (run ∈ ["A"; "B"; "C"; "D"; "E"]) then Ok (direct run)
       else @get_pattern sample_upstream run type |}.

(** The server at Footscray, and the turns in which [demo_upstream] answers
    the tasks [ts], in that order. *)
Definition demo (events : list Event) (s : Server) : Server :=
  run FOOTSCRAY demo_lines events s.

Definition demo_answers (ts : list nat) (s : Server) : Server :=
  foldl (λ s t, @upstream_answers FOOTSCRAY demo_upstream t s) s ts.

(** The departures answer has arrived at time 0: four enrichments are in
    flight (tasks 0 to 2 for A, B and C, task 3 for run 103). *)
Definition demo_fetched : Server :=
  demo [DeparturesAnswer (Ok demo_timetable) 0] boot.

(** All four have been answered (run 103 twice): the board is installed. *)
Definition demo_ready : Server := demo_answers [0; 1; 2; 3; 3] demo_fetched.

(** A client of each platform has connected, and the minute job has fired
    ten seconds after A was due: the enrichment of D is in flight (task 4). *)
Definition demo_minute : Server :=
  demo [Connect "1"; Connect "2"; Minute 70000 ["1"; "2"]] demo_ready.

(** What a client has been sent, by its number in [clients]. *)
Definition sent_to (c : nat) (s : Server) : list Message :=
  default [] (sent <$> clients s !! c).

(** Which elements of a platform's array are enriched, and their
    destinations. *)
Definition enriched_on (plat : string) (s : Server) : list bool :=
  (λ x : option Departure,
     match x with Some d => bool_decide (enriched d) | None => false end)
    <$> default [] (board s !! plat).

Definition dests_on (plat : string) (s : Server) : list (option string) :=
  (λ x : option Departure, x ≫= dep_dest) <$> default [] (board s !! plat).

(** The runs on a platform's array, [None] for a hole. *)
Definition runs_on (plat : string) (s : Server) : list (option string) :=
  (λ x : option Departure, dep_run <$> x) <$> default [] (board s !! plat).

(** ** Lemmas: what each handler leaves alone *)

#[export] Instance tick_frame_preorder : PreOrder tick_frame.
Proof.
  split.
  - by intros s.
  - intros s1 s2 s3 (?&?&?&?&?&?&?&?&?&?) (?&?&?&?&?&?&?&?&?&?).
    unfold tick_frame. split_and!; try congruence. by etrans.
Qed.

Lemma start_details_frame r target i b slot s :
  tick_frame s (start_details r target i b slot s).
Proof.
  unfold start_details. destruct (objects s !! r); [|done].
  unfold tick_frame; simpl. split_and!; try done. by apply prefix_app_r.
Qed.

Section frames.
Context (STATION : StationValue) (metroLines : gmap string string).

Lemma tick_platform_frame now b plat n :
  eff_keeps tick_frame (tick_platform now b plat n).
Proof.
  unfold tick_platform. keeps.
  - unfold tick_frame; simpl. intros s'. split_and!; try done. by rewrite length_alter.
  - apply start_details_frame.
Qed.

Lemma tick_loop_frame now b order n :
  eff_keeps tick_frame (tick_loop now b order n).
Proof.
  revert n; induction order as [|plat rest IH]; intros n; simpl; [by intros ?|].
  pose proof tick_platform_frame. keeps.
Qed.

Lemma tick_frame_tick now order s :
  listening (tick now order s) = listening s ∧ fetching (tick now order s) = fetching s ∧
  objects (tick now order s) = objects s ∧ departures (tick now order s) = departures s ∧
  routeColours (tick now order s) = routeColours s ∧ clients (tick now order s) = clients s.
Proof.
  unfold tick. pose proof (tick_loop_frame now (length (batches s)) order 0 s) as Hf.
  destruct (tick_loop _ _ _ _ s) as [[[|n]|e] s']; simpl in *;
    destruct Hf as (?&?&?&?&?&?&_); by split_and!.
Qed.

End frames.

Section settle.
Context (STATION : StationValue).
Implicit Types (s : Server) (task : Task) (t : nat).

(** Settling an enrichment touches no object, no task and no colour. *)
Lemma fulfilled_frame task s :
  objects (fulfilled task s) = objects s ∧ tasks (fulfilled task s) = tasks s ∧
  routeColours (fulfilled task s) = routeColours s ∧
  unhandled (fulfilled task s) = unhandled s.
Proof.
  unfold fulfilled, store_result, announce, install.
  repeat case_match; by split_and!.
Qed.

Lemma rejected_frame task e s :
  objects (rejected task e s) = objects s ∧ tasks (rejected task e s) = tasks s ∧
  routeColours (rejected task e s) = routeColours s ∧
  clients (rejected task e s) = clients s ∧
  departures (rejected task e s) = departures s ∧
  arrays (rejected task e s) = arrays s.
Proof. unfold rejected. repeat case_match; by split_and!. Qed.

(** The turn of an answer: the object of the task is updated, the task is
    suspended again or removed, the colours stay. *)
Lemma on_pattern_step t answer s task dep :
  mjoin (tasks s !! t) = Some task → objects s !! task_dep task = Some dep →
  let step := resume_task STATION (routeColours s) task answer dep in
  objects (on_pattern STATION t answer s) = <[task_dep task := step.2]> (objects s) ∧
  tasks (on_pattern STATION t answer s) =
    <[t := match step.1 with
           | Ok (Some k) => Some (next_task task step.2 k)
           | _ => None
           end]> (tasks s) ∧
  routeColours (on_pattern STATION t answer s) = routeColours s.
Proof.
  intros Ht Hd. unfold on_pattern. rewrite Ht, Hd. simpl.
  destruct (resume_task _ _ _ _ _) as [[[k|]|e] dep']; simpl.
  - done.
  - by destruct (fulfilled_frame task
      (with_tasks <[t:=None]> (with_objects <[task_dep task:=dep']> s))) as (-> & -> & -> & _).
  - by destruct (rejected_frame task e
      (with_tasks <[t:=None]> (with_objects <[task_dep task:=dep']> s))) as (-> & -> & -> & _).
Qed.

(** An answer for no task in flight changes nothing. *)
Lemma on_pattern_idle t answer s :
  mjoin (tasks s !! t) = None → on_pattern STATION t answer s = s.
Proof. unfold on_pattern. by intros ->. Qed.

Lemma resume_task_grows colours task answer dep :
  grows dep (resume_task STATION colours task answer dep).2.
Proof.
  unfold resume_task. destruct (task_await task) as [k|].
  - pose proof (details_resume_keeps STATION grows grows_set_stations grows_set_dest
      grows_set_subtitle colours k
      (answer ≫= λ resp, pattern_result STATION resp (task_run task) (bool_decide (is_Some (Some k))))
      dep) as Hk.
    by destruct (details_resume _ _ _ _ _).
  - apply (details_begin_keeps STATION grows grows_set_stations grows_set_dest
      grows_set_subtitle).
Qed.

(** An enrichment that is fulfilled leaves its object enriched. *)
Lemma resume_task_enriched colours task answer dep dep' :
  resume_task STATION colours task answer dep = (Ok None, dep') → enriched dep'.
Proof.
  unfold resume_task. destruct (task_await task) as [k|].
  - destruct (details_resume _ _ _ _ _) as [[[]|] d] eqn:Hr; simpl; [|done].
    intros [= <-]. by eapply details_resume_enriched.
  - apply details_begin_enriched.
Qed.
End settle.

(** ** Lemmas: runs *)

Section runs.
Context (STATION : StationValue) (metroLines : gmap string string).

Lemma reachable_run events s :
  reachable STATION metroLines s →
  bool_decide (enabled_run STATION metroLines events s) = true →
  reachable STATION metroLines (run STATION metroLines events s).
Proof.
  intros Hs Hrun%bool_decide_eq_true. revert s Hs Hrun.
  induction events as [|e events IH]; intros s Hs; simpl; [done|].
  intros [He Hrun]. by apply IH; [apply reachable_step|].
Qed.

(** The turn in which the upstream answers is a turn of the server. *)
Lemma reachable_upstream_answers `{Upstream} t s :
  reachable STATION metroLines s →
  reachable STATION metroLines (upstream_answers STATION t s).
Proof.
  intros Hs. unfold upstream_answers.
  destruct (mjoin (tasks s !! t)) as [task|] eqn:Ht; [|done].
  apply (reachable_step _ _ s (PatternAnswer t _) Hs). simpl. by rewrite Ht.
Qed.

End runs.

Lemma reachable_demo events s :
  reachable FOOTSCRAY demo_lines s →
  bool_decide (enabled_run FOOTSCRAY demo_lines events s) = true →
  reachable FOOTSCRAY demo_lines (demo events s).
Proof. apply reachable_run. Qed.

Lemma reachable_demo_answers ts s :
  reachable FOOTSCRAY demo_lines s → reachable FOOTSCRAY demo_lines (demo_answers ts s).
Proof.
  intros Hs. unfold demo_answers. apply (foldl_invariant (reachable FOOTSCRAY demo_lines)).
  - intros s' t. apply reachable_upstream_answers.
  - done.
Qed.

(** The states of the runs from [boot] that are made of [demo] and
    [demo_answers] are states of the server: the run is taken apart by its
    syntax, and that its turns can happen is computed. *)
Ltac reach :=
  repeat lazymatch goal with
  | |- reachable _ _ boot => apply reachable_boot
  | |- reachable _ _ (demo_answers _ _) => apply reachable_demo_answers
  | |- reachable _ _ (demo _ _) => apply reachable_demo; [|vm_compute; reflexivity]
  | |- reachable _ _ (?f _) => unfold f
  | |- reachable _ _ ?f => unfold f
  end.

(** A run and what it ends in: [reachable s ∧ ...]. *)
Ltac scenario := cbv zeta; split; [reach|by vm_compute].

(** ** Lemmas: the turn of the departures answer *)

(** Unfold the updates of a field down to the record, and take equations
    between records apart. *)
Ltac unfold_with :=
  unfold with_listening, with_fetching, with_objects, with_arrays, with_departures,
    with_routeColours, with_clients, with_tasks, with_batches, with_unhandled in *;
  simpl in *;
  repeat match goal with
  | H : mkServer _ _ _ _ _ _ _ _ _ _ = mkServer _ _ _ _ _ _ _ _ _ _ |- _ =>
      injection H; clear H; intros; subst
  end.

#[export] Instance tasks_frame_preorder : PreOrder tasks_frame.
Proof.
  unfold tasks_frame. split.
  - intros []. by split.
  - intros [] [] [] [? ?] [? ?]; unfold_with. split; [by etrans|done].
Qed.

#[export] Instance alloc_frame_preorder : PreOrder alloc_frame.
Proof.
  unfold alloc_frame. split.
  - intros []. by split.
  - intros [] [] [] [? ?] [? ?]; unfold_with. split; [by etrans|done].
Qed.

Lemma start_details_tasks_frame r target i b slot s :
  tasks_frame s (start_details r target i b slot s).
Proof.
  unfold start_details. destruct (objects s !! r); [|done].
  destruct s. split; simpl; [by apply prefix_app_r|done].
Qed.

Lemma start_platform_frame b s entry : tasks_frame s (start_platform b s entry).
Proof.
  unfold start_platform. apply (foldl_preorder tasks_frame id). intros s' i. unfold id.
  destruct (array_get entry.2 i); [apply start_details_tasks_frame|done].
Qed.

Lemma allocate_frame queues s : alloc_frame s (allocate queues s).1.
Proof.
  unfold allocate.
  apply (foldl_preorder alloc_frame fst allocate_platform (map_to_list queues) (s, ∅)).
  intros [[] deps] entry. split; simpl; [by apply prefix_app_r|done].
Qed.

Section turns.
Context (STATION : StationValue) (metroLines : gmap string string).
Implicit Types (s : Server) (task : Task) (t : nat) (e : Event).

Lemma begin_install_frame deps s :
  objects (begin_install deps s) = objects s ∧
  clients (begin_install deps s) = clients s ∧
  routeColours (begin_install deps s) = routeColours s ∧
  unhandled (begin_install deps s) = unhandled s ∧
  fetching (begin_install deps s) = fetching s.
Proof.
  unfold begin_install.
  destruct (foldl_preorder tasks_frame id (start_platform (length (batches s)))
              (map_to_list deps) s (start_platform_frame _)) as [_ Hf].
  unfold id in Hf. destruct (foldl _ s _), s. unfold_with.
  by destruct (_ - _).
Qed.

(** The turn of the departures answer creates objects and sends nothing. *)
Lemma on_departures_frame answer now s :
  objects s `prefix_of` objects (on_departures metroLines answer now s) ∧
  clients (on_departures metroLines answer now s) = clients s.
Proof.
  unfold on_departures. destruct (fetching s); [done|].
  destruct answer as [resp|]; [|done]. simpl.
  destruct (bucket _ _ _ _ _) as [queues|]; [|done].
  set (s0 := with_routeColours _ _).
  destruct (allocate_frame queues s0) as [Hpre Hf].
  destruct (allocate queues s0) as [s1 deps]. simpl in *.
  destruct (begin_install_frame deps s1) as (-> & -> & _).
  subst s0. destruct s, s1. by unfold_with.
Qed.

Lemma store_result_frame task s :
  objects (store_result task s) = objects s ∧ tasks (store_result task s) = tasks s ∧
  clients (store_result task s) = clients s ∧
  departures (store_result task s) = departures s ∧
  routeColours (store_result task s) = routeColours s ∧
  unhandled (store_result task s) = unhandled s.
Proof. unfold store_result. by destruct (task_target task). Qed.

(** The assignment [platform[i] = result] changes no [Promise.all] but in
    the board it is building. *)
Lemma store_result_batches task s b :
  mjoin (batches (store_result task s) !! b) =
    (λ batch, match batch, task_target task with
              | Installing n deps, Building plat =>
                  if decide (b = task_batch task)
                  then Installing n
                         (alter (array_set (task_index task) (task_dep task)) plat deps)
                  else batch
              | _, _ => batch
              end) <$> mjoin (batches s !! b).
Proof.
  unfold store_result. destruct (task_target task) as [plat|a]; simpl.
  - destruct (decide (b = task_batch task)) as [->|].
    + rewrite list_lookup_alter_eq.
      by destruct (batches s !! task_batch task) as [[[]|]|].
    + rewrite list_lookup_alter_ne by done.
      by destruct (batches s !! b) as [[[]|]|].
  - by destruct (batches s !! b) as [[[]|]|].
Qed.

(** Fulfilling an enrichment sends something only when it completes the
    results of a minute job, and then does not replace the board. *)
Lemma fulfilled_clients task s :
  clients (fulfilled task s) ≠ clients s →
  departures (fulfilled task s) = departures s ∧
  ∃ i plat results all, task_slot task = Some (i, plat) ∧
    mjoin (batches s !! task_batch task) = Some (Announcing results) ∧
    mapM id (<[i := Some (plat, task_dep task)]> results) = Some all.
Proof.
  unfold fulfilled. rewrite store_result_batches.
  destruct (store_result_frame task s) as (_ & _ & Hc & Hd & _).
  destruct (mjoin (batches s !! task_batch task)) as [[n deps|results|]|]; simpl;
    [| |done..].
  - destruct (task_target task); [rewrite decide_True by done|];
      by case_bool_decide.
  - destruct (task_slot task) as [[i plat]|]; [|done].
    destruct (task_target task); (destruct (mapM id _) as [all|] eqn:Hall; [|done]);
      split; eauto 10.
Qed.

(** The turn of a pattern answer sends something only when it fulfils the
    last promise of a minute job, and then does not replace the board. *)
Lemma on_pattern_clients t answer s :
  clients (on_pattern STATION t answer s) ≠ clients s →
  departures (on_pattern STATION t answer s) = departures s ∧
  ∃ task i plat results all,
    mjoin (tasks s !! t) = Some task ∧ task_slot task = Some (i, plat) ∧
    mjoin (batches s !! task_batch task) = Some (Announcing results) ∧
    mapM id (<[i := Some (plat, task_dep task)]> results) = Some all.
Proof.
  unfold on_pattern. destruct (mjoin (tasks s !! t)) as [task|]; [|done].
  destruct (objects s !! task_dep task) as [dep|]; [|done].
  destruct (resume_task _ _ _ _ _) as [[[k|]|e] dep']; simpl; [done| |].
  - intros Hc.
    apply (fulfilled_clients task
             (with_tasks <[t:=None]> (with_objects <[task_dep task:=dep']> s))) in Hc
      as (? & i & plat & results & all & ? & ? & ?).
    eauto 10.
  - by destruct (rejected_frame task e
      (with_tasks <[t:=None]> (with_objects <[task_dep task:=dep']> s))) as (_&_&_&->&_).
Qed.

End turns.

(** ** Theorems *)

Section server_theorems.
Context (STATION : StationValue) (metroLines : gmap string string).
Implicit Types (s : Server) (task : Task) (t : nat) (e : Event).

(** C12. The asynchronous enrichment is the synchronous one.  A call of
    [fetchDepartureDetails] in flight on an object, given the upstream's
    answers in at most two turns with the colour map unchanged in between,
    leaves the object as [fetchDepartureDetails] run in one piece does, and
    is then no longer in flight. *)
Theorem on_pattern_enrich `{Upstream} s t task d :
  mjoin (tasks s !! t) = Some task → task_await task = None →
  objects s !! task_dep task = Some d →
  task_type task = dep_type d → task_run task = dep_run d →
  let s' := upstream_answers STATION t (upstream_answers STATION t s) in
  objects s' !! task_dep task
    = Some (fetchDepartureDetails STATION (routeColours s) d).2 ∧
  mjoin (tasks s' !! t) = None.
Proof.
  intros Ht Hfirst Hd Htype Hrun s'. subst s'.
  assert (upstream_answers STATION t s
          = on_pattern STATION t (get_pattern (dep_run d) (dep_type d)) s) as ->
    by (unfold upstream_answers; by rewrite Ht, Htype, Hrun).
  destruct (on_pattern_step STATION t (get_pattern (dep_run d) (dep_type d))
              s task d Ht Hd) as (Ho & Hts & Hc).
  unfold resume_task in Ho, Hts. rewrite Hfirst, Hrun in Ho, Hts.
  rewrite bool_decide_eq_false_2 in Ho, Hts by (by intros []).
  set (s1 := on_pattern _ _ _ _) in *.
  pose proof (lookup_lt_Some _ _ _ Hd) as Hlt.
  assert (t < length (tasks s)) as Htlt.
  { apply lookup_lt_is_Some. destruct (tasks s !! t); [done|discriminate]. }
  unfold fetchDepartureDetails, eff_bind at 1, eff_get, fetchPattern, eff_bind at 1.
  pose proof (details_begin_keeps STATION grows grows_set_stations
    grows_set_dest grows_set_subtitle
    (get_pattern (dep_run d) (dep_type d) ≫= λ resp, pattern_result STATION resp (dep_run d) false)
    d) as Hsame.
  destruct (details_begin _ _ d) as [[[k|]|e] d1]; simpl in *.
  - assert (mjoin (tasks s1 !! t) = Some (next_task task d1 k)) as Ht1
      by (by rewrite Hts, list_lookup_insert_eq).
    assert (objects s1 !! task_dep task = Some d1) as Hd1
      by (by rewrite Ho, list_lookup_insert_eq).
    assert (upstream_answers STATION t s1 = on_pattern STATION t
              (get_pattern (dist_run_ref (pend_dist k)) (dep_type d)) s1) as ->.
    { unfold upstream_answers. rewrite Ht1. simpl. by destruct Hsame as ((-> & _) & _). }
    destruct (on_pattern_step STATION t
                (get_pattern (dist_run_ref (pend_dist k)) (dep_type d))
                s1 (next_task task d1 k) d1 Ht1 Hd1) as (Ho2 & Hts2 & _).
    rewrite Ho2, Hts2, !list_lookup_insert_eq
      by (rewrite ?Ho, ?Hts, ?length_insert; done).
    unfold resume_task. simpl. rewrite Hc.
    by destruct (details_resume _ _ _ _ _) as [[[]|] d2].
  - assert (mjoin (tasks s1 !! t) = None) as Ht1
      by (by rewrite Hts, list_lookup_insert_eq).
    assert (upstream_answers STATION t s1 = s1) as ->
      by (unfold upstream_answers; by rewrite Ht1).
    by rewrite Ho, list_lookup_insert_eq.
  - assert (mjoin (tasks s1 !! t) = None) as Ht1
      by (by rewrite Hts, list_lookup_insert_eq).
    assert (upstream_answers STATION t s1 = s1) as ->
      by (unfold upstream_answers; by rewrite Ht1).
    by rewrite Ho, list_lookup_insert_eq.
Qed.

(** Every turn keeps every object, and what it has been given. *)
Lemma handle_grows e s (r : ref) d :
  objects s !! r = Some d →
  ∃ d', objects (handle STATION metroLines e s) !! r = Some d' ∧ grows d d'.
Proof.
  intros Hr. destruct e as [plat| |now order|answer now|t answer]; simpl.
  - by exists d.
  - by exists d.
  - destruct (tick_frame_tick now order s) as (_ & _ & -> & _). by exists d.
  - destruct (on_departures_frame metroLines answer now s) as [Hpre _].
    exists d. split; [by eapply prefix_lookup_Some|done].
  - destruct (mjoin (tasks s !! t)) as [task|] eqn:Ht;
      [|rewrite on_pattern_idle by done; by exists d].
    destruct (objects s !! task_dep task) as [dep|] eqn:Hdep;
      [|unfold on_pattern; rewrite Ht, Hdep; by exists d].
    destruct (on_pattern_step STATION t answer s task dep Ht Hdep) as (-> & _).
    destruct (decide (r = task_dep task)) as [->|].
    + rewrite list_lookup_insert_eq by (by eapply lookup_lt_Some).
      simplify_eq. eexists. split; [done|apply resume_task_grows].
    + rewrite list_lookup_insert_ne by done. by exists d.
Qed.

(** C24. A departure object, once created, stays in the store with the
    [type], [run], [time] and [colour] it was created with, and a property
    the enrichment has assigned is never removed, whatever turns follow. *)
Theorem objects_grow events s (r : ref) d :
  objects s !! r = Some d →
  ∃ d', objects (run STATION metroLines events s) !! r = Some d' ∧ grows d d'.
Proof.
  revert s d; induction events as [|e events IH]; intros s d Hr; simpl.
  - by exists d.
  - destruct (handle_grows e s r d Hr) as (d1 & Hr1 & Hg1).
    destruct (IH _ _ Hr1) as (d2 & Hr2 & Hg2). exists d2. split; [done|by etrans].
Qed.

(** C14. The board is replaced without a word to the clients.  The turn in
    which [departures = deps] runs is the turn of an upstream answer, and
    it sends nothing: the refresh the daily job announces was sent when the
    job fired, while the old board was still in place. *)
Theorem board_replaced_silently e s :
  departures (handle STATION metroLines e s) ≠ departures s →
  clients (handle STATION metroLines e s) = clients s ∧
  ((∃ answer now, e = DeparturesAnswer answer now) ∨
   (∃ t answer, e = PatternAnswer t answer)).
Proof.
  destruct e as [plat| |now order|answer now|t answer]; simpl; [done..| | |].
  - by destruct (tick_frame_tick now order s) as (_ & _ & _ & -> & _).
  - destruct (on_departures_frame metroLines answer now s) as [_ ->]. eauto.
  - intros Hd. split; [|by eauto].
    destruct (decide (clients (on_pattern STATION t answer s) = clients s)) as [|Hc];
      [done|].
    by apply on_pattern_clients in Hc as [? _].
Qed.

(** C25. The daily job tells every client to refresh in the turn in which it
    fires: the departures request has only been sent, and the board the
    clients fetch in response is the old one. *)
Theorem daily_refresh_early s :
  board (handle STATION metroLines Daily s) = board s ∧
  fetching (handle STATION metroLines Daily s) = S (fetching s) ∧
  Forall2 (λ c c', pnum c' = pnum c ∧ sent c' = sent c ++ [CmdRefresh])
    (clients s) (clients (handle STATION metroLines Daily s)).
Proof.
  split_and!; [done..|]. simpl. apply Forall2_fmap_r, Forall_Forall2_diag.
  by apply Forall_true.
Qed.

(** C15. An append waits for the whole minute job.  A turn sends something
    to a client only if it fulfils an enrichment started by a minute job
    whose other enrichments have all been fulfilled before: the results of
    [Promise.all] are complete with this one. *)
Theorem append_waits_for_all t answer s :
  clients (on_pattern STATION t answer s) ≠ clients s →
  ∃ task i plat results all,
    mjoin (tasks s !! t) = Some task ∧ task_slot task = Some (i, plat) ∧
    mjoin (batches s !! task_batch task) = Some (Announcing results) ∧
    mapM id (<[i := Some (plat, task_dep task)]> results) = Some all.
Proof. by intros (_ & ?)%on_pattern_clients. Qed.

End server_theorems.

(** ** Witnesses *)

(** The board after startup: A, B, C and run 103 are enriched (run 103 goes
    on to Frankston), D and E are as created. *)
Example demo_ready_board :
  listening demo_ready = true ∧
  runs_on "1" demo_ready = [Some "A"; Some "B"; Some "C"; Some "D"; Some "E"] ∧
  enriched_on "1" demo_ready = [true; true; true; false; false] ∧
  dests_on "2" demo_ready = [Some "Frankston"].
Proof. vm_compute. done. Qed.

Lemma on_pattern_enrich_witness :
  let s' := @upstream_answers FOOTSCRAY demo_upstream 3
              (@upstream_answers FOOTSCRAY demo_upstream 3 demo_fetched) in
  objects s' !! 5
    = Some (@fetchDepartureDetails FOOTSCRAY demo_upstream (routeColours demo_fetched)
              (raw_departure 0 "103" 90000 (Some "crosscity"))).2 ∧
  mjoin (tasks s' !! 3) = None.
Proof.
  apply (@on_pattern_enrich FOOTSCRAY demo_upstream demo_fetched 3
           (mkTask 5 0 "103" None (Building "2") 0 0 None)); reflexivity.
Defined.

Lemma objects_grow_witness :
  ∃ d', objects (demo [PatternAnswer 0 (Ok (direct "A"))] demo_fetched) !! 0 = Some d' ∧
    grows (raw_departure 0 "A" 60000 (Some "crosscity")) d'.
Proof.
  apply (objects_grow FOOTSCRAY demo_lines [PatternAnswer 0 (Ok (direct "A"))]
           demo_fetched 0).
  reflexivity.
Defined.

Lemma board_replaced_silently_witness :
  clients (demo [PatternAnswer 3 (Ok pattern_203)] (demo_answers [0; 1; 2; 3] demo_fetched))
    = clients (demo_answers [0; 1; 2; 3] demo_fetched) ∧
  ((∃ answer now, PatternAnswer 3 (Ok pattern_203) = DeparturesAnswer answer now) ∨
   (∃ t answer, PatternAnswer 3 (Ok pattern_203) = PatternAnswer t answer)).
Proof.
  apply (board_replaced_silently FOOTSCRAY demo_lines (PatternAnswer 3 (Ok pattern_203))
           (demo_answers [0; 1; 2; 3] demo_fetched)).
  vm_compute. discriminate.
Defined.

Lemma append_waits_for_all_witness :
  ∃ task i plat results all,
    mjoin (tasks demo_minute !! 4) = Some task ∧ task_slot task = Some (i, plat) ∧
    mjoin (batches demo_minute !! task_batch task) = Some (Announcing results) ∧
    mapM id (<[i := Some (plat, task_dep task)]> results) = Some all.
Proof.
  apply (append_waits_for_all FOOTSCRAY 4 (Ok (direct "D")) demo_minute).
  vm_compute. discriminate.
Defined.

(** Ten seconds after A was due the minute job has started the enrichment
    of D, the fourth entry; when the answer arrives the client of platform
    1 is sent D, and the client of platform 2 nothing. *)
Example demo_append :
  let s := demo [PatternAnswer 4 (Ok (direct "D"))] demo_minute in
  enriched_on "1" s = [true; true; true; true; false] ∧
  (λ m, match m with CmdAppend data => Some (sv_run data) | CmdRefresh => None end)
    <$> sent_to 0 s = [None; Some "D"] ∧
  sent_to 1 s = [CmdRefresh].
Proof. vm_compute. done. Qed.
