(* ===== verification/Board.v ===== *)
(** * Board: invariants of the server

    What holds in every state the server of [Server] can reach, proved by
    induction on [reachable].

    The invariant [board_inv] is about the boards under construction.  A
    call of [fetchDepartures] that waits in [await Promise.all(promises)]
    is a batch [Installing n deps]: [n] is the number of its enrichments
    still in flight, each of them was started on the element of [deps] its
    callback will assign to, and each of the first three elements of every
    platform of [deps] is either enriched or has its enrichment in flight.
    When the last one is fulfilled the board is installed, and its first
    three entries per platform are enriched ([installed_window_enriched]). *)

From S2P Require Import Prelude JsString Model Refresh Pattern Names Classifier Resolver Query Server.

(** ** Definitions *)

(** The task, if any, belongs to [Promise.all] number [b]. *)
Definition of_batch (b : nat) (x : option Task) : Prop :=
  task_batch <$> x = Some b.

#[export] Instance of_batch_dec b x : Decision (of_batch b x).
Proof. unfold of_batch. apply _. Defined.

(** The number of enrichments in flight for [Promise.all] number [b]. *)
Definition in_flight (b : nat) (s : Server) : nat :=
  length (filter (of_batch b) (tasks s)).

(** An array without holes whose elements are objects of the store. *)
Definition solid (objs : list Departure) (arr : list (option ref)) : Prop :=
  Forall (λ x, ∃ r, x = Some r ∧ r < length objs) arr.

(** The object is there and enriched. *)
Definition enriched_at (s : Server) (r : ref) : Prop :=
  ∃ d, objects s !! r = Some d ∧ enriched d.

(** An enrichment of object [r] is in flight for [Promise.all] number [b]. *)
Definition pending_for (s : Server) (b : nat) (r : ref) : Prop :=
  ∃ t task, tasks s !! t = Some (Some task) ∧ task_batch task = b ∧ task_dep task = r.

(** The same job at a later [await]. *)
Definition same_job (task task' : Task) : Prop :=
  task_dep task' = task_dep task ∧ task_batch task' = task_batch task ∧
  task_target task' = task_target task ∧ task_index task' = task_index task.

(** The board [deps] that [Promise.all] number [b] is awaited for, with [n]
    promises to go. *)
Record building (s : Server) (b n : nat) (deps : gmap string (list (option ref)))
    : Prop := mkBuilding {
  building_count : n = in_flight b s;
  building_target t task :
    tasks s !! t = Some (Some task) → task_batch task = b →
    ∃ plat arr, task_target task = Building plat ∧ deps !! plat = Some arr ∧
      arr !! task_index task = Some (Some (task_dep task));
  building_window plat arr i x :
    deps !! plat = Some arr → i < 3 → arr !! i = Some x →
    ∃ r, x = Some r ∧ (enriched_at s r ∨ pending_for s b r);
}.

Record board_inv (s : Server) : Prop := mkBoardInv {
  inv_building b n deps :
    batches s !! b = Some (Some (Installing n deps)) → building s b n deps;
  inv_batch t task :
    tasks s !! t = Some (Some task) → task_batch task < length (batches s);
}.

(** The requests [fetchDepartures] puts in flight for one platform of the
    board it builds: one for each of the first three elements. *)
Definition new_for (b : nat) (objs : list Departure)
    (entry : string * list (option ref)) : list (option Task) :=
  omap (λ i, r ← array_get entry.2 i; d ← objs !! r;
             Some (Some (mkTask r (dep_type d) (dep_run d) None
                           (Building entry.1) i b None)))
    (seq 0 (3 `min` length entry.2)).

(** What putting requests in flight for [Promise.all] number [b] changes. *)
Definition started (b : nat) (s s' : Server) : Prop :=
  objects s' = objects s ∧ batches s' = batches s ∧
  ∃ new, tasks s' = tasks s ++ new ∧ Forall (of_batch b) new.

(** The first three entries of every platform of the board are enriched. *)
Definition window_enriched (s : Server) : Prop :=
  ∀ plat slots i x, board s !! plat = Some slots → i < 3 → slots !! i = Some x →
    ∃ d, x = Some d ∧ enriched d.

(** ** Lemmas: counting the enrichments in flight *)

Section counting.
Implicit Types (s : Server) (b t : nat) (task : Task).

Lemma of_batch_Some b task : of_batch b (Some task) ↔ task_batch task = b.
Proof. unfold of_batch. simpl. naive_solver. Qed.

Lemma of_batch_None b : ¬ of_batch b None.
Proof. by intros ?. Qed.

(** Requests put in flight for another [Promise.all] do not count. *)
Lemma in_flight_started b b' s s' :
  started b' s s' → b ≠ b' → in_flight b s' = in_flight b s.
Proof.
  intros (_ & _ & new & Hnew & Hall) Hb. unfold in_flight.
  rewrite Hnew, filter_app, length_app.
  rewrite (filter_Forall_nil (of_batch b) new); [simpl; lia|].
  eapply Forall_impl; [done|]. intros [task|] Hx; [|done].
  rewrite !of_batch_Some in *. congruence.
Qed.

(** Replacing a task in flight by what it becomes. *)
Lemma in_flight_insert b s t task x :
  tasks s !! t = Some (Some task) →
  in_flight b (with_tasks (<[t := x]>) s) + (if decide (task_batch task = b) then 1 else 0)
  = in_flight b s + (if decide (of_batch b x) then 1 else 0).
Proof.
  intros Ht. unfold in_flight. simpl.
  rewrite <-(filter_insert_length (of_batch b) (tasks s) t (Some task) x Ht).
  repeat case_decide; rewrite ?of_batch_Some in *; done.
Qed.

Lemma in_flight_zero b s t task :
  in_flight b s = 0 → tasks s !! t = Some (Some task) → task_batch task ≠ b.
Proof.
  intros Hz%filter_length_zero Ht Hb.
  eapply Forall_lookup_1 in Hz; [|done]. by apply Hz, of_batch_Some.
Qed.

End counting.

(** ** Lemmas: what keeps a board under construction as it is *)

Section building.
Implicit Types (s : Server) (b t n : nat) (task : Task) (r : ref).

(** A turn that leaves [deps] alone keeps the board under construction,
    provided every job of the batch comes from a job of the batch and no
    element of a window loses both its enrichment and its job. *)
Lemma building_step s s' b n n' deps :
  building s b n deps →
  n' = in_flight b s' →
  (∀ t task', tasks s' !! t = Some (Some task') → task_batch task' = b →
     ∃ task, tasks s !! t = Some (Some task) ∧ same_job task task') →
  (∀ r, enriched_at s r ∨ pending_for s b r → enriched_at s' r ∨ pending_for s' b r) →
  building s' b n' deps.
Proof.
  intros [Hn Htarget Hwindow] Hn' Htasks Hkeep. split; [done| |].
  - intros t task' Ht' Hb'.
    destruct (Htasks t task' Ht' Hb') as (task & Ht & Hdep & Hb & Htg & Hidx).
    rewrite Hdep, Htg, Hidx. apply (Htarget t task Ht). congruence.
  - intros plat arr i x Harr Hi Hx.
    destruct (Hwindow plat arr i x Harr Hi Hx) as (r & -> & Hr). eauto.
Qed.

#[export] Instance started_preorder b : PreOrder (started b).
Proof.
  split.
  - intros s. split_and!; [done..|]. exists []. by rewrite app_nil_r.
  - intros s1 s2 s3 (Ho1 & Hb1 & new1 & Ht1 & Hn1) (Ho2 & Hb2 & new2 & Ht2 & Hn2).
    split_and!; [congruence..|]. exists (new1 ++ new2).
    rewrite Ht2, Ht1, app_assoc. split; [done|by apply Forall_app].
Qed.

Lemma start_details_started r target i b slot s :
  started b s (start_details r target i b slot s).
Proof.
  unfold start_details. destruct (objects s !! r); [|done].
  split_and!; [done..|]. eexists. split; [done|]. by repeat constructor.
Qed.

(** Requests put in flight for another batch keep the board. *)
Lemma building_started s s' b b' n deps :
  started b' s s' → b ≠ b' → building s b n deps → building s' b n deps.
Proof.
  intros Hs Hb Hbuild. pose proof Hs as (Ho & _ & new & Hnew & Hall).
  apply (building_step s s' b n n deps Hbuild).
  - rewrite (in_flight_started b b' s s') by done. by destruct Hbuild.
  - intros t task' Ht' Hb'. exists task'. split; [|done].
    rewrite Hnew in Ht'. apply lookup_app_Some in Ht' as [Ht'|[_ Ht']]; [done|].
    eapply Forall_lookup_1 in Hall; [|done]. apply of_batch_Some in Hall. congruence.
  - intros r [(d & Hd & He)|(t & task & Ht & Hb' & Hr)].
    + left. exists d. by rewrite Ho.
    + right. exists t, task. rewrite Hnew. split_and!; [|done..].
      by apply lookup_app_l_Some.
Qed.

(** New objects in the store keep the board. *)
Lemma building_alloc s s' b n deps :
  alloc_frame s s' → building s b n deps → building s' b n deps.
Proof.
  intros [Hpre Hf] Hbuild.
  assert (tasks s' = tasks s) as Ht by (by destruct s, s'; unfold_with).
  apply (building_step s s' b n n deps Hbuild).
  - unfold in_flight. rewrite Ht. by destruct Hbuild.
  - intros t task'. rewrite Ht. by exists task'.
  - intros r [(d & Hd & He)|(t & task & Htask & Hb' & Hr)].
    + left. exists d. split; [by eapply prefix_lookup_Some|done].
    + right. exists t, task. by rewrite Ht.
Qed.

End building.

(** ** Lemmas: the minute job keeps the invariant *)

Section tick_inv.
Implicit Types (s : Server) (b t n : nat) (task : Task) (r : ref).

(** [building] reads the tasks and the objects only. *)
Lemma building_ext s s' b n deps :
  tasks s' = tasks s → objects s' = objects s →
  building s b n deps → building s' b n deps.
Proof.
  intros Ht Ho Hbuild. apply (building_step s s' b n n deps Hbuild).
  - unfold in_flight. rewrite Ht. by destruct Hbuild.
  - intros t task'. rewrite Ht. by exists task'.
  - unfold enriched_at, pending_for. by rewrite Ht, Ho.
Qed.

Lemma tick_platform_started now b plat n :
  eff_keeps (started b) (tick_platform now b plat n).
Proof.
  unfold tick_platform. keeps.
  - intros s'. split_and!; [done..|]. exists []. by rewrite app_nil_r.
  - apply start_details_started.
Qed.

Lemma tick_loop_started now b order n :
  eff_keeps (started b) (tick_loop now b order n).
Proof.
  revert n; induction order as [|plat rest IH]; intros n; simpl; [by intros ?|].
  pose proof tick_platform_started. keeps.
Qed.

(** The invariant after requests have been put in flight for a new
    [Promise.all]. *)
Lemma board_inv_started s s' s'' x :
  board_inv s → started (length (batches s)) s s' →
  tasks s'' = tasks s' → objects s'' = objects s' → batches s'' = batches s' ++ [x] →
  (∀ n deps, x = Some (Installing n deps) → building s'' (length (batches s)) n deps) →
  board_inv s''.
Proof.
  intros [Hbuild Hbatch] Hs Ht Ho Hb Hx.
  pose proof Hs as (_ & Hbs & new & Hnew & Hall). split.
  - intros b n deps. rewrite Hb, Hbs. intros [Hlook|[? Hlook]]%lookup_app_Some.
    + pose proof (lookup_lt_Some _ _ _ Hlook).
      apply (building_ext s'); [done..|].
      apply (building_started s s' b (length (batches s))); [done|lia|by apply Hbuild].
    + destruct (b - length (batches s)) as [|k] eqn:Hk; simplify_eq/=.
      replace b with (length (batches s)) by lia. by apply Hx.
  - intros t task. rewrite Ht, Hnew, Hb, Hbs, length_app. simpl.
    intros [Hlook|[_ Hlook]]%lookup_app_Some.
    + apply Hbatch in Hlook. lia.
    + eapply Forall_lookup_1 in Hall; [|done]. apply of_batch_Some in Hall. lia.
Qed.

Lemma board_inv_tick now order s : board_inv s → board_inv (tick now order s).
Proof.
  intros Hinv. unfold tick.
  pose proof (tick_loop_started now (length (batches s)) order 0 s) as Hs.
  destruct (tick_loop _ _ _ _ s) as [[[|n]|e] s']; simpl in Hs;
    by eapply (board_inv_started s s').
Qed.

(** The invariant reads the tasks, the objects and the batches only. *)
Lemma board_inv_ext s s' :
  tasks s' = tasks s → objects s' = objects s → batches s' = batches s →
  board_inv s → board_inv s'.
Proof.
  intros Ht Ho Hb [Hbuild Hbatch]. split.
  - intros b n deps. rewrite Hb. intros Hlook. by apply (building_ext s), Hbuild.
  - intros t task. rewrite Ht, Hb. apply Hbatch.
Qed.

End tick_inv.

(** ** Lemmas: the board [fetchDepartures] starts to build *)

Section begin.
Implicit Types (s : Server) (b t n : nat) (task : Task) (r : ref).

(** The arrays of the new board have no holes and refer to the store. *)
Lemma solid_mono objs objs' arr : objs `prefix_of` objs' → solid objs arr → solid objs' arr.
Proof.
  intros Hpre%prefix_length Harr. eapply Forall_impl; [done|].
  intros x (r & -> & Hr). exists r. split; [done|lia].
Qed.

Lemma allocate_solid queues s :
  map_Forall (λ _, solid (objects (allocate queues s).1)) (allocate queues s).2.
Proof.
  unfold allocate.
  apply (foldl_invariant (λ acc, map_Forall (λ _, solid (objects acc.1)) acc.2)).
  - intros [s' deps] [plat q] Hdeps. simpl in *. apply map_Forall_insert_2.
    + apply Forall_fmap, Forall_forall. intros r Hr%elem_of_seq. exists r.
      rewrite length_app. split; [done|lia].
    + eapply map_Forall_impl; [done|]. intros k arr. by apply solid_mono, prefix_app_r.
  - apply map_Forall_empty.
Qed.

(** The requests of one platform, and of all. *)
Lemma start_platform_tasks b s entry :
  start_platform b s entry = with_tasks (λ l, l ++ new_for b (objects s) entry) s.
Proof.
  unfold start_platform, new_for.
  generalize (seq 0 (3 `min` length entry.2)). intros l.
  revert s; induction l as [|i l IH]; intros s; simpl.
  - destruct s. unfold_with. by rewrite app_nil_r.
  - unfold start_details. destruct (array_get entry.2 i) as [r|]; simpl; [|apply IH].
    destruct (objects s !! r) as [d|]; simpl; [|apply IH].
    rewrite IH. destruct s. unfold_with. by rewrite <-app_assoc.
Qed.

Lemma start_platforms_tasks b s entries :
  foldl (start_platform b) s entries
  = with_tasks (λ l, l ++ (entries ≫= new_for b (objects s))) s.
Proof.
  revert s; induction entries as [|entry entries IH]; intros s; simpl.
  - destruct s. unfold_with. by rewrite app_nil_r.
  - rewrite start_platform_tasks, IH. destruct s. unfold_with. by rewrite <-app_assoc.
Qed.

End begin.

Section begin_inv.
Context (metroLines : gmap string string).
Implicit Types (s : Server) (b t n : nat) (task : Task) (r : ref).

Lemma new_for_elem b objs plat arr x :
  x ∈ new_for b objs (plat, arr) ↔
  ∃ i r d, i < 3 ∧ arr !! i = Some (Some r) ∧ objs !! r = Some d ∧
    x = Some (mkTask r (dep_type d) (dep_run d) None (Building plat) i b None).
Proof.
  unfold new_for, array_get. rewrite list_elem_of_omap. cbn [fst snd]. split.
  - intros (i & Hi%elem_of_seq & Hx). assert (i < 3) by lia.
    destruct (arr !! i) as [[r|]|] eqn:Harr; simplify_eq/=.
    destruct (objs !! r) as [d|] eqn:Hd; simplify_eq/=.
    by exists i, r, d.
  - intros (i & r & d & Hi & Harr & Hd & ->). exists i. split.
    + apply elem_of_seq. apply lookup_lt_Some in Harr. lia.
    + by rewrite Harr; simpl; rewrite Hd.
Qed.

Lemma new_for_of_batch b objs entries : Forall (of_batch b) (entries ≫= new_for b objs).
Proof.
  apply Forall_forall. intros x ([plat arr] & Hx & _)%list_elem_of_bind.
  apply new_for_elem in Hx as (i & r & d & _ & _ & _ & ->). by apply of_batch_Some.
Qed.

(** The board under construction when its requests have been put in
    flight: one request for each of the first three elements of every
    platform. *)
Lemma building_new s b deps :
  (∀ t task, tasks s !! t = Some (Some task) → task_batch task < b) →
  map_Forall (λ _, solid (objects s)) deps →
  building (with_tasks (λ l, l ++ (map_to_list deps ≫= new_for b (objects s))) s) b
    (length (map_to_list deps ≫= new_for b (objects s))) deps.
Proof.
  intros Hold Hsolid. set (new := map_to_list deps ≫= _).
  pose proof (new_for_of_batch b (objects s) (map_to_list deps)) as Hnew. split.
  - unfold in_flight. simpl. rewrite filter_app, length_app.
    rewrite (filter_Forall_id _ new) by done.
    rewrite filter_Forall_nil; [done|]. apply Forall_lookup_2.
    intros t [task|] Ht; [|done]. rewrite of_batch_Some. apply Hold in Ht. lia.
  - simpl. intros t task [Ht|[_ Ht]]%lookup_app_Some Hb; [apply Hold in Ht; lia|].
    apply list_elem_of_lookup_2, list_elem_of_bind in Ht as ([plat arr] & Hx & Hin).
    apply new_for_elem in Hx as (i & r & d & _ & Harr & _ & [= ->]).
    apply elem_of_map_to_list in Hin. by exists plat, arr.
  - intros plat arr i x Harr Hi Hx.
    pose proof (Hsolid plat arr Harr) as Hs.
    destruct (Forall_lookup_1 _ _ _ _ Hs Hx) as (r & -> & Hr).
    apply lookup_lt_is_Some in Hr as [d Hd]. exists r. split; [done|right].
    assert (Some (mkTask r (dep_type d) (dep_run d) None (Building plat) i b None) ∈ new)
      as (j & Hj)%list_elem_of_lookup_1.
    { apply list_elem_of_bind. exists (plat, arr).
      split; [apply new_for_elem; by exists i, r, d|by apply elem_of_map_to_list]. }
    exists (length (tasks s) + j), (mkTask r (dep_type d) (dep_run d) None (Building plat) i b None).
    simpl. split_and!; [|done..]. by rewrite lookup_app_r, Nat.add_sub' by lia.
Qed.

(** Objects created in the store keep the invariant. *)
Lemma board_inv_alloc s s' : alloc_frame s s' → board_inv s → board_inv s'.
Proof.
  intros Ha [Hbuild Hbatch]. pose proof Ha as [_ Hf].
  assert (tasks s' = tasks s ∧ batches s' = batches s) as [Ht Hb]
    by (by destruct s, s'; unfold_with).
  split.
  - intros b n deps. rewrite Hb. intros Hlook. by apply (building_alloc s), Hbuild.
  - intros t task. rewrite Ht, Hb. apply Hbatch.
Qed.

Lemma board_inv_begin_install deps s :
  board_inv s → map_Forall (λ _, solid (objects s)) deps →
  board_inv (begin_install deps s).
Proof.
  intros Hinv Hsolid. unfold begin_install. rewrite start_platforms_tasks.
  set (new := map_to_list deps ≫= _). cbn [tasks with_tasks].
  rewrite length_app, Nat.add_sub'.
  assert (started (length (batches s)) s (with_tasks (λ l, l ++ new) s)) as Hs.
  { split_and!; [done..|]. exists new. split; [done|apply new_for_of_batch]. }
  destruct (length new) as [|n] eqn:Hn.
  - apply nil_length_inv in Hn. rewrite Hn in *.
    apply (board_inv_ext s); [simpl; by rewrite app_nil_r|done..].
  - apply (board_inv_started s _ _ (Some (Installing (S n) deps)) Hinv Hs); [done..|].
    intros n' deps' [= <- <-]. rewrite <-Hn.
    apply (building_ext (with_tasks (λ l, l ++ new) s)); [done..|].
    apply building_new; [|done]. intros t task Ht. by eapply inv_batch.
Qed.

(** The turn of the departures answer keeps the invariant. *)
Lemma board_inv_on_departures answer now s :
  board_inv s → board_inv (on_departures metroLines answer now s).
Proof.
  intros Hinv. unfold on_departures. destruct (fetching s); [done|].
  destruct answer as [resp|]; [|by apply (board_inv_ext s)]. simpl.
  destruct (bucket _ _ _ _ _) as [queues|]; [|by apply (board_inv_ext s)].
  set (s0 := with_routeColours _ _).
  assert (board_inv s0) as Hinv0 by (by apply (board_inv_ext s)).
  pose proof (allocate_frame queues s0) as Ha.
  pose proof (allocate_solid queues s0) as Hsolid.
  destruct (allocate queues s0) as [s1 deps]. simpl in *.
  apply board_inv_begin_install; [by eapply board_inv_alloc|done].
Qed.

End begin_inv.

(** ** Lemmas: the turn of a pattern answer keeps the invariant *)

Section settle_inv.
Context (STATION : StationValue).
Implicit Types (s : Server) (b t n : nat) (task : Task) (r : ref).

(** The object of the task is updated. *)
Lemma building_object s b n deps r d d' :
  objects s !! r = Some d → grows d d' → building s b n deps →
  building (with_objects (<[r := d']>) s) b n deps.
Proof.
  intros Hr Hg Hbuild. apply (building_step s _ b n n deps Hbuild).
  - by destruct Hbuild.
  - intros t task'. by exists task'.
  - intros r' [(d0 & Hd0 & He)|Hp]; [left|right; exact Hp].
    unfold enriched_at. simpl. destruct (decide (r' = r)) as [->|].
    + exists d'. rewrite list_lookup_insert_eq by (by eapply lookup_lt_Some).
      simplify_eq. split; [done|by eapply grows_enriched].
    + exists d0. by rewrite list_lookup_insert_ne.
Qed.

(** The task is suspended again. *)
Lemma building_next s b n deps t task task' :
  tasks s !! t = Some (Some task) → same_job task task' → building s b n deps →
  building (with_tasks (<[t := Some task']>) s) b n deps.
Proof.
  intros Ht Hjob Hbuild. pose proof Hjob as (Hdep & Hb & _).
  pose proof (lookup_lt_Some _ _ _ Ht) as Hlt.
  apply (building_step s _ b n n deps Hbuild).
  - pose proof (in_flight_insert b s t task (Some task') Ht) as Hc.
    destruct Hbuild as [-> _ _].
    repeat case_decide; rewrite ?of_batch_Some in *; first [lia|congruence].
  - intros t0 task0. simpl. destruct (decide (t0 = t)) as [->|].
    + rewrite list_lookup_insert_eq by done. intros [= <-] _. by exists task.
    + rewrite list_lookup_insert_ne by done. intros. by exists task0.
  - intros r [He|(t0 & task0 & Ht0 & Hb0 & Hr0)]; [by left|right].
    destruct (decide (t0 = t)) as [->|].
    + exists t, task'. simpl. rewrite list_lookup_insert_eq by done.
      simplify_eq. split_and!; congruence.
    + exists t0, task0. simpl. by rewrite list_lookup_insert_ne.
Qed.

(** The task is no longer in flight: one promise less for its batch,
    provided its object is enriched. *)
Lemma building_settled s b n deps t task :
  tasks s !! t = Some (Some task) →
  (task_batch task = b → enriched_at s (task_dep task)) →
  building s b n deps →
  building (with_tasks (<[t := None]>) s) b
    (if decide (b = task_batch task) then n - 1 else n) deps.
Proof.
  intros Ht He Hbuild. pose proof (lookup_lt_Some _ _ _ Ht) as Hlt.
  apply (building_step s _ b n _ deps Hbuild).
  - pose proof (in_flight_insert b s t task None Ht) as Hc.
    destruct Hbuild as [-> _ _].
    rewrite (decide_False (P := of_batch b None)) in Hc by done.
    repeat case_decide; rewrite ?of_batch_Some in *; first [lia|congruence].
  - intros t0 task0. simpl. destruct (decide (t0 = t)) as [->|].
    + by rewrite list_lookup_insert_eq.
    + rewrite list_lookup_insert_ne by done. intros. by exists task0.
  - intros r [Hr|(t0 & task0 & Ht0 & Hb0 & Hr0)]; [by left|].
    destruct (decide (t0 = t)) as [->|].
    + simplify_eq. left. by apply He.
    + right. exists t0, task0. simpl. by rewrite list_lookup_insert_ne.
Qed.

(** The callback of a task of the batch assigns the object to the element
    that holds it. *)
Lemma building_store s b n deps t task plat :
  building s b n deps → tasks s !! t = Some (Some task) → task_batch task = b →
  task_target task = Building plat →
  alter (array_set (task_index task) (task_dep task)) plat deps = deps.
Proof.
  intros Hbuild Ht Hb Htarget.
  destruct (building_target _ _ _ _ Hbuild t task Ht Hb) as (plat' & arr & Hp & Harr & Hi).
  rewrite Htarget in Hp. injection Hp as <-.
  apply map_eq. intros p. destruct (decide (p = plat)) as [->|].
  - by rewrite lookup_alter_eq, Harr; simpl; rewrite array_set_same.
  - by rewrite lookup_alter_ne.
Qed.

End settle_inv.

(** ** Lemmas: the boards under construction after a settlement *)

(** The cases of a settlement: whether the batch read is the one of the
    task, and what that one is. *)
Ltac settle_cases s b task :=
  destruct (decide (b = task_batch task)) as [->|?];
    (destruct (batches s !! task_batch task) eqn:?Hx;
      [apply lookup_lt_Some in Hx as ?|]); simpl;
    repeat case_match; simplify_eq/=;
    let Hlook := fresh in intros Hlook;
    rewrite ?list_lookup_insert_eq, ?list_lookup_insert_ne in Hlook by done;
    simplify_eq/=; try congruence.

Section settle_batches.
Implicit Types (s : Server) (b t n : nat) (task : Task) (r : ref).

Lemma store_result_building task s b n deps' :
  batches (store_result task s) !! b = Some (Some (Installing n deps')) →
  ∃ deps, batches s !! b = Some (Some (Installing n deps)) ∧
    deps' = match task_target task with
            | Building plat =>
                if decide (b = task_batch task)
                then alter (array_set (task_index task) (task_dep task)) plat deps
                else deps
            | Installed _ => deps
            end.
Proof.
  intros Hlook. pose proof (store_result_batches task s b) as Hst.
  rewrite Hlook in Hst. simpl in Hst.
  destruct (batches s !! b) as [[batch|]|]; simplify_eq/=.
  destruct batch, (task_target task); try case_decide; simplify_eq; by eexists.
Qed.

Lemma store_result_length task s :
  length (batches (store_result task s)) = length (batches s).
Proof. unfold store_result. destruct (task_target task); simpl; by rewrite ?length_alter. Qed.

Lemma fulfilled_length task s :
  length (batches (fulfilled task s)) = length (batches s).
Proof.
  unfold fulfilled. rewrite <- (store_result_length task s).
  repeat case_match; simpl; by rewrite ?length_insert.
Qed.

Lemma rejected_length task e s :
  length (batches (rejected task e s)) = length (batches s).
Proof. unfold rejected. repeat case_match; simpl; by rewrite ?length_insert. Qed.

(** A board still under construction after a fulfilment: another one, or
    the one of the task with a promise less. *)
Lemma fulfilled_building task s b n' deps' :
  batches (fulfilled task s) !! b = Some (Some (Installing n' deps')) →
  ∃ n, batches (store_result task s) !! b = Some (Some (Installing n deps')) ∧
    n' = if decide (b = task_batch task) then n - 1 else n.
Proof.
  unfold fulfilled. generalize (store_result task s). clear s. intros s.
  settle_cases s b task; by eexists.
Qed.

Lemma rejected_building task e s b n deps :
  batches (rejected task e s) !! b = Some (Some (Installing n deps)) →
  batches s !! b = Some (Some (Installing n deps)) ∧ b ≠ task_batch task.
Proof.
  unfold rejected. settle_cases s b task; done.
Qed.

End settle_batches.

(** ** Lemmas: the turn of a pattern answer keeps the invariant *)

Section pattern_inv.
Context (STATION : StationValue).
Implicit Types (s : Server) (b t n : nat) (task : Task) (r : ref).

Lemma board_inv_object s r d d' :
  objects s !! r = Some d → grows d d' → board_inv s →
  board_inv (with_objects (<[r := d']>) s).
Proof.
  intros Hr Hg [Hbuild Hbatch]. split; [|done].
  intros b n deps Hlook. by eapply building_object, Hbuild.
Qed.

Lemma board_inv_next s t task task' :
  tasks s !! t = Some (Some task) → same_job task task' → board_inv s →
  board_inv (with_tasks (<[t := Some task']>) s).
Proof.
  intros Ht Hjob [Hbuild Hbatch]. split.
  - intros b n deps Hlook. by eapply building_next, Hbuild.
  - intros t0 task0. simpl. destruct Hjob as (_ & Hb & _).
    intros [(-> & [= <-] & _)|[_ Hlook]]%list_lookup_insert_Some.
    + rewrite Hb. by eapply Hbatch.
    + by eapply Hbatch.
Qed.

(** The tasks left when one has settled. *)
Lemma settled_batch s s' t :
  board_inv s → tasks s' = <[t := None]> (tasks s) →
  length (batches s') = length (batches s) →
  ∀ t0 task0, tasks s' !! t0 = Some (Some task0) → task_batch task0 < length (batches s').
Proof.
  intros [_ Hbatch] -> -> t0 task0.
  intros [(_ & [=] & _)|[_ Hlook]]%list_lookup_insert_Some. by eapply Hbatch.
Qed.

(** The boards under construction when a task has been fulfilled and its
    callback has run. *)
Lemma building_fulfilled s t task b n deps :
  board_inv s → tasks s !! t = Some (Some task) → enriched_at s (task_dep task) →
  batches (store_result task (with_tasks (<[t := None]>) s)) !! b
    = Some (Some (Installing n deps)) →
  building (with_tasks (<[t := None]>) s) b
    (if decide (b = task_batch task) then n - 1 else n) deps.
Proof.
  intros Hinv Ht He (deps0 & Hs & ->)%store_result_building.
  pose proof (inv_building s Hinv b n deps0 Hs) as Hbuild.
  pose proof (building_settled s b n deps0 t task Ht (λ _, He) Hbuild) as Hset.
  destruct (task_target task) as [plat|a] eqn:Htarget; [|done].
  case_decide as Hb; [|done].
  by rewrite (building_store s b n deps0 t task plat).
Qed.

Lemma board_inv_fulfilled s t task :
  board_inv s → tasks s !! t = Some (Some task) → enriched_at s (task_dep task) →
  board_inv (fulfilled task (with_tasks (<[t := None]>) s)).
Proof.
  intros Hinv Ht He.
  destruct (fulfilled_frame task (with_tasks (<[t := None]>) s)) as (Ho & Hts & _).
  split; [|by apply (settled_batch s _ t); [| |rewrite fulfilled_length]].
  intros b n' deps' (n & Hlook & ->)%fulfilled_building.
  apply (building_ext (with_tasks (<[t := None]>) s)); [done..|].
  by apply building_fulfilled.
Qed.

Lemma board_inv_rejected s t task e :
  board_inv s → tasks s !! t = Some (Some task) →
  board_inv (rejected task e (with_tasks (<[t := None]>) s)).
Proof.
  intros Hinv Ht.
  destruct (rejected_frame task e (with_tasks (<[t := None]>) s)) as (Ho & Hts & _).
  split; [|by apply (settled_batch s _ t); [| |rewrite rejected_length]].
  intros b n deps [Hs Hne]%rejected_building.
  pose proof (inv_building s Hinv b n deps Hs) as Hbuild.
  apply (building_ext (with_tasks (<[t := None]>) s)); [done..|].
  pose proof (building_settled s b n deps t task Ht) as Hset.
  rewrite decide_False in Hset by done. by apply Hset.
Qed.

Lemma board_inv_on_pattern t answer s :
  board_inv s → board_inv (on_pattern STATION t answer s).
Proof.
  intros Hinv. unfold on_pattern.
  destruct (tasks s !! t) as [[task|]|] eqn:Ht; simpl; [|done..].
  destruct (objects s !! task_dep task) as [dep|] eqn:Hd; [|done].
  pose proof (resume_task_grows STATION (routeColours s) task answer dep) as Hg.
  pose proof (board_inv_object s _ dep _ Hd Hg Hinv) as Hinv'.
  destruct (resume_task _ _ _ _ _) as [[[k|]|e] dep'] eqn:Hr; simpl in *.
  - by apply (board_inv_next _ t task).
  - apply (board_inv_fulfilled _ t task); [done..|].
    exists dep'. split; [|by eapply resume_task_enriched].
    simpl. apply list_lookup_insert_eq. by eapply lookup_lt_Some.
  - by apply (board_inv_rejected _ t task).
Qed.

End pattern_inv.

(** ** Lemmas: the board that is installed *)

Section installed.
Context (STATION : StationValue) (metroLines : gmap string string).
Implicit Types (s : Server) (b t n : nat) (task : Task) (r : ref).

(** [departures = deps]: the board read afterwards is [deps]. *)
Lemma board_install deps s :
  board (install deps s)
  = (λ arr : list (option ref), (λ x : option ref, x ≫= (objects s !!.)) <$> arr) <$> deps.
Proof.
  unfold board, install. cbn [departures arrays objects with_listening with_departures
    with_arrays].
  set (entries := map_to_list deps).
  transitivity
    ((λ arr : list (option ref), (λ x : option ref, x ≫= (objects s !!.)) <$> arr) <$>
     ((λ a, default [] ((arrays s ++ entries.*2) !! a)) <$>
      (list_to_map (zip entries.*1 (seq (length (arrays s)) (length entries)))
         : gmap string nat))).
  { by rewrite <-map_fmap_compose. }
  rewrite <-(length_fmap snd entries), list_to_map_indexed, zip_fst_snd.
  unfold entries. by rewrite list_to_map_to_list.
Qed.

(** A board with no enrichment left in flight has its windows enriched
    when it is installed. *)
Lemma window_install s b deps :
  building s b 0 deps → window_enriched (install deps s).
Proof.
  intros [Hn _ Hwindow] plat slots i x. rewrite board_install, lookup_fmap.
  destruct (deps !! plat) as [arr|] eqn:Harr; [|done]. intros [= <-] Hi.
  rewrite list_lookup_fmap.
  destruct (arr !! i) as [y|] eqn:Hy; [|done]. intros [= <-].
  destruct (Hwindow plat arr i y Harr Hi Hy)
    as (r & -> & [(d & Hd & He)|(t & task & Ht & Hb & _)]).
  - exists d. by simpl; rewrite Hd.
  - by destruct (in_flight_zero b s t task).
Qed.

Lemma begin_install_window deps s :
  board_inv s → map_Forall (λ _, solid (objects s)) deps →
  departures (begin_install deps s) ≠ departures s →
  window_enriched (begin_install deps s).
Proof.
  intros Hinv Hsolid. unfold begin_install. rewrite start_platforms_tasks.
  cbn [tasks with_tasks]. rewrite length_app, Nat.add_sub'.
  pose proof (building_new s (length (batches s)) deps) as Hnew.
  destruct (length (_ ≫= _)) as [|n]; [intros _|by intros []].
  apply (window_install _ (length (batches s))), Hnew; [|done].
  intros t task Ht. by eapply inv_batch.
Qed.

Lemma on_departures_window answer now s :
  board_inv s →
  departures (on_departures metroLines answer now s) ≠ departures s →
  window_enriched (on_departures metroLines answer now s).
Proof.
  intros Hinv. unfold on_departures. destruct (fetching s); [done|].
  destruct answer as [resp|]; [|done]. simpl.
  destruct (bucket _ _ _ _ _) as [queues|]; [|done].
  set (s0 := with_routeColours _ _).
  assert (board_inv s0) as Hinv0 by (by apply (board_inv_ext s)).
  pose proof (allocate_frame queues s0) as Ha.
  pose proof (allocate_solid queues s0) as Hsolid.
  destruct (allocate queues s0) as [s1 deps]. simpl in *.
  assert (departures s1 = departures s) as <-
    by (destruct Ha as [_ Hf]; exact (f_equal departures Hf)).
  apply begin_install_window; [by eapply board_inv_alloc|done].
Qed.

Lemma fulfilled_window s t task :
  board_inv s → tasks s !! t = Some (Some task) → enriched_at s (task_dep task) →
  departures (fulfilled task (with_tasks (<[t := None]>) s)) ≠ departures s →
  window_enriched (fulfilled task (with_tasks (<[t := None]>) s)).
Proof.
  intros Hinv Ht He.
  pose proof (λ n deps, building_fulfilled s t task (task_batch task) n deps Hinv Ht He)
    as Hbuild.
  pose proof (store_result_frame task (with_tasks (<[t := None]>) s)) as Hframe.
  unfold fulfilled.
  destruct (batches (store_result task _) !! task_batch task) as [[[n deps| |]|]|];
    simpl; [|by repeat case_match; intuition congruence..].
  case_bool_decide as Hn; [intros _|intuition congruence].
  apply (window_install _ (task_batch task)).
  apply (building_ext (with_tasks (<[t := None]>) s)).
  1,2: by destruct (store_result_frame task (with_tasks (<[t := None]>) s)) as (? & ? & _).
  specialize (Hbuild n deps eq_refl). rewrite decide_True in Hbuild by done.
  by replace 0 with (n - 1) by lia.
Qed.

End installed.

(** ** Theorems *)

Section reachable_inv.
Context (STATION : StationValue) (metroLines : gmap string string).
Implicit Types (s : Server) (b t n : nat) (task : Task) (r : ref) (e : Event).

Lemma board_inv_boot : board_inv boot.
Proof. by split; [intros b n deps Hb|intros t task Ht]. Qed.

(** Every turn keeps the invariant. *)
Lemma board_inv_handle e s :
  board_inv s → board_inv (handle STATION metroLines e s).
Proof.
  intros Hinv. destruct e as [plat| |now order|answer now|t answer]; simpl.
  - by apply (board_inv_ext s).
  - by apply (board_inv_ext s).
  - by apply board_inv_tick.
  - by apply board_inv_on_departures.
  - by apply board_inv_on_pattern.
Qed.

Lemma reachable_board_inv s : reachable STATION metroLines s → board_inv s.
Proof. induction 1; [apply board_inv_boot|by apply board_inv_handle]. Qed.

(** C16. In every state the server reaches, a call of [fetchDepartures]
    that waits in [await Promise.all(promises)] has as many promises to go
    as it has enrichments in flight, the [.then] callback of each of them
    will assign the object it enriches to the element of the new board that
    holds it already, and each of the first three elements of every platform
    of the new board is enriched or has its enrichment in flight. *)
Theorem building_in_reachable s b n deps :
  reachable STATION metroLines s →
  batches s !! b = Some (Some (Installing n deps)) →
  building s b n deps.
Proof. intros Hs%reachable_board_inv. by apply inv_building. Qed.

(** C11. Whenever a turn of the server replaces the board ([departures =
    deps] in [fetchDepartures]), the first three entries of every platform
    of the board installed are enriched: they have their stopping pattern,
    destination and subtitle. *)
Theorem installed_window_enriched e s :
  reachable STATION metroLines s →
  departures (handle STATION metroLines e s) ≠ departures s →
  window_enriched (handle STATION metroLines e s).
Proof.
  intros Hinv%reachable_board_inv.
  destruct e as [plat| |now order|answer now|t answer]; simpl; try by intros [].
  - intros []. by destruct (tick_frame_tick now order s) as (_ & _ & _ & -> & _).
  - by apply on_departures_window.
  - unfold on_pattern.
    destruct (tasks s !! t) as [[task|]|] eqn:Ht; simpl; try by intros [].
    destruct (objects s !! task_dep task) as [dep|] eqn:Hd; [|by intros []].
    pose proof (resume_task_grows STATION (routeColours s) task answer dep) as Hg.
    pose proof (board_inv_object s _ dep _ Hd Hg Hinv) as Hinv'.
    destruct (resume_task _ _ _ _ _) as [[[k|]|err] dep'] eqn:Hr; simpl in *.
    + by intros [].
    + refine (fulfilled_window (with_objects _ s) t task Hinv' Ht _).
      exists dep'. split; [|by eapply resume_task_enriched].
      simpl. apply list_lookup_insert_eq. by eapply lookup_lt_Some.
    + intros [].
      by destruct (rejected_frame task err
        (with_tasks (<[t := None]>) (with_objects (<[task_dep task := dep']>) s)))
        as (_ & _ & _ & _ & -> & _).
Qed.

End reachable_inv.

(** ** Witnesses *)

(** When the departures answer has arrived, four promises are to go for
    the board of platforms 1 and 2. *)
Lemma building_in_reachable_witness :
  building demo_fetched 0 4 {[ "1" := Some <$> [0; 1; 2; 3; 4]; "2" := [Some 5] ]}.
Proof.
  apply (building_in_reachable FOOTSCRAY demo_lines); [reach|by vm_compute].
Defined.

(** The last answer, the pattern of run 203 for the departure of platform
    2, installs the board. *)
Lemma installed_window_enriched_witness :
  window_enriched
    (handle FOOTSCRAY demo_lines (PatternAnswer 3 (@get_pattern demo_upstream "203" 0%Z))
       (demo_answers [0; 1; 2; 3] demo_fetched)).
Proof.
  apply installed_window_enriched; [reach|by vm_compute].
Defined.
