(* ===== verification/Scenarios.v ===== *)
(** * Scenarios: runs of the server that end where it should not be

    Runs of the server of [Server] from [boot], at Footscray and against
    the upstream of [Server.demo_upstream], each a sequence of turns that
    can happen in that order ([Server.reachable]).  They show what the
    minute job of [src/app.js] does when the answer of an enrichment comes
    later than the next shift of its platform, when an enrichment fails,
    and when departures are a minute apart: the array of the platform is
    written at an index that no longer holds the departure, an element is
    left a hole and the job throws on it every minute from then on, a
    departure reaches the display without its stopping pattern. *)

From S2P Require Import Prelude JsString Model Refresh Pattern Names Classifier Resolver Query Server.

(** ** Definitions *)

(** Departures A, B and C of platform 1, a minute apart, and a fourth run
    a minute later. *)
Definition four_calls (last : string) : DeparturesResponse :=
  timetable [ (60000, "1", "A"); (120000, "1", "B"); (180000, "1", "C");
              (240000, "1", last) ]%Z.

(** The board of [four_calls] is installed: the first three are enriched. *)
Definition four_ready (last : string) : Server :=
  demo_answers [0; 1; 2] (demo [DeparturesAnswer (Ok (four_calls last)) 0] boot).

(** A client of platform 1 has connected and the minute job has fired ten
    seconds after A was due: the enrichment of the fourth run is in flight
    (task 3). *)
Definition four_minute (last : string) : Server :=
  demo [Connect "1"; Minute 70000 ["1"]] (four_ready last).

(** The minute job fires at the times [ts]. *)
Definition minutes (order : list string) (ts : list Z) : list Event :=
  (λ now, Minute now order) <$> ts.

(** Which elements of a platform's array have their stopping pattern. *)
Definition stations_on (plat : string) (s : Server) : list bool :=
  (λ x : option Departure, bool_decide (is_Some (x ≫= dep_stations)))
    <$> default [] (board s !! plat).

(** The tasks in flight. *)
Definition in_flight_tasks (s : Server) : list nat :=
  omap (λ p : nat * option Task, (λ _, p.1) <$> p.2) (imap pair (tasks s)).

(** ** Theorems *)

(** The answer for D comes after A has been removed: the callback assigns
    D to the index D had when the request was sent, where E is now.  D is
    on the board twice and E is gone. *)
Example duplicate_run :
  let s := demo_answers [4]
             (demo (Connect "1" :: minutes ["2"; "1"] [70000; 130000]%Z) demo_ready) in
  reachable FOOTSCRAY demo_lines s ∧
  runs_on "1" demo_ready = [Some "A"; Some "B"; Some "C"; Some "D"; Some "E"] ∧
  runs_on "1" s = [Some "B"; Some "C"; Some "D"; Some "D"].
Proof. scenario. Qed.

(** The answer for D comes after A and B have been removed from an array
    of four: the callback assigns past the end of the array, which leaves a
    hole before the second D. *)
Example hole_run :
  let s := demo_answers [3] (demo (minutes ["1"] [130000; 190000]%Z) (four_minute "D")) in
  reachable FOOTSCRAY demo_lines s ∧
  runs_on "1" s = [Some "C"; Some "D"; None; Some "D"].
Proof. scenario. Qed.

(** When the hole has become the head of the array, the minute job throws
    at [platform[0].time], every minute: the platform keeps the hole at its
    head, and [GET /departures/1/index/0] throws. *)
Example stuck_run :
  let s := demo_answers [3] (demo (minutes ["1"] [130000; 190000]%Z) (four_minute "D")) in
  let s' := demo (minutes ["1"] [250000; 310000; 370000; 430000]%Z) s in
  reachable FOOTSCRAY demo_lines s' ∧
  runs_on "1" s' = [None; Some "D"] ∧
  unhandled s' = [TypeError; TypeError] ∧
  get_index (board s') "1" "0" = Err TypeError.
Proof. scenario. Qed.

(** The enrichment of X fails: its rejection is handled nowhere, the client
    of the platform is sent nothing, and when X has moved into the first
    three entries it has no stopping pattern, with no request in flight. *)
Example rejected_enrichment :
  let s := demo (minutes ["1"] [130000]%Z) (demo_answers [3] (four_minute "X")) in
  reachable FOOTSCRAY demo_lines s ∧
  unhandled s = [FetchFailed] ∧ sent_to 0 s = [CmdRefresh] ∧
  runs_on "1" s = [Some "B"; Some "C"; Some "X"] ∧
  enriched_on "1" s = [true; true; false] ∧
  in_flight_tasks s = [].
Proof. scenario. Qed.

(** Run 103 takes two requests.  Between the two answers its object has
    the stopping pattern of the first and the destination of the second
    run, and no subtitle; it is on the board, and the read endpoints serve
    it as it is. *)
Example half_enriched_served :
  let s := demo (minutes ["1"] [130000]%Z) (demo_answers [3] (four_minute "103")) in
  reachable FOOTSCRAY demo_lines s ∧
  in_flight_tasks s = [3] ∧
  stations_on "1" s = [true; true; true] ∧ enriched_on "1" s = [true; true; false] ∧
  (λ r, match r with
        | Status200 data => (sv_run data, sv_dest data, sv_subtitle data)
        | Status404 => ("", None, None)
        end) <$> get_index (board s) "1" "2" = Ok ("103", Some "Frankston", None).
Proof. scenario. Qed.

(** With departures a minute apart the minute job removes one every time
    it fires and looks ahead only the first time: E moves into the first
    three entries without its stopping pattern, with no request in
    flight. *)
Example lookahead_falls_behind :
  let s := demo (minutes ["1"; "2"] [130000; 190000]%Z)
             (demo_answers [4] (demo (minutes ["1"; "2"] [70000]%Z) demo_ready)) in
  reachable FOOTSCRAY demo_lines s ∧
  runs_on "1" s = [Some "C"; Some "D"; Some "E"] ∧
  enriched_on "1" s = [true; true; false] ∧
  in_flight_tasks s = [].
Proof. scenario. Qed.
