(* ===== verification/Progress.v ===== *)
(** * Progress: every refresh completes

    [fetchDepartures] waits in [await Promise.all(promises)] for the
    enrichments of the first three departures of every platform.  This
    file shows that the wait ends: when the upstream answers every request
    in flight, and then the second request each enrichment may make, no
    enrichment is in flight any more and no [Promise.all] of
    [fetchDepartures] is awaited: every board under construction has been
    installed, or its refresh has been rejected.

    Two more invariants of the reachable states carry the proof: the object
    of an enrichment in flight is in the store ([tasks_live]), and a
    [Promise.all] that is awaited has a promise to go ([awaited]). *)

From S2P Require Import Prelude JsString Model Refresh Pattern Names Classifier Resolver Query Server Board.

(** ** Definitions *)

(** The object an enrichment in flight works on is among the first [n] of
    the store. *)
Definition task_live (n : nat) (x : option Task) : Prop :=
  ∀ task, x = Some task → task_dep task < n.

Definition tasks_live (s : Server) : Prop :=
  Forall (task_live (length (objects s))) (tasks s).

(** A [Promise.all] awaited by [fetchDepartures] has a promise to go. *)
Definition awaited (s : Server) : Prop :=
  ∀ b n deps, batches s !! b = Some (Some (Installing n deps)) → 0 < n.

(** What putting requests in flight changes, and for which objects. *)
Definition spawned (s s' : Server) : Prop :=
  objects s' = objects s ∧ batches s' = batches s ∧
  ∃ new, tasks s' = tasks s ++ new ∧ Forall (task_live (length (objects s))) new.

(** No enrichment is in flight and no [fetchDepartures] waits. *)
Definition settled (s : Server) : Prop :=
  (∀ t, mjoin (tasks s !! t) = None) ∧
  ∀ b n deps, batches s !! b ≠ Some (Some (Installing n deps)).

Section answers.
Context (STATION : StationValue) `{Upstream}.

(** The upstream answers the request of task [t], and the request that
    answer makes the task send. *)
Definition answer_twice (s : Server) (t : nat) : Server :=
  upstream_answers STATION t (upstream_answers STATION t s).

(** The upstream answers every request in flight. *)
Definition answer_all (s : Server) : Server :=
  foldl answer_twice s (seq 0 (length (tasks s))).

End answers.

(** ** Lemmas: the object of a task is in the store *)

Section live.
Context (STATION : StationValue) (metroLines : gmap string string).
Implicit Types (s : Server) (b t n : nat) (task : Task) (r : ref).

Lemma task_live_mono n n' x : n ≤ n' → task_live n x → task_live n' x.
Proof. intros ? Hx task Htask. specialize (Hx task Htask). lia. Qed.

#[export] Instance spawned_preorder : PreOrder spawned.
Proof.
  split.
  - intros s. split_and!; [done..|]. exists []. by rewrite app_nil_r.
  - intros s1 s2 s3 (Ho1 & Hb1 & new1 & Ht1 & Hn1) (Ho2 & Hb2 & new2 & Ht2 & Hn2).
    split_and!; [congruence..|]. exists (new1 ++ new2).
    rewrite Ht2, Ht1, app_assoc. split; [done|]. apply Forall_app.
    by rewrite Ho1 in Hn2.
Qed.

Lemma start_details_spawned r target i b slot s :
  spawned s (start_details r target i b slot s).
Proof.
  unfold start_details. destruct (objects s !! r) as [d|] eqn:Hr; [|done].
  split_and!; [done..|]. eexists. split; [done|]. repeat constructor.
  intros task [= <-]. by eapply lookup_lt_Some.
Qed.

Lemma tick_platform_spawned now b plat n :
  eff_keeps spawned (tick_platform now b plat n).
Proof.
  unfold tick_platform. keeps.
  - intros s'. split_and!; [done..|]. exists []. by rewrite app_nil_r.
  - apply start_details_spawned.
Qed.

Lemma tick_loop_spawned now b order n :
  eff_keeps spawned (tick_loop now b order n).
Proof.
  revert n; induction order as [|plat rest IH]; intros n; simpl; [by intros ?|].
  pose proof tick_platform_spawned. keeps.
Qed.

Lemma tasks_live_spawned s s' : spawned s s' → tasks_live s → tasks_live s'.
Proof.
  intros (Ho & _ & new & Ht & Hnew) Hs. unfold tasks_live.
  rewrite Ho, Ht. by apply Forall_app.
Qed.

(** The invariant reads the tasks and the size of the store only. *)
Lemma tasks_live_ext s s' :
  tasks s' = tasks s → length (objects s) ≤ length (objects s') →
  tasks_live s → tasks_live s'.
Proof.
  unfold tasks_live. intros -> Hlen Hs.
  eapply Forall_impl; [done|]. intros x. by apply task_live_mono.
Qed.

Lemma tasks_live_tick now order s : tasks_live s → tasks_live (tick now order s).
Proof.
  intros Hs. unfold tick.
  pose proof (tick_loop_spawned now (length (batches s)) order 0 s) as Hsp.
  destruct (tick_loop _ _ _ _ s) as [[[|n]|e] s']; simpl in Hsp;
    (eapply (tasks_live_ext s'); [done..|by eapply tasks_live_spawned]).
Qed.

Lemma tasks_live_begin_install deps s :
  tasks_live s → tasks_live (begin_install deps s).
Proof.
  intros Hs. unfold begin_install. rewrite start_platforms_tasks.
  set (new := map_to_list deps ≫= _).
  assert (tasks_live (with_tasks (λ l, l ++ new) s)) as Hnew.
  { apply Forall_app. split; [done|]. apply Forall_forall.
    intros x ([plat arr] & Hx & _)%list_elem_of_bind.
    apply new_for_elem in Hx as (i & r & d & _ & _ & Hd & ->).
    intros task [= <-]. by eapply lookup_lt_Some. }
  destruct (_ - _); exact Hnew.
Qed.

Lemma tasks_live_on_departures answer now s :
  tasks_live s → tasks_live (on_departures metroLines answer now s).
Proof.
  intros Hs. unfold on_departures. destruct (fetching s); [done|].
  destruct answer as [resp|]; [|done]. simpl.
  destruct (bucket _ _ _ _ _) as [queues|]; [|done].
  set (s0 := with_routeColours _ _).
  pose proof (allocate_frame queues s0) as [Hpre Hf].
  destruct (allocate queues s0) as [s1 deps]. simpl in *.
  apply tasks_live_begin_install, (tasks_live_ext s); [|by apply prefix_length|done].
  exact (f_equal tasks Hf).
Qed.

Lemma tasks_live_on_pattern t answer s :
  tasks_live s → tasks_live (on_pattern STATION t answer s).
Proof.
  intros Hs. destruct (mjoin (tasks s !! t)) as [task|] eqn:Ht;
    [|by rewrite on_pattern_idle].
  destruct (objects s !! task_dep task) as [dep|] eqn:Hdep;
    [|unfold on_pattern; by rewrite Ht, Hdep].
  destruct (on_pattern_step STATION t answer s task dep Ht Hdep) as (Ho & Hts & _).
  unfold tasks_live. rewrite Ho, Hts, length_insert.
  apply Forall_insert; [done|]. pose proof (lookup_lt_Some _ _ _ Hdep).
  repeat case_match; by intros ? [= <-].
Qed.

Lemma tasks_live_handle e s :
  tasks_live s → tasks_live (handle STATION metroLines e s).
Proof.
  destruct e; simpl; auto using tasks_live_tick, tasks_live_on_departures,
    tasks_live_on_pattern.
Qed.

End live.

(** ** Lemmas: an awaited [Promise.all] has a promise to go *)

Section awaited.
Context (STATION : StationValue) (metroLines : gmap string string).
Implicit Types (s : Server) (b t n : nat) (task : Task) (r : ref).

Lemma awaited_ext s s' : batches s' = batches s → awaited s → awaited s'.
Proof. intros Hb Hs b n deps. rewrite Hb. apply Hs. Qed.

Lemma awaited_snoc s s' x :
  batches s' = batches s ++ [x] →
  (∀ n deps, x = Some (Installing n deps) → 0 < n) →
  awaited s → awaited s'.
Proof.
  intros Hb Hx Hs b n deps. rewrite Hb.
  intros [Hlook|[_ Hlook]]%lookup_app_Some; [by eapply Hs|].
  apply list_lookup_singleton_Some in Hlook as [_ ->]. by eapply Hx.
Qed.

Lemma awaited_tick now order s : awaited s → awaited (tick now order s).
Proof.
  intros Hs. unfold tick.
  pose proof (tick_loop_spawned now (length (batches s)) order 0 s) as (_ & Hb & _).
  destruct (tick_loop _ _ _ _ s) as [[[|n]|e] s']; simpl in Hb;
    (eapply (awaited_snoc s); [simpl; by rewrite Hb|done..]).
Qed.

Lemma awaited_begin_install deps s : awaited s → awaited (begin_install deps s).
Proof.
  intros Hs. unfold begin_install. rewrite start_platforms_tasks.
  destruct (_ - _) as [|n]; [by apply (awaited_ext s)|].
  eapply (awaited_snoc s); [done| |done]. intros ?? [= <- _]. lia.
Qed.

Lemma awaited_on_departures answer now s :
  awaited s → awaited (on_departures metroLines answer now s).
Proof.
  intros Hs. unfold on_departures. destruct (fetching s); [done|].
  destruct answer as [resp|]; [|done]. simpl.
  destruct (bucket _ _ _ _ _) as [queues|]; [|done].
  set (s0 := with_routeColours _ _).
  pose proof (allocate_frame queues s0) as [_ Hf].
  destruct (allocate queues s0) as [s1 deps]. simpl in *.
  apply awaited_begin_install, (awaited_ext s); [|done].
  exact (f_equal batches Hf).
Qed.

Lemma awaited_fulfilled task s : awaited s → awaited (fulfilled task s).
Proof.
  intros Hs.
  assert (awaited (store_result task s)) as Hst.
  { intros b n deps (? & ? & _)%store_result_building. by eapply Hs. }
  clear Hs. revert Hst. unfold fulfilled. generalize (store_result task s).
  clear s. intros s Hs b n' deps'.
  settle_cases s b task; try by eapply Hs.
  case_bool_decide; [done|lia].
Qed.

Lemma awaited_rejected task e s : awaited s → awaited (rejected task e s).
Proof. intros Hs b n deps [Hlook _]%rejected_building. by eapply Hs. Qed.

Lemma awaited_on_pattern t answer s :
  awaited s → awaited (on_pattern STATION t answer s).
Proof.
  intros Hs. unfold on_pattern.
  destruct (mjoin (tasks s !! t)) as [task|]; [|done].
  destruct (objects s !! task_dep task) as [dep|]; [|done].
  destruct (resume_task _ _ _ _ _) as [[[k|]|e] dep'].
  - by apply (awaited_ext s).
  - by apply awaited_fulfilled, (awaited_ext s).
  - by apply awaited_rejected, (awaited_ext s).
Qed.

Lemma awaited_handle e s : awaited s → awaited (handle STATION metroLines e s).
Proof.
  destruct e; simpl; auto using awaited_tick, awaited_on_departures, awaited_on_pattern.
Qed.

Lemma reachable_live s : reachable STATION metroLines s → tasks_live s ∧ awaited s.
Proof.
  induction 1 as [|s e _ [Hl Ha] _].
  - split; [constructor|by intros b n deps].
  - split; [by apply tasks_live_handle|by apply awaited_handle].
Qed.

End awaited.

(** ** Lemmas: what the upstream's answers leave in flight *)

Section drain.
Context (STATION : StationValue) (metroLines : gmap string string) `{Upstream}.
Implicit Types (s : Server) (b t n : nat) (task : Task) (r : ref).

Lemma lookup_insert_None {A} (l : list (option A)) t t' :
  mjoin (<[t := None]> l !! t') = if decide (t' = t) then None else mjoin (l !! t').
Proof.
  case_decide as Ht; [subst|by rewrite list_lookup_insert_ne].
  destruct (decide (t < length l)); [by rewrite list_lookup_insert_eq|].
  by rewrite lookup_ge_None_2 by (rewrite length_insert; lia).
Qed.

Lemma tasks_live_answers t s :
  tasks_live s → tasks_live (upstream_answers STATION t s).
Proof.
  intros Hs. unfold upstream_answers.
  destruct (mjoin (tasks s !! t)); [by apply tasks_live_on_pattern|done].
Qed.

(** An answer changes the task it is for and no other; a task at its
    second [await] is settled by it, a task at its first is settled or at
    its second afterwards. *)
Lemma upstream_answers_tasks t s :
  tasks_live s →
  ∃ x, tasks (upstream_answers STATION t s) = <[t := x]> (tasks s) ∧
    (∀ task', x = Some task' → is_Some (task_await task')) ∧
    (from_option (λ task, is_Some (task_await task)) True (mjoin (tasks s !! t)) →
     x = None).
Proof.
  intros Hs. unfold upstream_answers.
  destruct (tasks s !! t) as [[task|]|] eqn:Ht; simpl.
  - destruct (lookup_lt_is_Some_2 (objects s) (task_dep task)) as [dep Hdep].
    { by eapply (Forall_lookup_1 _ _ _ _ Hs Ht). }
    destruct (on_pattern_step STATION t (get_pattern (task_run task) (task_type task))
                s task dep) as (_ & -> & _); [by rewrite Ht|done|].
    eexists. split; [done|]. unfold resume_task. split.
    + intros task'. by repeat case_match; intros [= <-].
    + intros [k Hk]. rewrite Hk.
      by destruct (details_resume _ _ _ _ _) as [[[]|] d].
  - exists None. by rewrite list_insert_id.
  - exists None. rewrite list_insert_ge; [done|]. by apply lookup_ge_None.
Qed.

(** Two answers settle the task. *)
Lemma answer_twice_tasks t s :
  tasks_live s → tasks (answer_twice STATION s t) = <[t := None]> (tasks s).
Proof.
  intros Hs. unfold answer_twice.
  destruct (upstream_answers_tasks t s Hs) as (x1 & Ht1 & Hx1 & _).
  destruct (upstream_answers_tasks t (upstream_answers STATION t s)) as (x2 & -> & _ & Hx2);
    [by apply tasks_live_answers|].
  rewrite Ht1, list_insert_insert_eq. rewrite Ht1 in Hx2. f_equal. apply Hx2.
  destruct (decide (t < length (tasks s))).
  - rewrite list_lookup_insert_eq by done. simpl. destruct x1; simpl; eauto.
  - by rewrite lookup_ge_None_2 by (rewrite length_insert; lia).
Qed.

Lemma tasks_live_answer_twice t s : tasks_live s → tasks_live (answer_twice STATION s t).
Proof. intros Hs. by do 2 apply tasks_live_answers. Qed.

(** The tasks the upstream has answered are settled, and so are those that
    were. *)
Lemma answers_settle ts s t :
  tasks_live s → t ∈ ts ∨ mjoin (tasks s !! t) = None →
  mjoin (tasks (foldl (answer_twice STATION) s ts) !! t) = None.
Proof.
  revert s; induction ts as [|a ts IH]; intros s Hs Ht; simpl.
  { destruct Ht as [Ht|]; [by apply elem_of_nil in Ht|done]. }
  apply IH; [by apply tasks_live_answer_twice|].
  rewrite answer_twice_tasks, lookup_insert_None by done.
  case_decide; [by right|]. destruct Ht as [[]%elem_of_cons|]; [done|by left|by right].
Qed.

Lemma reachable_answer_all s :
  reachable STATION metroLines s → reachable STATION metroLines (answer_all STATION s).
Proof.
  intros Hs. unfold answer_all. apply (foldl_invariant (reachable STATION metroLines)); [|done].
  intros s' t ?. unfold answer_twice. by do 2 apply reachable_upstream_answers.
Qed.

(** With no task in flight no promise is to go. *)
Lemma in_flight_none b s : (∀ t, mjoin (tasks s !! t) = None) → in_flight b s = 0.
Proof.
  intros Hnone. unfold in_flight. rewrite filter_Forall_nil; [done|].
  apply Forall_lookup_2. intros t [task|] Ht; [|done].
  specialize (Hnone t). by rewrite Ht in Hnone.
Qed.

End drain.

(** ** Theorems *)

Section theorems.
Context (STATION : StationValue) (metroLines : gmap string string) `{Upstream}.

(** C19. Every refresh completes.  From any state the server reaches, when
    the upstream answers every request in flight and the second request
    each enrichment may make, the server is in a state in which no
    enrichment is in flight and no [fetchDepartures] waits in
    [await Promise.all(promises)]: each has installed its board or has been
    rejected. *)
Theorem refresh_completes s :
  reachable STATION metroLines s →
  reachable STATION metroLines (answer_all STATION s) ∧ settled (answer_all STATION s).
Proof.
  intros Hs. pose proof (reachable_answer_all STATION metroLines s Hs) as Hs'.
  split; [done|].
  assert (∀ t, mjoin (tasks (answer_all STATION s) !! t) = None) as Hnone.
  { intros t. apply answers_settle; [by apply (reachable_live STATION metroLines)|].
    destruct (decide (t < length (tasks s))); [left; apply elem_of_seq; lia|right].
    by rewrite lookup_ge_None_2 by lia. }
  split; [done|]. intros b n deps Hb.
  destruct (reachable_live STATION metroLines _ Hs') as [_ Ha].
  pose proof (Ha b n deps Hb).
  destruct (inv_building _ (reachable_board_inv STATION metroLines _ Hs') b n deps Hb)
    as [Hn _ _].
  rewrite in_flight_none in Hn; [lia|done].
Qed.

End theorems.

(** ** Witnesses *)

(** When the departures answer has arrived, the upstream's answers to the
    four requests in flight, and to the second request of run 103, install
    the board. *)
Lemma refresh_completes_witness :
  reachable FOOTSCRAY demo_lines (@answer_all FOOTSCRAY demo_upstream demo_fetched) ∧
  settled (@answer_all FOOTSCRAY demo_upstream demo_fetched).
Proof. apply refresh_completes. reach. Defined.

Example demo_answer_all :
  runs_on "1" (@answer_all FOOTSCRAY demo_upstream demo_fetched)
    = [Some "A"; Some "B"; Some "C"; Some "D"; Some "E"] ∧
  enriched_on "2" (@answer_all FOOTSCRAY demo_upstream demo_fetched) = [true].
Proof. by vm_compute. Qed.
