(* ===== verification/Store.v ===== *)
(** * Store: the references of the model are sound

    [app.js] holds its departures by reference: the object of a service is
    created once by [fetchDepartures], an array of a platform holds
    references to objects, the board [departures] holds references to
    arrays, and the callbacks of the enrichments in flight hold both.  In
    [Server] objects and arrays are numbered and a reference is a number.

    This file is about the model, not about the program: it shows that in
    every state of the server a number that stands for a reference is the
    number of something in the store, and that two platforms of the board
    never share an array ([store_inv], [reachable_store_inv]).  Both hold
    in JavaScript by construction; here they have to be proved, and the
    theorems of [Late] about one platform's array rest on the second. *)

From S2P Require Import Prelude JsString Model Refresh Pattern Names Classifier Resolver Query Server Board Progress.

(** ** Definitions *)

(** The element of an array is a hole or an object of a store of [n]
    objects. *)
Definition ref_in (n : nat) (x : option ref) : Prop :=
  ∀ r, x = Some r → r < n.

Definition refs_in (n : nat) (arr : list (option ref)) : Prop :=
  Forall (ref_in n) arr.

(** The array the callback of an enrichment assigns to, when it is one of
    an installed board, is an array of a store of [m] arrays, and the
    index it assigns to is not the head ([nextIdx] is at least 1). *)
Definition target_in (m : nat) (x : option Task) : Prop :=
  ∀ task a, x = Some task → task_target task = Installed a →
    a < m ∧ 1 ≤ task_index task.

(** The board a [Promise.all] is awaited with, and the results of one of
    the minute job, refer to objects of a store of [n] objects. *)
Definition batch_in (n : nat) (x : option Batch) : Prop :=
  match x with
  | Some (Installing _ deps) => map_Forall (λ _, refs_in n) deps
  | Some (Announcing results) =>
      Forall (λ x, ∀ plat r, x = Some (plat, r) → r < n) results
  | _ => True
  end.

(** Every platform of the board has an array of its own. *)
Definition own_arrays (s : Server) : Prop :=
  ∀ p q a, departures s !! p = Some a → departures s !! q = Some a → p = q.

(** Every reference the server holds is to an object or to an array of
    its store, and no array is shared. *)
Record store_inv (s : Server) : Prop := mkStoreInv {
  inv_departures : map_Forall (λ _ a, a < length (arrays s)) (departures s);
  inv_own : own_arrays s;
  inv_arrays : Forall (refs_in (length (objects s))) (arrays s);
  inv_tasks : tasks_live s;
  inv_targets : Forall (target_in (length (arrays s))) (tasks s);
  inv_batches : Forall (batch_in (length (objects s))) (batches s);
}.

(** ** Lemmas: arrays *)

Section arrays.
Implicit Types (n m i : nat) (r : ref) (arr : list (option ref)).

Lemma refs_in_mono n n' arr : n ≤ n' → refs_in n arr → refs_in n' arr.
Proof.
  intros Hn Harr. eapply Forall_impl; [done|].
  intros x Hx r Hr. specialize (Hx r Hr). lia.
Qed.

Lemma target_in_mono m m' x : m ≤ m' → target_in m x → target_in m' x.
Proof. intros Hm Hx task a Htask Ha. specialize (Hx task a Htask Ha). lia. Qed.

Lemma batch_in_mono n n' x : n ≤ n' → batch_in n x → batch_in n' x.
Proof.
  intros Hn. destruct x as [[k deps|results|]|]; simpl; [| |done..]; intros Hx.
  - eapply map_Forall_impl; [done|]. intros ? arr. by apply refs_in_mono.
  - eapply Forall_impl; [done|]. intros x Hr plat r Hpr. specialize (Hr plat r Hpr). lia.
Qed.

(** [platform[i] = result] *)
Lemma refs_in_set n i r arr : r < n → refs_in n arr → refs_in n (array_set i r arr).
Proof.
  intros Hr. apply array_set_Forall; [done|by intros ? [= <-]].
Qed.

(** An array without holes is one. *)
Lemma solid_refs_in objs arr : solid objs arr → refs_in (length objs) arr.
Proof.
  intros Harr. eapply Forall_impl; [done|]. by intros x (r & -> & Hr) ? [= <-].
Qed.

End arrays.

(** ** Lemmas: the assignments keep the invariant *)

Section updates.
Implicit Types (s : Server) (n m i t b : nat) (r : ref) (a : aref) (task : Task).

(** The invariant reads the board, the arrays, the tasks, the batches and
    the size of the store. *)
Lemma store_inv_ext s s' :
  length (objects s) ≤ length (objects s') → arrays s' = arrays s →
  departures s' = departures s → tasks s' = tasks s → batches s' = batches s →
  store_inv s → store_inv s'.
Proof.
  intros Ho Ha Hd Ht Hb [].
  split; unfold own_arrays; rewrite ?Ha, ?Hd, ?Ht, ?Hb;
    [done|done| |by apply (tasks_live_ext s)|done|].
  - eapply Forall_impl; [done|]. intros arr. by apply refs_in_mono.
  - eapply Forall_impl; [done|]. intros x. by apply batch_in_mono.
Qed.

Lemma store_inv_spawn s new :
  Forall (task_live (length (objects s))) new →
  Forall (target_in (length (arrays s))) new →
  store_inv s → store_inv (with_tasks (λ l, l ++ new) s).
Proof. intros ?? []. split; try done; by apply Forall_app. Qed.

Lemma store_inv_task s t x :
  task_live (length (objects s)) x → target_in (length (arrays s)) x →
  store_inv s → store_inv (with_tasks (<[t := x]>) s).
Proof. intros ?? []. split; try done; by apply Forall_insert. Qed.

Lemma store_inv_batch_snoc s x :
  batch_in (length (objects s)) x →
  store_inv s → store_inv (with_batches (λ l, l ++ [x]) s).
Proof. intros ? []. split; try done. apply Forall_app. by repeat constructor. Qed.

Lemma store_inv_batch s b x :
  batch_in (length (objects s)) x →
  store_inv s → store_inv (with_batches (<[b := x]>) s).
Proof. intros ? []. split; try done. by apply Forall_insert. Qed.

Lemma store_inv_object s r d : store_inv s → store_inv (with_objects (<[r := d]>) s).
Proof. apply store_inv_ext; simpl; by rewrite ?length_insert. Qed.

(** [platform.shift()], and [platform[i] = result] on an array of the
    store. *)
Lemma store_inv_arrays (f : list (option ref) → list (option ref)) s a :
  (∀ arr, refs_in (length (objects s)) arr → refs_in (length (objects s)) (f arr)) →
  store_inv s → store_inv (with_arrays (alter f a) s).
Proof.
  intros Hf []. split; simpl; rewrite ?length_alter; try done.
  apply Forall_alter; [done|]. intros arr _. apply Hf.
Qed.

(** [departures = deps] *)
Lemma store_inv_install deps s :
  map_Forall (λ _, refs_in (length (objects s))) deps →
  store_inv s → store_inv (install deps s).
Proof.
  intros Hdeps []. unfold install.
  split; simpl; rewrite ?length_app, ?length_fmap; [| | |done| |done].
  - intros plat a Ha%elem_of_list_to_map_2. apply elem_of_zip_r, elem_of_seq in Ha. lia.
  - intros p q a Hp%elem_of_list_to_map_2 Hq%elem_of_list_to_map_2.
    by apply (zip_NoDup_r _ _ _ _ _ (NoDup_seq _ _) Hp Hq).
  - apply Forall_app. split; [done|]. apply Forall_fmap.
    apply map_Forall_to_list in Hdeps. eapply Forall_impl; [done|]. by intros [].
  - eapply Forall_impl; [done|]. intros x. apply target_in_mono. lia.
Qed.

(** [fetchDepartureDetails(dep).then(...)] up to the first [await]. *)
Lemma store_inv_start r target i b slot s :
  (∀ a, target = Installed a → a < length (arrays s) ∧ 1 ≤ i) →
  store_inv s → store_inv (start_details r target i b slot s).
Proof.
  intros Ha Hs. unfold start_details. destruct (objects s !! r) as [d|] eqn:Hr; [|done].
  apply store_inv_spawn; [..|done]; apply Forall_singleton.
  - intros task [= <-]. by eapply lookup_lt_Some.
  - intros task a [= <-]. apply Ha.
Qed.

End updates.

(** ** Lemmas: the handlers keep the invariant *)

Section handlers.
Context (STATION : StationValue) (metroLines : gmap string string).
Implicit Types (s : Server) (n m i t b : nat) (r : ref) (a : aref) (task : Task).

(** The minute job: an array of the board is shifted, or an enrichment is
    started that will assign to it. *)
Lemma store_inv_tick_platform now b plat n s :
  store_inv s → store_inv (tick_platform now b plat n s).2.
Proof.
  intros Hs. unfold tick_platform. eff_unfold. simpl.
  destruct (departures s !! plat) as [a|] eqn:Ha; [|done].
  pose proof (inv_departures s Hs plat a Ha) as Hlt.
  repeat (case_bool_decide || case_match); simpl; try done.
  - apply store_inv_arrays; [intros arr; apply Forall_tail|done].
  - apply store_inv_start; [intros ? [= <-]; split; [done|lia]|done].
  - apply store_inv_arrays; [intros arr; apply Forall_tail|done].
Qed.

Lemma store_inv_tick_loop now b order n s :
  store_inv s → store_inv (tick_loop now b order n s).2.
Proof.
  revert n s; induction order as [|plat rest IH]; intros n s Hs; simpl; [done|].
  unfold eff_bind. pose proof (store_inv_tick_platform now b plat n s Hs) as Hp.
  destruct (tick_platform now b plat n s) as [[n'|e] s']; simpl in *; [by apply IH|done].
Qed.

Lemma store_inv_tick now order s : store_inv s → store_inv (tick now order s).
Proof.
  intros Hs. unfold tick.
  pose proof (store_inv_tick_loop now (length (batches s)) order 0 s Hs) as Hl.
  destruct (tick_loop _ _ _ _ s) as [[[|n]|e] s']; simpl in Hl.
  - by apply store_inv_batch_snoc.
  - apply store_inv_batch_snoc; [|done]. by apply Forall_replicate.
  - by apply (store_inv_ext (with_batches (λ l, l ++ [Some Abandoned]) s')),
      store_inv_batch_snoc.
Qed.

(** [fetchDepartures]: the objects are created, the enrichments started,
    and the board installed when there is nothing to wait for. *)
Lemma store_inv_begin_install deps s :
  map_Forall (λ _, refs_in (length (objects s))) deps →
  store_inv s → store_inv (begin_install deps s).
Proof.
  intros Hdeps Hs. unfold begin_install. rewrite start_platforms_tasks.
  set (new := map_to_list deps ≫= _).
  assert (store_inv (with_tasks (λ l, l ++ new) s)) as Hnew.
  { apply store_inv_spawn; [| |done]; apply Forall_forall;
      intros x ([plat arr] & Hx & _)%list_elem_of_bind;
      apply new_for_elem in Hx as (i & r & d & _ & _ & Hd & ->).
    - intros task [= <-]. by eapply lookup_lt_Some.
    - by intros task a [= <-]. }
  destruct (_ - _); [by apply store_inv_install|by apply store_inv_batch_snoc].
Qed.

Lemma store_inv_on_departures answer now s :
  store_inv s → store_inv (on_departures metroLines answer now s).
Proof.
  intros Hs. unfold on_departures. destruct (fetching s); [done|].
  destruct answer as [resp|]; [|by apply (store_inv_ext s)]. simpl.
  destruct (bucket _ _ _ _ _) as [queues|]; [|by apply (store_inv_ext s)].
  set (s0 := with_routeColours _ _).
  pose proof (allocate_frame queues s0) as [Hpre Hf].
  pose proof (allocate_solid queues s0) as Hsolid.
  destruct (allocate queues s0) as [s1 deps]. simpl in *.
  apply store_inv_begin_install.
  - eapply map_Forall_impl; [done|]. intros ? arr. apply solid_refs_in.
  - apply (store_inv_ext s); [by apply prefix_length|..|done].
    + exact (f_equal arrays Hf).
    + exact (f_equal departures Hf).
    + exact (f_equal tasks Hf).
    + exact (f_equal batches Hf).
Qed.

(** [platform[i] = result] in the callback of an enrichment. *)
Lemma store_inv_store_result task s :
  task_dep task < length (objects s) → store_inv s → store_inv (store_result task s).
Proof.
  intros Hr Hs. unfold store_result. destruct (task_target task) as [plat|a].
  - destruct Hs. split; try done. simpl. apply Forall_alter; [done|].
    intros [[n deps|results|]|] _; simpl; try done.
    apply map_Forall_alter. intros arr. by apply refs_in_set.
  - apply store_inv_arrays; [|done]. intros arr. by apply refs_in_set.
Qed.

Lemma store_inv_batches s b x :
  store_inv s → mjoin (batches s !! b) = Some x → batch_in (length (objects s)) (Some x).
Proof.
  intros Hs Hb. destruct (batches s !! b) as [[y|]|] eqn:Hlook; simplify_eq/=.
  exact (Forall_lookup_1 _ _ _ _ (inv_batches s Hs) Hlook).
Qed.

Lemma store_inv_fulfilled task s :
  task_dep task < length (objects s) → store_inv s → store_inv (fulfilled task s).
Proof.
  intros Hr Hs. apply (store_inv_store_result task) in Hs; [|done].
  destruct (store_result_frame task s) as (Ho & _). rewrite <-Ho in Hr.
  unfold fulfilled. revert Hr Hs. generalize (store_result task s). clear s Ho.
  intros s Hr Hs.
  destruct (mjoin (batches s !! task_batch task)) as [[n deps|results|]|] eqn:Hb;
    [| |done..]; apply (store_inv_batches s _ _ Hs) in Hb; simpl in Hb.
  - case_bool_decide; [apply store_inv_install; [done|]|]; by apply store_inv_batch.
  - destruct (task_slot task) as [[i plat]|]; [|done].
    destruct (mapM id _) as [all|].
    + by apply (store_inv_ext (with_batches <[task_batch task:=None]> s)),
        store_inv_batch.
    + apply store_inv_batch; [|done]. apply Forall_insert; [done|].
      by intros ?? [= _ <-].
Qed.

Lemma store_inv_rejected task e s : store_inv s → store_inv (rejected task e s).
Proof.
  intros Hs. unfold rejected.
  assert (store_inv (with_batches <[task_batch task:=None]> s)) as Hb
    by by apply store_inv_batch.
  destruct (mjoin (batches s !! task_batch task)) as [[n deps|results|]|]; [..|done].
  - by apply (store_inv_ext (with_batches <[task_batch task:=None]> s)).
  - by apply (store_inv_ext (with_batches <[task_batch task:=None]> s)).
  - by apply (store_inv_ext s).
Qed.

Lemma store_inv_on_pattern t answer s :
  store_inv s → store_inv (on_pattern STATION t answer s).
Proof.
  intros Hs. unfold on_pattern.
  destruct (mjoin (tasks s !! t)) as [task|] eqn:Ht; [|done].
  destruct (objects s !! task_dep task) as [dep|] eqn:Hdep; [|done].
  apply lookup_lt_Some in Hdep.
  assert (target_in (length (arrays s)) (Some task)) as Htarget.
  { destruct (tasks s !! t) as [[task'|]|] eqn:Hlook; simplify_eq/=.
    exact (Forall_lookup_1 _ _ _ _ (inv_targets s Hs) Hlook). }
  destruct (resume_task _ _ _ _ _) as [[[k|]|e] dep'].
  - apply store_inv_task, store_inv_object, Hs; simpl; rewrite ?length_insert.
    + intros ? [= <-]. exact Hdep.
    + intros ? a [= <-]. by apply (Htarget task a).
  - apply store_inv_fulfilled; [simpl; by rewrite length_insert|].
    by apply store_inv_task, store_inv_object.
  - by apply store_inv_rejected, store_inv_task, store_inv_object.
Qed.

Lemma store_inv_handle e s : store_inv s → store_inv (handle STATION metroLines e s).
Proof.
  destruct e; simpl; auto using store_inv_tick, store_inv_on_departures,
    store_inv_on_pattern; by apply store_inv_ext.
Qed.

Lemma store_inv_boot : store_inv boot.
Proof. split; simpl; try done; by constructor. Qed.

Lemma reachable_store_inv s : reachable STATION metroLines s → store_inv s.
Proof. induction 1; auto using store_inv_boot, store_inv_handle. Qed.

End handlers.
