(* ===== verification/Late.v ===== *)
(** * Late: answers that arrive after the minute job has moved on

    The minute job of [src/app.js] looks ahead: while the head of a
    platform is due it asks for the details of [platform[nextIdx]], and the
    callback of the answer assigns [platform[nextIdx] = result] with the
    index computed when the request was sent.  The array may have been
    shifted by then.  This file shows, for every state the server reaches,
    what the assignment does when the answer is late
    ([answer_after_shift], [answer_leaves_hole]), and what a hole at the
    head of a platform does to every later turn ([hole_stops_minute_job]).
    [Scenarios] has runs of the server in which both happen; they are the
    witnesses here. *)

From S2P Require Import Prelude JsString Model Refresh Pattern Names Classifier Resolver Query Server Board Scenarios Progress Store.

(** ** Definitions *)

(** The array of the platform has a hole at its head: [platform[0]] is
    [undefined]. *)
Definition head_hole (s : Server) (plat : string) : Prop :=
  ∃ slots, board s !! plat = Some (None :: slots).

(** Every array with a hole at its head in [s] has one in [s']. *)
Definition keeps_heads (s s' : Server) : Prop :=
  ∀ a rest, arrays s !! a = Some (None :: rest) →
    ∃ rest', arrays s' !! a = Some (None :: rest').

(** A firing of the minute job in which [plat] is listed, and [p] not
    before it. *)
Definition fires_up_to (plat p : string) (e : Event) : Prop :=
  ∃ now before after,
    e = Minute now (before ++ plat :: after) ∧ (plat ∉ before) ∧ (p ∉ before).

(** The answer settles the enrichment of task [t], and fulfils it. *)
Definition fulfils (STATION : StationValue) (s : Server) (t : nat)
    (answer : result PatternResponse) (task : Task) : Prop :=
  mjoin (tasks s !! t) = Some task ∧
  ∃ dep, objects s !! task_dep task = Some dep ∧
    (resume_task STATION (routeColours s) task answer dep).1 = Ok None.

(** *** States to evaluate on *)

(** The minute job has looked ahead to D (task 4, index 3) and then
    removed A, before the answer for D. *)
Definition shifted : Server :=
  demo (Connect "1" :: minutes ["2"; "1"] [70000; 130000]%Z) demo_ready.

(** With four departures on the platform: the minute job has looked ahead
    to D (task 3, index 3) and then removed A and B. *)
Definition twice_shifted : Server :=
  demo (minutes ["1"] [130000; 190000]%Z) (four_minute "D").

(** The answer for D has left a hole at index 2, and the minute job has
    removed C and D since: the hole is the head. *)
Definition stuck : Server :=
  demo (minutes ["1"] [250000; 310000]%Z) (demo_answers [3] twice_shifted).

(** ** Lemmas: the minute job at a hole *)

Section hole.
Context (STATION : StationValue) (metroLines : gmap string string).
Implicit Types (s : Server) (plat p q : string) (a : aref) (n b : nat) (now : Z).

Lemma board_lookup s p :
  board s !! p
  = (λ a, (λ x : option ref, x ≫= (objects s !!.)) <$> default [] (arrays s !! a))
      <$> departures s !! p.
Proof. unfold board. by rewrite lookup_fmap. Qed.

(** The board reads the store through [departures]. *)
Lemma board_ext s s' p :
  departures s' = departures s → objects s' = objects s →
  (∀ a, departures s !! p = Some a → arrays s' !! a = arrays s !! a) →
  board s' !! p = board s !! p.
Proof.
  intros Hd Ho Ha. rewrite !board_lookup, Hd, Ho.
  destruct (departures s !! p) as [a|] eqn:Hp; [|done]. simpl. by rewrite Ha.
Qed.

(** One iteration of the loop throws only a [TypeError]. *)
Lemma tick_platform_error now b q n s e s' :
  tick_platform now b q n s = (Err e, s') → e = TypeError ∧ s' = s.
Proof.
  unfold tick_platform. eff_unfold. simpl.
  repeat (case_bool_decide || case_match); simpl; intros; by simplify_eq/=.
Qed.

(** An iteration for another platform leaves the platform as it is. *)
Lemma tick_platform_other now b q n s p :
  own_arrays s → p ≠ q →
  let s' := (tick_platform now b q n s).2 in
  board s' !! p = board s !! p ∧ departures s' = departures s ∧
  objects s' = objects s ∧ unhandled s' = unhandled s ∧ batches s' = batches s.
Proof.
  intros Hown Hpq. unfold tick_platform. eff_unfold. simpl.
  destruct (departures s !! q) as [a|] eqn:Hq; [|done].
  repeat (case_bool_decide || case_match); simpl; try done; simplify_eq/=.
  - split_and!; try done. apply board_ext; try done. intros a' Hp. simpl.
    apply list_lookup_alter_ne. intros ->. by apply Hpq, (Hown p q a').
  - unfold start_details. by case_match.
  - split_and!; try done. apply board_ext; try done. intros a' Hp. simpl.
    apply list_lookup_alter_ne. intros ->. by apply Hpq, (Hown p q a').
Qed.

(** The iteration for a platform with a hole at its head throws at
    [platform[0].time]. *)
Lemma tick_platform_hole now b plat n s :
  head_hole s plat → tick_platform now b plat n s = (Err TypeError, s).
Proof.
  intros [slots Hslots]. rewrite board_lookup in Hslots.
  unfold tick_platform. eff_unfold. simpl.
  destruct (departures s !! plat) as [a|]; simplify_eq/=.
  destruct (default [] (arrays s !! a)) as [|x arr]; [done|].
  injection Hslots as Hx _. unfold array_get.
  destruct x as [r|]; simpl in *; [by rewrite Hx|done].
Qed.

(** The iterations before the platform leave it, and every platform that
    is not among them, as they are. *)
Lemma tick_loop_before now b before n s p :
  own_arrays s → p ∉ before →
  let s' := (tick_loop now b before n s).2 in
  board s' !! p = board s !! p ∧ departures s' = departures s ∧
  objects s' = objects s ∧ unhandled s' = unhandled s ∧ batches s' = batches s.
Proof.
  revert n s; induction before as [|q rest IH]; intros n s Hown Hp; simpl; [done|].
  apply not_elem_of_cons in Hp as [Hpq Hrest]. unfold eff_bind.
  destruct (tick_platform_other now b q n s p Hown Hpq) as (Hb & Hd & Ho & Hu & Hbs).
  destruct (tick_platform now b q n s) as [[n'|e] s1]; simpl in *; [|done].
  destruct (IH n' s1) as (-> & -> & -> & -> & ->); [|done..].
  unfold own_arrays. by rewrite Hd.
Qed.

(** The loop throws at the platform, or before it. *)
Lemma tick_loop_throws now b before plat after n s :
  own_arrays s → head_hole s plat → plat ∉ before →
  ∃ before', before' `prefix_of` before ∧
    tick_loop now b (before ++ plat :: after) n s
    = (Err TypeError, (tick_loop now b before' n s).2).
Proof.
  revert n s; induction before as [|q rest IH]; intros n s Hown Hhole Hplat; simpl.
  - exists []. split; [apply prefix_nil|]. unfold eff_bind. by rewrite tick_platform_hole.
  - apply not_elem_of_cons in Hplat as [Hpq Hrest]. unfold eff_bind.
    destruct (tick_platform_other now b q n s plat Hown Hpq) as (Hb & Hd & _).
    destruct (tick_platform now b q n s) as [[n'|e] s1] eqn:Hq; simpl in *.
    + destruct (IH n' s1) as (before' & Hpre & ->); [| |done|].
      * unfold own_arrays. by rewrite Hd.
      * unfold head_hole. by rewrite Hb.
      * exists (q :: before'). split; [by apply prefix_cons|].
        simpl. unfold eff_bind. by rewrite Hq.
    + apply tick_platform_error in Hq as [-> ->]. exists []. split; [apply prefix_nil|done].
Qed.

(** The minute job throws, and leaves every platform that is not listed
    before the one with the hole as it is. *)
Lemma tick_hole now before plat after s p :
  own_arrays s → head_hole s plat → plat ∉ before → p ∉ before →
  let s' := tick now (before ++ plat :: after) s in
  board s' !! p = board s !! p ∧ departures s' = departures s ∧
  unhandled s' = unhandled s ++ [TypeError].
Proof.
  intros Hown Hhole Hplat Hp. unfold tick.
  destruct (tick_loop_throws now (length (batches s)) before plat after 0 s)
    as (before' & Hpre & ->); [done..|].
  destruct (tick_loop_before now (length (batches s)) before' 0 s p Hown)
    as (Hb & Hd & Ho & Hu & _).
  { intros Hin. apply Hp. destruct Hpre as [rest ->]. apply elem_of_app. by left. }
  simpl. rewrite Hu, <-Hb. by split_and!.
Qed.

Lemma run_hole events s plat p :
  own_arrays s → head_hole s plat → Forall (fires_up_to plat p) events →
  let s' := run STATION metroLines events s in
  board s' !! p = board s !! p ∧ board s' !! plat = board s !! plat ∧
  unhandled s' = unhandled s ++ replicate (length events) TypeError.
Proof.
  intros Hown Hhole Hevents. revert s Hown Hhole.
  induction Hevents as [|e events (now & before & after & -> & Hplat & Hp) _ IH];
    intros s Hown Hhole; simpl.
  { by rewrite app_nil_r. }
  destruct (tick_hole now before plat after s p Hown Hhole Hplat Hp) as (Hb & Hd & Hu).
  destruct (tick_hole now before plat after s plat Hown Hhole Hplat Hplat) as (Hb' & _).
  destruct (IH (tick now (before ++ plat :: after) s)) as (-> & -> & ->).
  - unfold own_arrays. by rewrite Hd.
  - unfold head_hole. by rewrite Hb'.
  - rewrite Hu, <-app_assoc. by split_and!.
Qed.

End hole.

(** ** Lemmas: the assignment of a late answer *)

Section late.
Context (STATION : StationValue) (metroLines : gmap string string).
Implicit Types (s : Server) (plat : string) (a : aref) (t i k : nat) (task : Task).

(** The callback of an enrichment the minute job started assigns to the
    array it was started for, whatever the array holds by then. *)
Lemma fulfilled_array task s a arr :
  task_target task = Installed a → arrays s !! a = Some arr →
  arrays (fulfilled task s) !! a
  = Some (array_set (task_index task) (task_dep task) arr).
Proof.
  intros Htarget Harr. unfold fulfilled, store_result. rewrite Htarget. simpl.
  assert (alter (array_set (task_index task) (task_dep task)) a (arrays s) !! a
          = Some (array_set (task_index task) (task_dep task) arr)) as Hset
    by (rewrite list_lookup_alter_eq; unfold ref, aref in *; by rewrite Harr).
  repeat case_match; simpl; try done.
  by apply lookup_app_l_Some.
Qed.

(** A callback that does not belong to a [fetchDepartures] installs no
    board. *)
Lemma fulfilled_departures task s a :
  task_target task = Installed a →
  (∀ n deps, batches s !! task_batch task ≠ Some (Some (Installing n deps))) →
  departures (fulfilled task s) = departures s.
Proof.
  intros Htarget Hb. unfold fulfilled, store_result. rewrite Htarget. simpl.
  destruct (batches s !! task_batch task) as [[[n deps|results|]|]|] eqn:Hlook;
    simpl; try done; [by destruct (Hb n deps)|by repeat case_match].
Qed.

(** In a state the server reaches, an enrichment the minute job started
    belongs to no [fetchDepartures]. *)
Lemma minute_task_batch s t task a :
  board_inv s → tasks s !! t = Some (Some task) → task_target task = Installed a →
  ∀ n deps, batches s !! task_batch task ≠ Some (Some (Installing n deps)).
Proof.
  intros Hinv Ht Htarget n deps Hb.
  destruct (building_target _ _ _ _ (inv_building s Hinv _ _ _ Hb) t task Ht eq_refl)
    as (plat & arr & Hplat & _).
  congruence.
Qed.

(** The turn of the answer that fulfils such an enrichment. *)
Lemma on_pattern_late s t task answer a arr :
  reachable STATION metroLines s → fulfils STATION s t answer task →
  task_target task = Installed a → arrays s !! a = Some arr →
  arrays (on_pattern STATION t answer s) !! a
  = Some (array_set (task_index task) (task_dep task) arr) ∧
  departures (on_pattern STATION t answer s) = departures s ∧
  length (objects (on_pattern STATION t answer s)) = length (objects s).
Proof.
  intros Hinv%reachable_board_inv (Ht & dep & Hdep & Hok) Htarget Harr.
  pose proof (minute_task_batch s t task a Hinv) as Hbatch.
  unfold on_pattern. rewrite Ht, Hdep.
  destruct (resume_task _ _ _ _ _) as [[[pending|]|e] dep']; simplify_eq/=.
  split_and!.
  - by apply fulfilled_array.
  - erewrite fulfilled_departures; [done..|]. simpl. apply Hbatch; [|done].
    by destruct (tasks s !! t) as [[]|]; simplify_eq/=.
  - destruct (fulfilled_frame task
      (with_tasks <[t:=None]> (with_objects <[task_dep task:=dep']> s))) as (-> & _).
    simpl. by rewrite length_insert.
Qed.

End late.

(** ** Lemmas: a hole at the head stays *)

Section heads.
Context (STATION : StationValue) (metroLines : gmap string string).
Implicit Types (s : Server) (plat : string) (a : aref) (t i k : nat) (task : Task).

#[export] Instance keeps_heads_preorder : PreOrder keeps_heads.
Proof.
  split; [by eexists|].
  intros s1 s2 s3 H12 H23 a rest Ha. destruct (H12 a rest Ha) as [rest' Ha']. eauto.
Qed.

(** The relation reads the arrays only, and arrays that are added do not
    matter. *)
Lemma keeps_heads_prefix s s' : arrays s `prefix_of` arrays s' → keeps_heads s s'.
Proof. intros [more Hs] a rest Ha. exists rest. rewrite Hs. by apply lookup_app_l_Some. Qed.

(** An assignment that is not to the head. *)
Lemma keeps_heads_assign s a i r :
  1 ≤ i → keeps_heads s (with_arrays (alter (array_set i r) a) s).
Proof.
  intros Hi a' rest Ha'. simpl. destruct (decide (a' = a)) as [->|];
    [|exists rest; by rewrite list_lookup_alter_ne].
  rewrite list_lookup_alter_eq. unfold ref, aref in *. rewrite Ha'. simpl.
  unfold array_set. simpl. case_decide.
  - destruct i as [|i]; [lia|]. by eexists.
  - by eexists.
Qed.

(** A shift removes a head that has been read. *)
Lemma tick_platform_heads now b plat n : eff_keeps keeps_heads (tick_platform now b plat n).
Proof.
  intros s. unfold tick_platform. eff_unfold. simpl.
  destruct (departures s !! plat) as [a|] eqn:Ha; [|done].
  destruct (arrays s !! a) as [[|[r|] platform]|] eqn:Harr; simpl; try done.
  unfold array_get at 1. simpl. destruct (objects s !! r) as [head|]; simpl; [|done].
  repeat (case_bool_decide || case_match); simpl; try done.
  - intros a' rest Ha'. exists rest. simpl. rewrite list_lookup_alter_ne; [done|].
    intros ->. unfold ref, aref in *. congruence.
  - apply keeps_heads_prefix. unfold start_details. by case_match.
Qed.

Lemma tick_heads now order s : keeps_heads s (tick now order s).
Proof.
  assert (∀ b order n, eff_keeps keeps_heads (tick_loop now b order n)) as Hloop.
  { intros b l. induction l as [|plat rest IH]; intros n; simpl; [by intros ?|].
    pose proof tick_platform_heads. keeps. }
  unfold tick. specialize (Hloop (length (batches s)) order 0 s).
  by destruct (tick_loop _ _ _ _ s) as [[[|n]|e] s'].
Qed.

Lemma on_departures_heads answer now s :
  keeps_heads s (on_departures metroLines answer now s).
Proof.
  apply keeps_heads_prefix. unfold on_departures. destruct (fetching s); [done|].
  destruct answer as [resp|]; [|done]. simpl.
  destruct (bucket _ _ _ _ _) as [queues|]; [|done].
  set (s0 := with_routeColours _ _).
  destruct (allocate_frame queues s0) as [_ Hf].
  destruct (allocate queues s0) as [s1 deps]. simpl in *.
  replace (arrays s) with (arrays s1) by exact (f_equal arrays Hf).
  unfold begin_install. rewrite start_platforms_tasks.
  destruct (_ - _); simpl; [by apply prefix_app_r|done].
Qed.

Lemma fulfilled_heads task s :
  (∀ a, task_target task = Installed a → 1 ≤ task_index task) →
  keeps_heads s (fulfilled task s).
Proof.
  intros Hi. trans (store_result task s).
  - unfold store_result. destruct (task_target task) as [plat|a] eqn:Htarget;
      [by apply keeps_heads_prefix|].
    apply keeps_heads_assign. by eapply Hi.
  - apply keeps_heads_prefix. unfold fulfilled.
    repeat case_match; simpl; try done. by apply prefix_app_r.
Qed.

Lemma on_pattern_heads t answer s :
  store_inv s → keeps_heads s (on_pattern STATION t answer s).
Proof.
  intros Hs. unfold on_pattern.
  destruct (mjoin (tasks s !! t)) as [task|] eqn:Ht; [|done].
  destruct (objects s !! task_dep task) as [dep|]; [|done].
  destruct (resume_task _ _ _ _ _) as [[[pending|]|e] dep'];
    [by apply keeps_heads_prefix| |].
  - trans (with_tasks <[t:=None]> (with_objects <[task_dep task:=dep']> s));
      [by apply keeps_heads_prefix|].
    apply fulfilled_heads. intros a Ha.
    destruct (tasks s !! t) as [[task'|]|] eqn:Hlook; simplify_eq/=.
    by destruct (Forall_lookup_1 _ _ _ _ (inv_targets s Hs) Hlook task a eq_refl Ha).
  - destruct (rejected_frame task e
      (with_tasks <[t:=None]> (with_objects <[task_dep task:=dep']> s)))
      as (_ & _ & _ & _ & _ & Harr).
    apply keeps_heads_prefix. by rewrite Harr.
Qed.

Lemma handle_heads e s : store_inv s → keeps_heads s (handle STATION metroLines e s).
Proof.
  destruct e; simpl; auto using tick_heads, on_departures_heads, on_pattern_heads;
    intros _; by apply keeps_heads_prefix.
Qed.

(** The hole of the board is a hole of the array, and back. *)
Lemma head_hole_array s plat :
  store_inv s → head_hole s plat →
  ∃ a rest, departures s !! plat = Some a ∧ arrays s !! a = Some (None :: rest).
Proof.
  intros Hs [slots Hslots]. rewrite board_lookup in Hslots.
  destruct (departures s !! plat) as [a|]; simplify_eq/=. exists a.
  destruct (arrays s !! a) as [[|[r|] rest]|] eqn:Harr; simplify_eq/=; [|by eexists].
  pose proof (Forall_lookup_1 _ _ _ _ (inv_arrays s Hs) Harr) as Hrefs.
  apply Forall_cons in Hrefs as [Hr _]. specialize (Hr r eq_refl).
  destruct (lookup_lt_is_Some_2 (objects s) r Hr) as [d Hd].
  unfold ref, aref in *. congruence.
Qed.

Lemma array_head_hole s plat a rest :
  departures s !! plat = Some a → arrays s !! a = Some (None :: rest) → head_hole s plat.
Proof.
  intros Hplat Harr. unfold head_hole. rewrite board_lookup, Hplat. simpl.
  unfold ref, aref in *. rewrite Harr. by eexists.
Qed.

End heads.

(** ** Theorems *)

Section late_theorems.
Context (STATION : StationValue) (metroLines : gmap string string).
Implicit Types (s : Server) (plat p : string) (a : aref) (t i k : nat) (task : Task).

(** C17. When the answer of an enrichment the minute job started arrives
    after the job has removed [k] departures from the head of the
    platform, the callback's [platform[nextIdx] = result] overwrites the
    departure that has moved to that index: the array, which held every
    departure once, holds the enriched one twice, at [nextIdx - k] and at
    [nextIdx], and the one that was [k] places behind it no more. *)
Theorem answer_after_shift s t task answer plat a arr0 k :
  reachable STATION metroLines s → fulfils STATION s t answer task →
  task_target task = Installed a → departures s !! plat = Some a →
  NoDup arr0 → arr0 !! task_index task = Some (Some (task_dep task)) →
  arrays s !! a = Some (drop k arr0) →
  0 < k ≤ task_index task → task_index task + k < length arr0 →
  let s' := handle STATION metroLines (PatternAnswer t answer) s in
  ∃ lost arr',
    arr0 !! (task_index task + k) = Some lost ∧
    departures s' !! plat = Some a ∧ arrays s' !! a = Some arr' ∧
    arr' = <[task_index task := Some (task_dep task)]> (drop k arr0) ∧
    arr' !! (task_index task - k) = Some (Some (task_dep task)) ∧
    arr' !! task_index task = Some (Some (task_dep task)) ∧
    lost ∉ arr'.
Proof.
  intros Hs Hanswer Htarget Hplat Hnodup Hi Harr Hk Hlen. simpl.
  destruct (on_pattern_late STATION metroLines s t task answer a _ Hs Hanswer Htarget Harr)
    as (Harr' & Hd & _).
  destruct (insert_drop_twice arr0 _ k _ Hnodup Hi Hk Hlen) as (lost & Hlost & H1 & H2 & H3).
  exists lost, (<[task_index task := Some (task_dep task)]> (drop k arr0)).
  split_and!; try done; [by rewrite Hd|].
  rewrite Harr'. unfold array_set. by rewrite decide_True by (rewrite length_drop; lia).
Qed.

(** C23. When the answer arrives after the array has become shorter than
    [nextIdx], the assignment [platform[nextIdx] = result] lengthens the
    array: the enriched departure is at [nextIdx], and the indices from the
    old length up to it are holes, which the read endpoints and the minute
    job see as [undefined]. *)
Theorem answer_leaves_hole s t task answer plat a arr :
  reachable STATION metroLines s → fulfils STATION s t answer task →
  task_target task = Installed a → departures s !! plat = Some a →
  arrays s !! a = Some arr → length arr < task_index task →
  let s' := handle STATION metroLines (PatternAnswer t answer) s in
  ∃ arr' slots,
    arrays s' !! a = Some arr' ∧ board s' !! plat = Some slots ∧
    length arr' = S (task_index task) ∧
    (∀ j, j < length arr → arr' !! j = arr !! j) ∧
    arr' !! task_index task = Some (Some (task_dep task)) ∧
    (∀ j, length arr ≤ j < task_index task → slots !! j = Some None).
Proof.
  intros Hs Hanswer Htarget Hplat Harr Hlen. simpl.
  destruct (on_pattern_late STATION metroLines s t task answer a _ Hs Hanswer Htarget Harr)
    as (Harr' & Hd & _).
  destruct (array_set_past (task_index task) (task_dep task) arr Hlen)
    as (Hlen' & Hold & Hholes & Hnew).
  eexists _, _. split_and!; [done| |done..|].
  - rewrite board_lookup, Hd, Hplat. simpl. unfold ref, aref in *. by rewrite Harr'.
  - intros j Hj. by rewrite list_lookup_fmap, Hholes.
Qed.

(** C18. A hole at the head of a platform's array stays there.  In every
    state the server reaches in which [platform[0]] is [undefined]:
    [GET /departures/:plat/0] throws; whatever turn comes next, the hole is
    still the head after it, unless the turn replaces the board; and when
    the turn is a firing of the minute job, the job throws a [TypeError] at
    [platform[0].time], at that platform or before it, and looks at no
    platform listed after it: none of them is shifted or looked ahead for
    (the process is taken to go on after the throw). *)
Theorem hole_stops_minute_job e s plat :
  reachable STATION metroLines s → head_hole s plat →
  let s' := handle STATION metroLines e s in
  get_index (board s) plat "0" = Err TypeError ∧
  (departures s' = departures s → head_hole s' plat) ∧
  (∀ now before after, e = Minute now (before ++ plat :: after) → plat ∉ before →
     head_hole s' plat ∧ unhandled s' = unhandled s ++ [TypeError] ∧
     ∀ p, p ∉ before → board s' !! p = board s !! p).
Proof.
  intros Hs%reachable_store_inv Hhole. simpl. split_and!.
  - destruct Hhole as [slots Hslots]. unfold get_index. by rewrite Hslots.
  - intros Hd. destruct (head_hole_array s plat Hs Hhole) as (a & rest & Hplat & Harr).
    destruct (handle_heads STATION metroLines e s Hs a rest Harr) as [rest' Harr'].
    apply (array_head_hole _ plat a rest'); [by rewrite Hd|done].
  - intros now before after -> Hbefore. simpl.
    pose proof (λ p, tick_hole now before plat after s p (inv_own s Hs) Hhole Hbefore)
      as Htick.
    destruct (Htick plat Hbefore) as (Hb & _ & Hu).
    split_and!; [unfold head_hole; by rewrite Hb|done|].
    intros p Hp. by destruct (Htick p Hp).
Qed.

End late_theorems.

(** ** Witnesses *)

(** The answer for D arrives after A has been removed
    ([Scenarios.duplicate_run]): E is lost, D is at indices 2 and 3. *)
Lemma answer_after_shift_witness :
  ∃ lost arr',
    (Some <$> [0; 1; 2; 3; 4]) !! (3 + 1) = Some lost ∧
    departures (handle FOOTSCRAY demo_lines (PatternAnswer 4 (Ok (direct "D"))) shifted)
      !! "1" = Some 0 ∧
    arrays (handle FOOTSCRAY demo_lines (PatternAnswer 4 (Ok (direct "D"))) shifted)
      !! 0 = Some arr' ∧
    arr' = <[3 := Some 3]> (drop 1 (Some <$> [0; 1; 2; 3; 4])) ∧
    arr' !! (3 - 1) = Some (Some 3) ∧ arr' !! 3 = Some (Some 3) ∧ lost ∉ arr'.
Proof.
  apply (answer_after_shift FOOTSCRAY demo_lines shifted 4
           (mkTask 3 0 "D" None (Installed 0) 3 1 (Some (0, "1")))
           (Ok (direct "D")) "1" 0 (Some <$> [0; 1; 2; 3; 4]) 1).
  - reach.
  - split; [by vm_compute|]. eexists. split; by vm_compute.
  - done.
  - by vm_compute.
  - apply (bool_decide_unpack _). by vm_compute.
  - done.
  - by vm_compute.
  - simpl. lia.
  - simpl. lia.
Defined.

(** The answer for D arrives after A and B have been removed from an
    array of four ([Scenarios.hole_run]). *)
Lemma answer_leaves_hole_witness :
  ∃ arr' slots,
    arrays (handle FOOTSCRAY demo_lines (PatternAnswer 3 (Ok (direct "D"))) twice_shifted)
      !! 0 = Some arr' ∧
    board (handle FOOTSCRAY demo_lines (PatternAnswer 3 (Ok (direct "D"))) twice_shifted)
      !! "1" = Some slots ∧
    length arr' = 4 ∧
    (∀ j, j < length [Some 2; Some 3] → arr' !! j = [Some 2; Some 3] !! j) ∧
    arr' !! 3 = Some (Some 3) ∧
    (∀ j, length [Some 2; Some 3] ≤ j < 3 → slots !! j = Some None).
Proof.
  apply (answer_leaves_hole FOOTSCRAY demo_lines twice_shifted 3
           (mkTask 3 0 "D" None (Installed 0) 3 1 (Some (0, "1")))
           (Ok (direct "D")) "1" 0 [Some 2; Some 3]).
  - reach.
  - split; [by vm_compute|]. eexists. split; by vm_compute.
  - done.
  - by vm_compute.
  - by vm_compute.
  - simpl. lia.
Defined.

(** The hole has become the head of platform 1: the next firing of the
    minute job throws, and the platform stays as it is. *)
Lemma hole_stops_minute_job_witness :
  let s' := handle FOOTSCRAY demo_lines (Minute 370000 ["1"]) stuck in
  get_index (board stuck) "1" "0" = Err TypeError ∧
  (departures s' = departures stuck → head_hole s' "1") ∧
  (∀ now before after, Minute 370000 ["1"] = Minute now (before ++ "1" :: after) →
     "1" ∉ before →
     head_hole s' "1" ∧ unhandled s' = unhandled stuck ++ [TypeError] ∧
     ∀ p, p ∉ before → board s' !! p = board stuck !! p).
Proof.
  apply (hole_stops_minute_job FOOTSCRAY demo_lines (Minute 370000 ["1"]) stuck "1").
  - reach.
  - eexists. by vm_compute.
Defined.

Example stuck_platform :
  runs_on "1" stuck = [None; Some "D"] ∧ unhandled stuck = [] ∧
  runs_on "1" (demo (minutes ["1"] [370000; 430000]%Z) stuck) = [None; Some "D"].
Proof. by vm_compute. Qed.
