(* ===== verification/Shape.v ===== *)
(** * Shape: the properties of a departure object come in order

    [fetchDepartureDetails] assigns [dep.stations], then [dep.dest], then
    [dep.subtitle], with an [await] and several reads that can throw in
    between, and the object is on the board all the while.  This file shows
    that in every state of the server every departure object is in one of
    four shapes: as [fetchDepartures] created it, with [stations], with
    [stations] and [dest], or with all three ([objects_shaped]).  A
    departure that has a subtitle has its destination and its stops, which
    is what the page reads first. *)

From S2P Require Import Prelude JsString Model Refresh Pattern Names Classifier Resolver Query Server Board Progress.

(** ** Definitions *)

(** The object as [fetchDepartures] creates it. *)
Definition raw (d : Departure) : Prop :=
  dep_stations d = None ∧ dep_dest d = None ∧ dep_subtitle d = None.

(** [subtitle] only with [dest], [dest] only with [stations]. *)
Definition shaped (d : Departure) : Prop :=
  (is_Some (dep_subtitle d) → is_Some (dep_dest d)) ∧
  (is_Some (dep_dest d) → is_Some (dep_stations d)).

(** [stations] and [dest] are assigned: the object of a call that has
    passed its first [await]. *)
Definition begun (d : Departure) : Prop :=
  is_Some (dep_stations d) ∧ is_Some (dep_dest d).

Definition keeps_begun (d d' : Departure) : Prop := begun d → begun d'.

(** The object of a call suspended at its second [await] is there, with
    [stations] and [dest]. *)
Definition await_begun (objs : list Departure) (x : option Task) : Prop :=
  ∀ task, x = Some task → is_Some (task_await task) →
    ∃ d, objs !! task_dep task = Some d ∧ begun d.

Record shape_inv (s : Server) : Prop := mkShapeInv {
  inv_shaped : Forall shaped (objects s);
  inv_begun : Forall (await_begun (objects s)) (tasks s);
}.

(** What putting requests in flight changes: calls at their first
    [await]. *)
Definition begins (s s' : Server) : Prop :=
  objects s' = objects s ∧
  ∃ new, tasks s' = tasks s ++ new ∧
    Forall (λ x, ∀ task, x = Some task → task_await task = None) new.

(** ** Lemmas: one call *)

Section call.
Context (STATION : StationValue).
Implicit Types (d : Departure) (o : Outcome).

Lemma raw_shaped d : raw d → shaped d.
Proof. intros (_ & Hd & Hs). split; rewrite ?Hd, ?Hs; by intros []. Qed.

Lemma begun_shaped d : begun d → shaped d.
Proof. intros [? ?]. by split. Qed.

#[export] Instance keeps_begun_preorder : PreOrder keeps_begun.
Proof. split; [by intros d Hd|]. intros d1 d2 d3 H12 H23 H1. by apply H23, H12. Qed.

Lemma grows_begun d d' : grows d d' → begun d → begun d'.
Proof. intros (_ & Hst & Hd & _) [? ?]. split; auto. Qed.

Lemma set_stations_shaped l d : shaped d → shaped (set_stations l d).
Proof. intros [Hs Hd]. split; simpl; [done|by eexists]. Qed.

Lemma apply_outcome_shaped o d : shaped d → shaped (apply_outcome o d).2.
Proof.
  intros Hd. destruct o; simpl; [done|by apply set_stations_shaped|..];
    apply begun_shaped; by split; eexists.
Qed.

(** From the first answer on. *)
Lemma details_begin_shape first d :
  shaped d →
  shaped (details_begin STATION first d).2 ∧
  ∀ k, (details_begin STATION first d).1 = Ok (Some k) →
    begun (details_begin STATION first d).2.
Proof.
  intros Hd. rewrite details_begin_spec. destruct first as [result|e]; [|done].
  destruct (res_run result) as [r|]; simpl; [|by split; [apply set_stations_shaped|]].
  destruct (if wants_extension _ _ _ then _ else _) as [dist|]; simpl.
  - assert (begun (set_dest (dist_destination_name dist)
                     (set_stations (res_stations result) d))) by (by split; eexists).
    split; [by apply begun_shaped|done].
  - split; [by apply apply_outcome_shaped|].
    intros k. by destruct (apply_outcome _ d).1.
Qed.

(** From the second answer on. *)
Lemma details_resume_begun colours k second d :
  begun d → begun (details_resume STATION colours k second d).2.
Proof.
  apply (details_resume_keeps STATION keeps_begun); intros ? d' [? ?]; by split.
Qed.

Lemma resume_task_shape colours task answer d :
  shaped d → (is_Some (task_await task) → begun d) →
  shaped (resume_task STATION colours task answer d).2 ∧
  ∀ k, (resume_task STATION colours task answer d).1 = Ok (Some k) →
    begun (resume_task STATION colours task answer d).2.
Proof.
  intros Hd Hawait. unfold resume_task. destruct (task_await task) as [k|].
  - pose proof (details_resume_begun colours k
      (answer ≫= λ resp, pattern_result STATION resp (task_run task)
                           (bool_decide (is_Some (Some k)))) d (Hawait (mk_is_Some _ _ eq_refl))).
    destruct (details_resume _ _ _ _ _) as [[[]|e] d']; simpl in *;
      (split; [by apply begun_shaped|done]).
  - apply details_begin_shape, Hd.
Qed.

End call.

(** ** Lemmas: the handlers keep the shapes *)

Section handlers.
Context (STATION : StationValue) (metroLines : gmap string string).
Implicit Types (s : Server) (t b n : nat) (r : ref) (task : Task) (d : Departure).

Lemma await_begun_mono objs objs' x :
  objs `prefix_of` objs' → await_begun objs x → await_begun objs' x.
Proof.
  intros [more ->] Hx task Htask Hawait. destruct (Hx task Htask Hawait) as (d & Hd & ?).
  exists d. split; [by apply lookup_app_l_Some|done].
Qed.

(** The invariant reads the objects and the tasks. *)
Lemma shape_inv_ext s s' :
  objects s' = objects s → tasks s' = tasks s → shape_inv s → shape_inv s'.
Proof. intros Ho Ht []. split; by rewrite Ho, ?Ht. Qed.

#[export] Instance begins_preorder : PreOrder begins.
Proof.
  split.
  - intros s. split; [done|]. exists []. by rewrite app_nil_r.
  - intros s1 s2 s3 (Ho1 & new1 & Ht1 & Hn1) (Ho2 & new2 & Ht2 & Hn2).
    split; [congruence|]. exists (new1 ++ new2).
    rewrite Ht2, Ht1, app_assoc. split; [done|]. by apply Forall_app.
Qed.

Lemma start_details_begins r target i b slot s :
  begins s (start_details r target i b slot s).
Proof.
  unfold start_details. destruct (objects s !! r) as [d|]; [|done].
  split; [done|]. eexists. split; [done|]. apply Forall_singleton. by intros task [= <-].
Qed.

Lemma tick_begins now order s : begins s (tick now order s).
Proof.
  assert (∀ b plat n, eff_keeps begins (tick_platform now b plat n)) as Hplatform.
  { intros b plat n. unfold tick_platform. pose proof start_details_begins. keeps.
    intros s'. split; [done|]. exists []. by rewrite app_nil_r. }
  assert (∀ b order n, eff_keeps begins (tick_loop now b order n)) as Hloop.
  { intros b l. induction l as [|plat rest IH]; intros n; simpl; [by intros ?|]. keeps. }
  unfold tick. specialize (Hloop (length (batches s)) order 0 s).
  by destruct (tick_loop _ _ _ _ s) as [[[|n]|e] s'].
Qed.

Lemma shape_inv_begins s s' : begins s s' → shape_inv s → shape_inv s'.
Proof.
  intros (Ho & new & Ht & Hnew) []. split; rewrite Ho, ?Ht; [done|].
  apply Forall_app. split; [done|]. eapply Forall_impl; [done|].
  intros x Hx task Htask [k Hk]. by rewrite (Hx task Htask) in Hk.
Qed.

(** The objects [fetchDepartures] creates have none of the three
    properties. *)
Lemma depData_raw respRuns colours dep d : depData respRuns colours dep = Ok d → raw d.
Proof.
  unfold depData. destruct (respRuns !! sch_run_ref dep); simpl; [|done]. by intros [= <-].
Qed.

Lemma bucket_raw respRuns colours now l deps deps' :
  map_Forall (λ _, Forall raw) deps →
  bucket respRuns colours now l deps = Ok deps' → map_Forall (λ _, Forall raw) deps'.
Proof.
  revert deps; induction l as [|dep l IH]; intros deps Hdeps; simpl; [by intros [= <-]|].
  destruct (is_past now dep); [by apply IH|].
  destruct (depData respRuns colours dep) as [d|] eqn:Hd; simpl; [|done].
  apply IH, map_Forall_insert_2; [|done]. apply Forall_app. split.
  - destruct (deps !! platform_number dep) as [q|] eqn:Hq; [by eapply Hdeps|done].
  - apply Forall_singleton. by eapply depData_raw.
Qed.

Lemma allocate_shaped queues s :
  map_Forall (λ _, Forall raw) queues → Forall shaped (objects s) →
  Forall shaped (objects (allocate queues s).1).
Proof.
  intros Hqueues%map_Forall_to_list Hs. unfold allocate. revert Hqueues.
  generalize (∅ : gmap string (list (option ref))). revert s Hs.
  induction (map_to_list queues) as [|[plat q] l IH]; intros s Hs deps Hl; simpl; [done|].
  apply Forall_cons in Hl as [Hq Hl]. apply IH; [|done]. simpl.
  apply Forall_app. split; [done|]. eapply Forall_impl; [exact Hq|]. apply raw_shaped.
Qed.

Lemma shape_inv_on_departures answer now s :
  shape_inv s → shape_inv (on_departures metroLines answer now s).
Proof.
  intros Hs. unfold on_departures. destruct (fetching s); [done|].
  destruct answer as [resp|]; [|by apply (shape_inv_ext s)]. simpl.
  destruct (bucket _ _ _ _ _) as [queues|] eqn:Hqueues; [|by apply (shape_inv_ext s)].
  apply bucket_raw in Hqueues; [|apply map_Forall_empty].
  set (s0 := with_routeColours _ _).
  pose proof (allocate_frame queues s0) as [Hpre Hf].
  pose proof (allocate_shaped queues s0 Hqueues (inv_shaped s Hs)) as Hshaped.
  destruct (allocate queues s0) as [s1 deps]. simpl in *.
  assert (shape_inv s1) as Hs1.
  { split; [done|]. replace (tasks s1) with (tasks s) by exact (eq_sym (f_equal tasks Hf)).
    eapply Forall_impl; [exact (inv_begun s Hs)|]. intros x. by apply await_begun_mono. }
  unfold begin_install. rewrite start_platforms_tasks.
  set (new := map_to_list deps ≫= _).
  assert (shape_inv (with_tasks (λ l, l ++ new) s1)) as Hnew.
  { apply (shape_inv_begins s1); [|done]. split; [done|]. exists new. split; [done|].
    apply Forall_forall. intros x ([plat arr] & Hx & _)%list_elem_of_bind.
    apply new_for_elem in Hx as (i & r & d & _ & _ & _ & ->). by intros task [= <-]. }
  destruct (_ - _); by apply (shape_inv_ext (with_tasks (λ l, l ++ new) s1)).
Qed.

Lemma shape_inv_on_pattern t answer s :
  shape_inv s → shape_inv (on_pattern STATION t answer s).
Proof.
  intros Hs. destruct (mjoin (tasks s !! t)) as [task|] eqn:Ht;
    [|by rewrite on_pattern_idle].
  destruct (objects s !! task_dep task) as [dep|] eqn:Hdep;
    [|unfold on_pattern; by rewrite Ht, Hdep].
  destruct (on_pattern_step STATION t answer s task dep Ht Hdep) as (Ho & Hts & _).
  assert (tasks s !! t = Some (Some task)) as Hlook
    by (by destruct (tasks s !! t) as [[]|]; simplify_eq/=).
  pose proof (resume_task_grows STATION (routeColours s) task answer dep) as Hgrows.
  destruct (resume_task_shape STATION (routeColours s) task answer dep) as [Hshaped Hnext].
  { exact (Forall_lookup_1 _ _ _ _ (inv_shaped s Hs) Hdep). }
  { intros Hawait.
    destruct (Forall_lookup_1 _ _ _ _ (inv_begun s Hs) Hlook task eq_refl Hawait)
      as (d & Hd & ?). by simplify_eq. }
  pose proof (lookup_lt_Some _ _ _ Hdep) as Hlt.
  assert (∀ x, await_begun (objects s) x →
            await_begun (<[task_dep task := (resume_task STATION (routeColours s) task
                                               answer dep).2]> (objects s)) x) as Hkeep.
  { intros x Hx task' Htask' Hawait. destruct (Hx task' Htask' Hawait) as (d & Hd & Hb).
    destruct (decide (task_dep task' = task_dep task)) as [Heq|Hne].
    - rewrite Heq in *. eexists. split; [by apply list_lookup_insert_eq|].
      simplify_eq. by eapply grows_begun.
    - exists d. by rewrite list_lookup_insert_ne. }
  split; rewrite Ho, ?Hts.
  - apply Forall_insert; [exact (inv_shaped s Hs)|done].
  - apply Forall_insert; [eapply Forall_impl; [exact (inv_begun s Hs)|done]|].
    destruct (resume_task _ _ _ _ _).1 as [[k|]|e] eqn:Hres; [|done..].
    intros ? [= <-] _. eexists. split; [by apply list_lookup_insert_eq|]. by eapply Hnext.
Qed.

Lemma shape_inv_handle e s : shape_inv s → shape_inv (handle STATION metroLines e s).
Proof.
  destruct e; simpl; auto using shape_inv_on_departures, shape_inv_on_pattern.
  - by apply shape_inv_ext.
  - by apply shape_inv_ext.
  - apply shape_inv_begins, tick_begins.
Qed.

Lemma reachable_shape_inv s : reachable STATION metroLines s → shape_inv s.
Proof.
  induction 1; [|by apply shape_inv_handle]. split; simpl; by constructor.
Qed.

End handlers.

(** ** Theorems *)

Section shape_theorems.
Context (STATION : StationValue) (metroLines : gmap string string).

(** C20. In every state the server reaches, every departure object has its
    properties in the order [fetchDepartureDetails] assigns them: one that
    has a [subtitle] has a [dest], and one that has a [dest] has
    [stations], whatever has thrown or is still awaited; and the object of
    a call that waits for its second answer has [stations] and [dest]. *)
Theorem objects_shaped s :
  reachable STATION metroLines s →
  (∀ r d, objects s !! r = Some d →
     (is_Some (dep_subtitle d) → is_Some (dep_dest d)) ∧
     (is_Some (dep_dest d) → is_Some (dep_stations d))) ∧
  (∀ t task d, tasks s !! t = Some (Some task) → is_Some (task_await task) →
     objects s !! task_dep task = Some d →
     is_Some (dep_stations d) ∧ is_Some (dep_dest d)).
Proof.
  intros [Hshaped Hbegun]%reachable_shape_inv. split.
  - intros r d Hd. exact (Forall_lookup_1 _ _ _ _ Hshaped Hd).
  - intros t task d Ht Hawait Hd.
    destruct (Forall_lookup_1 _ _ _ _ Hbegun Ht task eq_refl Hawait) as (d' & Hd' & ?).
    by simplify_eq.
Qed.

End shape_theorems.

(** ** Witnesses *)

(** Run 103 between its two answers: its object has the stops and the
    destination, and no subtitle. *)
Lemma objects_shaped_witness :
  (∀ r d, objects (demo_answers [3] demo_fetched) !! r = Some d →
     (is_Some (dep_subtitle d) → is_Some (dep_dest d)) ∧
     (is_Some (dep_dest d) → is_Some (dep_stations d))) ∧
  (∀ t task d, tasks (demo_answers [3] demo_fetched) !! t = Some (Some task) →
     is_Some (task_await task) →
     objects (demo_answers [3] demo_fetched) !! task_dep task = Some d →
     is_Some (dep_stations d) ∧ is_Some (dep_dest d)).
Proof. apply (objects_shaped FOOTSCRAY demo_lines). reach. Defined.

Example half_done_103 :
  (λ d, (dep_run d, length <$> dep_stations d, dep_dest d, dep_subtitle d))
    <$> objects (demo_answers [3] demo_fetched) !! 5
  = Some ("103", Some 4, Some "Frankston", None).
Proof. by vm_compute. Qed.
