(* ===== verification/Client.v ===== *)
(** * Client: the display page, [src/static/assets/js/pid.js]

    The page keeps [pidData], the services it knows of for its platform,
    and writes them into the document.  It is event driven like the server:
    a turn is a firing of [setInterval(updateClock, 1000)], a WebSocket
    message, or the answer to one of its two requests ([fetchData]'s
    [GET departures/PLATFORM] and [updateClock]'s
    [GET departures/PLATFORM/after/run]).

    - [printTime] formats a time of day; [getHours] and its siblings are
      those of a [Date] in a zone at a fixed offset from UTC.
    - The document is a [Dom]: what has been assigned to [innerText], to
      the [class] attribute and to [innerHTML] of each element, by id.
      [updateInfo] is a computation of [Eff Dom]: what it has written when
      it throws on a service without [stations] stays written.
    - [columns] is the layout loop of [updateInfo]: up to four columns of
      seven or eight stops, the last but one cell being [Continues to] when
      the stops do not fit.
    - [updateClock] calls itself after it has removed a past service.  The
      model takes fuel; [updateClock_total] shows that one more than the
      length of [pidData] is enough, and [clock] is the function with that
      much.
    - A [Display] is the state of the page, [react] one turn of it,
      [displays] the states it reaches. *)

From stdpp Require Import pretty.
From S2P Require Import Prelude JsString Model Query Server.

(** ** Definitions *)

(** *** The document *)

(** What the page has assigned to the elements of the document. *)
Record Dom : Type := mkDom {
  dom_text : gmap string string;
  dom_class : gmap string string;
  dom_html : gmap string string;
}.

#[export] Instance Dom_eq_dec : EqDecision Dom.
Proof. solve_decision. Defined.

(** [document.getElementById(id).innerText = v] *)
Definition set_text (id v : string) : Eff Dom unit :=
  eff_modify (λ d, mkDom (<[id := v]> (dom_text d)) (dom_class d) (dom_html d)).

(** [document.getElementById(id).setAttribute('class', v)] *)
Definition set_class (id v : string) : Eff Dom unit :=
  eff_modify (λ d, mkDom (dom_text d) (<[id := v]> (dom_class d)) (dom_html d)).

(** [document.getElementById(id).innerHTML = v] *)
Definition set_html (id v : string) : Eff Dom unit :=
  eff_modify (λ d, mkDom (dom_text d) (dom_class d) (<[id := v]> (dom_html d))).

(** A property that may be missing, as a string: [undefined] in a template
    literal or assigned to [innerText] reads [undefined]. *)
Definition js_text (o : option string) : string := default "undefined" o.

(** The double quote. *)
Definition dquote : string := String "034"%char "".

(** What [axios.get] settles with: the body of a 2xx answer, or an error
    with its [status], if it has one. *)
Inductive Http (A : Type) : Type :=
| Http200 (body : A)
| HttpError (status : option Z).
Arguments Http200 {A} body.
Arguments HttpError {A} status.

(** The answer of a read endpoint of the server as [axios] gives it. *)
Definition http_of {A} (r : result (Reply A)) : Http A :=
  match r with
  | Ok (Status200 body) => Http200 body
  | Ok Status404 => HttpError (Some 404%Z)
  | Err _ => HttpError (Some 500%Z)
  end.

(** *** [printTime] *)

(** [s.padStart(n, c)] *)
Definition padStart (n : nat) (c : ascii) (s : string) : string :=
  string_of_list_ascii (replicate (n - String.length s) c) +:+ s.

Section clock.
(** The offset of the display's zone from UTC, in minutes. *)
Context (zone : Z).

Definition local_time (time : Z) : Z := (time + zone * 60000)%Z.

(** [time.getHours()], [time.getMinutes()], [time.getSeconds()] *)
Definition getHours (time : Z) : Z := ((local_time time / 3600000) mod 24)%Z.
Definition getMinutes (time : Z) : Z := ((local_time time / 60000) mod 60)%Z.
Definition getSeconds (time : Z) : Z := ((local_time time / 1000) mod 60)%Z.

Definition printTime (time : Z) (sec : bool) : string :=
  let hr12 := (getHours time mod 12)%Z in
  let hr12 := if bool_decide (hr12 = 0)%Z then 12%Z else hr12 in
  let ampm := if bool_decide (12 ≤ getHours time)%Z then "pm" else "am" in
  let timeStr := pretty hr12 +:+ ":" +:+ padStart 2 "0" (pretty (getMinutes time)) in
  let timeStr :=
    if sec then timeStr +:+ ":" +:+ padStart 2 "0" (pretty (getSeconds time))
    else timeStr in
  timeStr +:+ " " +:+ ampm.

(** [printTime(time, false).replaceAll(' ', '')] *)
Definition time_text (time : Z) : string := replace_all " " "" (printTime time false).

(** *** The services of [pidData] *)

(** A service as the server sent it, with the property [timeText] the page
    adds. *)
Record Item : Type := mkItem {
  item : Service;
  timeText : string;
}.

#[export] Instance Item_eq_dec : EqDecision Item.
Proof. solve_decision. Defined.

(** [service.timeText = printTime(service.time, false).replaceAll(' ', '')] *)
Definition with_timeText (service : Service) : Item :=
  mkItem service (time_text (sv_time service)).

(** [service.time - Date.now() < (4 * 60 + 1) * 60 * 1000] *)
Definition in_window (now : Z) (x : Item) : Prop :=
  (sv_time (item x) - now < (4 * 60 + 1) * 60 * 1000)%Z.

#[export] Instance in_window_dec now x : Decision (in_window now x).
Proof. unfold in_window. apply _. Defined.

(** *** [updateInfo]: the layout of the stops *)

Definition li (st : Stop) : string :=
  "<li class='" +:+ (if st_skipped st then "skipped" else "") +:+ "'><span>"
    +:+ st_name st +:+ "</span></li>".

Definition li_continue : string := "<li class='continue'><span>Continues to</span></li>".

Definition li_last (st : Stop) : string := "<li><span>" +:+ st_name st +:+ "</span></li>".

(** The inner loop, over the indices [col * rows + row] of one column; it
    ends at the first index that is not below [stations.length]. *)
Fixpoint fill_column (stations : list Stop) (rows : nat) (indices : list nat) : string :=
  match indices with
  | [] => ""
  | i :: rest =>
      match stations !! i with
      | None => ""
      | Some st =>
          if bool_decide (i = 4 * rows - 2 ∧ rows * 4 < length stations)
          then li_continue +:+ li_last (default st (last stations))
          else li st +:+ fill_column stations rows rest
      end
  end.

(** The outer loop; [col < stations.length / rows] is [col * rows <
    stations.length], the division being the one of numbers. *)
Fixpoint fill_columns (stations : list Stop) (rows : nat) (cols : list nat) : list string :=
  match cols with
  | [] => []
  | col :: rest =>
      if bool_decide (col * rows < length stations)
      then fill_column stations rows (seq (col * rows) rows)
             :: fill_columns stations rows rest
      else []
  end.

Definition rows_of (stations : list Stop) : nat :=
  if bool_decide (28 < length stations) then 8 else 7.

Definition columns (stations : list Stop) : list string :=
  fill_columns stations (rows_of stations) (seq 0 4).

Definition stations_html (columns : list string) : string :=
  foldl (λ html col,
           html +:+ "<ul><div class=" +:+ dquote +:+ "start" +:+ dquote +:+ "></div>"
             +:+ col +:+ "<div class=" +:+ dquote +:+ "end" +:+ dquote +:+ "></div></ul>")
    "" columns.

(** One iteration of the loop over the next services panel. *)
Definition next_service (data : list Item) (i : nat) : Eff Dom unit :=
  let n := pretty i in
  match data !! i with
  | None =>
      set_class ("next-service-" +:+ n) "next-service empty" ;;
      set_text ("ns" +:+ n +:+ "-time") "" ;;
      set_text ("ns" +:+ n +:+ "-dest") "--" ;;
      set_text ("ns" +:+ n +:+ "-eta") "-- min" ;;
      set_text ("ns" +:+ n +:+ "-subtitle") "--"
  | Some x =>
      set_class ("next-service-" +:+ n) ("next-service " +:+ js_text (sv_group (item x))) ;;
      set_text ("ns" +:+ n +:+ "-time") (timeText x) ;;
      set_text ("ns" +:+ n +:+ "-dest") (js_text (sv_dest (item x))) ;;
      set_text ("ns" +:+ n +:+ "-subtitle") (js_text (sv_subtitle (item x)))
  end%eff.

(** [updateInfo(data)]; [now] is what [Date.now()] returns.  Reading
    [stations.length] of a service without [stations] throws. *)
Definition updateInfo (now : Z) (data : list Item) : Eff Dom unit :=
  let data := filter (in_window now) data in
  match data with
  | [] =>
      set_class "main" "announcement" ;;
      set_text "announcement" "No trains departing from this platform"
  | first :: _ =>
      set_class "main" (js_text (sv_group (item first))) ;;
      set_text "time" (timeText first) ;;
      set_text "dest" (js_text (sv_dest (item first))) ;;
      set_text "subtitle" (js_text (sv_subtitle (item first))) ;;
      stations <- eff_lift (required (sv_stations (item first))) ;;
      set_html "stations" (stations_html (columns stations)) ;;
      next_service data 1 ;;
      next_service data 2
  end%eff.

(** *** The page *)

(** The state of the page: [pidData], the document, the number of
    [fetchData] requests in flight, the calls of [updateClock] that wait for
    the service after a run (by request number, [None] once answered), and
    the rejections nothing handles. *)
Record Display : Type := mkDisplay {
  pidData : list Item;
  dom : Dom;
  fetches : nat;
  afters : list (option string);
  uncaught : list error;
}.

Definition loaded : Display := mkDisplay [] (mkDom ∅ ∅ ∅) 0 [] [].

Definition with_pidData (f : list Item → list Item) (c : Display) : Display :=
  mkDisplay (f (pidData c)) (dom c) (fetches c) (afters c) (uncaught c).
Definition with_dom (f : Dom → Dom) (c : Display) : Display :=
  mkDisplay (pidData c) (f (dom c)) (fetches c) (afters c) (uncaught c).
Definition with_fetches (f : nat → nat) (c : Display) : Display :=
  mkDisplay (pidData c) (dom c) (f (fetches c)) (afters c) (uncaught c).
Definition with_afters (f : list (option string) → list (option string)) (c : Display)
    : Display :=
  mkDisplay (pidData c) (dom c) (fetches c) (f (afters c)) (uncaught c).
Definition with_uncaught (f : list error → list error) (c : Display) : Display :=
  mkDisplay (pidData c) (dom c) (fetches c) (afters c) (f (uncaught c)).

(** Writes to the document that cannot throw. *)
Definition write (m : Eff Dom unit) (c : Display) : Display :=
  with_dom (λ d, (m d).2) c.

(** [updateInfo(pidData)] in an [async] function or a promise callback:
    when it throws, the promise is rejected and nothing handles that;
    [false] says so. *)
Definition show (now : Z) (c : Display) : bool * Display :=
  match updateInfo now (pidData c) (dom c) with
  | (Ok _, d) => (true, with_dom (λ _, d) c)
  | (Err e, d) => (false, with_uncaught (λ l, l ++ [e]) (with_dom (λ _, d) c))
  end.

(** [updateInfo(pidData); updateClock(); return;] *)
Definition refresh (again : Display → option Display) (now : Z) (c : Display)
    : option Display :=
  match show now c with
  | (true, c) => again c
  | (false, c) => Some c
  end.

(** The text of the countdown of a service due in [eta] milliseconds, and
    what else is written when it is due. *)
Definition countdown (i : nat) (eta : Z) : Eff Dom unit :=
  let id := (if bool_decide (0 < i) then "ns" +:+ pretty i +:+ "-" else "") +:+ "eta" in
  (if bool_decide (eta ≤ 0)%Z then
     let secs := (- eta / 1000)%Z in
     (if bool_decide (secs = 15)%Z then set_class "depart-bar" ""
      else if bool_decide (secs = 30)%Z then
        set_class "main" "announcement" ;;
        set_text "announcement" "Stand Clear Train Departing"
      else eff_ret tt) ;;
     set_text id "NOW"
   else set_text id (pretty (- (- eta / 60000))%Z +:+ " min"))%eff.

(** The loop of [updateClock] over the first three services in the window;
    [again] is the call of [updateClock] at its end.  At a service a minute
    past, the head of [pidData] is removed; with fewer than three left the
    service after the last one is requested and the call waits for it
    (with none left, reading [run] of [undefined] throws inside the [try],
    and the call goes on). *)
Fixpoint clock_loop (again : Display → option Display) (now : Z)
    (entries : list (nat * Item)) (c : Display) : option Display :=
  match entries with
  | [] => Some c
  | (i, x) :: rest =>
      let eta := (sv_time (item x) - now)%Z in
      if bool_decide (eta ≤ -60000)%Z then
        let c := with_pidData tail (write (set_class "depart-bar" "inactive") c) in
        if bool_decide (length (pidData c) < 3) then
          match last (pidData c) with
          | Some l => Some (with_afters (λ rs, rs ++ [Some (sv_run (item l))]) c)
          | None => refresh again now c
          end
        else refresh again now c
      else clock_loop again now rest (write (countdown i eta) c)
  end.

(** [updateClock()] up to its [await] or its end. *)
Fixpoint updateClock (fuel : nat) (now : Z) (c : Display) : option Display :=
  match fuel with
  | 0 => None
  | S fuel =>
      let c := write (set_text "clock" (printTime now true)) c in
      let data := filter (in_window now) (pidData c) in
      clock_loop (updateClock fuel now) now (imap pair (take 3 data)) c
  end.

(** [updateClock] with the fuel it needs. *)
Definition clock (now : Z) (c : Display) : Display :=
  default c (updateClock (S (length (pidData c))) now c).

(** *** The turns of the page *)

(** The loop [for (let serv in pidData)] of the [append] handler: [serv]
    is a key of the array, a string, whose [type] and [run] are
    [undefined]; [undefined == x] holds for no number and no string. *)
Definition is_duplicate (keys : list string) (servNew : Service) : bool :=
  existsb (λ serv : string,
             let serv_type : option Z := None in
             let serv_run : option string := None in
             bool_decide (serv_type = Some (sv_type servNew))
             && bool_decide (serv_run = Some (sv_run servNew)))
    keys.

(** [ws.onmessage] *)
Definition onmessage (m : Message) (c : Display) : Display :=
  match m with
  | CmdAppend servNew =>
      if is_duplicate (pretty <$> seq 0 (length (pidData c))) servNew then c
      else with_pidData (λ l, l ++ [with_timeText servNew]) c
  | CmdRefresh => with_fetches S c
  end.

(** The [then], [catch] and [finally] callbacks of [fetchData]. *)
Definition fetchData (answer : Http (list Service)) (now : Z) (c : Display) : Display :=
  let '(data, rethrown) :=
    match answer with
    | Http200 data => (with_timeText <$> data, false)
    | HttpError status =>
        if bool_decide (status = Some 404%Z) then ([], false)
        else ((λ dep, with_timeText (item dep)) <$> pidData c, true)
    end in
  match show now (with_pidData (λ _, data) c) with
  | (true, c) =>
      let c := clock now c in
      if rethrown then with_uncaught (λ l, l ++ [FetchFailed]) c else c
  | (false, c) => c
  end.

(** [updateClock] from its [await] on. *)
Definition after_answer (k : nat) (answer : Http Service) (now : Z) (c : Display)
    : Display :=
  match mjoin (afters c !! k) with
  | None => c
  | Some _ =>
      let c := with_afters (<[k := None]>) c in
      let c :=
        match answer with
        | Http200 service => with_pidData (λ l, l ++ [with_timeText service]) c
        | HttpError _ => c
        end in
      match show now c with
      | (true, c) => clock now c
      | (false, c) => c
      end
  end.

Inductive Input : Type :=
| Interval (now : Z)
| WsMessage (m : Message)
| FetchAnswer (answer : Http (list Service)) (now : Z)
| AfterAnswer (k : nat) (answer : Http Service) (now : Z).

Definition react (i : Input) (c : Display) : Display :=
  match i with
  | Interval now => clock now c
  | WsMessage m => onmessage m c
  | FetchAnswer answer now =>
      match fetches c with
      | 0 => c
      | S n => fetchData answer now (with_fetches (λ _, n) c)
      end
  | AfterAnswer k answer now => after_answer k answer now c
  end.

(** The states of the page. *)
Inductive displays : Display → Prop :=
| displays_loaded : displays loaded
| displays_react c i : displays c → displays (react i c).

Definition play (inputs : list Input) (c : Display) : Display :=
  foldl (λ c i, react i c) c inputs.

(** The services a turn brings to the page. *)
Definition carried (i : Input) : list Service :=
  match i with
  | WsMessage (CmdAppend data) => [data]
  | FetchAnswer (Http200 data) _ => data
  | AfterAnswer _ (Http200 service) _ => [service]
  | _ => []
  end.

(** *** What the theorems are about *)

(** The service has the [timeText] of its [time]. *)
Definition timed (x : Item) : Prop := timeText x = time_text (sv_time (item x)).

End clock.

(** What a call of [updateClock] may change besides the document: it
    removes services from the front of [pidData], sends requests and
    leaves rejections. *)
Definition clocked (c c' : Display) : Prop :=
  pidData c' `suffix_of` pidData c ∧ fetches c' = fetches c ∧
  afters c `prefix_of` afters c' ∧ uncaught c `prefix_of` uncaught c'.

(** None of the first three services in the window is a minute past. *)
Definition none_past (now : Z) (c : Display) : Prop :=
  Forall (λ x, ¬ (sv_time (item x) - now ≤ -60000)%Z)
    (take 3 (filter (in_window now) (pidData c))).

(** A call that has sent no request and thrown nothing has left no
    service a minute past among the first three. *)
Definition settles (now : Z) (again : Display → option Display) : Prop :=
  ∀ c1 c2, again c1 = Some c2 →
    afters c2 = afters c1 → uncaught c2 = uncaught c1 → none_past now c2.

(** The cells of the stops panel: one for each stop, or, when there are
    more than four columns of stops, all but the last two cells for stops,
    then [Continues to] and the last stop. *)
Definition cells (stations : list Stop) : list string :=
  let rows := rows_of stations in
  if bool_decide (rows * 4 < length stations) then
    (li <$> take (4 * rows - 2) stations)
      ++ [li_continue; from_option li_last "" (last stations)]
  else li <$> stations.

Definition sconcat (l : list string) : string := foldr String.append "" l.

(** *** The clock text, read back

    The texts [h:mm:ss am] and [h:mm:ss pm]: the hour from 1 to 12 without
    a leading zero, minutes and seconds in two places and below 60.
    [read_clock] accepts these and nothing else. *)

(** The character of a decimal digit. *)
Definition digit_char (d : Z) : ascii := ascii_of_nat (Z.to_nat (48 + d)).

(** An hour: one digit from 1 to 9, or 10, 11 or 12. *)
Definition read_hour (s : string) : option (Z * string) :=
  match s with
  | String c1 (String c2 rest) =>
      d1 ← digit_value 10 c1;
      match digit_value 10 c2 with
      | Some d2 => if bool_decide (d1 = 1 ∧ d2 ≤ 2)%Z then Some (10 + d2, rest)%Z else None
      | None => if bool_decide (1 ≤ d1)%Z then Some (d1, String c2 rest) else None
      end
  | _ => None
  end.

(** Two digits that stand for a number below 60. *)
Definition read_two (s : string) : option (Z * string) :=
  match s with
  | String c1 (String c2 rest) =>
      d1 ← digit_value 10 c1; d2 ← digit_value 10 c2;
      if bool_decide (d1 < 6)%Z then Some (d1 * 10 + d2, rest)%Z else None
  | _ => None
  end.

(** The second of the day at [h:m:sec], [h] on the twelve-hour clock. *)
Definition clock_second (h m sec : Z) (pm : bool) : Z :=
  (((h mod 12 + (if pm then 12 else 0)) * 60 + m) * 60 + sec)%Z.

Definition clock_text (h m sec : Z) (pm : bool) : string :=
  pretty h +:+ ":" +:+ padStart 2 "0" (pretty m) +:+ ":" +:+ padStart 2 "0" (pretty sec)
    +:+ " " +:+ (if pm then "pm" else "am").

(** The second of the day a clock text stands for. *)
Definition read_clock (s : string) : option Z :=
  '(h, s) ← read_hour s;
  match s with
  | String ":" s =>
      '(m, s) ← read_two s;
      match s with
      | String ":" s =>
          '(sec, s) ← read_two s;
          if bool_decide (s = " am") then Some (clock_second h m sec false)
          else if bool_decide (s = " pm") then Some (clock_second h m sec true)
          else None
      | _ => None
      end
  | _ => None
  end.

(** *** A platform to evaluate on *)

(** A service to Flinders Street as the server sends it once enriched, and
    as it sends it before. *)
Definition enriched_service (run : string) (time : Z) : Service :=
  mkService 0 run time (Some "Flinders Street") (Some "Stops all") (Some "crosscity")
    (Some [mkStop 1072 "Footscray" false; mkStop 1071 "Flinders Street" false]).

Definition bare_service (run : string) (time : Z) : Service :=
  mkService 0 run time None None (Some "crosscity") None.

(** The page in Melbourne (UTC+10) after its first [refresh]: the server
    has answered with A, B and C, due one, two and three minutes after
    time 0. *)
Definition sample_shown : Display :=
  play 600 [ WsMessage CmdRefresh;
             FetchAnswer (Http200 [ enriched_service "A" 60000; enriched_service "B" 120000;
                                    enriched_service "C" 180000 ]) 0 ]
    loaded.

(** The runs of [pidData]. *)
Definition runs_shown (c : Display) : list string := (λ x, sv_run (item x)) <$> pidData c.

(** ** Lemmas: what a turn leaves alone *)

Section frames.
Implicit Types (c : Display) (now : Z) (x : Item).

Lemma write_frame m c :
  pidData (write m c) = pidData c ∧ fetches (write m c) = fetches c ∧
  afters (write m c) = afters c ∧ uncaught (write m c) = uncaught c.
Proof. done. Qed.

(** [updateInfo] writes to the document and nothing else. *)
Lemma show_frame now c :
  pidData (show now c).2 = pidData c ∧ fetches (show now c).2 = fetches c ∧
  afters (show now c).2 = afters c.
Proof. unfold show. by destruct (updateInfo _ _ _) as [[]]. Qed.

End frames.

(** ** Lemmas: [updateClock] ends *)

Section fuel.
Context (zone : Z).
Implicit Types (c : Display) (now : Z) (x : Item) (again : Display → option Display).

(** The loop returns if the calls of [updateClock] on a shorter [pidData]
    do. *)
Lemma clock_loop_total again now entries c :
  (entries ≠ [] → pidData c ≠ []) →
  (∀ c', length (pidData c') < length (pidData c) → is_Some (again c')) →
  is_Some (clock_loop again now entries c).
Proof.
  revert c; induction entries as [|[i x] rest IH]; intros c Hne Hagain; simpl; [done|].
  case_bool_decide; [|apply IH; [intros _; by apply Hne|done]].
  assert (is_Some (refresh again now
            (with_pidData tail (write (set_class "depart-bar" "inactive") c)))).
  { unfold refresh. pose proof (show_frame now
      (with_pidData tail (write (set_class "depart-bar" "inactive") c))) as (Hp & _).
    destruct (show _ _) as [[] c']; [|done]. apply Hagain. simpl in Hp. rewrite Hp.
    destruct (pidData c); [by destruct Hne|simpl; lia]. }
  repeat case_match; done.
Qed.

(** More fuel does not change what the loop and [updateClock] return. *)
Lemma clock_loop_mono again again' now entries c c' :
  (∀ c1 c2, again c1 = Some c2 → again' c1 = Some c2) →
  clock_loop again now entries c = Some c' →
  clock_loop again' now entries c = Some c'.
Proof.
  intros Hagain. revert c; induction entries as [|[i x] rest IH]; intros c; simpl; [done|].
  unfold refresh. repeat case_match; eauto.
Qed.

Lemma updateClock_mono fuel fuel' now c c' :
  fuel ≤ fuel' → updateClock zone fuel now c = Some c' →
  updateClock zone fuel' now c = Some c'.
Proof.
  revert fuel' c c'; induction fuel as [|fuel IH]; intros [|fuel'] c c' ?; simpl;
    [done|done|lia|].
  apply clock_loop_mono. intros c1 c2. apply IH. lia.
Qed.

Lemma updateClock_is_Some fuel now c :
  length (pidData c) < fuel → is_Some (updateClock zone fuel now c).
Proof.
  revert c; induction fuel as [|fuel IH]; intros c Hlen; simpl; [lia|].
  apply clock_loop_total.
  - simpl. by destruct (pidData c).
  - intros c' Hc'. apply IH. simpl in Hc'. lia.
Qed.

End fuel.

(** ** Lemmas: what [updateClock] changes *)

Section clocked.
Context (zone : Z).
Implicit Types (c : Display) (now : Z) (x : Item) (again : Display → option Display).

#[export] Instance clocked_preorder : PreOrder clocked.
Proof.
  split.
  - by intros c.
  - intros c1 c2 c3 (?&?&?&?) (?&?&?&?). unfold clocked.
    split_and!; [by etrans|congruence|by etrans..].
Qed.

Lemma clocked_show now c : clocked c (show now c).2.
Proof.
  unfold show. destruct (updateInfo _ _ _) as [[] d]; simpl; [done|].
  split_and!; [done..|]. by apply prefix_app_r.
Qed.

Lemma clocked_refresh again now c c' :
  (∀ c1 c2, again c1 = Some c2 → clocked c1 c2) →
  refresh again now c = Some c' → clocked c c'.
Proof.
  intros Hagain. unfold refresh. pose proof (clocked_show now c) as Hs.
  destruct (show now c) as [[] c1]; simpl in *.
  - intros Hc'%Hagain. by etrans.
  - by intros [= <-].
Qed.

Lemma clocked_shift c :
  clocked c (with_pidData tail (write (set_class "depart-bar" "inactive") c)).
Proof.
  split_and!; [|done..]. simpl. destruct (pidData c); [done|]. by apply suffix_cons_r.
Qed.

Lemma clocked_loop again now entries c c' :
  (∀ c1 c2, again c1 = Some c2 → clocked c1 c2) →
  clock_loop again now entries c = Some c' → clocked c c'.
Proof.
  intros Hagain. revert c; induction entries as [|[i x] rest IH]; intros c; simpl.
  { by intros [= <-]. }
  pose proof (clocked_shift c) as Hshift.
  pose proof (clocked_refresh again now
    (with_pidData tail (write (set_class "depart-bar" "inactive") c)) c' Hagain) as Hr.
  repeat case_match; try (intros ?; etrans; [exact Hshift|by apply Hr]).
  - intros [= <-]. etrans; [exact Hshift|].
    split_and!; [done..|by apply prefix_app_r|done].
  - by intros ?%IH.
Qed.

Lemma clocked_updateClock fuel now c c' :
  updateClock zone fuel now c = Some c' → clocked c c'.
Proof.
  revert c c'; induction fuel as [|fuel IH]; intros c c'; simpl; [done|].
  by intros ?%(clocked_loop _ _ _ _ _ (IH)).
Qed.

Lemma clocked_clock now c : clocked c (clock zone now c).
Proof.
  unfold clock. destruct (updateClock _ _ _ _) as [c'|] eqn:Hc; simpl; [|done].
  by eapply clocked_updateClock.
Qed.

End clocked.

(** ** Lemmas: [updateInfo] *)

Section show.
Implicit Types (c : Display) (now : Z) (x : Item) (d : Dom).

Lemma next_service_ok data i d : ∃ d', next_service data i d = (Ok tt, d').
Proof. unfold next_service. destruct (data !! i); by eexists. Qed.

(** What [updateInfo] has written when it throws. *)
Lemma updateInfo_Err now data d e :
  (updateInfo now data d).1 = Err e →
  ∃ first, head (filter (in_window now) data) = Some first ∧
    sv_stations (item first) = None ∧ e = TypeError ∧
    dom_text (updateInfo now data d).2 =
      <["subtitle" := js_text (sv_subtitle (item first))]>
        (<["dest" := js_text (sv_dest (item first))]>
           (<["time" := timeText first]> (dom_text d))) ∧
    dom_html (updateInfo now data d).2 = dom_html d.
Proof.
  unfold updateInfo. destruct (filter _ data) as [|first rest]; [done|].
  destruct (sv_stations (item first)) as [stations|] eqn:Hst.
  - unfold eff_bind, eff_lift, set_class, set_text, set_html, eff_modify; simpl.
    by repeat match goal with
      | |- context [next_service ?l ?i ?d'] =>
          destruct (next_service_ok l i d') as [? ->]
      end.
  - unfold eff_bind, eff_lift, set_class, set_text, set_html, eff_modify; simpl.
    intros [= <-]. by exists first.
Qed.

Lemma show_true now c c' :
  show now c = (true, c') →
  pidData c' = pidData c ∧ fetches c' = fetches c ∧ afters c' = afters c ∧
  uncaught c' = uncaught c.
Proof. unfold show. destruct (updateInfo _ _ _) as [[] d]; by intros [= <-]. Qed.

Lemma show_false now c c' :
  show now c = (false, c') →
  pidData c' = pidData c ∧ afters c' = afters c ∧
  uncaught c' = uncaught c ++ [TypeError].
Proof.
  unfold show. pose proof (updateInfo_Err now (pidData c) (dom c)) as He.
  destruct (updateInfo _ _ _) as [[|e] d]; intros [= <-]; simpl.
  by destruct (He e eq_refl) as (_ & _ & _ & -> & _).
Qed.

End show.

(** ** Lemmas: what [updateClock] leaves behind *)

Section settled.
Context (zone : Z).
Implicit Types (c : Display) (now : Z) (x : Item) (again : Display → option Display).

Lemma clock_loop_settled again now entries c c' :
  settles now again →
  clock_loop again now entries c = Some c' →
  afters c' = afters c → uncaught c' = uncaught c →
  Forall (λ x, ¬ (sv_time (item x) - now ≤ -60000)%Z) entries.*2 ∧ pidData c' = pidData c
  ∨ none_past now c'.
Proof.
  intros Hagain. revert c; induction entries as [|[i x] rest IH]; intros c; simpl.
  { intros [= <-] _ _. by left. }
  case_bool_decide as Hpast.
  - set (c0 := with_pidData tail (write (set_class "depart-bar" "inactive") c)).
    assert (refresh again now c0 = Some c' →
            afters c' = afters c → uncaught c' = uncaught c → none_past now c') as Hr.
    { unfold refresh. destruct (show now c0) as [[] c1] eqn:Hs.
      - apply show_true in Hs as (_ & _ & Ha & Hu). intros Hc' ??.
        apply (Hagain c1 c' Hc'); subst c0; simpl in *; congruence.
      - apply show_false in Hs as (_ & _ & Hu). intros [= <-] _ Hu'.
        subst c0. simpl in *. rewrite Hu in Hu'. apply (f_equal length) in Hu'.
        rewrite length_app in Hu'. simpl in Hu'. lia. }
    repeat case_match; try (intros; right; by apply Hr).
    intros [= <-] Ha. subst c0. simpl in Ha. apply (f_equal length) in Ha.
    rewrite length_app in Ha. simpl in Ha. lia.
  - intros Hc' Ha Hu. destruct (IH _ Hc' Ha Hu) as [[Hrest Hp]|Hnone]; [left|by right].
    split; [by constructor|done].
Qed.

Lemma updateClock_settled fuel now : settles now (updateClock zone fuel now).
Proof.
  induction fuel as [|fuel IH]; intros c c'; simpl; [done|].
  intros Hloop Ha Hu.
  destruct (clock_loop_settled _ _ _ _ _ IH Hloop Ha Hu) as [[Hall Hp]|Hnone]; [|done].
  unfold none_past. rewrite Hp. simpl in Hall.
  by rewrite imap_pair_snd in Hall.
Qed.

(** With no service a minute past among the first three, a call writes
    the countdowns and changes nothing else. *)
Lemma clock_loop_idle again now entries c :
  Forall (λ x, ¬ (sv_time (item x) - now ≤ -60000)%Z) entries.*2 →
  ∃ c', clock_loop again now entries c = Some c' ∧ pidData c' = pidData c ∧
    fetches c' = fetches c ∧ afters c' = afters c ∧ uncaught c' = uncaught c.
Proof.
  revert c; induction entries as [|[i x] rest IH]; intros c; simpl; [by exists c|].
  intros [Hx Hrest]%Forall_cons. rewrite bool_decide_eq_false_2 by done.
  destruct (IH (write (countdown i (sv_time (item x) - now)) c) Hrest) as (c' & ? & ?).
  by exists c'.
Qed.

Lemma clock_idle now c :
  none_past now c →
  pidData (clock zone now c) = pidData c ∧ fetches (clock zone now c) = fetches c ∧
  afters (clock zone now c) = afters c ∧ uncaught (clock zone now c) = uncaught c.
Proof.
  intros Hc. unfold clock. simpl.
  destruct (clock_loop_idle (updateClock zone (length (pidData c)) now) now
    (imap pair (take 3 (filter (in_window now) (pidData c))))
    (write (set_text "clock" (printTime zone now true)) c)) as (c' & -> & ?);
    [by rewrite imap_pair_snd|done].
Qed.

(** The answer to the page's request becomes [pidData], whether or not
    [updateInfo] then throws, when none of its services is a minute past. *)
Lemma fetchData_ok data now c :
  Forall (λ sv, (-60000 < sv_time sv - now)%Z) data →
  pidData (fetchData zone (Http200 data) now c) = with_timeText zone <$> data.
Proof.
  intros Hdata. unfold fetchData.
  destruct (show now _) as [[] c'] eqn:Hshow.
  - apply show_true in Hshow as (Hc' & _). simpl in Hc'.
    assert (none_past now c') as Hidle.
    { unfold none_past. rewrite Hc'.
      apply Forall_take, Forall_forall. intros x [_ Hx]%list_elem_of_filter.
      apply list_elem_of_fmap in Hx as (sv & -> & Hsv).
      pose proof (proj1 (Forall_forall _ _) Hdata sv Hsv) as Hlate.
      simpl in *. lia. }
    by rewrite (proj1 (clock_idle now c' Hidle)).
  - by apply show_false in Hshow as (-> & _).
Qed.

End settled.

(** ** Lemmas: the layout of the stops *)

Section layout.
Implicit Types (stations : list Stop) (rows col : nat).

(** A column the [Continues to] cell is not in. *)
Lemma fill_column_plain stations rows a k :
  ¬ rows * 4 < length stations ∨ a + k ≤ 4 * rows - 2 →
  fill_column stations rows (seq a k) = sconcat (li <$> take k (drop a stations)).
Proof.
  revert a; induction k as [|k IH]; intros a Hk; cbn -[Nat.mul bool_decide]; [done|].
  destruct (stations !! a) as [st|] eqn:Ha.
  - rewrite (drop_S _ st) by done. case_bool_decide; [lia|].
    rewrite IH by lia. reflexivity.
  - by rewrite drop_ge by (by apply lookup_ge_None).
Qed.

(** The column the [Continues to] cell is in. *)
Lemma fill_column_continue stations rows a k final :
  rows * 4 < length stations → last stations = Some final →
  a ≤ 4 * rows - 2 < a + k →
  fill_column stations rows (seq a k)
  = sconcat ((li <$> take (4 * rows - 2 - a) (drop a stations))
               ++ [li_continue; li_last final]).
Proof.
  intros Hn Hfinal. revert a; induction k as [|k IH]; intros a Hk; cbn -[Nat.mul bool_decide]; [lia|].
  destruct (lookup_lt_is_Some_2 stations a) as [st Ha]; [lia|]. rewrite Ha.
  case_bool_decide as Hj.
  - destruct Hj as [-> _]. rewrite Nat.sub_diag, Hfinal. simpl.
    by rewrite string_app_nil_r.
  - replace (4 * rows - 2 - a) with (S (4 * rows - 2 - S a)) by lia.
    rewrite (drop_S _ st) by done. rewrite IH by lia. reflexivity.
Qed.

(** The outer loop stops at the first column that would be empty. *)
Lemma fill_columns_lookup stations rows a m col :
  fill_columns stations rows (seq a m) !! col
  = if bool_decide (col < m ∧ (a + col) * rows < length stations)
    then Some (fill_column stations rows (seq ((a + col) * rows) rows))
    else None.
Proof.
  revert a col; induction m as [|m IH]; intros a col; cbn -[Nat.mul bool_decide].
  { case_bool_decide; [lia|done]. }
  case_bool_decide as Ha.
  - destruct col as [|col]; cbn -[Nat.mul bool_decide].
    + rewrite Nat.add_0_r. case_bool_decide; [done|lia].
    + rewrite IH. replace (S a + col) with (a + S col) by lia.
      repeat case_bool_decide; first [done|lia].
  - case_bool_decide; [nia|done].
Qed.

Lemma rows_of_cases stations :
  rows_of stations = 7 ∧ length stations ≤ 28 ∨ rows_of stations = 8 ∧ 28 < length stations.
Proof. unfold rows_of. case_bool_decide; lia. Qed.

(** A column is the cells of its rows. *)
Lemma fill_column_cells stations col :
  col < 4 →
  fill_column stations (rows_of stations) (seq (col * rows_of stations) (rows_of stations))
  = sconcat (take (rows_of stations) (drop (col * rows_of stations) (cells stations))).
Proof.
  intros Hcol. unfold cells.
  pose proof (rows_of_cases stations) as Hrows.
  set (rows := rows_of stations) in *.
  case_bool_decide as Hn.
  - destruct (last stations) as [final|] eqn:Hfinal;
      [|apply last_None in Hfinal; subst; simpl in *; lia].
    destruct (decide (col = 3)) as [->|].
    + rewrite (fill_column_continue _ _ _ _ final) by (done || lia).
      rewrite drop_app_le by (rewrite length_fmap, length_take; lia).
      rewrite (take_ge (_ ++ _));
        [|rewrite length_app, length_drop, length_fmap, length_take; simpl; lia].
      rewrite <-fmap_drop, take_drop_commute. simpl. repeat f_equal; lia.
    + rewrite fill_column_plain by lia.
      rewrite drop_app_le by (rewrite length_fmap, length_take; lia).
      rewrite take_app_le by (rewrite length_drop, length_fmap, length_take; lia).
      rewrite <-fmap_drop, <-fmap_take, !take_drop_commute, take_take.
      repeat f_equal; lia.
  - rewrite fill_column_plain by lia. by rewrite <-fmap_drop, <-fmap_take.
Qed.

End layout.

(** ** Lemmas: [printTime] *)

Section printTime.
Context (zone : Z).
Implicit Types (time : Z).

Lemma getHours_range time : (0 ≤ getHours zone time < 24)%Z.
Proof. unfold getHours. by apply Z.mod_pos_bound. Qed.

Lemma getMinutes_range time : (0 ≤ getMinutes zone time < 60)%Z.
Proof. unfold getMinutes. by apply Z.mod_pos_bound. Qed.

Lemma getSeconds_range time : (0 ≤ getSeconds zone time < 60)%Z.
Proof. unfold getSeconds. by apply Z.mod_pos_bound. Qed.

(** The second of the day, from the hour, the minute and the second. *)
Lemma second_of_day time :
  ((local_time zone time / 1000) mod 86400
   = (getHours zone time * 60 + getMinutes zone time) * 60 + getSeconds zone time)%Z.
Proof.
  unfold getHours, getMinutes, getSeconds. generalize (local_time zone time). intros t.
  replace (t / 60000)%Z with (t / 1000 / 60)%Z by (rewrite Z.div_div by lia; done).
  replace (t / 3600000)%Z with (t / 1000 / 3600)%Z by (rewrite Z.div_div by lia; done).
  apply second_of_day_split.
Qed.

End printTime.

(** ** Lemmas: the clock text *)

Section clock_text.
Implicit Types (h m sec d : Z) (pm : bool) (s rest : string).

(** The digits and the numbers they print. *)
Lemma digit_value_char c d :
  digit_value 10 c = Some d ↔ (0 ≤ d ≤ 9)%Z ∧ c = digit_char d.
Proof.
  split.
  - destruct c as [[] [] [] [] [] [] [] []]; vm_compute; intros [= <-]; by vm_compute.
  - intros [Hd ->].
    assert (d = 0 ∨ d = 1 ∨ d = 2 ∨ d = 3 ∨ d = 4 ∨ d = 5 ∨ d = 6 ∨ d = 7 ∨ d = 8 ∨ d = 9)%Z
      as Hcases by lia.
    by repeat destruct Hcases as [->|Hcases]; [..|subst d].
Qed.

Lemma digit_char_value d : (0 ≤ d ≤ 9)%Z → digit_value 10 (digit_char d) = Some d.
Proof. intros Hd. by apply digit_value_char. Qed.

Lemma pretty_digit d : (0 ≤ d ≤ 9)%Z → pretty d = String (digit_char d) "".
Proof.
  intros Hd.
  assert (Forall (λ k, pretty (Z.of_nat k) = String (digit_char (Z.of_nat k)) "") (seq 0 10))
    as Hall by (apply (bool_decide_unpack _); by vm_compute).
  rewrite Forall_forall in Hall. rewrite <-(Z2Nat.id d) by lia. apply Hall, elem_of_seq. lia.
Qed.

Lemma pretty_teens d :
  (0 ≤ d ≤ 9)%Z → pretty (10 + d)%Z = String "1" (String (digit_char d) "").
Proof.
  intros Hd.
  assert (Forall (λ k, pretty (10 + Z.of_nat k)%Z = String "1" (String (digit_char (Z.of_nat k)) ""))
            (seq 0 10)) as Hall by (apply (bool_decide_unpack _); by vm_compute).
  rewrite Forall_forall in Hall. rewrite <-(Z2Nat.id d) by lia. apply Hall, elem_of_seq. lia.
Qed.

Lemma two_places_text d1 d2 :
  (0 ≤ d1 < 6)%Z → (0 ≤ d2 ≤ 9)%Z →
  padStart 2 "0" (pretty (d1 * 10 + d2)%Z) = String (digit_char d1) (String (digit_char d2) "").
Proof.
  intros H1 H2.
  assert (Forall (λ k1, Forall (λ k2,
            padStart 2 "0" (pretty (Z.of_nat k1 * 10 + Z.of_nat k2)%Z)
            = String (digit_char (Z.of_nat k1)) (String (digit_char (Z.of_nat k2)) ""))
            (seq 0 10)) (seq 0 6)) as Hall by (apply (bool_decide_unpack _); by vm_compute).
  rewrite Forall_forall in Hall. specialize (Hall (Z.to_nat d1)).
  rewrite Forall_forall in Hall. specialize (Hall ltac:(apply elem_of_seq; lia) (Z.to_nat d2)).
  rewrite !Z2Nat.id in Hall by lia. apply Hall, elem_of_seq. lia.
Qed.

(** What the readers accept. *)
Lemma read_two_spec s v rest :
  read_two s = Some (v, rest) ↔ (0 ≤ v < 60)%Z ∧ s = padStart 2 "0" (pretty v) +:+ rest.
Proof.
  split.
  - destruct s as [|c1 [|c2 r]]; simpl; try done.
    destruct (digit_value 10 c1) as [d1|] eqn:H1; simpl; [|done].
    destruct (digit_value 10 c2) as [d2|] eqn:H2; simpl; [|done].
    apply digit_value_char in H1 as [? ->], H2 as [? ->].
    case_bool_decide; intros [= <- <-].
    rewrite two_places_text by lia. split; [lia|done].
  - intros [Hv ->].
    pose proof (Z.mod_pos_bound v 10 ltac:(lia)).
    pose proof (Z.div_mod v 10 ltac:(lia)).
    replace v with (v / 10 * 10 + v mod 10)%Z by lia.
    rewrite two_places_text by lia. simpl.
    rewrite !digit_char_value by lia. simpl.
    by rewrite bool_decide_eq_true_2 by lia.
Qed.

Lemma read_hour_spec s h rest :
  read_hour s = Some (h, rest) →
  (1 ≤ h ≤ 12)%Z ∧ s = pretty h +:+ rest.
Proof.
  destruct s as [|c1 [|c2 r]]; simpl; try done.
  destruct (digit_value 10 c1) as [d1|] eqn:H1; simpl; [|done].
  apply digit_value_char in H1 as [? ->].
  destruct (digit_value 10 c2) as [d2|] eqn:H2; simpl.
  - apply digit_value_char in H2 as [? ->].
    case_bool_decide as Hd; intros [= <- <-]. destruct Hd as [-> ?].
    rewrite pretty_teens by lia. split; [lia|done].
  - case_bool_decide; intros [= <- <-]. rewrite pretty_digit by lia. split; [lia|done].
Qed.

Lemma read_hour_print h c rest :
  (1 ≤ h ≤ 12)%Z → digit_value 10 c = None →
  read_hour (pretty h +:+ String c rest) = Some (h, String c rest).
Proof.
  intros Hh Hc. destruct (decide (h ≤ 9)%Z).
  - rewrite pretty_digit by lia. simpl. rewrite digit_char_value, Hc by lia. simpl.
    by rewrite bool_decide_eq_true_2 by lia.
  - replace h with (10 + (h - 10))%Z by lia. rewrite pretty_teens by lia. simpl.
    rewrite (digit_char_value (h - 10)) by lia.
    rewrite bool_decide_eq_true_2 by (split; [done|lia]). done.
Qed.

Lemma clock_text_cons h m sec pm :
  clock_text h m sec pm
  = pretty h +:+ String ":" (padStart 2 "0" (pretty m) +:+
      String ":" (padStart 2 "0" (pretty sec) +:+ (if pm then " pm" else " am"))).
Proof. unfold clock_text. rewrite !sapp_cons, !sapp_nil. by destruct pm. Qed.

Lemma read_clock_text h m sec pm :
  (1 ≤ h ≤ 12)%Z → (0 ≤ m < 60)%Z → (0 ≤ sec < 60)%Z →
  read_clock (clock_text h m sec pm) = Some (clock_second h m sec pm).
Proof.
  intros Hh Hm Hsec. rewrite clock_text_cons. unfold read_clock.
  rewrite read_hour_print by done. simpl.
  rewrite (proj2 (read_two_spec _ m _)) by done. simpl.
  rewrite (proj2 (read_two_spec _ sec _)) by done. simpl.
  by destruct pm.
Qed.

Lemma read_clock_inv s n :
  read_clock s = Some n →
  ∃ h m sec pm, (1 ≤ h ≤ 12)%Z ∧ (0 ≤ m < 60)%Z ∧ (0 ≤ sec < 60)%Z ∧
    s = clock_text h m sec pm ∧ n = clock_second h m sec pm.
Proof.
  unfold read_clock.
  destruct (read_hour s) as [[h s1]|] eqn:Hh; simpl; [|done].
  apply read_hour_spec in Hh as [Hh ->].
  destruct s1 as [|c s2]; [done|]. destruct (decide (c = ":"%char)) as [->|];
    [|by repeat case_match].
  destruct (read_two s2) as [[m s3]|] eqn:Hm; simpl; [|done].
  apply read_two_spec in Hm as [Hm ->].
  destruct s3 as [|c s4]; [done|]. destruct (decide (c = ":"%char)) as [->|];
    [|by repeat case_match].
  destruct (read_two s4) as [[sec s5]|] eqn:Hsec; simpl; [|done].
  apply read_two_spec in Hsec as [Hsec ->].
  repeat case_bool_decide; intros [= <-]; subst s5;
    [exists h, m, sec, false|exists h, m, sec, true]; by rewrite clock_text_cons.
Qed.

Lemma clock_second_inj h m sec pm h' m' sec' pm' :
  (1 ≤ h ≤ 12)%Z → (0 ≤ m < 60)%Z → (0 ≤ sec < 60)%Z →
  (1 ≤ h' ≤ 12)%Z → (0 ≤ m' < 60)%Z → (0 ≤ sec' < 60)%Z →
  clock_second h m sec pm = clock_second h' m' sec' pm' →
  h = h' ∧ m = m' ∧ sec = sec' ∧ pm = pm'.
Proof.
  unfold clock_second. intros Hh Hm Hsec Hh' Hm' Hsec'.
  assert (∀ x, (1 ≤ x ≤ 12)%Z → (x = 12 ∧ x mod 12 = 0)%Z ∨ (x < 12 ∧ x mod 12 = x)%Z) as Hmod.
  { intros x Hx. destruct (decide (x = 12)%Z) as [->|]; [by left|right].
    split; [lia|]. apply Z.mod_small. lia. }
  destruct (Hmod h Hh) as [[-> ->]|[? ->]], (Hmod h' Hh') as [[-> ->]|[? ->]];
    destruct pm, pm'; intros Heq; try lia; by split_and!; try lia.
Qed.

End clock_text.

Section printTime_text.
Context (zone : Z).

(** What [printTime] prints, and the second of the day it is. *)
Lemma printTime_text time :
  ∃ h, (1 ≤ h ≤ 12)%Z ∧
    printTime zone time true
    = clock_text h (getMinutes zone time) (getSeconds zone time)
        (bool_decide (12 ≤ getHours zone time)%Z) ∧
    ((local_time zone time / 1000) mod 86400)%Z
    = clock_second h (getMinutes zone time) (getSeconds zone time)
        (bool_decide (12 ≤ getHours zone time)%Z).
Proof.
  rewrite second_of_day. unfold printTime, clock_text, clock_second.
  pose proof (getHours_range zone time) as Hh.
  pose proof (Z.mod_pos_bound (getHours zone time) 12 ltac:(lia)) as Hh12.
  pose proof (Z.div_mod (getHours zone time) 12 ltac:(lia)) as Hdiv.
  set (h12 := if bool_decide (_ = 0)%Z then _ else _).
  assert (1 ≤ h12 ≤ 12 ∧ h12 mod 12 = getHours zone time mod 12)%Z as [Hr Hm].
  { subst h12. case_bool_decide as H0; [by rewrite H0|]. split; [lia|].
    by rewrite Z.mod_mod by lia. }
  exists h12. split; [done|]. split.
  - rewrite !string_app_assoc. by case_bool_decide.
  - rewrite Hm. case_bool_decide; lia.
Qed.

End printTime_text.


(** ** Lemmas: the turns of the page *)

Section turns.
Context (zone : Z).
Implicit Types (c : Display) (now : Z) (x : Item).

Lemma timed_with_timeText service : timed zone (with_timeText zone service).
Proof. done. Qed.

(** A call of [updateClock] keeps what holds of every service. *)
Lemma clocked_Forall (P : Item → Prop) c c' :
  clocked c c' → Forall P (pidData c) → Forall P (pidData c').
Proof. intros [[k ->] _]. by intros [_ ?]%Forall_app. Qed.

(** What holds of the services a turn brings, and of those of [pidData]
    when their [timeText] is assigned again, holds of [pidData] after the
    turn. *)
Section keeps.
Context (P : Item → Prop).

Lemma show_clock_keeps now c :
  Forall P (pidData c) →
  Forall P (pidData match show now c with (true, c') => clock zone now c' | (false, c') => c' end).
Proof.
  intros Hc. pose proof (clocked_show now c) as Hs.
  destruct (show now c) as [[] c']; simpl in Hs.
  - eapply clocked_Forall; [|done]. etrans; [done|apply clocked_clock].
  - by eapply clocked_Forall.
Qed.

Lemma react_keeps i c :
  (∀ service, service ∈ carried i → P (with_timeText zone service)) →
  (∀ x, P x → P (with_timeText zone (item x))) →
  Forall P (pidData c) → Forall P (pidData (react zone i c)).
Proof.
  intros Hnew Hre Hc. destruct i as [now|[|servNew]|answer now|k answer now]; simpl.
  - by eapply clocked_Forall; [apply clocked_clock|].
  - done.
  - case_match; [done|]. simpl. apply Forall_app. split; [done|].
    repeat constructor. apply Hnew. simpl. left.
  - destruct (fetches c) as [|n]; [done|]. unfold fetchData.
    set (data := match answer with Http200 _ => _ | HttpError _ => _ end).
    assert (Forall P data.1) as Hdata.
    { subst data. destruct answer as [l|]; [|case_bool_decide]; simpl.
      - apply Forall_fmap, Forall_forall. intros service Hin. by apply Hnew.
      - constructor.
      - apply Forall_fmap. eapply Forall_impl; [done|]. intros x. apply Hre. }
    destruct data as [l rethrown]. simpl in Hdata.
    pose proof (show_clock_keeps now (with_pidData (λ _, l) (with_fetches (λ _, n) c)) Hdata).
    destruct (show _ _) as [[] c']; by destruct rethrown.
  - unfold after_answer. destruct (mjoin _); [|done].
    apply show_clock_keeps. destruct answer as [service|]; simpl; [|done].
    apply Forall_app. split; [done|]. repeat constructor. apply Hnew. simpl. left.
Qed.

End keeps.

Lemma react_timed i c :
  Forall (timed zone) (pidData c) → Forall (timed zone) (pidData (react zone i c)).
Proof. by apply react_keeps. Qed.

(** The loop of the [append] handler finds no duplicate. *)
Lemma is_duplicate_false keys servNew : is_duplicate keys servNew = false.
Proof. unfold is_duplicate. by induction keys. Qed.

End turns.

(** ** Theorems *)

Section theorems.
Context (zone : Z).
Implicit Types (c : Display) (now : Z) (x : Item).

(** C28. A call of [updateClock] returns: it calls itself only after it has
    removed a service from [pidData], so with more fuel than [pidData] has
    services the model runs to the [await] or the end of the call, and what
    it returns does not depend on the fuel. *)
Theorem updateClock_total fuel now c :
  length (pidData c) < fuel → updateClock zone fuel now c = Some (clock zone now c).
Proof.
  intros Hfuel. unfold clock.
  destruct (updateClock_is_Some zone (S (length (pidData c))) now c) as [c' Hc']; [lia|].
  rewrite Hc'. simpl. apply (updateClock_mono zone (S (length (pidData c)))); [lia|done].
Qed.

(** C34. In every state of the page each service of [pidData] has the
    [timeText] that [printTime] gives for its [time]. *)
Theorem pidData_timed c : displays zone c → Forall (timed zone) (pidData c).
Proof. induction 1; [constructor|by apply react_timed]. Qed.

(** C32. The [append] handler never finds the service it is sent in
    [pidData]: it adds it, even if a service with the same [type] and [run]
    is there. *)
Theorem append_never_duplicate servNew c :
  pidData (onmessage zone (CmdAppend servNew) c) = pidData c ++ [with_timeText zone servNew].
Proof. simpl. by rewrite is_duplicate_false. Qed.

(** C31. [updateInfo] throws, a [TypeError], exactly when the first service
    in the window has no [stations]. *)
Theorem updateInfo_throws now data d e :
  (updateInfo now data d).1 = Err e ↔
  e = TypeError ∧
  ∃ first, head (filter (in_window now) data) = Some first ∧ sv_stations (item first) = None.
Proof.
  split.
  - intros (first & ? & ? & ? & _)%updateInfo_Err. eauto.
  - intros (-> & first & Hhead & Hst). unfold updateInfo.
    destruct (filter _ data) as [|? rest]; simplify_eq/=.
    unfold eff_bind, eff_lift, set_class, set_text, eff_modify. simpl. by rewrite Hst.
Qed.

(** C30. When a call of [updateClock] has sent no request and thrown
    nothing, none of the first three services in the window is a minute
    past: it has removed services until that was so. *)
Theorem clock_settled now c :
  afters (clock zone now c) = afters c → uncaught (clock zone now c) = uncaught c →
  none_past now (clock zone now c).
Proof.
  unfold clock. destruct (updateClock _ _ _ _) as [c'|] eqn:Hc; simpl.
  - by apply (updateClock_settled zone _ _ _ _ Hc).
  - by destruct (updateClock_is_Some zone (S (length (pidData c))) now c) as [? ?];
      [lia|congruence].
Qed.

(** C29. The stops panel: column [col] holds the cells of its rows, in
    order, for up to four columns; the cells are those of [cells]: every
    stop when they fit in four columns of seven or, with more than 28
    stops, of eight, and otherwise the first thirty stops, [Continues to]
    and the last stop. *)
Theorem columns_cells stations col :
  columns stations !! col
  = if bool_decide (col < 4 ∧ col * rows_of stations < length stations)
    then Some (sconcat (take (rows_of stations)
                          (drop (col * rows_of stations) (cells stations))))
    else None.
Proof.
  unfold columns. rewrite fill_columns_lookup. cbn [Nat.add].
  case_bool_decide as Hcol; [|done]. by rewrite fill_column_cells by lia.
Qed.

(** C33. The text [printTime(time, true)] prints is the one clock text that
    reads as the second of the day of [time] in the display's zone, where
    a clock text is [h:mm:ss am] or [h:mm:ss pm] with the hour from 1 to 12
    and without a leading zero, and minutes and seconds in two places: the
    hour 0 is printed 12, and [padStart] fills a single digit. *)
Theorem printTime_read time s :
  read_clock s = Some ((local_time zone time / 1000) mod 86400)%Z
  ↔ s = printTime zone time true.
Proof.
  destruct (printTime_text zone time) as (h & Hh & -> & ->).
  pose proof (getMinutes_range zone time) as Hm.
  pose proof (getSeconds_range zone time) as Hsec.
  split; [|intros ->; by apply read_clock_text].
  intros (h' & m' & sec' & pm' & ? & ? & ? & -> & Heq)%read_clock_inv.
  by apply clock_second_inj in Heq as (-> & -> & -> & ->).
Qed.

End theorems.

(** ** Witnesses *)

Example sample_shown_runs :
  runs_shown sample_shown = ["A"; "B"; "C"] ∧
  dom_text (dom sample_shown) !! "time" = Some "10:01am" ∧
  dom_text (dom sample_shown) !! "clock" = Some "10:00:00 am" ∧
  dom_text (dom sample_shown) !! "eta" = Some "1 min" ∧
  dom_text (dom sample_shown) !! "ns2-eta" = Some "3 min".
Proof. by vm_compute. Qed.

Lemma displays_play zone inputs c : displays zone c → displays zone (play zone inputs c).
Proof.
  intros Hc. unfold play. apply (foldl_invariant (displays zone)); [|done].
  intros c' i. apply displays_react.
Qed.

(** Two minutes later A and B are a minute past and more: one call removes
    A, asks for the service after C and waits. *)
Lemma updateClock_total_witness :
  updateClock 600 4 190000 sample_shown = Some (clock 600 190000 sample_shown).
Proof. apply updateClock_total. vm_compute. lia. Defined.

Lemma pidData_timed_witness : Forall (timed 600) (pidData sample_shown).
Proof. apply pidData_timed, displays_play, displays_loaded. Defined.

(** At time 70000 nothing is a minute past yet. *)
Lemma clock_settled_witness : none_past 70000 (clock 600 70000 sample_shown).
Proof. apply clock_settled; by vm_compute. Defined.

(** ** Scenarios *)

(** A is a minute past: the page removes it and asks for the service after
    C.  The server's append of D arrives before the answer does, and the
    answer is D as well: D is in [pidData] twice. *)
Example append_and_answer :
  let c := play 600 [ Interval 125000; WsMessage (CmdAppend (enriched_service "D" 240000));
                      AfterAnswer 0 (Http200 (enriched_service "D" 240000)) 126000 ]
             sample_shown in
  afters (play 600 [Interval 125000] sample_shown) = [Some "C"] ∧
  runs_shown c = ["B"; "C"; "D"; "D"].
Proof. by vm_compute. Qed.

(** The server answers with a first service that has not been enriched:
    [updateInfo] throws after it has written [undefined] as destination and
    subtitle, the stops, the next services and the clock are not written,
    and [updateClock] is not called. *)
Example bare_first_service :
  let c := play 600 [ WsMessage CmdRefresh;
                      FetchAnswer (Http200 [ bare_service "E" 300000 ]) 250000 ] loaded in
  uncaught c = [TypeError] ∧
  dom_text (dom c) !! "dest" = Some "undefined" ∧
  dom_text (dom c) !! "subtitle" = Some "undefined" ∧
  dom_html (dom c) !! "stations" = None ∧
  dom_text (dom c) !! "ns1-dest" = None ∧
  dom_text (dom c) !! "clock" = None.
Proof. by vm_compute. Qed.

(** The page keeps what it has when the server answers with an error
    other than 404, and empties [pidData] on 404. *)
Example fetch_errors :
  let failed := play 600 [WsMessage CmdRefresh; FetchAnswer (HttpError (Some 500%Z)) 1000]
                  sample_shown in
  let gone := play 600 [WsMessage CmdRefresh; FetchAnswer (HttpError (Some 404%Z)) 1000]
                sample_shown in
  runs_shown failed = ["A"; "B"; "C"] ∧ uncaught failed = [FetchFailed] ∧
  runs_shown gone = [] ∧ uncaught gone = [] ∧
  dom_text (dom gone) !! "announcement" = Some "No trains departing from this platform".
Proof. by vm_compute. Qed.

(** The reader accepts the clock texts only: a text without the padding of
    the minutes and seconds, or with the hour 0, does not read. *)
Example read_clock_strict :
  read_clock "12:05:03 am" = Some 303%Z ∧ read_clock "1:00:00 pm" = Some 46800%Z ∧
  read_clock "0:5:3 am" = None ∧ read_clock "0:05:03 am" = None ∧
  read_clock "12:5:3 am" = None ∧ read_clock "01:00:00 pm" = None ∧
  read_clock "13:00:00 pm" = None.
Proof. by vm_compute. Qed.
