(* ===== verification/System.v ===== *)
(** * System: the server and its display pages together

    A page of [Client] is a WebSocket client of the server of [Server]: it
    is sent the messages the server leaves in [sent] for it, in order, and
    its two requests are answered by the read endpoints of [Query] from the
    board the server has at that moment.

    A [System] holds the server, the pages (page [k] is the client [k] of
    the server) and the number of messages delivered to each.  A [Move] is
    a turn of the server, a turn of a page, or the delivery of a message or
    of an answer; [move] is the state after it, and [systems] are the
    states reached from [start].

    The theorems are about what a page shows: every service of a page is a
    departure object of the server's store as it was at some moment
    ([pages_show_snapshots]). *)

From S2P Require Import Prelude JsString Model Refresh Pattern Names Classifier Resolver Query Server Client.

(** ** Definitions *)

(** The departure object a service is the serialisation of. *)
Definition departure_of (sv : Service) : Departure :=
  mkDeparture (sv_type sv) (sv_run sv) (sv_time sv) (sv_group sv) (sv_stations sv)
    (sv_dest sv) (sv_subtitle sv).

(** The service is an object of the store as it is or as it was before
    properties were assigned to it. *)
Definition snapshot (s : Server) (sv : Service) : Prop :=
  ∃ r d, objects s !! r = Some d ∧ grows (departure_of sv) d.

(** The services a client has been sent are snapshots. *)
Definition sent_snapshots (s : Server) (c : Client) : Prop :=
  ∀ data, CmdAppend data ∈ sent c → snapshot s data.

(** What a turn of the server sends: to each client nothing, [refresh], or
    the serialisation of an object of the store. *)
Definition sends (s : Server) (c c' : Client) : Prop :=
  pnum c' = pnum c ∧
  (sent c' = sent c ∨ sent c' = sent c ++ [CmdRefresh] ∨
   ∃ r d, objects s !! r = Some d ∧ sent c' = sent c ++ [CmdAppend (serialise d)]).

Record System : Type := mkSystem {
  server : Server;
  pages : list Display;
  delivered : list nat;
}.

(** [main] has sent its first request; no page is open. *)
Definition start : System := mkSystem boot [] [].

Inductive Move : Type :=
| Open (plat : string)
| ServerTurn (e : Event)
| Deliver (k : nat)
| PageInterval (k : nat) (now : Z)
| Fetched (k : nat) (now : Z)
| Aftered (k j : nat) (now : Z).

Section system.
Context (zone : Z) (STATION : StationValue) (metroLines : gmap string string).

(** [PLATFORM] of page [k]. *)
Definition platform_of (y : System) (k : nat) : option string :=
  pnum <$> clients (server y) !! k.

Definition on_page (k : nat) (i : Input) (y : System) : System :=
  mkSystem (server y) (alter (react zone i) k (pages y)) (delivered y).

(** One move.  A page is opened, and connects, when the server listens; a
    request of a page is answered from the board as it is. *)
Definition move (m : Move) (y : System) : System :=
  match m with
  | Open plat =>
      if listening (server y)
      then mkSystem (connect plat (server y)) (pages y ++ [loaded]) (delivered y ++ [0])
      else y
  | ServerTurn e =>
      match e with
      | Connect _ => y
      | _ => mkSystem (handle STATION metroLines e (server y)) (pages y) (delivered y)
      end
  | Deliver k =>
      match clients (server y) !! k ≫= λ c, delivered y !! k ≫= λ n, sent c !! n with
      | Some m =>
          mkSystem (server y) (alter (react zone (WsMessage m)) k (pages y))
            (alter S k (delivered y))
      | None => y
      end
  | PageInterval k now => on_page k (Interval now) y
  | Fetched k now =>
      match platform_of y k with
      | Some plat =>
          on_page k (FetchAnswer (http_of (get_window (board (server y)) plat)) now) y
      | None => y
      end
  | Aftered k j now =>
      match platform_of y k, pages y !! k ≫= λ c, mjoin (afters c !! j) with
      | Some plat, Some run =>
          on_page k (AfterAnswer j (http_of (get_after (board (server y)) plat run)) now) y
      | _, _ => y
      end
  end.

(** When a move can happen: a turn of the server when the server can take
    it. *)
Definition allowed (m : Move) (y : System) : Prop :=
  match m with
  | ServerTurn e => enabled e (server y)
  | _ => True
  end.

Inductive systems : System → Prop :=
| systems_start : systems start
| systems_move y m : systems y → allowed m y → systems (move m y).

Definition moves (ms : list Move) (y : System) : System :=
  foldl (λ y m, move m y) y ms.

(** Every move of the list can happen when its turn comes. *)
Fixpoint allowed_moves (ms : list Move) (y : System) : Prop :=
  match ms with
  | [] => True
  | m :: ms => allowed m y ∧ allowed_moves ms (move m y)
  end.

#[export] Instance allowed_dec m y : Decision (allowed m y).
Proof. destruct m; simpl; apply _. Defined.

#[export] Instance allowed_moves_dec ms y : Decision (allowed_moves ms y).
Proof. revert y; induction ms; intros y; simpl; apply _. Defined.

(** Every service of every page is a snapshot, and so is every service
    sent. *)
Definition shows_snapshots (y : System) : Prop :=
  Forall (sent_snapshots (server y)) (clients (server y)) ∧
  Forall (λ page, Forall (λ x, snapshot (server y) (item x)) (pidData page)) (pages y).

End system.

(** *** A station and a page to evaluate on *)

(** The server at Footscray has installed the board of
    [Server.demo_timetable]; then a page for platform 1 is opened, is told
    to refresh and has its request answered, a second after time 0. *)
Definition demo_installed : list Move :=
  ServerTurn <$>
    [ DeparturesAnswer (Ok demo_timetable) 0;
      PatternAnswer 0 (Ok (direct "A")); PatternAnswer 1 (Ok (direct "B"));
      PatternAnswer 2 (Ok (direct "C"));
      PatternAnswer 3 (@get_pattern demo_upstream "103" 0%Z);
      PatternAnswer 3 (@get_pattern demo_upstream "203" 0%Z) ].

Definition demo_asked : list Move := demo_installed ++ [Open "1"; Deliver 0].

Definition demo_opened : list Move := demo_asked ++ [Fetched 0 1000].

Definition demo_system (ms : list Move) : System :=
  moves 600 FOOTSCRAY demo_lines ms start.

(** The page [k], and the runs it holds. *)
Definition page (k : nat) (y : System) : Display := default loaded (pages y !! k).

(** The window of platform 1 of the installed board. *)
Definition demo_window : list Service :=
  match get_window (board demo_ready) "1" with
  | Ok (Status200 l) => l
  | _ => []
  end.

(** A timetable for the next day: F, G and H from platform 1. *)
Definition next_day : DeparturesResponse :=
  timetable [ (86460000, "1", "F"); (86520000, "1", "G"); (86580000, "1", "H") ]%Z.

(** ** Lemmas: snapshots *)

Section snapshots.
Context (STATION : StationValue) (metroLines : gmap string string).
Implicit Types (s : Server) (c : Client) (sv : Service) (d : Departure).

Lemma departure_of_serialise d : departure_of (serialise d) = d.
Proof. by destruct d. Qed.

Lemma snapshot_serialise s r d : objects s !! r = Some d → snapshot s (serialise d).
Proof. intros Hr. exists r, d. by rewrite departure_of_serialise. Qed.

(** The snapshots read the store only. *)
Lemma snapshot_ext s s' sv : objects s' = objects s → snapshot s sv → snapshot s' sv.
Proof. intros Ho (r & d & Hr & Hg). exists r, d. by rewrite Ho. Qed.

(** A snapshot stays one whatever the server does. *)
Lemma snapshot_handle e s sv :
  snapshot s sv → snapshot (handle STATION metroLines e s) sv.
Proof.
  intros (r & d & Hr & Hg).
  destruct (handle_grows STATION metroLines e s r d Hr) as (d' & Hr' & Hg').
  exists r, d'. split; [done|by etrans].
Qed.

(** An element of the board is an object of the store. *)
Lemma board_elem s plat slots d :
  board s !! plat = Some slots → Some d ∈ slots → ∃ r, objects s !! r = Some d.
Proof.
  unfold board. rewrite lookup_fmap.
  destruct (departures s !! plat) as [a|]; [|done]. intros [= <-].
  intros ([r|] & Hd & _)%list_elem_of_fmap; [|done]. by exists r.
Qed.

Lemma get_window_snapshots s plat l :
  get_window (board s) plat = Ok (Status200 l) → Forall (snapshot s) l.
Proof.
  unfold get_window. destruct (board s !! plat) as [slots|] eqn:Hb; [|done].
  destruct (services (take 3 slots)) as [l'|] eqn:Hl; [|done]. intros [= <-].
  eapply Forall_impl; [by apply services_Ok|].
  intros sv (d & (i & Hd%list_elem_of_lookup_2 & _)%elem_of_take & ->).
  destruct (board_elem s plat slots d Hb Hd) as [r Hr]. by eapply snapshot_serialise.
Qed.

Lemma get_after_snapshot s plat run sv :
  get_after (board s) plat run = Ok (Status200 sv) → snapshot s sv.
Proof.
  unfold get_after. destruct (board s !! plat) as [slots|] eqn:Hb; [|done].
  destruct (after_run run slots) as [[next|]|] eqn:Hnext; [|done..]. intros [= <-].
  apply after_run_Ok in Hnext as (d & Hd & ->).
  destruct (board_elem s plat slots d Hb Hd) as [r Hr]. by eapply snapshot_serialise.
Qed.

End snapshots.

(** ** Lemmas: what the server sends *)

Section sends.
Context (STATION : StationValue) (metroLines : gmap string string).
Implicit Types (s : Server) (c : Client) (sv : Service) (d : Departure).

Lemma sends_refl s c : sends s c c.
Proof. split; [done|by left]. Qed.

Lemma sends_same s cs : Forall2 (sends s) cs cs.
Proof. apply Forall_Forall2_diag, Forall_true, sends_refl. Qed.

Lemma sends_ext s s' c c' : objects s' = objects s → sends s c c' → sends s' c c'.
Proof. unfold sends. by intros ->. Qed.

Lemma announce_sends results s :
  Forall2 (sends s) (clients s) (clients (announce results s)).
Proof.
  unfold announce. simpl. apply Forall2_fmap_r, Forall_Forall2_diag, Forall_true.
  intros c. simpl. case_match eqn:Hservice; [|apply sends_refl].
  apply bind_Some in Hservice as (r & _ & Hr). split; [done|]. right. right.
  by eexists r, _.
Qed.

Lemma fulfilled_sends task s :
  Forall2 (sends s) (clients s) (clients (fulfilled task s)).
Proof.
  unfold fulfilled.
  destruct (store_result_frame task s) as (Ho & _ & Hc & _). rewrite <-Hc.
  eapply Forall2_impl; [|intros c c'; by apply sends_ext].
  generalize (store_result task s). intros s'.
  repeat case_match; try apply sends_same.
  apply (announce_sends _ (with_batches _ s')).
Qed.

Lemma on_pattern_sends t answer s :
  Forall2 (sends (on_pattern STATION t answer s)) (clients s)
    (clients (on_pattern STATION t answer s)).
Proof.
  unfold on_pattern. destruct (mjoin (tasks s !! t)) as [task|]; [|apply sends_same].
  destruct (objects s !! task_dep task) as [dep|]; [|apply sends_same].
  destruct (resume_task _ _ _ _ _) as [[[k|]|e] dep'].
  - apply sends_same.
  - set (s' := with_tasks _ _).
    destruct (fulfilled_frame task s') as (Ho & _).
    eapply Forall2_impl; [apply (fulfilled_sends task s')|].
    intros c c'. by apply sends_ext.
  - set (s' := with_tasks _ _).
    destruct (rejected_frame task e s') as (_ & _ & _ & -> & _). apply sends_same.
Qed.

(** What a turn other than a connection sends. *)
Lemma handle_sends e s :
  (∀ plat, e ≠ Connect plat) →
  Forall2 (sends (handle STATION metroLines e s)) (clients s)
    (clients (handle STATION metroLines e s)).
Proof.
  intros He. destruct e as [plat| |now order|answer now|t answer]; simpl.
  - by destruct (He plat).
  - apply Forall2_fmap_r, Forall_Forall2_diag, Forall_true.
    intros c. split; [done|]. right. by left.
  - destruct (tick_frame_tick now order s) as (_ & _ & _ & _ & _ & ->). apply sends_same.
  - destruct (on_departures_frame metroLines answer now s) as [_ ->]. apply sends_same.
  - apply on_pattern_sends.
Qed.

Lemma sent_snapshots_sends s c c' :
  sends s c c' → sent_snapshots s c → sent_snapshots s c'.
Proof.
  intros [_ [Hs|[Hs|(r & d & Hr & Hs)]]] Hc data; rewrite Hs; [apply Hc|..].
  - intros [?|[=]%list_elem_of_singleton]%elem_of_app. by apply Hc.
  - intros [?|[= ->]%list_elem_of_singleton]%elem_of_app; [by apply Hc|].
    by eapply snapshot_serialise.
Qed.

End sends.

(** ** Lemmas: the moves keep the snapshots *)

Section moves.
Context (zone : Z) (STATION : StationValue) (metroLines : gmap string string).
Implicit Types (s : Server) (c : Client) (sv : Service) (y : System) (m : Move).

(** A turn of a page that brings snapshots keeps the page's services
    snapshots. *)
Lemma on_page_snapshots k i y :
  Forall (snapshot (server y)) (carried i) →
  shows_snapshots y → shows_snapshots (on_page zone k i y).
Proof.
  intros Hi [Hsent Hpages]. split; [done|]. simpl.
  apply Forall_alter; [done|]. intros page _ Hpage.
  apply (react_keeps zone (λ x, snapshot (server y) (item x))); [|done..].
  intros service Hin. by apply (proj1 (Forall_forall _ _) Hi).
Qed.

Lemma server_turn_snapshots e y :
  (∀ plat, e ≠ Connect plat) →
  shows_snapshots y →
  shows_snapshots (mkSystem (handle STATION metroLines e (server y)) (pages y) (delivered y)).
Proof.
  intros He [Hsent Hpages]. split; simpl.
  - pose proof (handle_sends STATION metroLines e (server y) He) as Hs.
    apply (Forall2_Forall_r _ _ _ _ Hs).
    eapply Forall_impl; [exact Hsent|]. intros c Hc c' Hcc'.
    apply (sent_snapshots_sends _ c c' Hcc').
    intros data Hdata. by apply snapshot_handle, Hc.
  - eapply Forall_impl; [exact Hpages|]. intros page Hpage.
    eapply Forall_impl; [exact Hpage|]. intros x. apply snapshot_handle.
Qed.

Lemma move_snapshots m y :
  shows_snapshots y → shows_snapshots (move zone STATION metroLines m y).
Proof.
  intros Hy. pose proof Hy as [Hsent Hpages].
  destruct m as [plat|e|k|k now|k now|k j now]; simpl.
  - destruct (listening (server y)); [|done]. split; simpl.
    + apply Forall_app. split; [done|]. repeat constructor.
      by intros data [=]%list_elem_of_singleton.
    + apply Forall_app. split; [done|]. by repeat constructor.
  - destruct e; [done|by apply server_turn_snapshots..].
  - destruct (clients (server y) !! k) as [c|] eqn:Hc; simpl; [|done].
    destruct (delivered y !! k) as [n|]; simpl; [|done].
    destruct (sent c !! n) as [msg|] eqn:Hmsg; [|done].
    destruct (on_page_snapshots k (WsMessage msg) y) as [_ Hp]; [|done|by split].
    destruct msg as [|data]; simpl; [done|]. repeat constructor.
    apply (Forall_lookup_1 _ _ _ _ Hsent Hc). by eapply list_elem_of_lookup_2.
  - by apply on_page_snapshots.
  - destruct (platform_of y k) as [plat|]; [|done]. apply on_page_snapshots; [|done].
    simpl. destruct (get_window _ _) as [[l|]|] eqn:Hl; simpl; [|done..].
    by eapply get_window_snapshots.
  - destruct (platform_of y k) as [plat|]; [|done].
    destruct (_ ≫= _) as [run|]; [|done]. apply on_page_snapshots; [|done].
    simpl. destruct (get_after _ _ _) as [[sv|]|] eqn:Hsv; simpl; [|done..].
    repeat constructor. by eapply get_after_snapshot.
Qed.

(** The server of a system is a server. *)
Lemma systems_server y :
  systems zone STATION metroLines y → reachable STATION metroLines (server y).
Proof.
  induction 1 as [|y m _ IH Hm]; [apply reachable_boot|].
  destruct m as [plat|e|k|k now|k now|k j now]; simpl; try done.
  - destruct (listening (server y)) eqn:Hl; [|done].
    by apply (reachable_step _ _ _ (Connect plat)).
  - destruct e; [done|by apply reachable_step..].
  - by destruct (_ ≫= _).
  - by destruct (platform_of y k).
  - destruct (platform_of y k); [|done]. by destruct (_ ≫= _).
Qed.

Lemma systems_snapshots y : systems zone STATION metroLines y → shows_snapshots y.
Proof. induction 1; [by split|by apply move_snapshots]. Qed.

End moves.

(** ** Theorems *)

Section theorems.
Context (zone : Z) (STATION : StationValue) (metroLines : gmap string string).

(** C21. Whatever the server, the pages and the network do, every service a
    page holds in [pidData] is a departure object of the server's store:
    it has the [type], [run], [time] and [group] of the object, and the
    [stations], [dest] and [subtitle] it has are assigned in the object. *)
Theorem pages_show_snapshots y k page x :
  systems zone STATION metroLines y →
  pages y !! k = Some page → x ∈ pidData page →
  snapshot (server y) (item x).
Proof.
  intros [_ Hpages]%systems_snapshots Hpage Hx.
  apply (proj1 (Forall_forall _ _) (Forall_lookup_1 _ _ _ _ Hpages Hpage)), Hx.
Qed.

(** C22. A page that has asked for its services and is answered holds the
    window of its platform as the server's board has it at that moment,
    each service with the text of its time, when no service of the window
    is a minute past: the request of [pid.js] and the endpoint of [app.js]
    fit. *)
Theorem fetched_shows_window y k plat p n now l :
  platform_of y k = Some plat → pages y !! k = Some p → fetches p = S n →
  get_window (board (server y)) plat = Ok (Status200 l) →
  Forall (λ sv, (-60000 < sv_time sv - now)%Z) l →
  pidData (page k (move zone STATION metroLines (Fetched k now) y))
  = with_timeText zone <$> l.
Proof.
  intros Hplat Hp Hn Hl Hnow. unfold page, move, on_page. rewrite Hplat, Hl. simpl.
  rewrite list_lookup_alter_eq, Hp. simpl. rewrite Hn. by apply fetchData_ok.
Qed.

End theorems.

(** ** Witnesses and scenarios *)

Lemma systems_moves zone STATION metroLines ms y :
  systems zone STATION metroLines y →
  bool_decide (allowed_moves zone STATION metroLines ms y) = true →
  systems zone STATION metroLines (moves zone STATION metroLines ms y).
Proof.
  intros Hy Hms%bool_decide_eq_true. revert y Hy Hms.
  induction ms as [|m ms IH]; intros y Hy; simpl; [done|].
  intros [Hm Hms]. by apply IH; [apply systems_move|].
Qed.

Lemma systems_demo ms :
  bool_decide (allowed_moves 600 FOOTSCRAY demo_lines ms start) = true →
  systems 600 FOOTSCRAY demo_lines (demo_system ms).
Proof. apply systems_moves, systems_start. Qed.

(** The page shows the first three departures of its platform. *)
Example demo_opened_page :
  server (demo_system demo_installed) = demo_ready ∧
  runs_shown (page 0 (demo_system demo_opened)) = ["A"; "B"; "C"] ∧
  dom_text (dom (page 0 (demo_system demo_opened))) !! "dest" = Some "Flinders Street".
Proof. by vm_compute. Qed.

Lemma pages_show_snapshots_witness :
  Forall (λ x, snapshot (server (demo_system demo_opened)) (item x))
    (pidData (page 0 (demo_system demo_opened))).
Proof.
  apply Forall_forall. intros x Hx.
  apply (pages_show_snapshots 600 FOOTSCRAY demo_lines _ 0 (page 0 (demo_system demo_opened)));
    [by apply systems_demo; vm_compute|by vm_compute|done].
Defined.

Lemma fetched_shows_window_witness :
  pidData (page 0 (move 600 FOOTSCRAY demo_lines (Fetched 0 1000) (demo_system demo_asked)))
  = with_timeText 600 <$> demo_window.
Proof.
  apply (fetched_shows_window 600 FOOTSCRAY demo_lines _ 0 "1"
           (page 0 (demo_system demo_asked)) 0 1000 demo_window);
    try (by vm_compute).
  apply (bool_decide_unpack _). by vm_compute.
Defined.

(** The minute job looks ahead to D and the page is sent it. *)
Example demo_appended :
  let y := demo_system (demo_opened ++
             [ ServerTurn (Minute 70000 ["1"; "2"]);
               ServerTurn (PatternAnswer 4 (Ok (direct "D"))); Deliver 0 ]) in
  runs_shown (page 0 y) = ["A"; "B"; "C"; "D"].
Proof. by vm_compute. Qed.

(** A is a minute past five seconds before the answer for D arrives at the
    server: the page asks for the service after C, is sent D by the minute
    job's callback, and is answered D. *)
Example demo_duplicate :
  let ms := demo_opened ++
              [ ServerTurn (Minute 70000 ["1"; "2"]); PageInterval 0 125000;
                ServerTurn (PatternAnswer 4 (Ok (direct "D"))); Deliver 0;
                Aftered 0 0 126000 ] in
  systems 600 FOOTSCRAY demo_lines (demo_system ms) ∧
  runs_shown (page 0 (demo_system ms)) = ["B"; "C"; "D"; "D"].
Proof. split; [by apply systems_demo; vm_compute|by vm_compute]. Qed.

(** The daily job tells the page to refresh before the new board is there:
    the page fetches the old board, the new one is installed without a
    word, and the page is left with yesterday's departures. *)
Example demo_daily :
  let ms := demo_opened ++
              [ ServerTurn Daily; Deliver 0; Fetched 0 51000;
                ServerTurn (DeparturesAnswer (Ok next_day) 52000);
                ServerTurn (PatternAnswer 4 (Ok (direct "F")));
                ServerTurn (PatternAnswer 5 (Ok (direct "G")));
                ServerTurn (PatternAnswer 6 (Ok (direct "H"))) ] in
  let y := demo_system ms in
  systems 600 FOOTSCRAY demo_lines y ∧
  runs_on "1" (server y) = [Some "F"; Some "G"; Some "H"] ∧
  runs_shown (page 0 y) = ["A"; "B"; "C"] ∧
  delivered y !! 0 = Some (length (sent_to 0 (server y))) ∧ fetches (page 0 y) = 0.
Proof. split; [by apply systems_demo; vm_compute|by vm_compute]. Qed.
